(** * Workflow orchestration engine: a shallow embedding and its properties

    The development embeds the dependency resolver, the execution context,
    the node-executor entry point, the workflow execution service and the
    dynamic endpoint publisher of the backend, and proves properties of
    them.

    Sources embedded:
    - [app/models/workflow_models.py]
    - [app/services/execution/base_executor.py]
    - [app/services/workflow_execution_service.py]
    - [app/services/dynamic_route_service.py]
    - [app/services/execution/executors/logical_connector_executor.py]

    Conventions. Python values of type [Any] are the inductive [value];
    Python [dict]s are insertion-ordered association lists ([PyDict]),
    because the code iterates over them; Python [set]s of node ids are
    [gset string]; raised exceptions are the [Raise] case of the result
    type [res]. Wall-clock times, uuids and echoing to stdout are left
    out: no decision of the embedded code depends on them. *)

From Stdlib Require Import ZArith String Ascii OrdersEx.
From stdpp Require Import gmap strings list sorting pretty.

Local Open Scope string_scope.
Local Open Scope Z_scope.
Local Open Scope list_scope.

(** ** Exceptions and results *)

(** An instance of Python's [Exception]: its class name and [str(e)]. *)
Record exn := Exn { exn_type : string; exn_msg : string }.

(** [repr(s)] of a [str]. The string is put in single quotes, or in
    double quotes when it holds a single quote and no double quote. The
    backslash and the enclosing quote are escaped with a backslash; tab,
    newline and carriage return are written [\t], [\n] and [\r]; any
    other ASCII control character is written [\xNN] with two lower-case
    hexadecimal digits. Characters outside ASCII, given by their UTF-8
    bytes, are left as they are, which is what [repr] does with the
    printable ones. *)
Definition hex_digit (n : nat) : ascii :=
  nth n (list_ascii_of_string "0123456789abcdef") "0"%char.

Definition repr_char (quote c : ascii) : string :=
  if Ascii.eqb c "092"%char || Ascii.eqb c quote then
    String "092"%char (String c "")
  else if Ascii.eqb c "009"%char then String "092"%char "t"
  else if Ascii.eqb c "010"%char then String "092"%char "n"
  else if Ascii.eqb c "013"%char then String "092"%char "r"
  else
    let n := nat_of_ascii c in
    if (n <? 32)%nat || (n =? 127)%nat then
      String "092"%char
        (String "x"%char
           (String (hex_digit (n / 16)) (String (hex_digit (n mod 16)) "")))
    else String c "".

Definition py_repr (s : string) : string :=
  let chars := list_ascii_of_string s in
  let quote :=
    if existsb (Ascii.eqb "039"%char) chars
       && negb (existsb (Ascii.eqb "034"%char) chars)
    then "034"%char else "039"%char in
  String quote
    (fold_right (fun c rest => repr_char quote c +:+ rest) (String quote "")
       chars).

(** [str(KeyError(key))] is the [repr] of the key. *)
Definition KeyError (key : string) : exn :=
  Exn "KeyError" (py_repr key).
Definition ValueError (msg : string) : exn := Exn "ValueError" msg.

(** The outcome of running a piece of code: a value, a raised exception,
    or exhaustion of the fuel that bounds the loops of the embedding. *)
Inductive res (A : Type) : Type :=
| Ok (a : A)
| Raise (e : exn)
| OutOfFuel.
Arguments Ok {A} a.
Arguments Raise {A} e.
Arguments OutOfFuel {A}.

Global Instance res_ret : MRet res := fun A a => Ok a.
Global Instance res_bind : MBind res := fun A B k m =>
  match m with
  | Ok a => k a
  | Raise e => Raise e
  | OutOfFuel => OutOfFuel
  end.

(** ** Insertion-ordered dictionaries *)

Module PyDict.
Section PyDict.
Context {V : Type}.

Fixpoint get (k : string) (d : list (string * V)) : option V :=
  match d with
  | [] => None
  | (k', v) :: d' => if decide (k = k') then Some v else get k d'
  end.

(** [d[k] = v]: an existing key keeps its position, a new key goes last. *)
Fixpoint set (k : string) (v : V) (d : list (string * V)) : list (string * V) :=
  match d with
  | [] => [(k, v)]
  | (k', v') :: d' =>
      if decide (k = k') then (k, v) :: d' else (k', v') :: set k v d'
  end.

Definition keys (d : list (string * V)) : list string := map fst d.

Definition contains (k : string) (d : list (string * V)) : bool :=
  match get k d with Some _ => true | None => false end.

(** [d[k]] as an expression: raises [KeyError] on a missing key. *)
Definition getitem (k : string) (d : list (string * V)) : res V :=
  match get k d with
  | Some v => Ok v
  | None => Raise (KeyError k)
  end.

(** [del d[k]] for a key that is present. *)
Definition delete (k : string) (d : list (string * V)) : list (string * V) :=
  filter (fun kv => kv.1 ≠ k) d.

(** A dict comprehension [{key(x): val(x) for x in l}]. *)
Definition comprehension {A : Type} (key : A -> string) (val : A -> V)
    (l : list A) : list (string * V) :=
  fold_left (fun d x => set (key x) (val x) d) l [].
End PyDict.
End PyDict.

Abbreviation dict V := (list (string * V)).

(** ** Data model ([workflow_models.py]) *)

Inductive NodeType :=
| DOCUMENT | CLAUDE4 | GROQLLAMA | GEMINI | CHATBOT | GRAPHRAG
| EMBEDDINGS | IMAGE | SEARCH | API | VAPI | LOGICAL_CONNECTOR.

Definition NodeType_value (t : NodeType) : string :=
  match t with
  | DOCUMENT => "document" | CLAUDE4 => "claude4" | GROQLLAMA => "groqllama"
  | GEMINI => "gemini" | CHATBOT => "chatbot" | GRAPHRAG => "graphrag"
  | EMBEDDINGS => "embeddings" | IMAGE => "image" | SEARCH => "search"
  | API => "api" | VAPI => "vapi" | LOGICAL_CONNECTOR => "logical_connector"
  end.

Inductive ExecutionStatus := PENDING | RUNNING | COMPLETED | FAILED | SKIPPED.

Inductive LogLevel := DEBUG | INFO | WARNING | ERROR.

Global Instance NodeType_eq_dec : EqDecision NodeType.
Proof. solve_decision. Defined.
Global Instance ExecutionStatus_eq_dec : EqDecision ExecutionStatus.
Proof. solve_decision. Defined.
Global Instance LogLevel_eq_dec : EqDecision LogLevel.
Proof. solve_decision. Defined.

(** [ExecutionLog], over the type of opaque values (timestamp left out). *)
Record ExecutionLog_ (V : Type) := mkLog {
  log_level : LogLevel;
  log_message : string;
  log_node_id : option string;
  log_details : option (dict V)
}.
Arguments mkLog {V}.
Arguments log_level {V}.
Arguments log_message {V}.
Arguments log_node_id {V}.
Arguments log_details {V}.

(** [NodeExecutionResult] ([execution_time_ms] left out). [output_data]
    and [error_message] default to [None]. *)
Record NodeExecutionResult_ (V : Type) := mkResult {
  node_id : string;
  status : ExecutionStatus;
  output_data : V;
  error_message : option string;
  logs : list (ExecutionLog_ V)
}.
Arguments mkResult {V}.
Arguments node_id {V}.
Arguments status {V}.
Arguments output_data {V}.
Arguments error_message {V}.
Arguments logs {V}.

(** Python values as far as the engine looks into them ([VFloat] keeps a
    float as the decimal literal that prints it: no float arithmetic is
    embedded). A node output is any value; the publisher also stores whole
    [NodeExecutionResult] objects where an output is expected
    ([VResult]). *)
#[warnings="-register-all"]
Inductive value :=
| VNone
| VBool (b : bool)
| VInt (z : Z)
| VFloat (literal : string)
| VStr (s : string)
| VList (l : list value)
| VDict (d : dict value)
| VResult (r : NodeExecutionResult_ value).

Abbreviation ExecutionLog := (ExecutionLog_ value).
Abbreviation NodeExecutionResult := (NodeExecutionResult_ value).

Record WorkflowNode := mkNode {
  id : string;
  type : NodeType;
  position : dict value;
  data : dict value;
  config : dict value
}.

Record WorkflowEdge := mkEdge {
  edge_id : string;
  source : string;
  target : string;
  source_handle : option string;
  target_handle : option string
}.

Record WorkflowDefinition := mkWorkflow {
  wf_name : string;
  nodes : list WorkflowNode;
  edges : list WorkflowEdge;
  wf_id : option string;
  wf_description : string
}.

(** ** Python helpers *)

(** Whether the literal of a float is a zero, [0.0] or [-0.0] in any
    spelling: before its exponent it has a digit and no digit but 0.
    ([inf] and [nan] are no zeros.) *)
Fixpoint mantissa (chars : list ascii) : list ascii :=
  match chars with
  | [] => []
  | c :: chars' =>
      if Ascii.eqb c "e"%char || Ascii.eqb c "E"%char then []
      else c :: mantissa chars'
  end.

Definition float_zero (literal : string) : bool :=
  let digits := mantissa (list_ascii_of_string literal) in
  existsb (Ascii.eqb "0"%char) digits
  && forallb
       (fun c =>
          Ascii.eqb c "0"%char || Ascii.eqb c "."%char
          || Ascii.eqb c "-"%char || Ascii.eqb c "+"%char
          || Ascii.eqb c "_"%char) digits.

(** [bool(x)]: the truth value of a Python value. A float is falsy when
    it is zero. *)
Definition truthy (v : value) : bool :=
  match v with
  | VNone => false
  | VBool b => b
  | VInt z => negb (z =? 0)
  | VFloat literal => negb (float_zero literal)
  | VStr s => negb (String.eqb s "")
  | VList l => match l with [] => false | _ => true end
  | VDict d => match d with [] => false | _ => true end
  | VResult _ => true
  end.

(** [l[-n:]]: the last [n] elements. *)
Definition last_n {A : Type} (n : nat) (l : list A) : list A :=
  drop (length l - n) l.

(** [type(x).__name__]. *)
Definition type_name (v : value) : string :=
  match v with
  | VNone => "NoneType"
  | VBool _ => "bool"
  | VInt _ => "int"
  | VFloat _ => "float"
  | VStr _ => "str"
  | VList _ => "list"
  | VDict _ => "dict"
  | VResult _ => "NodeExecutionResult"
  end.

(** [str(type(x))]. *)
Definition type_str (v : value) : string :=
  match v with
  | VResult _ =>
      "<class 'app.models.workflow_models.NodeExecutionResult'>"
  | _ => "<class '" +:+ type_name v +:+ "'>"
  end.

Definition ExecutionStatus_value (s : ExecutionStatus) : string :=
  match s with
  | PENDING => "pending" | RUNNING => "running" | COMPLETED => "completed"
  | FAILED => "failed" | SKIPPED => "skipped"
  end.

(** ** Execution context ([base_executor.py]) *)

Module ExecutionContext.

Record t := mk {
  execution_id : string;
  debug : bool;
  node_results : dict NodeExecutionResult;
  global_variables : dict value;
  workflow_data : dict value;
  logs : list ExecutionLog
}.

(** [ExecutionContext(execution_id, debug)] *)
Definition init (execution_id : string) (debug : bool) : t :=
  mk execution_id debug [] [] [] [].

(** [log]: appends an entry (the echo to stdout under [debug] is not
    part of the state). *)
Definition log (level : LogLevel) (message : string)
    (node_id : option string) (details : option (dict value)) (self : t) : t :=
  mk (execution_id self) (debug self) (node_results self)
     (global_variables self) (workflow_data self)
     (logs self ++ [mkLog level message node_id details]).

Definition get_node_output (self : t) (node_id : string) : value :=
  match PyDict.get node_id (node_results self) with
  | Some result => output_data result
  | None => VNone
  end.

Definition set_node_result (result : NodeExecutionResult) (self : t) : t :=
  mk (execution_id self) (debug self)
     (PyDict.set (node_id result) result (node_results self))
     (global_variables self) (workflow_data self) (logs self).

Definition set_variable (key : string) (v : value) (self : t) : t :=
  mk (execution_id self) (debug self) (node_results self)
     (PyDict.set key v (global_variables self)) (workflow_data self)
     (logs self).

Definition get_variable (self : t) (key : string) (default : value) : value :=
  match PyDict.get key (global_variables self) with
  | Some v => v
  | None => default
  end.

Definition set_workflow_data (key : string) (v : value) (self : t) : t :=
  mk (execution_id self) (debug self) (node_results self)
     (global_variables self) (PyDict.set key v (workflow_data self))
     (logs self).

Definition get_workflow_data (self : t) (key : option string)
    (default : value) : value :=
  match key with
  | None => VDict (workflow_data self)
  | Some k =>
      match PyDict.get k (workflow_data self) with
      | Some v => v
      | None => default
      end
  end.

End ExecutionContext.

(** ** Node executor contract ([base_executor.py]) *)

(** The two abstract methods of [BaseNodeExecutor] and its [node_type]
    attribute. A method either returns or raises; [_execute_impl] may
    write to the context before doing either. *)
Record NodeExecutor := mkExecutor {
  node_type : string;
  validate_config : dict value -> exn + bool;
  _execute_impl :
    WorkflowNode -> ExecutionContext.t -> value ->
    ExecutionContext.t * (exn + value)
}.

Module BaseNodeExecutor.
Section BaseNodeExecutor.

(** [str(x)] of an arbitrary value, as used inside log messages. *)
Variable py_str : value -> string.

(** The body of the [try] block of [execute]. *)
Definition execute_try (self : NodeExecutor) (node : WorkflowNode)
    (context : ExecutionContext.t) (input_data : value)
    : ExecutionContext.t * (exn + NodeExecutionResult) :=
  match validate_config self (config node) with
  | inl e => (context, inl e)
  | inr false =>
      (context,
       inl (ValueError
         ("Invalid configuration for " +:+ node_type self +:+ " node")))
  | inr true =>
      match _execute_impl self node context input_data with
      | (context, inl e) => (context, inl e)
      | (context, inr output_data) =>
          let context :=
            ExecutionContext.log INFO
              ("Successfully completed " +:+ node_type self +:+ " node")
              (Some (id node))
              (Some [("output_type", VStr (type_str output_data))])
              context in
          (context,
           inr (mkResult (id node) COMPLETED output_data None
                  (last_n 10 (ExecutionContext.logs context))))
      end
  end.

(** The statements of [execute] before its [try] block: the entries
    logged on entry. *)
Definition log_start (self : NodeExecutor) (node : WorkflowNode)
    (context : ExecutionContext.t) (input_data : value)
    : ExecutionContext.t :=
  let context :=
    ExecutionContext.log INFO
      ("Starting execution of " +:+ node_type self +:+ " node")
      (Some (id node)) None context in
  let context :=
    ExecutionContext.log DEBUG
      ("Node config: " +:+ py_str (VDict (config node)))
      (Some (id node)) (Some [("config", VDict (config node))]) context in
  match input_data with
  | VNone => context
  | _ =>
      ExecutionContext.log DEBUG
        ("Input data type: " +:+ type_str input_data)
        (Some (id node))
        (Some [("input_type", VStr (type_str input_data))]) context
  end.

Definition execute (self : NodeExecutor) (node : WorkflowNode)
    (context : ExecutionContext.t) (input_data : value)
    : ExecutionContext.t * (exn + NodeExecutionResult) :=
  let context := log_start self node context input_data in
  match execute_try self node context input_data with
  | (context, inr result) => (context, inr result)
  | (context, inl e) =>
      let error_msg := exn_msg e in
      let context :=
        ExecutionContext.log ERROR
          ("Failed to execute " +:+ node_type self +:+ " node: "
             +:+ error_msg)
          (Some (id node)) (Some [("error", VStr error_msg)]) context in
      (context,
       inr (mkResult (id node) FAILED VNone (Some error_msg)
              (last_n 10 (ExecutionContext.logs context))))
  end.

End BaseNodeExecutor.
End BaseNodeExecutor.

(** ** Lexicographic order on node ids

    [list.sort()] on a list of [str] orders by code point; on the UTF-8
    bytes of [string] this is the byte-wise lexicographic order. *)

Definition str_le (a b : string) : Prop := String.leb a b = true.

Global Instance str_le_dec : RelDecision str_le.
Proof. intros a b. unfold str_le. apply _. Defined.

(** [queue.sort()]. *)
Definition sort_ids (l : list string) : list string := merge_sort str_le l.

(** ** Dependency resolver ([workflow_execution_service.py]) *)

Module WorkflowExecutionService.

(** [for edge in edges: graph[edge.source].append(edge.target);
    in_degree[edge.target] += 1] *)
Fixpoint build_graph (edges : list WorkflowEdge)
    (graph : dict (list string)) (in_degree : dict Z)
    : res (dict (list string) * dict Z) :=
  match edges with
  | [] => Ok (graph, in_degree)
  | edge :: edges' =>
      succs ← PyDict.getitem (source edge) graph;
      let graph := PyDict.set (source edge) (succs ++ [target edge]) graph in
      deg ← PyDict.getitem (target edge) in_degree;
      let in_degree := PyDict.set (target edge) (deg + 1) in_degree in
      build_graph edges' graph in_degree
  end.

(** [for neighbor in graph[current]: in_degree[neighbor] -= 1;
    if in_degree[neighbor] == 0: queue.append(neighbor)] *)
Fixpoint update_neighbors (neighbors : list string)
    (in_degree : dict Z) (queue : list string)
    : res (dict Z * list string) :=
  match neighbors with
  | [] => Ok (in_degree, queue)
  | neighbor :: neighbors' =>
      deg ← PyDict.getitem neighbor in_degree;
      let in_degree := PyDict.set neighbor (deg - 1) in_degree in
      let queue :=
        if decide (deg - 1 = 0) then queue ++ [neighbor] else queue in
      update_neighbors neighbors' in_degree queue
  end.

(** The [while queue:] loop of Kahn's algorithm. *)
Fixpoint kahn_loop (fuel : nat) (graph : dict (list string))
    (node_map : dict WorkflowNode) (in_degree : dict Z)
    (queue : list string) (result : list WorkflowNode)
    : res (list WorkflowNode) :=
  match fuel with
  | O => OutOfFuel
  | S fuel' =>
      match queue with
      | [] => Ok result
      | _ :: _ =>
          match sort_ids queue with
          | [] => Raise (Exn "IndexError" "pop from empty list")
          | current :: queue' =>
              node ← PyDict.getitem current node_map;
              neighbors ← PyDict.getitem current graph;
              '(in_degree', queue'') ←
                 update_neighbors neighbors in_degree queue';
              kahn_loop fuel' graph node_map in_degree' queue''
                (result ++ [node])
          end
      end
  end.

Definition _topological_sort (nodes : list WorkflowNode)
    (edges : list WorkflowEdge) : res (list WorkflowNode) :=
  let graph := PyDict.comprehension id (fun _ => @nil string) nodes in
  let in_degree := PyDict.comprehension id (fun _ => 0) nodes in
  let node_map := PyDict.comprehension id (fun node => node) nodes in
  '(graph, in_degree) ← build_graph edges graph in_degree;
  let queue :=
    map fst (filter (fun item => item.2 = 0) in_degree) in
  result ← kahn_loop (S (length nodes)) graph node_map in_degree queue [];
  if decide (length result ≠ length nodes)
  then Raise (ValueError
    "Workflow contains cycles - cannot determine execution order")
  else Ok result.

(** *** Cycle detection *)

(** The three colour sets of [_has_cycles]. *)
Record colors := mkColors {
  white : gset string;
  gray : gset string;
  black : gset string
}.

(** [for edge in edges: graph[edge.source].append(edge.target)] *)
Fixpoint build_adjacency (edges : list WorkflowEdge)
    (graph : dict (list string)) : res (dict (list string)) :=
  match edges with
  | [] => Ok graph
  | edge :: edges' =>
      succs ← PyDict.getitem (source edge) graph;
      build_adjacency edges'
        (PyDict.set (source edge) (succs ++ [target edge]) graph)
  end.

(** [for neighbor in graph[node_id]: if dfs(neighbor): return True],
    over the recursive call [dfs]; the boolean tells whether the loop
    left through [return True]. *)
Fixpoint visit_neighbors (dfs : string -> colors -> res (bool * colors))
    (neighbors : list string) (c : colors) : res (bool * colors) :=
  match neighbors with
  | [] => Ok (false, c)
  | neighbor :: neighbors' =>
      '(found, c') ← dfs neighbor c;
      if found : bool then Ok (true, c')
      else visit_neighbors dfs neighbors' c'
  end.

(** The inner function [dfs]; [fuel] bounds the recursion depth. *)
Fixpoint dfs (fuel : nat) (graph : dict (list string)) (node_id : string)
    (c : colors) : res (bool * colors) :=
  match fuel with
  | O => OutOfFuel
  | S fuel' =>
      if decide (node_id ∈ gray c) then Ok (true, c)
      else if decide (node_id ∈ black c) then Ok (false, c)
      else if decide (node_id ∈ white c) then
        let c := mkColors (white c ∖ {[node_id]}) (gray c ∪ {[node_id]})
                   (black c) in
        neighbors ← PyDict.getitem node_id graph;
        '(found, c) ← visit_neighbors (dfs fuel' graph) neighbors c;
        if found : bool then Ok (true, c)
        else if decide (node_id ∈ gray c) then
          Ok (false,
              mkColors (white c) (gray c ∖ {[node_id]})
                (black c ∪ {[node_id]}))
        else Raise (KeyError node_id)
      else Raise (KeyError node_id)
  end.

Section has_cycles.

(** [next(iter(white))]: which element of a set comes first is up to the
    interpreter. *)
Variable pick : gset string -> string.

(** [while white: if dfs(next(iter(white))): return True] *)
Fixpoint has_cycles_loop (fuel : nat) (graph : dict (list string))
    (c : colors) : res bool :=
  match fuel with
  | O => OutOfFuel
  | S fuel' =>
      if decide (white c = ∅) then Ok false
      else
        '(found, c') ← dfs (S (size (white c))) graph (pick (white c)) c;
        if found : bool then Ok true
        else has_cycles_loop fuel' graph c'
  end.

Definition _has_cycles (nodes : list WorkflowNode)
    (edges : list WorkflowEdge) : res bool :=
  graph ← build_adjacency edges
             (PyDict.comprehension id (fun _ => @nil string) nodes);
  let white : gset string := list_to_set (map id nodes) in
  has_cycles_loop (S (size white)) graph (mkColors white ∅ ∅).

End has_cycles.

(** *** Node input and node execution *)

Section execution.

Variable py_str : value -> string.

(** [ExecutorFactory.get_executor]: the executor of a node type; building
    it may raise. *)
Variable get_executor : NodeType -> exn + NodeExecutor.

(** [inputs = {}; for edge in input_edges: inputs[edge.source] = ...] *)
Fixpoint collect_inputs (input_edges : list WorkflowEdge)
    (context : ExecutionContext.t) (inputs : dict value) : dict value :=
  match input_edges with
  | [] => inputs
  | edge :: input_edges' =>
      let source_output :=
        ExecutionContext.get_node_output context (source edge) in
      collect_inputs input_edges' context
        (PyDict.set (source edge) source_output inputs)
  end.

Definition _get_node_input_data (node : WorkflowNode)
    (edges : list WorkflowEdge) (context : ExecutionContext.t)
    (initial_input : value) : value * ExecutionContext.t :=
  let input_edges :=
    filter (fun edge => target edge = id node) edges in
  match input_edges with
  | [] =>
      let context :=
        ExecutionContext.log DEBUG
          ("Node " +:+ id node
             +:+ " has no input connections, using initial input")
          (Some (id node)) None context in
      (initial_input, context)
  | [edge] =>
      let source_id := source edge in
      let output := ExecutionContext.get_node_output context source_id in
      let context :=
        ExecutionContext.log DEBUG
          ("Node " +:+ id node +:+ " receiving input from " +:+ source_id)
          (Some (id node)) None context in
      (output, context)
  | _ =>
      let context :=
        ExecutionContext.log DEBUG
          ("Node " +:+ id node +:+ " receiving input from "
             +:+ pretty (length input_edges) +:+ " sources")
          (Some (id node)) None context in
      (VDict (collect_inputs input_edges context []), context)
  end.

Definition _execute_node (node : WorkflowNode)
    (context : ExecutionContext.t) (input_data : value)
    : NodeExecutionResult * ExecutionContext.t :=
  let attempt :=
    match get_executor (type node) with
    | inl e => (context, inl e)
    | inr executor =>
        BaseNodeExecutor.execute py_str executor node context input_data
    end in
  match attempt with
  | (context, inr result) => (result, context)
  | (context, inl e) =>
      let context :=
        ExecutionContext.log ERROR
          ("Node execution failed: " +:+ exn_msg e) (Some (id node)) None
          context in
      (mkResult (id node) FAILED VNone (Some (exn_msg e))
         (last_n 5 (ExecutionContext.logs context)),
       context)
  end.

End execution.

(** *** Validation and the run of a workflow *)

Record WorkflowExecutionRequest := mkRequest {
  workflow : WorkflowDefinition;
  input_data : value;
  request_debug : bool;
  frontend_api_keys : option (dict string)
}.

Record WorkflowExecutionResult := mkWorkflowResult {
  result_execution_id : string;
  workflow_id : option string;
  result_status : ExecutionStatus;
  node_results : list NodeExecutionResult;
  final_output : value;
  result_logs : list ExecutionLog;
  errors : list string
}.

(** [sub in s] on strings. *)
Definition str_contains (sub s : string) : bool :=
  match String.index 0 sub s with Some _ => true | None => false end.

Section run.

Variable py_str : value -> string.
Variable get_executor : NodeType -> exn + NodeExecutor.
Variable pick : gset string -> string.

(** [_validate_graphrag_nodes]: the errors reported for graph-query nodes
    by probing their database connections, an external service. *)
Variable _validate_graphrag_nodes :
  WorkflowDefinition -> ExecutionContext.t ->
  list string * ExecutionContext.t.

(** The loop over edges of [_validate_workflow]. *)
Fixpoint check_edge_references (nodes : list WorkflowNode)
    (edges : list WorkflowEdge) (errors : list string) : list string :=
  match edges with
  | [] => errors
  | edge :: edges' =>
      let source_exists :=
        existsb (fun node => bool_decide (id node = source edge)) nodes in
      let target_exists :=
        existsb (fun node => bool_decide (id node = target edge)) nodes in
      let errors :=
        if source_exists then errors
        else errors ++
          ["Edge references non-existent source node: " +:+ source edge] in
      let errors :=
        if target_exists then errors
        else errors ++
          ["Edge references non-existent target node: " +:+ target edge] in
      check_edge_references nodes edges' errors
  end.

(** The loop over nodes of [_validate_workflow]: only warnings. *)
Fixpoint check_node_configs (nodes : list WorkflowNode)
    (context : ExecutionContext.t) : ExecutionContext.t :=
  match nodes with
  | [] => context
  | node :: nodes' =>
      let attempt :=
        match get_executor (type node) with
        | inl e => inl e
        | inr executor => validate_config executor (config node)
        end in
      let context :=
        match attempt with
        | inr true => context
        | inr false =>
            ExecutionContext.log WARNING
              ("Node " +:+ id node +:+ " (" +:+ NodeType_value (type node)
                 +:+ ") has incomplete configuration. "
                 +:+ "Using default/dummy values where needed.")
              None None context
        | inl e =>
            ExecutionContext.log WARNING
              ("Could not validate node " +:+ id node +:+ " ("
                 +:+ NodeType_value (type node) +:+ "): " +:+ exn_msg e
                 +:+ ". Node will use fallback behavior.")
              None None context
        end in
      check_node_configs nodes' context
  end.

(** The loop over the errors of the graph-query nodes. *)
Fixpoint sort_graphrag_errors (graphrag_errors : list string)
    (errors : list string) (context : ExecutionContext.t)
    : list string * ExecutionContext.t :=
  match graphrag_errors with
  | [] => (errors, context)
  | error :: rest =>
      if str_contains "not connected to a database" error then
        sort_graphrag_errors rest errors
          (ExecutionContext.log WARNING
             (error +:+ " Node will use in-memory processing with dummy data.")
             None None context)
      else sort_graphrag_errors rest (errors ++ [error]) context
  end.

Definition _validate_workflow (workflow : WorkflowDefinition)
    (context : ExecutionContext.t) : res (list string) * ExecutionContext.t :=
  match nodes workflow with
  | [] => (Ok ["Workflow has no nodes"], context)
  | _ =>
      let node_ids := map id (nodes workflow) in
      let errors :=
        if decide (length node_ids ≠ size (list_to_set node_ids : gset string))
        then ["Duplicate node IDs found"] else [] in
      let errors :=
        check_edge_references (nodes workflow) (edges workflow) errors in
      match _has_cycles pick (nodes workflow) (edges workflow) with
      | Raise e => (Raise e, context)
      | OutOfFuel => (OutOfFuel, context)
      | Ok cyclic =>
          let errors :=
            if cyclic then errors ++ ["Workflow contains cycles"]
            else errors in
          let context := check_node_configs (nodes workflow) context in
          let '(graphrag_errors, context) :=
            _validate_graphrag_nodes workflow context in
          let '(errors, context) :=
            sort_graphrag_errors graphrag_errors errors context in
          let context :=
            ExecutionContext.log DEBUG
              ("Workflow validation found " +:+ pretty (length errors)
                 +:+ " errors") None None context in
          (Ok errors, context)
      end
  end.

(** The loop [for i, node in enumerate(execution_order)] of
    [execute_workflow]. *)
Fixpoint execute_nodes (execution_order : list WorkflowNode) (i : nat)
    (total_nodes : nat) (request : WorkflowExecutionRequest)
    (context : ExecutionContext.t) (node_results : list NodeExecutionResult)
    : list NodeExecutionResult * ExecutionContext.t :=
  match execution_order with
  | [] => (node_results, context)
  | node :: execution_order' =>
      let context :=
        ExecutionContext.log INFO
          ("Executing node " +:+ pretty (S i) +:+ "/"
             +:+ pretty total_nodes +:+ ": " +:+ id node +:+ " ("
             +:+ NodeType_value (type node) +:+ ")") None None context in
      let '(input_data, context) :=
        _get_node_input_data node (edges (workflow request)) context
          (input_data request) in
      let '(result, context) :=
        _execute_node py_str get_executor node context input_data in
      let node_results := node_results ++ [result] in
      let context := ExecutionContext.set_node_result result context in
      let context :=
        if decide (status result = COMPLETED) then
          ExecutionContext.log INFO
            ("Node " +:+ id node +:+ " completed successfully")
            None None context
        else
          ExecutionContext.log ERROR
            ("Node " +:+ id node +:+ " failed: "
               +:+ default "None" (error_message result))
            None None context in
      execute_nodes execution_order' (S i) total_nodes request context
        node_results
  end.

(** [final_output] as [execute_workflow] selects it. *)
Definition select_final_output (node_results : list NodeExecutionResult)
    : value :=
  match node_results with
  | [] => VNone
  | _ =>
      let successful_results :=
        filter (fun r => status r = COMPLETED) (reverse node_results) in
      match successful_results with
      | r :: _ => output_data r
      | [] => VNone
      end
  end.

(** The [try] block of [execute_workflow]. *)
Definition execute_workflow_try (execution_id : string)
    (request : WorkflowExecutionRequest) (context : ExecutionContext.t)
    : res WorkflowExecutionResult * ExecutionContext.t :=
  let context :=
    ExecutionContext.log INFO "Validating workflow structure" None None
      context in
  match _validate_workflow (workflow request) context with
  | (Raise e, context) => (Raise e, context)
  | (OutOfFuel, context) => (OutOfFuel, context)
  | (Ok ((_ :: _) as validation_errors), context) =>
      (Raise (ValueError ("Workflow validation failed: "
                +:+ String.concat "; " validation_errors)), context)
  | (Ok [], context) =>
      let context :=
        ExecutionContext.log INFO "Computing execution order" None None
          context in
      match _topological_sort (nodes (workflow request))
              (edges (workflow request)) with
      | Raise e => (Raise e, context)
      | OutOfFuel => (OutOfFuel, context)
      | Ok execution_order =>
          let context :=
            ExecutionContext.log INFO
              ("Execution order: "
                 +:+ py_str (VList (map (fun node => VStr (id node))
                                      execution_order)))
              None None context in
          let '(node_results, context) :=
            execute_nodes execution_order 0 (length execution_order)
              request context [] in
          let failed_nodes :=
            filter (fun r => status r = FAILED) node_results in
          let final_status :=
            match failed_nodes with [] => COMPLETED | _ => FAILED end in
          let final_output := select_final_output node_results in
          let result :=
            mkWorkflowResult execution_id (wf_id (workflow request))
              final_status node_results final_output
              (ExecutionContext.logs context)
              (omap (fun r =>
                       match error_message r with
                       | Some m => if String.eqb m "" then None else Some m
                       | None => None
                       end) failed_nodes) in
          let context :=
            ExecutionContext.log INFO
              ("Workflow execution completed with status: "
                 +:+ ExecutionStatus_value final_status) None None context in
          (Ok result, context)
      end
  end.

(** [execute_workflow]; [execution_id] is the fresh uuid of the run. The
    bookkeeping of [active_executions] and of the network monitor, and
    the log line that only reports the elapsed time, are left out. *)
Definition execute_workflow (execution_id : string)
    (request : WorkflowExecutionRequest) : res WorkflowExecutionResult :=
  let context := ExecutionContext.init execution_id (request_debug request) in
  let context :=
    match frontend_api_keys request with
    | Some ((_ :: _) as keys) =>
        let context :=
          ExecutionContext.set_workflow_data "frontend_api_keys"
            (VDict (map (fun kv => (kv.1, VStr kv.2)) keys)) context in
        ExecutionContext.log INFO
          ("Frontend API keys available: "
             +:+ py_str (VList (map (fun kv => VStr kv.1) keys)))
          None None context
    | _ => context
    end in
  let context :=
    ExecutionContext.log INFO
      ("Starting workflow execution: " +:+ wf_name (workflow request))
      None None context in
  match execute_workflow_try execution_id request context with
  | (Ok result, _) => Ok result
  | (OutOfFuel, _) => OutOfFuel
  | (Raise e, context) =>
      let error_msg := exn_msg e in
      let context :=
        ExecutionContext.log ERROR
          ("Workflow execution failed: " +:+ error_msg) None None context in
      Ok (mkWorkflowResult execution_id (wf_id (workflow request)) FAILED
            [] VNone (ExecutionContext.logs context) [error_msg])
  end.

End run.

End WorkflowExecutionService.

(** ** Dynamic endpoint publisher ([dynamic_route_service.py]) *)

Module DynamicRouteService.

(** Node objects are shared, not copied: the service keeps the node list
    it was handed, and the handlers close over the node objects. A node
    object is a cell of a store, a reference to it an index. *)
Abbreviation node_ref := nat.
Abbreviation store := (gmap nat WorkflowNode).

(** Dereferencing; a reference to no object does not arise in Python, the
    embedding raises for it. *)
Definition deref (heap : store) (r : node_ref) : res WorkflowNode :=
  match heap !! r with
  | Some node => Ok node
  | None => Raise (Exn "ReferenceError" "no such node object")
  end.

(** What a registered handler closes over. *)
Inductive Handler :=
| ai_completion_handler (node : node_ref)
| graphrag_query_handler (node : node_ref)
| status_handler (node : node_ref)
| deployment_health_handler (deployment_id : string)
| workflow_execute_handler (deployment_id : string)
| workflow_stream_handler (deployment_id : string).

(** A route of a router or of the application (the summary and the
    response model, which only feed the generated documentation, are
    left out). *)
Record Route := mkRoute {
  route_method : string;
  route_path : string;
  route_handler : Handler
}.

Record APIRouter := mkRouter {
  prefix : string;
  routes : list Route
}.

(** [router.get(path)(handler)], [router.post(path)(handler)] *)
Definition add_route (method path : string) (handler : Handler)
    (router : APIRouter) : APIRouter :=
  mkRouter (prefix router)
    (routes router ++ [mkRoute method (prefix router +:+ path) handler]).

Record EndpointInfo := mkEndpoint {
  method : string;
  path : string;
  description : string;
  url : string
}.

Record DeploymentInfo := mkDeployment {
  router : APIRouter;
  direct_router : APIRouter;
  endpoints : list EndpointInfo;
  deployed_nodes : list node_ref;
  deployed_edges : list WorkflowEdge
}.

(** The service object: the application it registers routes with, the
    registry of deployments and the custom AI configurations. *)
Record t := mk {
  app : list Route;
  registered_routes : dict DeploymentInfo;
  custom_ai_configs : dict (dict value)
}.

(** [DynamicRouteService(app)] *)
Definition init (app : list Route) : t := mk app [] [].

Definition is_ai_type (ty : NodeType) : bool :=
  bool_decide (ty ∈ [GROQLLAMA; CLAUDE4; GEMINI; CHATBOT]).

Section routes.

Variable py_str : value -> string.
Variable get_executor : NodeType -> exn + NodeExecutor.

(** [node.data.get('label', node.type)] inside an f-string. *)
Definition label_or_type (node : WorkflowNode) : string :=
  match PyDict.get "label" (data node) with
  | Some v => py_str v
  | None => NodeType_value (type node)
  end.

Definition _create_node_endpoints (r : node_ref) (node : WorkflowNode)
    (router : APIRouter) (url_prefix : string)
    : list EndpointInfo * APIRouter :=
  let node_path := "/nodes/" +:+ id node in
  let '(endpoints, router) :=
    if is_ai_type (type node) then
      ([mkEndpoint "POST" (url_prefix +:+ node_path +:+ "/completion")
          ("Generate AI completion using " +:+ label_or_type node)
          ("http://localhost:8000" +:+ url_prefix +:+ node_path
             +:+ "/completion")],
       add_route "POST" (node_path +:+ "/completion")
         (ai_completion_handler r) router)
    else if decide (type node = GRAPHRAG) then
      ([mkEndpoint "POST" (url_prefix +:+ node_path +:+ "/query")
          ("Query GraphRAG using " +:+ label_or_type node)
          ("http://localhost:8000" +:+ url_prefix +:+ node_path
             +:+ "/query")],
       add_route "POST" (node_path +:+ "/query")
         (graphrag_query_handler r) router)
    else ([], router) in
  let router :=
    add_route "GET" (node_path +:+ "/status") (status_handler r) router in
  (endpoints ++
     [mkEndpoint "GET" (url_prefix +:+ node_path +:+ "/status")
        ("Get status of " +:+ label_or_type node)
        ("http://localhost:8000" +:+ url_prefix +:+ node_path +:+ "/status")],
   router).

Definition _create_workflow_endpoints (router : APIRouter)
    (deployment_id : string) : list EndpointInfo * APIRouter :=
  let base := "http://localhost:8000/api/deployed/" +:+ deployment_id in
  let router :=
    add_route "GET" "/health" (deployment_health_handler deployment_id)
      router in
  let endpoints :=
    [mkEndpoint "GET" "/health"
       "Check if deployment is healthy and responsive" (base +:+ "/health")] in
  let router :=
    add_route "POST" "/execute" (workflow_execute_handler deployment_id)
      router in
  let router :=
    add_route "POST" "/execute-stream"
      (workflow_stream_handler deployment_id) router in
  let endpoints := endpoints ++
    [mkEndpoint "POST" "/execute"
       "Execute the entire workflow with automatic data flow between nodes"
       (base +:+ "/execute")] in
  let endpoints := endpoints ++
    [mkEndpoint "POST" "/execute-stream"
       "Execute workflow with real-time progress streaming"
       (base +:+ "/execute-stream")] in
  (endpoints, router).

(** The loop [for node in workflow_nodes] of
    [generate_routes_from_workflow]. *)
Fixpoint create_all_node_endpoints (heap : store)
    (workflow_nodes : list node_ref) (deployment_id : string)
    (deployment_router direct_router : APIRouter)
    (endpoints : list EndpointInfo)
    : res (list EndpointInfo * APIRouter * APIRouter) :=
  match workflow_nodes with
  | [] => Ok (endpoints, deployment_router, direct_router)
  | r :: workflow_nodes' =>
      node ← deref heap r;
      let '(node_endpoints_deployment, deployment_router) :=
        _create_node_endpoints r node deployment_router
          ("/api/deployed/" +:+ deployment_id) in
      let endpoints := endpoints ++ node_endpoints_deployment in
      let '(node_endpoints_direct, direct_router) :=
        _create_node_endpoints r node direct_router "" in
      let endpoints := endpoints ++ node_endpoints_direct in
      create_all_node_endpoints heap workflow_nodes' deployment_id
        deployment_router direct_router endpoints
  end.

Definition generate_routes_from_workflow (self : t) (heap : store)
    (workflow_nodes : list node_ref) (workflow_edges : list WorkflowEdge)
    (deployment_id : string) : res (list EndpointInfo * t) :=
  let deployment_router :=
    mkRouter ("/api/deployed/" +:+ deployment_id) [] in
  let direct_router := mkRouter "" [] in
  '(endpoints, deployment_router, direct_router) ←
    create_all_node_endpoints heap workflow_nodes deployment_id
      deployment_router direct_router [];
  let '(workflow_endpoints, deployment_router) :=
    _create_workflow_endpoints deployment_router deployment_id in
  let endpoints := endpoints ++ workflow_endpoints in
  let app :=
    (app self ++ routes deployment_router) ++ routes direct_router in
  Ok (endpoints,
      mk app
        (PyDict.set deployment_id
           (mkDeployment deployment_router direct_router endpoints
              workflow_nodes workflow_edges)
           (registered_routes self))
        (custom_ai_configs self)).

(** *** AI configuration management *)

Definition ai_default (model system_prompt user_prompt : string)
    : dict value :=
  [("model", VStr model); ("temperature", VFloat "0.7");
   ("max_tokens", VInt 1000); ("system_prompt", VStr system_prompt);
   ("user_prompt", VStr user_prompt)].

Definition _get_default_config (self : t) (node_type : NodeType)
    : dict value :=
  let node_type_str := NodeType_value node_type in
  match PyDict.get node_type_str (custom_ai_configs self) with
  | Some custom => custom
  | None =>
      let ai_configs : dict (dict value) :=
        [("groqllama",
          ai_default "llama3-70b-8192"
            "You are a helpful AI assistant that processes information."
            "Please analyze and respond to the following:");
         ("claude4",
          ai_default "claude-3-haiku-20240307"
            "You are Claude, a helpful AI assistant."
            "Please provide a thoughtful response to:");
         ("gemini",
          ai_default "gemini-1.5-flash"
            "You are Gemini, a helpful AI assistant."
            "Please analyze and respond to:");
         ("chatbot",
          ai_default "gpt-4o" "You are a helpful AI chatbot."
            "Please respond to:")] in
      if decide (node_type_str = "graphrag") then
        [("operation", VStr "query"); ("extract_entities", VBool true);
         ("extract_relationships", VBool true); ("max_results", VInt 10)]
      else default [] (PyDict.get node_type_str ai_configs)
  end.

Definition update_ai_node_config (self : t) (node_type : string)
    (config : dict value) : dict value * t :=
  let valid_types := ["groqllama"; "claude4"; "gemini"; "chatbot"; "graphrag"] in
  if negb (bool_decide (node_type ∈ valid_types)) then
    ([("success", VBool false);
      ("message",
       VStr ("Invalid node type. Valid types: "
               +:+ py_str (VList (map VStr valid_types))))], self)
  else
    let required_fields :=
      ["model"; "temperature"; "max_tokens"; "system_prompt"; "user_prompt"] in
    let missing_fields :=
      if bool_decide (node_type ∈ ["groqllama"; "claude4"; "gemini"; "chatbot"])
      then filter (fun field => PyDict.contains field config = false)
             required_fields
      else [] in
    match missing_fields with
    | _ :: _ =>
        ([("success", VBool false);
          ("message",
           VStr ("Missing required fields: "
                   +:+ py_str (VList (map VStr missing_fields))))], self)
    | [] =>
        ([("success", VBool true);
          ("message",
           VStr ("Configuration updated successfully for " +:+ node_type));
          ("config", VDict config)],
         mk (app self) (registered_routes self)
           (PyDict.set node_type config (custom_ai_configs self)))
    end.

End routes.

(** *** Execution graph *)

Record ExecutionGraph := mkGraph {
  graph_nodes : dict node_ref;
  dependencies : dict (list string);
  dependents : dict (list string);
  start_nodes : list string;
  end_nodes : list string;
  graph_edges : list WorkflowEdge
}.

(** [for edge in edges: if source_id and target_id:
    dependencies[target_id].append(source_id);
    dependents[source_id].append(target_id)]. The edges of a deployment
    are [WorkflowEdge] objects, read through [getattr]. *)
Fixpoint link_edges (edges : list WorkflowEdge)
    (dependencies dependents : dict (list string))
    : res (dict (list string) * dict (list string)) :=
  match edges with
  | [] => Ok (dependencies, dependents)
  | edge :: edges' =>
      let source_id := source edge in
      let target_id := target edge in
      if negb (String.eqb source_id "") && negb (String.eqb target_id "")
      then
        deps ← PyDict.getitem target_id dependencies;
        let dependencies :=
          PyDict.set target_id (deps ++ [source_id]) dependencies in
        succs ← PyDict.getitem source_id dependents;
        let dependents :=
          PyDict.set source_id (succs ++ [target_id]) dependents in
        link_edges edges' dependencies dependents
      else link_edges edges' dependencies dependents
  end.

(** The node objects behind a list of references. *)
Fixpoint deref_all (heap : store) (nodes : list node_ref)
    : res (list (node_ref * WorkflowNode)) :=
  match nodes with
  | [] => Ok []
  | r :: nodes' =>
      node ← deref heap r;
      rest ← deref_all heap nodes';
      Ok ((r, node) :: rest)
  end.

Definition _build_execution_graph (self : t) (heap : store)
    (nodes : list node_ref) (deployment_id : string) : res ExecutionGraph :=
  let edges :=
    match PyDict.get deployment_id (registered_routes self) with
    | Some deployment_info => deployed_edges deployment_info
    | None => []
    end in
  objs ← deref_all heap nodes;
  let node_map :=
    PyDict.comprehension (fun o => id o.2) (fun o => o.1) objs in
  let dependencies :=
    PyDict.comprehension (fun o => id o.2) (fun _ => @nil string) objs in
  let dependents :=
    PyDict.comprehension (fun o => id o.2) (fun _ => @nil string) objs in
  '(dependencies, dependents) ← link_edges edges dependencies dependents;
  let start_nodes :=
    map fst (filter (fun item => item.2 = []) dependencies) in
  let end_nodes :=
    map fst (filter (fun item => item.2 = []) dependents) in
  Ok (mkGraph node_map dependencies dependents start_nodes end_nodes edges).

(** *** Input of a node in the chaining loop *)

(** The inner function [extract_output_data]: an object with an
    [output_data] attribute is unwrapped. *)
Definition extract_output_data (output : value) : value :=
  match output with
  | VResult r => output_data r
  | _ => output
  end.

(** [node_outputs.get(key)] *)
Definition outputs_get (key : string) (node_outputs : dict value) : value :=
  default VNone (PyDict.get key node_outputs).

Definition _prepare_node_input (node_id : string)
    (dependency_ids : list string) (node_outputs : dict value)
    (initial_input : value) : value :=
  match dependency_ids with
  | [] => initial_input
  | [dep_id] => extract_output_data (outputs_get dep_id node_outputs)
  | _ =>
      VDict
        [("dependency_outputs",
          VDict
            (PyDict.comprehension (fun dep_id => dep_id)
               (fun dep_id =>
                  extract_output_data (outputs_get dep_id node_outputs))
               dependency_ids));
         ("initial_input", initial_input)]
  end.

(** *** Execution of one node of a deployment *)

Section single_node.

Variable py_str : value -> string.
Variable get_executor : NodeType -> exn + NodeExecutor.

(** The dict returned in place of a result when the execution raised
    (the streaming variant adds the elapsed time and the traceback). *)
Definition error_info (e : exn) (node : WorkflowNode) : value :=
  VDict [("error", VBool true); ("error_message", VStr (exn_msg e));
         ("node_id", VStr (id node));
         ("node_type", VStr (NodeType_value (type node)))].

(** [if hasattr(node, 'config') and not node.config:
    node.config = self._get_default_config(node.type)]: the assignment
    changes the node object itself. *)
Definition apply_default_config (self : t) (heap : store) (r : node_ref)
    (node : WorkflowNode) : WorkflowNode * store :=
  match config node with
  | [] =>
      let node :=
        mkNode (id node) (type node) (position node) (data node)
          (_get_default_config self (type node)) in
      (node, <[r := node]> heap)
  | _ => (node, heap)
  end.

Definition _execute_single_node (self : t) (heap : store) (r : node_ref)
    (input_data : value) (parameters : dict value) (deployment_id : string)
    (position : string) : res (value * store) :=
  node ← deref heap r;
  match get_executor (type node) with
  | inl e => Ok (error_info e node, heap)
  | inr executor =>
      let context :=
        ExecutionContext.init (deployment_id +:+ "_" +:+ id node) true in
      let '(node, heap) := apply_default_config self heap r node in
      match BaseNodeExecutor.execute py_str executor node context
              input_data with
      | (_, inr result) => Ok (VResult result, heap)
      | (_, inl e) => Ok (error_info e node, heap)
      end
  end.

Definition _execute_single_node_streaming (self : t) (heap : store)
    (r : node_ref) (input_data : value) (parameters : dict value)
    (deployment_id : string) (position : string) : res (value * store) :=
  node ← deref heap r;
  let '(node, heap) := apply_default_config self heap r node in
  match get_executor (type node) with
  | inl e => Ok (error_info e node, heap)
  | inr executor =>
      let context :=
        ExecutionContext.init (deployment_id +:+ "_" +:+ id node) true in
      match BaseNodeExecutor.execute py_str executor node context
              input_data with
      | (_, inr result) => Ok (VResult result, heap)
      | (_, inl e) => Ok (error_info e node, heap)
      end
  end.

End single_node.

(** *** The chaining loop

    [_execute_workflow_chain] and [_execute_workflow_chain_streaming]
    run the same loop, the second one over
    [_execute_single_node_streaming] and yielding progress events on the
    way; one definition over the single-node function embeds both. *)

Record ChainState := mkChain {
  executed_nodes : gset string;
  node_outputs : dict value;
  execution_order : list string
}.

Section chain.

(** The single-node function: node object, input, position, store. *)
Variable execute_one :
  node_ref -> value -> string -> store -> res (value * store).

Definition record_output (node_id : string) (result : value)
    (st : ChainState) : ChainState :=
  mkChain (executed_nodes st ∪ {[node_id]})
    (PyDict.set node_id result (node_outputs st))
    (execution_order st ++ [node_id]).

(** [for start_node_id in start_nodes] *)
Fixpoint run_start_nodes (todo : list string) (g : ExecutionGraph)
    (initial_input : value) (heap : store) (st : ChainState)
    : res (ChainState * store) :=
  match todo with
  | [] => Ok (st, heap)
  | start_node_id :: todo' =>
      r ← PyDict.getitem start_node_id (graph_nodes g);
      '(result, heap) ← execute_one r initial_input "START" heap;
      run_start_nodes todo' g initial_input heap
        (record_output start_node_id result st)
  end.

(** The scan [for node_id, deps in dependencies.items()] for the nodes
    that are ready. *)
Definition ready_nodes (g : ExecutionGraph) (st : ChainState)
    : list string :=
  map fst
    (filter
       (fun item =>
          (item.1 ∉ executed_nodes st)
          ∧ Forall (fun dep_id => dep_id ∈ executed_nodes st) item.2)
       (dependencies g)).

(** [for node_id in ready_nodes] *)
Fixpoint run_ready_nodes (ready : list string) (g : ExecutionGraph)
    (initial_input : value) (heap : store) (st : ChainState)
    : res (ChainState * store) :=
  match ready with
  | [] => Ok (st, heap)
  | node_id :: ready' =>
      deps ← PyDict.getitem node_id (dependencies g);
      let node_input :=
        _prepare_node_input node_id deps (node_outputs st) initial_input in
      r ← PyDict.getitem node_id (graph_nodes g);
      '(result, heap) ←
        execute_one r node_input
          ("CHAIN-" +:+ pretty (S (length (execution_order st)))) heap;
      run_ready_nodes ready' g initial_input heap
        (record_output node_id result st)
  end.

(** [while len(executed_nodes) < len(nodes)] *)
Fixpoint run_remaining (fuel : nat) (g : ExecutionGraph)
    (initial_input : value) (heap : store) (st : ChainState)
    : res (ChainState * store) :=
  match fuel with
  | O => OutOfFuel
  | S fuel' =>
      if decide (size (executed_nodes st) < length (graph_nodes g))%nat then
        match ready_nodes g st with
        | [] => Ok (st, heap)
        | (_ :: _) as ready =>
            '(st, heap) ← run_ready_nodes ready g initial_input heap st;
            run_remaining fuel' g initial_input heap st
        end
      else Ok (st, heap)
  end.

Definition run_chain (g : ExecutionGraph) (initial_input : value)
    (heap : store) : res (ChainState * store) :=
  '(st, heap) ←
    run_start_nodes (start_nodes g) g initial_input heap (mkChain ∅ [] []);
  run_remaining (S (length (graph_nodes g))) g initial_input heap st.

End chain.

(** What the chaining functions return; [nodes_executed] is
    [list(executed_nodes)], a list in no particular order. *)
Record ChainResult := mkChainResult {
  nodes_executed : gset string;
  result_execution_order : list string;
  final_output : value;
  result_node_outputs : dict value
}.

(** [isinstance(output, dict) and output.get('error')] *)
Definition is_error_output (output : value) : bool :=
  match output with
  | VDict d => truthy (default VNone (PyDict.get "error" d))
  | _ => false
  end.

Fixpoint _serialize_node_output (output : value) : value :=
  match output with
  | VNone => VNone
  | VResult r => _serialize_node_output (output_data r)
  | VDict d =>
      if is_error_output output then output
      else VDict (map (fun kv => (kv.1, _serialize_node_output kv.2)) d)
  | _ => output
  end.

(** [final_output['content']] for a dict with that key, when the final
    output is truthy. *)
Definition content_of (final_output : value) : option value :=
  if truthy final_output then
    match final_output with
    | VDict d => PyDict.get "content" d
    | _ => None
    end
  else None.

Section handlers.

Variable py_str : value -> string.
Variable get_executor : NodeType -> exn + NodeExecutor.

Definition _execute_workflow_chain (self : t) (heap : store)
    (execution_graph : ExecutionGraph) (initial_input : value)
    (parameters : dict value) (deployment_id : string)
    : res (ChainResult * store) :=
  '(st, heap) ←
    run_chain
      (fun r input position heap =>
         _execute_single_node py_str get_executor self heap r input
           parameters deployment_id position)
      execution_graph initial_input heap;
  let final_output :=
    match end_nodes execution_graph, execution_order st with
    | _ :: _, _ =>
        outputs_get (List.last (end_nodes execution_graph) "")
          (node_outputs st)
    | [], _ :: _ =>
        outputs_get (List.last (execution_order st) "") (node_outputs st)
    | [], [] => VNone
    end in
  Ok (mkChainResult (executed_nodes st) (execution_order st) final_output
        (node_outputs st), heap).

(** [for x in reversed(ids): if x in node_outputs and not (error):
    final_output = node_outputs[x]; break] *)
Definition last_without_error (ids : list string)
    (node_outputs : dict value) : value :=
  match
    List.find
      (fun node_id =>
         match PyDict.get node_id node_outputs with
         | Some output => negb (is_error_output output)
         | None => false
         end)
      (reverse ids)
  with
  | Some node_id => outputs_get node_id node_outputs
  | None => VNone
  end.

(** The final [workflow_complete] event of
    [_execute_workflow_chain_streaming]: [final_output] and
    [node_outputs] are the serialized ones. *)
Definition _execute_workflow_chain_streaming (self : t) (heap : store)
    (execution_graph : ExecutionGraph) (initial_input : value)
    (parameters : dict value) (deployment_id : string)
    : res (ChainResult * store) :=
  '(st, heap) ←
    run_chain
      (fun r input position heap =>
         _execute_single_node_streaming py_str get_executor self heap r
           input parameters deployment_id position)
      execution_graph initial_input heap;
  let final_output :=
    last_without_error (end_nodes execution_graph) (node_outputs st) in
  let final_output :=
    match final_output with
    | VNone => last_without_error (execution_order st) (node_outputs st)
    | _ => final_output
    end in
  let serialized_node_outputs :=
    PyDict.comprehension (fun kv : string * value => kv.1)
      (fun kv => _serialize_node_output kv.2) (node_outputs st) in
  let serialized_final_output :=
    match content_of final_output with
    | Some content => content
    | None =>
        if truthy final_output then _serialize_node_output final_output
        else VNone
    end in
  Ok (mkChainResult (executed_nodes st) (execution_order st)
        serialized_final_output serialized_node_outputs, heap).

(** *** Handlers *)

Record NodeExecutionRequest := mkNodeRequest {
  request_input_data : value;
  request_parameters : dict value
}.

(** What a route answers. *)
Inductive Response :=
| NodeExecutionResponse (success : bool) (node_id node_type : string)
    (output_data : value) (message : string)
| StatusResponse (body : dict value)
| HealthResponse (deployment_id : string)
| WorkflowResponse (deployment_id : string) (result : ChainResult)
    (message : string)
| StreamComplete (result : ChainResult)
| StreamError (message : string).

(** The handlers of the completion and the query routes, which differ
    in the prefix of the execution id and in their messages. *)
Definition node_action_handler (heap : store) (r : node_ref)
    (id_prefix ok_message failed_message : string)
    (request : NodeExecutionRequest) : res Response :=
  node ← deref heap r;
  let attempt :=
    match get_executor (type node) with
    | inl e => inl e
    | inr executor =>
        let context :=
          ExecutionContext.init (id_prefix +:+ id node) true in
        (BaseNodeExecutor.execute py_str executor node context
           (request_input_data request)).2
    end in
  match attempt with
  | inr result =>
      Ok (NodeExecutionResponse true (id node) (NodeType_value (type node))
            (VResult result) (ok_message +:+ label_or_type py_str node))
  | inl e =>
      Ok (NodeExecutionResponse false (id node) (NodeType_value (type node))
            VNone (failed_message +:+ exn_msg e))
  end.

(** The run of the handler of a route on a request. *)
Definition invoke (self : t) (heap : store) (handler : Handler)
    (request : NodeExecutionRequest) : res (Response * store) :=
  match handler with
  | ai_completion_handler r =>
      response ← node_action_handler heap r "ai_" "Successfully executed "
                    "Execution failed: " request;
      Ok (response, heap)
  | graphrag_query_handler r =>
      response ← node_action_handler heap r "graphrag_"
                    "Successfully executed GraphRAG query using "
                    "GraphRAG query failed: " request;
      Ok (response, heap)
  | status_handler r =>
      node ← deref heap r;
      Ok (StatusResponse
            [("node_id", VStr (id node));
             ("node_type", VStr (NodeType_value (type node)));
             ("label",
              default (VStr "Unknown") (PyDict.get "label" (data node)));
             ("description",
              default (VStr "") (PyDict.get "description" (data node)));
             ("status", VStr "healthy");
             ("config", VDict (config node));
             ("position", VDict (position node))], heap)
  | deployment_health_handler deployment_id =>
      Ok (HealthResponse deployment_id, heap)
  | workflow_execute_handler deployment_id =>
      match PyDict.get deployment_id (registered_routes self) with
      | None =>
          Raise (Exn "HTTPException"
                   ("Deployment " +:+ deployment_id +:+ " not found"))
      | Some deployment_info =>
          let nodes := deployed_nodes deployment_info in
          execution_graph ←
            _build_execution_graph self heap nodes deployment_id;
          '(workflow_result, heap) ←
            _execute_workflow_chain self heap execution_graph
              (request_input_data request) (request_parameters request)
              deployment_id;
          let final_output := final_output workflow_result in
          let processed_final_output :=
            default final_output (content_of final_output) in
          Ok (WorkflowResponse deployment_id
                (mkChainResult (nodes_executed workflow_result)
                   (result_execution_order workflow_result)
                   processed_final_output
                   (result_node_outputs workflow_result))
                ("Workflow executed successfully with "
                   +:+ pretty (size (nodes_executed workflow_result))
                   +:+ " nodes"),
              heap)
      end
  | workflow_stream_handler deployment_id =>
      match PyDict.get deployment_id (registered_routes self) with
      | None =>
          Ok (StreamError ("Deployment " +:+ deployment_id +:+ " not found"),
              heap)
      | Some deployment_info =>
          let nodes := deployed_nodes deployment_info in
          match
            execution_graph ←
              _build_execution_graph self heap nodes deployment_id;
            _execute_workflow_chain_streaming self heap execution_graph
              (request_input_data request) (request_parameters request)
              deployment_id
          with
          | Ok (result, heap) => Ok (StreamComplete result, heap)
          | Raise e => Ok (StreamError (exn_msg e), heap)
          | OutOfFuel => OutOfFuel
          end
      end
  end.

End handlers.

(** *** Queries on the registry and on the AI configurations *)

Definition get_deployment_info (self : t) (deployment_id : string)
    : option DeploymentInfo :=
  PyDict.get deployment_id (registered_routes self).

(** [list_deployments] (the creation time of a deployment is left
    out). *)
Definition list_deployments (self : t) : dict value :=
  [("deployments",
    VDict
      (PyDict.comprehension
         (fun item : string * DeploymentInfo => item.1)
         (fun item =>
            VDict
              [("endpoint_count",
                VInt (Z.of_nat (length (endpoints item.2))));
               ("node_count",
                VInt (Z.of_nat (length (deployed_nodes item.2))))])
         (registered_routes self)));
   ("total_deployments",
    VInt (Z.of_nat (length (registered_routes self))))].

(** [_get_default_config] called with a [str], as
    [get_ai_node_config] and [reset_ai_node_config] do. *)
Definition _get_default_config_of_name (self : t) (node_type_str : string)
    : dict value :=
  match PyDict.get node_type_str (custom_ai_configs self) with
  | Some custom => custom
  | None =>
      let ai_configs : dict (dict value) :=
        [("groqllama",
          ai_default "llama3-70b-8192"
            "You are a helpful AI assistant that processes information."
            "Please analyze and respond to the following:");
         ("claude4",
          ai_default "claude-3-haiku-20240307"
            "You are Claude, a helpful AI assistant."
            "Please provide a thoughtful response to:");
         ("gemini",
          ai_default "gemini-1.5-flash"
            "You are Gemini, a helpful AI assistant."
            "Please analyze and respond to:");
         ("chatbot",
          ai_default "gpt-4o" "You are a helpful AI chatbot."
            "Please respond to:")] in
      if decide (node_type_str = "graphrag") then
        [("operation", VStr "query"); ("extract_entities", VBool true);
         ("extract_relationships", VBool true); ("max_results", VInt 10)]
      else default [] (PyDict.get node_type_str ai_configs)
  end.

Definition get_ai_node_config (self : t) (node_type : string) : dict value :=
  match PyDict.get node_type (custom_ai_configs self) with
  | Some custom => custom
  | None => _get_default_config_of_name self node_type
  end.

Definition get_all_ai_node_configs (self : t) : dict (dict value) :=
  let node_types := ["groqllama"; "claude4"; "gemini"; "chatbot"; "graphrag"] in
  PyDict.comprehension (fun node_type => node_type)
    (get_ai_node_config self) node_types.

Definition reset_ai_node_config (self : t) (node_type : string)
    : dict value * t :=
  let self :=
    if PyDict.contains node_type (custom_ai_configs self) then
      mk (app self) (registered_routes self)
        (PyDict.delete node_type (custom_ai_configs self))
    else self in
  let default_config := _get_default_config_of_name self node_type in
  ([("success", VBool true);
    ("message",
     VStr ("Configuration reset to defaults for " +:+ node_type));
    ("config", VDict default_config)], self).

End DynamicRouteService.

(** ** Logical connector executor ([logical_connector_executor.py]) *)

Module LogicalConnectorExecutor.
Section LogicalConnectorExecutor.

(** [str.lower], [str.upper] and [str.strip], which work on Unicode
    code points, and the test [value != 0] of a float, kept as its
    literal. *)
Variable py_lower py_upper py_strip : string -> string.
Variable float_is_zero : string -> bool.

(** [str(b)] of a [bool]. *)
Definition bool_str (b : bool) : string := if b then "True" else "False".

(** [_is_truthy]. A list or a dict has [__len__] and is judged by its
    length: the branch further down that looks into a dict for
    [success], [status] and [error] is never reached. A result object is
    none of the kinds listed and takes the default. *)
Definition _is_truthy (v : value) : bool :=
  match v with
  | VNone => false
  | VBool b => b
  | VInt z => negb (z =? 0)
  | VFloat literal => negb (float_is_zero literal)
  | VStr s =>
      if String.eqb s "" then false
      else
        negb (bool_decide
                (py_strip (py_lower s)
                 ∈ ["false"; "no"; "off"; "0"; "null"; "undefined"; "none";
                    ""]))
  | VList l => match l with [] => false | _ => true end
  | VDict d => match d with [] => false | _ => true end
  | VResult _ => true
  end.

Definition _extract_inputs (input_data : value)
    (context : ExecutionContext.t) (node_id : string)
    : list value * ExecutionContext.t :=
  match input_data with
  | VNone => ([], context)
  | VDict d =>
      (map snd d,
       ExecutionContext.log DEBUG
         ("Processing dictionary input with " +:+ pretty (length d)
            +:+ " keys") (Some node_id) None context)
  | VList l =>
      (l,
       ExecutionContext.log DEBUG
         ("Processing list input with " +:+ pretty (length l) +:+ " items")
         (Some node_id) None context)
  | _ =>
      ([input_data],
       ExecutionContext.log DEBUG "Processing single input value"
         (Some node_id) None context)
  end.

(** The loop of [_perform_and_operation], with its [break]. *)
Fixpoint and_loop (inputs : list value) (i : nat) (result : bool)
    (context : ExecutionContext.t) (node_id : string)
    : bool * ExecutionContext.t :=
  match inputs with
  | [] => (result, context)
  | inp :: inputs' =>
      let is_truthy := _is_truthy inp in
      let context :=
        ExecutionContext.log DEBUG
          ("Input " +:+ pretty (S i) +:+ ": " +:+ type_name inp +:+ " -> "
             +:+ bool_str is_truthy) (Some node_id) None context in
      let result := result && is_truthy in
      if negb result then
        (result,
         ExecutionContext.log DEBUG
           ("AND operation short-circuited at input " +:+ pretty (S i))
           (Some node_id) None context)
      else and_loop inputs' (S i) result context node_id
  end.

Definition _perform_and_operation (inputs : list value)
    (context : ExecutionContext.t) (node_id : string)
    : bool * ExecutionContext.t :=
  match inputs with
  | [] => (false, context)
  | _ => and_loop inputs 0 true context node_id
  end.

(** The loop of [_perform_or_operation], with its [break]. *)
Fixpoint or_loop (inputs : list value) (i : nat) (result : bool)
    (context : ExecutionContext.t) (node_id : string)
    : bool * ExecutionContext.t :=
  match inputs with
  | [] => (result, context)
  | inp :: inputs' =>
      let is_truthy := _is_truthy inp in
      let context :=
        ExecutionContext.log DEBUG
          ("Input " +:+ pretty (S i) +:+ ": " +:+ type_name inp +:+ " -> "
             +:+ bool_str is_truthy) (Some node_id) None context in
      let result := result || is_truthy in
      if result then
        (result,
         ExecutionContext.log DEBUG
           ("OR operation short-circuited at input " +:+ pretty (S i))
           (Some node_id) None context)
      else or_loop inputs' (S i) result context node_id
  end.

Definition _perform_or_operation (inputs : list value)
    (context : ExecutionContext.t) (node_id : string)
    : bool * ExecutionContext.t :=
  match inputs with
  | [] => (false, context)
  | _ => or_loop inputs 0 false context node_id
  end.

(** [config.get("operation", LogicalOperation.AND).lower()]: the default
    is the string "and"; a value that is no string has no [lower]. *)
Definition operation_of (config : dict value) : exn + string :=
  match PyDict.get "operation" config with
  | None => inr (py_lower "and")
  | Some (VStr s) => inr (py_lower s)
  | Some v =>
      inl (Exn "AttributeError"
             ("'" +:+ type_name v +:+ "' object has no attribute 'lower'"))
  end.

Definition _execute_impl (node : WorkflowNode) (context : ExecutionContext.t)
    (input_data : value) : ExecutionContext.t * (exn + value) :=
  match operation_of (config node) with
  | inl e => (context, inl e)
  | inr operation =>
      let context :=
        ExecutionContext.log INFO
          ("Executing logical " +:+ py_upper operation +:+ " operation")
          (Some (id node)) None context in
      let context :=
        ExecutionContext.log DEBUG
          ("Input data type: " +:+ type_str input_data) (Some (id node))
          None context in
      let '(inputs, context) := _extract_inputs input_data context (id node) in
      match inputs with
      | [] =>
          let context :=
            ExecutionContext.log WARNING
              "No inputs provided for logical operation" (Some (id node))
              None context in
          (context,
           inr (VDict [("operation", VStr operation); ("inputs", VList []);
                       ("result", VBool false);
                       ("message", VStr "No inputs provided")]))
      | _ =>
          let context :=
            ExecutionContext.log DEBUG
              ("Processing " +:+ pretty (length inputs) +:+ " inputs")
              (Some (id node)) None context in
          let performed :=
            if String.eqb operation "and" then
              inr (_perform_and_operation inputs context (id node))
            else if String.eqb operation "or" then
              inr (_perform_or_operation inputs context (id node))
            else
              inl (ValueError
                     ("Unsupported logical operation: " +:+ operation)) in
          match performed with
          | inl e => (context, inl e)
          | inr (result, context) =>
              let output :=
                VDict
                  [("operation", VStr operation); ("inputs", VList inputs);
                   ("result", VBool result);
                   ("input_count", VInt (Z.of_nat (length inputs)));
                   ("truthy_count",
                    VInt (Z.of_nat
                            (length (filter (fun inp => _is_truthy inp = true)
                                       inputs))));
                   ("falsy_count",
                    VInt (Z.of_nat
                            (length (filter (fun inp => _is_truthy inp = false)
                                       inputs))))] in
              let context :=
                ExecutionContext.log INFO
                  ("Logical " +:+ py_upper operation +:+ " result: "
                     +:+ bool_str result) (Some (id node))
                  (Some [("input_count", VInt (Z.of_nat (length inputs)));
                         ("result", VBool result)]) context in
              (context, inr output)
          end
      end
  end.

(** [validate_config]: the operation, "and" when absent, must be one of
    the two enum members or the strings "and" and "or", which are all
    equal to one of these two strings. *)
Definition validate_config (config : dict value) : bool :=
  match PyDict.get "operation" config with
  | None => true
  | Some (VStr s) => bool_decide (s ∈ ["and"; "or"])
  | Some _ => false
  end.

(** The executor object; its [node_type] is the class name without
    "Executor", in lower case. *)
Definition executor : NodeExecutor :=
  mkExecutor "logicalconnector" (fun config => inr (validate_config config))
    _execute_impl.

End LogicalConnectorExecutor.
End LogicalConnectorExecutor.

(** * Specification vocabulary *)

Import WorkflowExecutionService.

(** A dictionary that lists the keys [ks] in order and maps [k] to [f k]. *)
Definition tab {V : Type} (ks : list string) (f : string -> V) : dict V :=
  map (fun k => (k, f k)) ks.

(** There is an edge from [u] to [v]. *)
Definition edge_rel (edges : list WorkflowEdge) (u v : string) : Prop :=
  exists e, e ∈ edges /\ source e = u /\ target e = v.

(** No node reaches itself along one or more edges. *)
Definition acyclic (edges : list WorkflowEdge) : Prop :=
  forall x, ~ tc (edge_rel edges) x x.

(** Both ends of every edge are among [ids]. *)
Definition edges_over (ids : list string) (edges : list WorkflowEdge) : Prop :=
  forall e, e ∈ edges -> source e ∈ ids /\ target e ∈ ids.

(** The targets of the edges that leave [u], in the order of the edges. *)
Definition succs_of (edges : list WorkflowEdge) (u : string) : list string :=
  map target (filter (fun e => source e = u) edges).

(** The number of edges into [v] whose source is not in [done]. *)
Definition indeg (edges : list WorkflowEdge) (done : list string)
    (v : string) : nat :=
  length (filter (fun e => target e = v /\ source e ∉ done) edges).

(** The number of occurrences of [v] in [l]. *)
Definition occ (v : string) (l : list string) : nat :=
  length (filter (fun x => x = v) l).

(** Every node of [done] comes after all its predecessors and, when it
    was emitted, had the smallest id among the nodes whose predecessors
    had all been emitted. *)
Definition order_ok (ids : list string) (edges : list WorkflowEdge)
    (done : list string) : Prop :=
  forall l1 v l2, done = l1 ++ v :: l2 ->
    (forall e, e ∈ edges -> target e = v -> source e ∈ l1)
    /\ (forall m, m ∈ ids -> m ∉ l1 ->
          (forall e, e ∈ edges -> target e = m -> source e ∈ l1) ->
          str_le v m).

(** The invariant of the loop of [_topological_sort]: [result] holds the
    nodes with the ids [done]; the ids emitted and queued are distinct
    node ids; the queue holds exactly the nodes not yet emitted whose
    predecessors have all been emitted; and [done] is in order. *)
Definition kahn_inv (nodes : list WorkflowNode) (edges : list WorkflowEdge)
    (done queue : list string) (result : list WorkflowNode) : Prop :=
  map id result = done
  /\ (forall n, n ∈ result -> n ∈ nodes)
  /\ NoDup (done ++ queue)
  /\ (forall v, v ∈ done ++ queue -> v ∈ map id nodes)
  /\ (forall v, v ∈ map id nodes ->
        (v ∈ queue <-> (v ∉ done) /\ indeg edges done v = 0%nat))
  /\ order_ok (map id nodes) edges done.

(** [u] occurs before [v] in [l]. *)
Definition precedes (u v : string) (l : list string) : Prop :=
  exists l1 l2 l3, l = l1 ++ u :: l2 ++ v :: l3.

(** The invariant of the three colour sets: they partition the node ids,
    the black set is closed under edges, and no black node lies on a
    cycle. *)
Definition colors_inv (V : gset string) (edges : list WorkflowEdge)
    (c : colors) : Prop :=
  white c ∪ gray c ∪ black c = V
  /\ white c ## gray c /\ white c ## black c /\ gray c ## black c
  /\ (forall b v, b ∈ black c -> edge_rel edges b v -> v ∈ black c)
  /\ (forall b, b ∈ black c -> ~ tc (edge_rel edges) b b).

(** A node and an edge with nothing but their ids. *)
Definition plain_node (i : string) (ty : NodeType) : WorkflowNode :=
  mkNode i ty [] [] [].

Definition plain_edge (s t : string) : WorkflowEdge :=
  mkEdge (s +:+ "->" +:+ t) s t None None.

(** An interpreter that takes the first element of a set in the order
    of [elements]. *)
Definition pick_first (s : gset string) : string :=
  default "" (head (elements s)).

(** The position [0] or [1] of the two ids of the workflow [a -> b]. *)
Definition rank_ab (v : string) : nat :=
  if decide (v = "a") then 0%nat else 1%nat.

(** A result that is not the exhaustion of the fuel. *)
Definition returns {A : Type} (r : res A) : Prop :=
  match r with
  | OutOfFuel => False
  | _ => True
  end.

(** The white set is disjoint from the two others. *)
Definition white_apart (c : colors) : Prop :=
  white c ## gray c /\ white c ## black c.

(** The final output as the specification words it: the output of the
    last result, in execution order, of a completed node without outgoing
    edges; failing that, of the last completed node; failing that,
    [None]. *)
Definition is_sink (edges : list WorkflowEdge) (nid : string) : Prop :=
  Forall (fun e => source e ≠ nid) edges.

Definition final_output_with_sinks (edges : list WorkflowEdge)
    (node_results : list NodeExecutionResult) : value :=
  match
    filter (fun r => status r = COMPLETED /\ is_sink edges (node_id r))
      (reverse node_results)
  with
  | r :: _ => output_data r
  | [] =>
      match filter (fun r => status r = COMPLETED) (reverse node_results) with
      | r :: _ => output_data r
      | [] => VNone
      end
  end.

(** The output of the last completed result. *)
Definition last_completed_output (node_results : list NodeExecutionResult)
    : value :=
  match filter (fun r => status r = COMPLETED) (reverse node_results) with
  | r :: _ => output_data r
  | [] => VNone
  end.

(** Test doubles: a [str] that prints nothing, an executor that returns
    the id of its node or raises for the listed ids, a factory that
    serves it for every node type, and a graph-query validation that
    reports nothing. *)
Definition str_blank (v : value) : string := "".

Definition echo_executor (failing : list string) : NodeExecutor :=
  mkExecutor "echo" (fun _ => inr true)
    (fun node context _ =>
       (context,
        if decide (id node ∈ failing) then inl (Exn "RuntimeError" "boom")
        else inr (VStr (id node)))).

Definition echo_factory (failing : list string)
    : NodeType -> exn + NodeExecutor :=
  fun _ => inr (echo_executor failing).

Definition no_graphrag_errors (w : WorkflowDefinition)
    (context : ExecutionContext.t) : list string * ExecutionContext.t :=
  ([], context).

(** The workflow [a], [b -> c]: [a] and [c] have no outgoing edge. *)
Definition request_a_bc : WorkflowExecutionRequest :=
  mkRequest
    (mkWorkflow "w"
       [plain_node "a" DOCUMENT; plain_node "b" DOCUMENT;
        plain_node "c" DOCUMENT]
       [plain_edge "b" "c"] None "")
    VNone false None.

(** Two completed results, of [b] and of [c], as the context of a run and
    as the outputs table of a deployment hold them. *)
Definition result_of (nid out : string) : NodeExecutionResult :=
  mkResult nid COMPLETED (VStr out) None [].

Definition context_bc : ExecutionContext.t :=
  ExecutionContext.set_node_result (result_of "c" "oc")
    (ExecutionContext.set_node_result (result_of "b" "ob")
       (ExecutionContext.init "run" false)).

Definition outputs_bc : dict value :=
  [("b", VResult (result_of "b" "ob")); ("c", VResult (result_of "c" "oc"))].

(** The three kinds of routes. *)
Definition is_status_route (r : DynamicRouteService.Route) : bool :=
  match DynamicRouteService.route_handler r with
  | DynamicRouteService.status_handler _ => true
  | _ => false
  end.

Definition is_action_route (r : DynamicRouteService.Route) : bool :=
  match DynamicRouteService.route_handler r with
  | DynamicRouteService.ai_completion_handler _
  | DynamicRouteService.graphrag_query_handler _ => true
  | _ => false
  end.

Definition is_workflow_route (r : DynamicRouteService.Route) : bool :=
  match DynamicRouteService.route_handler r with
  | DynamicRouteService.deployment_health_handler _
  | DynamicRouteService.workflow_execute_handler _
  | DynamicRouteService.workflow_stream_handler _ => true
  | _ => false
  end.

Definition count_routes (kind : DynamicRouteService.Route -> bool)
    (rs : list DynamicRouteService.Route) : nat :=
  length (List.filter kind rs).

Definition route_paths (rs : list DynamicRouteService.Route)
    : list (string * string) :=
  map (fun r => (DynamicRouteService.route_method r,
                 DynamicRouteService.route_path r)) rs.

(** A store with a model-completion node and a document node. *)
Definition store_ai_doc : DynamicRouteService.store :=
  <[0%nat := plain_node "ai-1" CLAUDE4]>
    (<[1%nat := plain_node "doc-1" DOCUMENT]> ∅).

(** The service after deploying the node objects [refs] of [heap] with
    [edges] under the id [dep]. *)
Definition deployed (heap : DynamicRouteService.store) (refs : list nat)
    (edges : list WorkflowEdge) : DynamicRouteService.t :=
  match
    DynamicRouteService.generate_routes_from_workflow str_blank
      (DynamicRouteService.init []) heap refs edges "dep"
  with
  | Ok (_, self) => self
  | _ => DynamicRouteService.init []
  end.

Definition empty_request : DynamicRouteService.NodeExecutionRequest :=
  DynamicRouteService.mkNodeRequest VNone [].

(** The nodes [a], [b], [c] with the edges [b -> b] and [b -> c]: [a] and
    [c] have no dependents, and neither [b] nor [c] ever becomes ready. *)
Definition store_stall : DynamicRouteService.store :=
  <[0%nat := plain_node "a" DOCUMENT]>
    (<[1%nat := plain_node "b" DOCUMENT]>
       (<[2%nat := plain_node "c" DOCUMENT]> ∅)).

Definition edges_stall : list WorkflowEdge :=
  [plain_edge "b" "b"; plain_edge "b" "c"].

(** The nodes [a] and [z] without edges, and a factory that cannot build
    the executor of the type of [z]. *)
Definition store_az : DynamicRouteService.store :=
  <[0%nat := plain_node "a" DOCUMENT]>
    (<[1%nat := plain_node "z" VAPI]> ∅).

Definition factory_without_vapi (ty : NodeType) : exn + NodeExecutor :=
  if decide (ty = VAPI) then inl (Exn "RuntimeError" "no executor")
  else inr (echo_executor []).

(** The final output of a response of a workflow route. *)
Definition response_final_output (r : res (DynamicRouteService.Response
                                           * DynamicRouteService.store))
    : option value :=
  match r with
  | Ok (DynamicRouteService.WorkflowResponse _ result _, _)
  | Ok (DynamicRouteService.StreamComplete result, _) =>
      Some (DynamicRouteService.final_output result)
  | _ => None
  end.

(** Every node object of the store has a configuration. *)
Definition all_configured (heap : DynamicRouteService.store) : Prop :=
  forall r node, heap !! r = Some node -> config node ≠ [].

(** A single-node function that leaves the store [heap] as it is. *)
Definition keeps_store
    (f : nat -> value -> string -> DynamicRouteService.store ->
         res (value * DynamicRouteService.store))
    (heap : DynamicRouteService.store) : Prop :=
  forall r input position v heap',
    f r input position heap = Ok (v, heap') -> heap' = heap.

(** An executor that returns the model named by the configuration of its
    node, and the factory that serves it. *)
Definition model_executor : NodeExecutor :=
  mkExecutor "model" (fun _ => inr true)
    (fun node context _ =>
       (context, inr (default VNone (PyDict.get "model" (config node))))).

Definition model_factory (ty : NodeType) : exn + NodeExecutor :=
  inr model_executor.

(** One model-completion node deployed without a configuration. *)
Definition store_unconfigured : DynamicRouteService.store :=
  <[0%nat := plain_node "ai-1" CLAUDE4]> ∅.

Definition custom_claude_config : dict value :=
  [("model", VStr "custom-model"); ("temperature", VFloat "0.1");
   ("max_tokens", VInt 10); ("system_prompt", VStr "s");
   ("user_prompt", VStr "u")].

(** The same node deployed with a configuration. *)
Definition store_configured : DynamicRouteService.store :=
  <[0%nat := mkNode "ai-1" CLAUDE4 [] [] [("model", VStr "own-model")]]> ∅.

(** The deployment a handler looks up in the registry when it runs. *)
Definition handler_deployment (h : DynamicRouteService.Handler)
    : option string :=
  match h with
  | DynamicRouteService.workflow_execute_handler d
  | DynamicRouteService.workflow_stream_handler d => Some d
  | _ => None
  end.

(** Two services hold the same record for the deployment of a handler. *)
Definition same_deployment (self1 self2 : DynamicRouteService.t)
    (h : DynamicRouteService.Handler) : Prop :=
  forall d, handler_deployment h = Some d ->
    PyDict.get d (DynamicRouteService.registered_routes self1)
    = PyDict.get d (DynamicRouteService.registered_routes self2).

(** The store a response leaves behind. *)
Definition response_store (heap : DynamicRouteService.store)
    (r : res (DynamicRouteService.Response * DynamicRouteService.store))
    : DynamicRouteService.store :=
  match r with
  | Ok (_, heap') => heap'
  | _ => heap
  end.

(** The errors of the graph-query validation that block a run: all but
    the ones about a missing database connection. *)
Definition blocking (errors : list string) : list string :=
  filter (fun error => str_contains "not connected to a database" error = false)
    errors.

(** The workflows whose structure [_validate_workflow] has nothing to say
    against. *)
Definition well_formed (w : WorkflowDefinition) : Prop :=
  nodes w ≠ []
  /\ NoDup (map id (nodes w))
  /\ edges_over (map id (nodes w)) (edges w)
  /\ acyclic (edges w).

(** The two shapes of a node result: completed without an error message,
    or failed without output and with an error message. *)
Definition outcome (r : NodeExecutionResult) : Prop :=
  (status r = COMPLETED /\ error_message r = None)
  \/ (status r = FAILED /\ output_data r = VNone
      /\ is_Some (error_message r)).

(** The edges that [_build_execution_graph] links: those whose source
    and target are both non-empty. *)
Definition live (edges : list WorkflowEdge) : list WorkflowEdge :=
  filter (fun e => source e ≠ "" /\ target e ≠ "") edges.

(** The sources of the edges into [v], in the order of the edges. *)
Definition preds_of (edges : list WorkflowEdge) (v : string) : list string :=
  map source (filter (fun e => target e = v) edges).

(** [u] is among the dependencies the graph records for [v]. *)
Definition depends (g : DynamicRouteService.ExecutionGraph) (u v : string)
    : Prop :=
  exists deps,
    PyDict.get v (DynamicRouteService.dependencies g) = Some deps
    /\ u ∈ deps.

(** The edges a service has registered for a deployment. *)
Definition registered_edges (self : DynamicRouteService.t)
    (deployment_id : string) : list WorkflowEdge :=
  match PyDict.get deployment_id (DynamicRouteService.registered_routes self)
  with
  | Some info => DynamicRouteService.deployed_edges info
  | None => []
  end.

(** What the loop maintains: no id is executed twice, the set of
    executed ids and the outputs are those of the ids in the execution
    order, and an id is executed after all its dependencies. *)
Definition chain_inv (g : DynamicRouteService.ExecutionGraph)
    (st : DynamicRouteService.ChainState) : Prop :=
  NoDup (DynamicRouteService.execution_order st)
  /\ DynamicRouteService.executed_nodes st
     = list_to_set (DynamicRouteService.execution_order st)
  /\ PyDict.keys (DynamicRouteService.node_outputs st)
     = DynamicRouteService.execution_order st
  /\ (forall v, v ∈ DynamicRouteService.execution_order st ->
        v ∈ PyDict.keys (DynamicRouteService.dependencies g))
  /\ (forall l1 v l2 u,
        DynamicRouteService.execution_order st = l1 ++ v :: l2 ->
        depends g u v -> u ∈ l1).

(** Where the loop stops: an id that is left out has a dependency that
    is left out. *)
Definition stalled (g : DynamicRouteService.ExecutionGraph)
    (st : DynamicRouteService.ChainState) : Prop :=
  forall v, v ∈ PyDict.keys (DynamicRouteService.dependencies g) ->
    v ∉ DynamicRouteService.execution_order st ->
    exists u, depends g u v
              /\ u ∈ PyDict.keys (DynamicRouteService.dependencies g)
              /\ u ∉ DynamicRouteService.execution_order st.

(** An execution order that follows the dependencies: no id twice, only
    ids of the deployment, every edge whose target is executed has its
    source executed earlier, and the ids left out are exactly those that
    a cycle reaches. *)
Definition dependency_order (ids : list string) (edges : list WorkflowEdge)
    (order : list string) : Prop :=
  NoDup order
  /\ (forall v, v ∈ order -> v ∈ ids)
  /\ (forall e, e ∈ edges -> target e ∈ order ->
        precedes (source e) (target e) order)
  /\ (forall v, v ∈ ids ->
        (v ∉ order
         <-> exists c, tc (edge_rel edges) c c /\ rtc (edge_rel edges) c v)).

(** A store with the node objects [a] and [b], and a service that has
    registered them as deployment "dep" with the edge from [a] to [b]. *)
Definition store_ab : DynamicRouteService.store :=
  {[ 0%nat := plain_node "a" DOCUMENT; 1%nat := plain_node "b" DOCUMENT ]}.
Definition service_ab (edges : list WorkflowEdge) : DynamicRouteService.t :=
  DynamicRouteService.mk []
    [("dep",
      DynamicRouteService.mkDeployment (DynamicRouteService.mkRouter "" [])
        (DynamicRouteService.mkRouter "" []) [] [0%nat; 1%nat] edges)]
    [].
Definition graph_ab : DynamicRouteService.ExecutionGraph :=
  DynamicRouteService.mkGraph [("a", 0%nat); ("b", 1%nat)]
    [("a", []); ("b", ["a"])] [("a", ["b"]); ("b", [])] ["a"] ["b"]
    [plain_edge "a" "b"].

(** Method and path of the routes that [_create_node_endpoints] adds for
    a node to a router with the given prefix: the action route of a
    model or graph-query node, then the status route. *)
Definition node_route_paths (prefix : string) (node : WorkflowNode)
    : list (string * string) :=
  (if DynamicRouteService.is_ai_type (type node) then
     [("POST", prefix +:+ ("/nodes/" +:+ id node) +:+ "/completion")]
   else if decide (type node = GRAPHRAG) then
     [("POST", prefix +:+ ("/nodes/" +:+ id node) +:+ "/query")]
   else [])
  ++ [("GET", prefix +:+ ("/nodes/" +:+ id node) +:+ "/status")].

(** The nodes that get an action route. *)
Definition has_action (node : WorkflowNode) : bool :=
  DynamicRouteService.is_ai_type (type node)
  || bool_decide (type node = GRAPHRAG).

(** The node types [update_ai_node_config] knows, the model kinds among
    them, and the fields a configuration of a model kind must have. *)
Definition valid_types : list string :=
  ["groqllama"; "claude4"; "gemini"; "chatbot"; "graphrag"].
Definition model_types : list string :=
  ["groqllama"; "claude4"; "gemini"; "chatbot"].
Definition required_fields : list string :=
  ["model"; "temperature"; "max_tokens"; "system_prompt"; "user_prompt"].

Definition complete (config : dict value) : Prop :=
  forall field, field ∈ required_fields ->
    PyDict.contains field config = true.

(** The updates that [update_ai_node_config] accepts. *)
Definition acceptable (node_type : string) (config : dict value) : Prop :=
  node_type ∈ valid_types /\ (node_type ∈ model_types -> complete config).

(** Every stored custom configuration is one that was acceptable. *)
Definition configs_ok (self : DynamicRouteService.t) : Prop :=
  forall node_type config,
    PyDict.get node_type (DynamicRouteService.custom_ai_configs self)
    = Some config ->
    acceptable node_type config.

(** An executor whose configuration check turns every node down. *)
Definition strict_executor : NodeExecutor :=
  mkExecutor "strict" (fun _ => inr false)
    (fun node context _ => (context, inr (VStr (id node)))).

(** [context'] is [context] with log entries appended and nothing else
    changed. *)
Definition extends_log (context context' : ExecutionContext.t) : Prop :=
  ExecutionContext.execution_id context' = ExecutionContext.execution_id context
  /\ ExecutionContext.debug context' = ExecutionContext.debug context
  /\ ExecutionContext.node_results context'
     = ExecutionContext.node_results context
  /\ ExecutionContext.global_variables context'
     = ExecutionContext.global_variables context
  /\ ExecutionContext.workflow_data context'
     = ExecutionContext.workflow_data context
  /\ exists entries,
       ExecutionContext.logs context'
       = ExecutionContext.logs context ++ entries.

(** No result object on the spine of a value: not the value itself and,
    in a dict without a truthy [error] entry, none of the entries'
    values, recursively. Lists and dicts that report an error are not
    looked into. *)
Fixpoint unwrapped (output : value) : bool :=
  match output with
  | VResult _ => false
  | VDict d =>
      DynamicRouteService.is_error_output output
      || forallb (fun kv => unwrapped kv.2) d
  | _ => true
  end.

(** Executors that leave the recorded node results of the context
    alone. *)
Definition keeps_results (get_executor : NodeType -> exn + NodeExecutor)
    : Prop :=
  forall ty executor node context input,
    get_executor ty = inr executor ->
    ExecutionContext.node_results
      (_execute_impl executor node context input).1
    = ExecutionContext.node_results context.

(** The entry of a deployment in the listing. *)
Definition listed (info : DynamicRouteService.DeploymentInfo) : value :=
  VDict
    [("endpoint_count",
      VInt (Z.of_nat (length (DynamicRouteService.endpoints info))));
     ("node_count",
      VInt (Z.of_nat (length (DynamicRouteService.deployed_nodes info))))].

(** * Properties of the embedding *)

Set Warnings "-clear-no-such-hyp".

(** ** Dictionaries *)

Section PyDict_facts.
Context {V : Type}.
Implicit Types (d : dict V) (k : string) (v : V) (f g : string -> V).

Lemma get_set_eq k v d : PyDict.get k (PyDict.set k v d) = Some v.
Proof.
  induction d as [|[k' v'] d IH]; simpl.
  - by rewrite decide_True.
  - destruct (decide (k = k')) as [->|Hne]; simpl.
    + by rewrite decide_True.
    + by rewrite decide_False.
Qed.

Lemma get_set_ne k k' v d :
  k ≠ k' -> PyDict.get k' (PyDict.set k v d) = PyDict.get k' d.
Proof.
  intros Hne. induction d as [|[k0 v0] d IH]; simpl.
  - by rewrite decide_False.
  - destruct (decide (k = k0)) as [->|Hne0]; simpl.
    + by rewrite !decide_False.
    + by rewrite IH.
Qed.

Lemma set_fresh k v d : k ∉ PyDict.keys d -> PyDict.set k v d = d ++ [(k, v)].
Proof.
  induction d as [|[k' v'] d IH]; simpl; [done|].
  intros Hin. apply not_elem_of_cons in Hin as [Hne Hin].
  rewrite decide_False by done. by rewrite IH.
Qed.

Lemma get_None k d : k ∉ PyDict.keys d -> PyDict.get k d = None.
Proof.
  induction d as [|[k' v'] d IH]; simpl; [done|].
  intros Hin. apply not_elem_of_cons in Hin as [Hne Hin].
  rewrite decide_False by done. auto.
Qed.

Lemma get_Some_keys k v d : PyDict.get k d = Some v -> k ∈ PyDict.keys d.
Proof.
  induction d as [|[k' v'] d IH]; simpl; [done|].
  destruct (decide (k = k')) as [->|Hne]; intros H.
  - apply elem_of_cons; by left.
  - apply elem_of_cons; right; auto.
Qed.

Lemma keys_tab ks f : PyDict.keys (tab ks f) = ks.
Proof.
  unfold PyDict.keys, tab. rewrite map_map. simpl. apply map_id.
Qed.

Lemma get_tab ks f k : k ∈ ks -> PyDict.get k (tab ks f) = Some (f k).
Proof.
  induction ks as [|k' ks IH]; simpl; [by intros ?%elem_of_nil|].
  intros Hin. destruct (decide (k = k')) as [->|Hne]; [done|].
  apply elem_of_cons in Hin as [?|?]; [done|auto].
Qed.

Lemma get_tab_None ks f k : k ∉ ks -> PyDict.get k (tab ks f) = None.
Proof. intros. apply get_None. by rewrite keys_tab. Qed.

Lemma tab_ext ks f g :
  (forall k, k ∈ ks -> f k = g k) -> tab ks f = tab ks g.
Proof.
  intros H. unfold tab. apply map_ext_in. intros k Hk.
  rewrite H; [done|]. by apply list_elem_of_In.
Qed.

Lemma set_tab ks f k v :
  NoDup ks -> k ∈ ks ->
  PyDict.set k v (tab ks f)
  = tab ks (fun k' => if decide (k' = k) then v else f k').
Proof.
  induction ks as [|k' ks IH]; simpl; [by intros _ ?%elem_of_nil|].
  intros [Hk' Hnd]%NoDup_cons Hin. destruct (decide (k = k')) as [->|Hne].
  - rewrite decide_True by done. f_equal.
    apply tab_ext. intros k Hk. rewrite decide_False; [done|].
    by intros ->.
  - rewrite decide_False by done. f_equal.
    apply elem_of_cons in Hin as [?|?]; [done|auto].
Qed.

Lemma fold_set_fresh {A} (key : A -> string) (val : A -> V) (l : list A) :
  forall acc : dict V,
    NoDup (PyDict.keys acc ++ map key l) ->
    fold_left (fun d x => PyDict.set (key x) (val x) d) l acc
    = acc ++ map (fun x => (key x, val x)) l.
Proof.
  induction l as [|x l IH]; intros acc Hnd; simpl.
  - by rewrite app_nil_r.
  - rewrite set_fresh.
    + rewrite IH; [by rewrite <- app_assoc|].
      unfold PyDict.keys in *. rewrite map_app. simpl.
      rewrite <- app_assoc. exact Hnd.
    + simpl in Hnd. apply NoDup_app in Hnd as (_ & Hdisj & _).
      intros Hin. apply (Hdisj _ Hin). apply elem_of_cons; by left.
Qed.

Lemma comprehension_NoDup {A} (key : A -> string) (val : A -> V) (l : list A) :
  NoDup (map key l) ->
  PyDict.comprehension key val l = map (fun x => (key x, val x)) l.
Proof.
  intros Hnd. unfold PyDict.comprehension. by rewrite fold_set_fresh.
Qed.

Lemma comprehension_tab {A} (key : A -> string) (val : A -> V)
    (f : string -> V) (l : list A) :
  NoDup (map key l) -> (forall x, val x = f (key x)) ->
  PyDict.comprehension key val l = tab (map key l) f.
Proof.
  intros Hnd Hval. rewrite comprehension_NoDup by done.
  unfold tab. rewrite map_map. apply map_ext. intros x. by rewrite Hval.
Qed.

End PyDict_facts.

(** ** The order of node ids *)

Lemma str_le_cons a1 a2 s1 s2 :
  str_le (String a1 s1) (String a2 s2)
  <-> (N_of_ascii a1 < N_of_ascii a2)%N
      \/ (a1 = a2 /\ str_le s1 s2).
Proof.
  unfold str_le, String.leb. simpl. unfold Ascii.compare.
  destruct (N.compare_spec (N_of_ascii a1) (N_of_ascii a2)) as [Heq|Hlt|Hgt].
  - assert (a1 = a2) as ->.
    { by rewrite <- (ascii_N_embedding a1), <- (ascii_N_embedding a2), Heq. }
    split; [by right|]. intros [?|[_ ?]]; [lia|done].
  - split; [by left|done].
  - split; [done|]. intros [?|[-> _]]; lia.
Qed.

Global Instance str_le_refl : Reflexive str_le.
Proof.
  intros s. induction s as [|a s IH]; [done|].
  apply str_le_cons. by right.
Qed.

Global Instance str_le_trans : Transitive str_le.
Proof.
  intros a. induction a as [|a1 s1 IH]; intros [|a2 s2] [|a3 s3]; try done.
  rewrite !str_le_cons. intros [H12|[-> H12]] [H23|[-> H23]].
  - left; lia.
  - by left.
  - by left.
  - right; split; [done|]. by eapply IH.
Qed.

Global Instance str_le_total : Total str_le.
Proof. intros a b. apply String.leb_total. Qed.

Global Instance str_le_antisym : AntiSymm (=) str_le.
Proof. intros a b. apply String.leb_antisym. Qed.

Lemma sort_ids_perm l : sort_ids l ≡ₚ l.
Proof. apply merge_sort_Permutation. Qed.

Lemma sort_ids_head c q l :
  sort_ids l = c :: q -> forall x, x ∈ l -> str_le c x.
Proof.
  intros Hs x Hx.
  pose proof (StronglySorted_merge_sort str_le l) as Hss.
  unfold sort_ids in Hs. rewrite Hs in Hss.
  apply StronglySorted_inv in Hss as [_ Hall].
  rewrite <- (merge_sort_Permutation str_le l), Hs in Hx.
  apply elem_of_cons in Hx as [->|Hx]; [reflexivity|].
  rewrite Forall_forall in Hall. by apply Hall.
Qed.

(** ** The graph of a workflow *)

Lemma succs_of_snoc pre e k :
  succs_of (pre ++ [e]) k
  = if decide (k = source e) then succs_of pre k ++ [target e]
    else succs_of pre k.
Proof.
  unfold succs_of. rewrite filter_app, map_app. simpl.
  rewrite filter_cons, filter_nil.
  destruct (decide (source e = k)) as [<-|Hne].
  - by rewrite decide_True.
  - rewrite decide_False by done. simpl. by rewrite app_nil_r.
Qed.

Lemma indeg_snoc pre e done k :
  indeg (pre ++ [e]) done k
  = (indeg pre done k
     + if decide (target e = k /\ source e ∉ done) then 1 else 0)%nat.
Proof.
  unfold indeg. rewrite filter_app, length_app. f_equal.
  rewrite filter_cons, filter_nil. by case_decide.
Qed.

Lemma build_graph_spec ids edges : forall pre,
  NoDup ids -> edges_over ids edges ->
  build_graph edges (tab ids (succs_of pre))
    (tab ids (fun v => Z.of_nat (indeg pre [] v)))
  = Ok (tab ids (succs_of (pre ++ edges)),
        tab ids (fun v => Z.of_nat (indeg (pre ++ edges) [] v))).
Proof.
  induction edges as [|e edges IH]; intros pre Hnd Hover; simpl.
  - by rewrite app_nil_r.
  - destruct (Hover e) as [Hs Ht]; [apply elem_of_cons; by left|].
    unfold PyDict.getitem. rewrite (get_tab _ _ _ Hs). simpl.
    rewrite (get_tab _ _ _ Ht). simpl.
    rewrite !set_tab by done.
    rewrite (tab_ext ids _ (succs_of (pre ++ [e]))); last first.
    { intros k _. rewrite succs_of_snoc. by case_decide; subst. }
    rewrite (tab_ext ids (fun k' => if decide (k' = target e) then _ else _)
               (fun v => Z.of_nat (indeg (pre ++ [e]) [] v))); last first.
    { intros k _. rewrite indeg_snoc.
      destruct (decide (k = target e)) as [->|Hne].
      - rewrite decide_True; [lia|]. split; [done|]. apply not_elem_of_nil.
      - rewrite decide_False; [lia|]. intros [? _]. congruence. }
    rewrite IH; [|done|].
    + by rewrite <- app_assoc.
    + intros e' He'. apply Hover. apply elem_of_cons; by right.
Qed.

Lemma occ_cons v n l :
  occ v (n :: l) = if decide (n = v) then S (occ v l) else occ v l.
Proof. unfold occ. rewrite filter_cons. by case_decide. Qed.

Lemma occ_0_iff v l : occ v l = 0%nat <-> v ∉ l.
Proof.
  induction l as [|n l IH].
  - split; [intros _; apply not_elem_of_nil|done].
  - rewrite occ_cons, not_elem_of_cons. case_decide; subst.
    + split; [done|]. by intros [? _].
    + rewrite IH. split; [|by intros [_ ?]]. intros; split; congruence.
Qed.

Lemma update_neighbors_spec ids nbrs : forall f Q,
  NoDup ids ->
  (forall v, v ∈ nbrs -> v ∈ ids) ->
  (forall v, Z.of_nat (occ v nbrs) <= f v) ->
  exists extra,
    update_neighbors nbrs (tab ids f) Q
    = Ok (tab ids (fun v => f v - Z.of_nat (occ v nbrs)), Q ++ extra)
    /\ NoDup extra
    /\ forall v, v ∈ extra <-> v ∈ nbrs /\ f v = Z.of_nat (occ v nbrs).
Proof.
  induction nbrs as [|n rest IH]; intros f Q Hnd Hin Hle; simpl.
  - exists []. rewrite app_nil_r. split; [|split].
    + do 2 f_equal. apply tab_ext. intros k _. unfold occ. simpl. lia.
    + constructor.
    + intros v. split; [by intros ?%elem_of_nil|by intros [?%elem_of_nil _]].
  - assert (n ∈ ids) as Hn by (apply Hin, elem_of_cons; by left).
    unfold PyDict.getitem. rewrite (get_tab _ _ _ Hn). simpl.
    rewrite set_tab by done.
    set (f' := fun k' => if decide (k' = n) then f n - 1 else f k').
    assert (forall v, Z.of_nat (occ v rest) <= f' v) as Hle'.
    { intros v. specialize (Hle v). rewrite occ_cons in Hle. unfold f'.
      destruct (decide (v = n)) as [->|Hne].
      - rewrite decide_True in Hle by done. lia.
      - rewrite decide_False in Hle by done. lia. }
    assert (forall v, v ∈ rest -> v ∈ ids) as Hin'.
    { intros v Hv. apply Hin, elem_of_cons. by right. }
    destruct (IH f' (if decide (f n - 1 = 0) then Q ++ [n] else Q)
                Hnd Hin' Hle') as (extra' & Heq & Hnd' & Hiff).
    rewrite Heq.
    assert (tab ids (fun v => f' v - Z.of_nat (occ v rest))
            = tab ids (fun v => f v - Z.of_nat (occ v (n :: rest)))) as ->.
    { apply tab_ext. intros k _. rewrite occ_cons. unfold f'.
      destruct (decide (k = n)) as [->|Hne].
      - rewrite decide_True by done. lia.
      - rewrite decide_False by done. lia. }
    pose proof (Hle n) as Hlen. rewrite occ_cons, decide_True in Hlen by done.
    destruct (decide (f n - 1 = 0)) as [Hz|Hnz].
    + exists (n :: extra'). rewrite <- app_assoc. split; [done|].
      assert (occ n rest = 0%nat) as Hocc by lia.
      split.
      * constructor; [|done]. rewrite Hiff. intros [Hr _].
        by apply occ_0_iff in Hocc.
      * intros v. rewrite !elem_of_cons, Hiff, occ_cons. unfold f'.
        destruct (decide (v = n)) as [->|Hne].
        -- rewrite decide_True by done. split; [|by left].
           intros _. split; [by left|lia].
        -- rewrite (decide_False (P := n = v)) by done.
           split.
           ++ intros [?|[? ?]]; [done|]. split; [by right|done].
           ++ intros [[?|?] ?]; [done|]. right. done.
    + exists extra'. split; [done|]. split; [done|].
      intros v. rewrite Hiff, elem_of_cons, occ_cons. unfold f'.
      destruct (decide (v = n)) as [->|Hne].
      * rewrite decide_True by done. split.
        -- intros [? ?]. split; [by left|lia].
        -- intros [_ ?]. split; [|lia].
           apply dec_stable. intros Hnot%occ_0_iff. lia.
      * rewrite (decide_False (P := n = v)) by done.
        split.
        -- intros [? ?]. split; [by right|done].
        -- intros [[?|?] ?]; [done|]. done.
Qed.

Lemma indeg_split edges done c v :
  c ∉ done ->
  indeg edges done v
  = (indeg edges (done ++ [c]) v + occ v (succs_of edges c))%nat.
Proof.
  intros Hc. unfold indeg, occ, succs_of.
  induction edges as [|e edges IH]; [done|].
  rewrite !filter_cons. 
  destruct (decide (source e = c)) as [Hs|Hs]; simpl.
  - rewrite (decide_False (P := _ /\ source e ∉ done ++ [c])); last first.
    { intros [_ Hn]. apply Hn. apply elem_of_app. right.
      apply elem_of_cons. by left. }
    rewrite filter_cons.
    destruct (decide (target e = v)) as [Ht|Ht].
    + rewrite decide_True by (split; congruence). simpl. lia.
    + rewrite decide_False by (intros [? _]; done). lia.
  - destruct (decide (target e = v /\ source e ∉ done)) as [[Ht Hn]|Hn].
    + rewrite decide_True; [simpl; lia|]. split; [done|].
      intros [?|Hin%elem_of_cons]%elem_of_app; [done|].
      destruct Hin as [?|?%elem_of_nil]; done.
    + rewrite decide_False; [lia|]. intros [Ht Hn']. apply Hn.
      split; [done|]. intros ?. apply Hn'. apply elem_of_app. by left.
Qed.

Lemma filter_nil_intro {A} (P : A -> Prop) `{forall x, Decision (P x)}
    (l : list A) :
  (forall x, x ∈ l -> ~ P x) -> filter P l = [].
Proof.
  induction l as [|x l IH]; intros Hall; [done|].
  rewrite filter_cons, decide_False.
  - apply IH. intros y Hy. apply Hall, elem_of_cons. by right.
  - apply Hall, elem_of_cons. by left.
Qed.

Lemma indeg_0_iff edges done v :
  indeg edges done v = 0%nat
  <-> forall e, e ∈ edges -> target e = v -> source e ∈ done.
Proof.
  unfold indeg. rewrite length_zero_iff_nil. split.
  - intros Hnil e He Ht. apply dec_stable. intros Hn.
    assert (e ∈ filter (fun e => target e = v /\ source e ∉ done) edges) as Hin.
    { apply list_elem_of_filter. done. }
    rewrite Hnil in Hin. by apply elem_of_nil in Hin.
  - intros Hall. apply filter_nil_intro.
    intros e He [Ht Hn]. apply Hn. by apply Hall.
Qed.

Lemma elem_of_succs_of edges c v :
  v ∈ succs_of edges c <-> exists e, e ∈ edges /\ source e = c /\ target e = v.
Proof.
  unfold succs_of. rewrite list_elem_of_fmap. split.
  - intros (e & -> & [Hs He]%list_elem_of_filter). eauto.
  - intros (e & He & Hs & Ht). exists e. split; [done|].
    by apply list_elem_of_filter.
Qed.

Lemma get_node_map nodes c :
  c ∈ map id nodes ->
  exists n, PyDict.get c (map (fun n => (id n, n)) nodes) = Some n
            /\ n ∈ nodes /\ id n = c.
Proof.
  induction nodes as [|n nodes IH]; simpl; [by intros ?%elem_of_nil|].
  intros Hin. destruct (decide (c = id n)) as [->|Hne].
  - exists n. split; [done|]. split; [apply elem_of_cons; by left|done].
  - apply elem_of_cons in Hin as [?|Hin]; [done|].
    destruct (IH Hin) as (m & ? & ? & ?). exists m.
    split; [done|]. split; [apply elem_of_cons; by right|done].
Qed.

Lemma order_ok_snoc ids edges done c :
  order_ok ids edges done ->
  (forall e, e ∈ edges -> target e = c -> source e ∈ done) ->
  (forall m, m ∈ ids -> m ∉ done ->
     (forall e, e ∈ edges -> target e = m -> source e ∈ done) ->
     str_le c m) ->
  order_ok ids edges (done ++ [c]).
Proof.
  intros Hok Hpred Hmin l1 v l2 Heq.
  destruct l2 as [|x l2 _] using rev_ind.
  - apply app_inj_tail in Heq as [-> ->]. done.
  - rewrite app_comm_cons, app_assoc in Heq.
    apply app_inj_tail in Heq as [-> ->]. by eapply Hok.
Qed.

Section kahn.

Variable nodes : list WorkflowNode.
Variable edges : list WorkflowEdge.
Hypothesis ids_NoDup : NoDup (map id nodes).
Hypothesis edges_valid : edges_over (map id nodes) edges.

Let ids := map id nodes.
Let graph := tab ids (succs_of edges).
Let node_map := map (fun n : WorkflowNode => (id n, n)) nodes.

Lemma kahn_inv_length done queue result :
  kahn_inv nodes edges done queue result ->
  (length result <= length nodes)%nat.
Proof.
  intros (Hmap & _ & Hnd & Hsub & _).
  rewrite <- (length_map id result), Hmap, <- (length_map id nodes).
  apply NoDup_app in Hnd as (Hnd & _ & _).
  apply submseteq_length, NoDup_submseteq; [done|].
  intros x Hx. apply Hsub, elem_of_app. by left.
Qed.

Lemma kahn_step done queue result c queue' :
  kahn_inv nodes edges done queue result ->
  sort_ids queue = c :: queue' ->
  exists n in_degree' queue'',
    PyDict.getitem c node_map = Ok n
    /\ PyDict.getitem c graph = Ok (succs_of edges c)
    /\ update_neighbors (succs_of edges c)
         (tab ids (fun v => Z.of_nat (indeg edges done v))) queue'
       = Ok (in_degree', queue'')
    /\ in_degree' = tab ids (fun v => Z.of_nat (indeg edges (done ++ [c]) v))
    /\ kahn_inv nodes edges (done ++ [c]) queue'' (result ++ [n]).
Proof.
  intros (Hmap & Hres & Hnd & Hsub & Hq & Hok) Hsort.
  pose proof (sort_ids_perm queue) as Hperm. rewrite Hsort in Hperm.
  assert (c ∈ queue) as Hcq.
  { rewrite <- Hperm. apply elem_of_cons. by left. }
  assert (c ∈ ids) as Hc.
  { apply Hsub, elem_of_app. by right. }
  destruct (proj1 (Hq c Hc) Hcq) as [Hcdone Hc0].
  destruct (get_node_map nodes c Hc) as (n & Hget & Hn & Hidn).
  assert (forall v, v ∈ succs_of edges c -> v ∈ ids) as Hsuccs.
  { intros v (e & He & _ & <-)%elem_of_succs_of. by apply edges_valid. }
  destruct (update_neighbors_spec ids (succs_of edges c)
              (fun v => Z.of_nat (indeg edges done v)) queue'
              ids_NoDup Hsuccs) as (extra & Hupd & Hndx & Hx).
  { intros v. rewrite (indeg_split edges done c v Hcdone). lia. }
  assert (NoDup (done ++ c :: queue')) as Hnd'.
  { by rewrite Hperm. }
  assert (forall v, v ∈ extra ->
            v ∈ ids /\ (v ∉ done) /\ v ≠ c /\ (v ∉ queue)
            /\ indeg edges (done ++ [c]) v = 0%nat) as Hextra.
  { intros v [Hv Hdeg]%Hx.
    pose proof (indeg_split edges done c v Hcdone) as Hsp.
    assert (occ v (succs_of edges c) ≠ 0%nat) as Hpos.
    { by intros ?%occ_0_iff. }
    apply elem_of_succs_of in Hv as Hedge. destruct Hedge as (e & He & Hs & Ht).
    assert (v ∈ ids) as Hvi by auto.
    assert (v ∉ done) as Hvd.
    { intros Hin. apply list_elem_of_split in Hin as (l1 & l2 & Heq).
      destruct (Hok l1 v l2 Heq) as [Hp _].
      apply Hcdone. rewrite Heq, <- Hs. apply elem_of_app. left.
      by apply Hp. }
    split; [done|]. split; [done|]. split; [|split].
    - intros ->. rewrite Hc0 in Hsp. lia.
    - intros Hin. apply (Hq v Hvi) in Hin as [_ H0]. lia.
    - lia. }
  exists n, (tab ids (fun v => Z.of_nat (indeg edges (done ++ [c]) v))),
    (queue' ++ extra).
  split; [unfold PyDict.getitem, node_map; by rewrite Hget|].
  split; [unfold PyDict.getitem, graph; by rewrite (get_tab _ _ _ Hc)|].
  split.
  { rewrite Hupd. do 2 f_equal. apply tab_ext. intros k _.
    rewrite (indeg_split edges done c k Hcdone). lia. }
  split; [done|].
  split; [by rewrite map_app, Hmap; simpl; rewrite Hidn|].
  split.
  { intros m [?|Hm%list_elem_of_singleton]%elem_of_app; [auto|by subst]. }
  split.
  { rewrite <- app_assoc. simpl. rewrite app_comm_cons, app_assoc.
    apply NoDup_app. split; [done|]. split; [|done].
    intros v Hv Hvx. destruct (Hextra v Hvx) as (_ & Hvd & Hvc & Hvq & _).
    apply elem_of_app in Hv as [?|Hv]; [done|].
    apply elem_of_cons in Hv as [?|Hv]; [done|].
    apply Hvq. rewrite <- Hperm. apply elem_of_cons. by right. }
  split.
  { intros v. rewrite <- app_assoc. simpl.
    intros [?|[->|[?|?]%elem_of_app]%elem_of_cons]%elem_of_app.
    - apply Hsub, elem_of_app. by left.
    - done.
    - apply Hsub, elem_of_app. right. rewrite <- Hperm.
      apply elem_of_cons. by right.
    - by apply Hextra. }
  split.
  { intros v Hv. split.
    - intros [Hin|Hin]%elem_of_app.
      + assert (v ∈ queue) as Hvq.
        { rewrite <- Hperm. apply elem_of_cons. by right. }
        destruct (proj1 (Hq v Hv) Hvq) as [Hvd Hv0]. split.
        * intros [?|Hvc%list_elem_of_singleton]%elem_of_app; [done|].
          subst v. apply NoDup_app in Hnd' as (_ & _ & Hnd').
          by apply NoDup_cons in Hnd' as [? _].
        * pose proof (indeg_split edges done c v Hcdone). lia.
      + destruct (Hextra v Hin) as (_ & Hvd & Hvc & _ & H0). split; [|done].
        intros [?|?%list_elem_of_singleton]%elem_of_app; done.
    - intros [Hnin H0]. apply elem_of_app.
      assert ((v ∉ done) /\ v ≠ c) as [Hvd Hvc].
      { split; intros ?; apply Hnin, elem_of_app; [by left|right].
        by apply list_elem_of_singleton. }
      destruct (decide (indeg edges done v = 0%nat)) as [Hz|Hnz].
      + left. assert (v ∈ queue) as Hvq by (by apply Hq).
        rewrite <- Hperm in Hvq.
        apply elem_of_cons in Hvq as [?|?]; done.
      + right. apply Hx.
        pose proof (indeg_split edges done c v Hcdone) as Hsp.
        split; [|lia]. apply dec_stable. intros Hno%occ_0_iff. lia. }
  apply order_ok_snoc; [done| |].
  - by apply indeg_0_iff.
  - intros m Hm Hmd Hpred. apply (sort_ids_head c queue' queue Hsort).
    apply Hq; [done|]. split; [done|]. by apply indeg_0_iff.
Qed.

Lemma kahn_loop_spec fuel : forall done queue result,
  kahn_inv nodes edges done queue result ->
  (length nodes < fuel + length result)%nat ->
  exists result',
    kahn_loop fuel graph node_map
      (tab ids (fun v => Z.of_nat (indeg edges done v))) queue result
    = Ok result'
    /\ kahn_inv nodes edges (map id result') [] result'.
Proof.
  induction fuel as [|fuel IH]; intros done queue result Hinv Hfuel.
  - apply kahn_inv_length in Hinv. lia.
  - cbn [kahn_loop]. destruct queue as [|q0 queue0].
    + exists result. split; [done|].
      destruct Hinv as (Hmap & ?). by rewrite Hmap.
    + destruct (sort_ids (q0 :: queue0)) as [|c queue'] eqn:Hsort.
      { pose proof (sort_ids_perm (q0 :: queue0)) as Hp.
        rewrite Hsort in Hp. by apply Permutation_nil_cons in Hp. }
      destruct (kahn_step _ _ _ _ _ Hinv Hsort)
        as (n & in_degree' & queue'' & Hn & Hg & Hu & -> & Hinv').
      rewrite Hn. cbn [mbind res_bind]. rewrite Hg. cbn [mbind res_bind].
      rewrite Hu. cbn [mbind res_bind].
      apply IH; [done|]. rewrite length_app. simpl. lia.
Qed.

End kahn.

(** ** Finite graphs without sinks have cycles *)

Lemma Sorted_app_r {A} (R : relation A) (l1 l2 : list A) :
  Sorted R (l1 ++ l2) -> Sorted R l2.
Proof.
  induction l1 as [|x l1 IH]; [done|]. simpl.
  intros [? _]%Sorted_inv. auto.
Qed.

Lemma Sorted_app_l {A} (R : relation A) (l1 l2 : list A) :
  Sorted R (l1 ++ l2) -> Sorted R l1.
Proof.
  induction l1 as [|x l1 IH]; [constructor|]. simpl.
  intros [Hs Hhd]%Sorted_inv. constructor; [auto|].
  destruct l1; [constructor|]. simpl in Hhd.
  apply HdRel_inv in Hhd. by constructor.
Qed.

Lemma Sorted_tc {A} (R : relation A) (l : list A) : forall x y,
  Sorted R (x :: l ++ [y]) -> tc R x y.
Proof.
  induction l as [|z l IH]; intros x y [Hs Hhd]%Sorted_inv; simpl in *.
  - apply HdRel_inv in Hhd. by apply tc_once.
  - apply HdRel_inv in Hhd. eapply tc_l; [done|]. by apply IH.
Qed.

Lemma not_NoDup_split {A} `{EqDecision A} (l : list A) :
  ~ NoDup l -> exists l1 x l2 l3, l = l1 ++ x :: l2 ++ x :: l3.
Proof.
  induction l as [|a l IH]; intros Hn.
  - destruct Hn. constructor.
  - destruct (decide (a ∈ l)) as [Hin|Hnin].
    + apply list_elem_of_split in Hin as (l2 & l3 & ->).
      by exists [], a, l2, l3.
    + destruct IH as (l1 & x & l2 & l3 & ->).
      { intros Hnd. apply Hn. by constructor. }
      by exists (a :: l1), x, l2, l3.
Qed.

Lemma chain_exists {A} (R : relation A) (S : list A) (n : nat) :
  S ≠ [] ->
  (forall v, v ∈ S -> exists u, u ∈ S /\ R u v) ->
  exists p, length p = Datatypes.S n /\ Sorted R p /\ forall x, x ∈ p -> x ∈ S.
Proof.
  intros Hne Hpred. induction n as [|n (p & Hlen & Hs & Hsub)].
  - destruct S as [|v S]; [done|]. exists [v].
    split; [done|]. split; [repeat constructor|].
    intros x ->%list_elem_of_singleton. apply elem_of_cons. by left.
  - destruct p as [|h p]; [done|].
    destruct (Hpred h) as (u & Hu & Hr).
    { apply Hsub, elem_of_cons. by left. }
    exists (u :: h :: p). split; [simpl in *; lia|].
    split; [constructor; [done|by constructor]|].
    intros x [->|?]%elem_of_cons; auto.
Qed.

Lemma sinkless_cycle {A} `{EqDecision A} (R : relation A) (S : list A) :
  S ≠ [] ->
  (forall v, v ∈ S -> exists u, u ∈ S /\ R u v) ->
  exists x, tc R x x.
Proof.
  intros Hne Hpred.
  destruct (chain_exists R S (length S) Hne Hpred) as (p & Hlen & Hs & Hsub).
  destruct (not_NoDup_split p) as (l1 & x & l2 & l3 & ->).
  { intros Hnd. apply (NoDup_submseteq _ S) in Hnd; [|done].
    apply submseteq_length in Hnd. lia. }
  exists x. apply (Sorted_tc R l2).
  apply Sorted_app_r in Hs.
  change (x :: l2 ++ x :: l3) with ((x :: l2) ++ [x] ++ l3) in Hs.
  rewrite app_assoc in Hs. by apply Sorted_app_l in Hs.
Qed.

(** ** Correctness of [_topological_sort] *)

Lemma filter_tab_zero ids (f : string -> Z) :
  map fst (filter (fun item : string * Z => item.2 = 0) (tab ids f))
  = filter (fun k => f k = 0) ids.
Proof.
  induction ids as [|k ids IH]; [done|]. simpl.
  rewrite !filter_cons. simpl. case_decide; simpl; by rewrite IH.
Qed.

Lemma kahn_inv_init nodes edges :
  NoDup (map id nodes) ->
  kahn_inv nodes edges []
    (filter (fun k => Z.of_nat (indeg edges [] k) = 0) (map id nodes)) [].
Proof.
  intros Hnd. split; [done|]. split; [by intros n ?%elem_of_nil|].
  split; [by apply NoDup_filter|].
  split; [by intros v [_ ?]%list_elem_of_filter|].
  split.
  - intros v Hv. rewrite list_elem_of_filter. split.
    + intros [? _]. split; [apply not_elem_of_nil|lia].
    + intros [_ ?]. split; [lia|done].
  - intros l1 v l2 Heq. by destruct l1.
Qed.

Lemma kahn_inv_complete nodes edges done result :
  edges_over (map id nodes) edges ->
  acyclic edges ->
  kahn_inv nodes edges done [] result ->
  forall v, v ∈ map id nodes -> v ∈ done.
Proof.
  intros Hover Hac (_ & _ & _ & _ & Hq & _) v Hv.
  apply dec_stable. intros Hnot.
  destruct (sinkless_cycle (edge_rel edges)
              (filter (fun k => k ∉ done) (map id nodes))) as [x Hx].
  - intros Hnil. eapply (filter_nil_not_elem_of _ _ v); eauto.
  - intros w [Hwd Hw]%list_elem_of_filter.
    assert (indeg edges done w ≠ 0%nat) as Hdeg.
    { intros H0. by apply (not_elem_of_nil w), Hq. }
    unfold indeg in Hdeg.
    destruct (filter _ edges) as [|e l] eqn:Hf; [done|].
    assert (e ∈ filter (fun e => target e = w /\ (source e ∉ done)) edges)
      as [[Ht Hs] He]%list_elem_of_filter.
    { rewrite Hf. apply elem_of_cons. by left. }
    exists (source e). split.
    + apply list_elem_of_filter. split; [done|]. by apply Hover.
    + by exists e.
  - by apply (Hac x).
Qed.

Lemma map_inj_on {A B} (f : A -> B) (l : list A) x y :
  NoDup (map f l) -> x ∈ l -> y ∈ l -> f x = f y -> x = y.
Proof.
  induction l as [|a l IH]; simpl; [by intros _ ?%elem_of_nil|].
  intros [Ha Hnd]%NoDup_cons [->|Hx]%elem_of_cons [->|Hy]%elem_of_cons Heq.
  - done.
  - destruct Ha. rewrite Heq. by apply list_elem_of_fmap_2.
  - destruct Ha. rewrite <- Heq. by apply list_elem_of_fmap_2.
  - by apply IH.
Qed.

Lemma map_eq_on {A B} (f : A -> B) (l l1 l2 : list A) :
  NoDup (map f l) ->
  (forall x, x ∈ l1 -> x ∈ l) -> (forall x, x ∈ l2 -> x ∈ l) ->
  map f l1 = map f l2 -> l1 = l2.
Proof.
  intros Hnd. revert l2. induction l1 as [|a l1 IH]; intros [|b l2] H1 H2 Heq;
    try done.
  simpl in Heq. injection Heq as Hab Heq. f_equal.
  - eapply map_inj_on; eauto; [apply H1|apply H2]; apply elem_of_cons; by left.
  - apply IH; [| |done]; intros x Hx; [apply H1|apply H2];
      apply elem_of_cons; by right.
Qed.

Lemma perm_of_ids (nodes result : list WorkflowNode) :
  NoDup (map id nodes) ->
  (forall n, n ∈ result -> n ∈ nodes) ->
  NoDup (map id result) ->
  (forall v, v ∈ map id nodes -> v ∈ map id result) ->
  result ≡ₚ nodes.
Proof.
  intros Hnd Hsub Hndr Hall.
  apply submseteq_length_Permutation.
  - apply NoDup_submseteq; [|done]. by apply NoDup_fmap_1 in Hndr.
  - rewrite <- (length_map id nodes), <- (length_map id result).
    apply submseteq_length, NoDup_submseteq; done.
Qed.

Lemma topological_sort_spec nodes edges :
  NoDup (map id nodes) ->
  edges_over (map id nodes) edges ->
  acyclic edges ->
  exists order,
    _topological_sort nodes edges = Ok order
    /\ order ≡ₚ nodes
    /\ order_ok (map id nodes) edges (map id order).
Proof.
  intros Hnd Hover Hac. unfold _topological_sort.
  rewrite (comprehension_tab id _ (fun _ => []) nodes Hnd) by done.
  rewrite (comprehension_tab id _ (fun _ => 0) nodes Hnd) by done.
  change (tab (map id nodes) (fun _ => []))
    with (tab (map id nodes) (succs_of [])).
  change (tab (map id nodes) (fun _ => 0))
    with (tab (map id nodes) (fun v => Z.of_nat (indeg [] [] v))).
  rewrite (build_graph_spec (map id nodes) edges [] Hnd Hover).
  cbn [mbind res_bind app].
  rewrite comprehension_NoDup by done.
  rewrite filter_tab_zero.
  destruct (kahn_loop_spec nodes edges Hnd Hover (S (length nodes)) []
              (filter (fun k => Z.of_nat (indeg edges [] k) = 0)
                 (map id nodes)) [])
    as (order & Hloop & Hinv).
  { by apply kahn_inv_init. }
  { simpl. lia. }
  rewrite Hloop. cbn [mbind res_bind].
  pose proof (kahn_inv_complete _ _ _ _ Hover Hac Hinv) as Hall.
  destruct Hinv as (_ & Hsub & Hndr & _ & _ & Hok).
  rewrite app_nil_r in Hndr.
  assert (order ≡ₚ nodes) as Hperm by (by apply perm_of_ids).
  exists order. rewrite decide_False; [done|].
  intros Hlen. apply Hlen. by rewrite Hperm.
Qed.

Lemma order_ok_unique ids edges : forall rest1 done rest2,
  NoDup ids ->
  done ++ rest1 ≡ₚ ids -> done ++ rest2 ≡ₚ ids ->
  order_ok ids edges (done ++ rest1) ->
  order_ok ids edges (done ++ rest2) ->
  rest1 = rest2.
Proof.
  induction rest1 as [|a rest1 IH]; intros done rest2 Hnd Hp1 Hp2 Hok1 Hok2.
  - assert (length (done ++ rest2) = length (done ++ [])) as Hlen.
    { by rewrite Hp1, Hp2. }
    rewrite !length_app in Hlen. simpl in Hlen.
    destruct rest2; [done|simpl in Hlen; lia].
  - destruct rest2 as [|b rest2].
    { assert (length (done ++ a :: rest1) = length (done ++ [])) as Hlen.
      { by rewrite Hp1, Hp2. }
      rewrite !length_app in Hlen. simpl in Hlen. lia. }
    assert (forall c rest, done ++ c :: rest ≡ₚ ids ->
              c ∈ ids /\ c ∉ done) as Hfresh.
    { intros c rest Hp. split.
      - rewrite <- Hp. apply elem_of_app. right. apply elem_of_cons. by left.
      - rewrite <- Hp in Hnd. apply NoDup_app in Hnd as (_ & Hdisj & _).
        intros Hin. apply (Hdisj c Hin). apply elem_of_cons. by left. }
    destruct (Hok1 done a rest1 eq_refl) as [Hpa Hma].
    destruct (Hok2 done b rest2 eq_refl) as [Hpb Hmb].
    destruct (Hfresh a rest1 Hp1) as [Hai Had].
    destruct (Hfresh b rest2 Hp2) as [Hbi Hbd].
    assert (a = b) as <-.
    { apply (anti_symm str_le); [by apply Hma|by apply Hmb]. }
    f_equal. apply (IH (done ++ [a])); [done| | | |];
      by rewrite <- app_assoc.
Qed.

Lemma edge_rel_perm edges edges' u v :
  edges' ≡ₚ edges -> edge_rel edges' u v -> edge_rel edges u v.
Proof.
  intros Hp (e & He & ? & ?). exists e. by rewrite <- Hp.
Qed.

Lemma acyclic_perm edges edges' :
  edges' ≡ₚ edges -> acyclic edges -> acyclic edges'.
Proof.
  intros Hp Hac x Hx. apply (Hac x).
  eapply tc_congruence with (f := fun y => y); [|exact Hx].
  intros. by eapply edge_rel_perm.
Qed.

Lemma order_ok_in_done ids edges done e :
  order_ok ids edges done -> e ∈ edges -> target e ∈ done ->
  precedes (source e) (target e) done.
Proof.
  intros Hok He (l1 & l2 & Heq)%list_elem_of_split.
  destruct (Hok _ _ _ Heq) as [Hp _].
  destruct (list_elem_of_split l1 (source e)) as (k1 & k2 & ->); [by apply Hp|].
  exists k1, k2, l2. by rewrite Heq, <- app_assoc.
Qed.

(** C1: on a workflow with unique node ids whose edges join its nodes and
    form no cycle, [_topological_sort] returns a list that is a
    rearrangement of the nodes (each exactly once), in which the source
    of every edge comes before its target, and in which each node has the
    smallest id among the nodes whose predecessors had all been emitted
    before it; the list is the same however the nodes and the edges are
    listed. *)
Theorem topological_sort_correct nodes edges :
  NoDup (map id nodes) ->
  edges_over (map id nodes) edges ->
  acyclic edges ->
  exists order,
    _topological_sort nodes edges = Ok order
    /\ order ≡ₚ nodes
    /\ (forall e, e ∈ edges ->
          precedes (source e) (target e) (map id order))
    /\ (forall emitted n rest, order = emitted ++ n :: rest ->
          forall m, m ∈ nodes -> m ∉ emitted ->
            (forall e, e ∈ edges -> target e = id m ->
               source e ∈ map id emitted) ->
            str_le (id n) (id m))
    /\ (forall nodes' edges', nodes' ≡ₚ nodes -> edges' ≡ₚ edges ->
          _topological_sort nodes' edges' = Ok order).
Proof.
  intros Hnd Hover Hac.
  destruct (topological_sort_spec nodes edges Hnd Hover Hac)
    as (order & Hrun & Hperm & Hok).
  exists order. split; [done|]. split; [done|]. split; [|split].
  - intros e He. eapply order_ok_in_done; [done..|].
    rewrite Hperm. by apply Hover.
  - intros emitted n rest -> m Hm Hnot Hpred.
    rewrite map_app in Hok. simpl in Hok.
    destruct (Hok _ _ _ eq_refl) as [_ Hmin].
    apply Hmin; [by apply list_elem_of_fmap_2| |done].
    intros (m' & Heq & Hm')%list_elem_of_fmap. apply Hnot.
    assert (m = m') as ->; [|done].
    eapply (map_inj_on id nodes); [done..| |done].
    rewrite <- Hperm. apply elem_of_app. by left.
  - intros nodes' edges' Hpn Hpe.
    assert (NoDup (map id nodes')) as Hnd' by (by rewrite Hpn).
    assert (edges_over (map id nodes') edges') as Hover'.
    { intros e He. rewrite Hpn. apply Hover. by rewrite <- Hpe. }
    destruct (topological_sort_spec nodes' edges' Hnd' Hover')
      as (order' & Hrun' & Hperm' & Hok').
    { by eapply acyclic_perm. }
    rewrite Hrun'. f_equal.
    apply (map_eq_on id nodes); [done| | |].
    + intros x. by rewrite Hperm', Hpn.
    + intros x. by rewrite Hperm.
    + apply (order_ok_unique (map id nodes) edges _ [] _ Hnd); simpl.
      * by rewrite Hperm', Hpn.
      * by rewrite Hperm.
      * intros l1 v l2 Heq. destruct (Hok' l1 v l2 Heq) as [H1 H2]. split.
        -- intros e He. apply H1. by rewrite Hpe.
        -- intros m Hm Hl Hp. apply H2; [by rewrite Hpn|done|].
           intros e He. apply Hp. by rewrite <- Hpe.
      * done.
Qed.

(** ** Correctness of [_has_cycles] *)

Lemma build_adjacency_spec ids edges : forall pre,
  NoDup ids -> edges_over ids edges ->
  build_adjacency edges (tab ids (succs_of pre))
  = Ok (tab ids (succs_of (pre ++ edges))).
Proof.
  induction edges as [|e edges IH]; intros pre Hnd Hover; simpl.
  - by rewrite app_nil_r.
  - destruct (Hover e) as [Hs Ht]; [apply elem_of_cons; by left|].
    unfold PyDict.getitem. rewrite (get_tab _ _ _ Hs). simpl.
    rewrite set_tab by done.
    rewrite (tab_ext ids _ (succs_of (pre ++ [e]))); last first.
    { intros k _. rewrite succs_of_snoc. by case_decide; subst. }
    rewrite IH; [|done|].
    + by rewrite <- app_assoc.
    + intros e' He'. apply Hover. apply elem_of_cons; by right.
Qed.

Lemma closed_tc edges (B : gset string) b v :
  (forall b v, b ∈ B -> edge_rel edges b v -> v ∈ B) ->
  b ∈ B -> tc (edge_rel edges) b v -> v ∈ B.
Proof.
  intros Hcl Hb Htc. induction Htc as [x y Hr|x y z Hr _ IH]; eauto.
Qed.

Section dfs.

Variable nodes : list WorkflowNode.
Variable edges : list WorkflowEdge.
Hypothesis ids_NoDup : NoDup (map id nodes).
Hypothesis edges_valid : edges_over (map id nodes) edges.

Let ids := map id nodes.
Let V : gset string := list_to_set ids.
Let graph := tab ids (succs_of edges).
Let R := edge_rel edges.

(** What a call of [dfs], or a run of the loop over the neighbours,
    guarantees. *)
Let post (c : colors) (blackened : list string) (r : res (bool * colors))
    : Prop :=
  exists b c', r = Ok (b, c')
    /\ if b : bool then exists x, tc R x x
       else colors_inv V edges c' /\ gray c' = gray c
            /\ (forall m, m ∈ blackened -> m ∈ black c')
            /\ black c ⊆ black c' /\ white c' ⊆ white c.

Lemma visit_neighbors_spec fuel :
  (forall n c, colors_inv V edges c -> n ∈ V ->
     (forall g, g ∈ gray c -> tc R g n) ->
     (size (white c) < fuel)%nat ->
     post c [n] (dfs fuel graph n c)) ->
  forall nbrs c, colors_inv V edges c ->
    (forall m, m ∈ nbrs -> m ∈ V) ->
    (forall m g, m ∈ nbrs -> g ∈ gray c -> tc R g m) ->
    (size (white c) < fuel)%nat ->
    post c nbrs (visit_neighbors (dfs fuel graph) nbrs c).
Proof.
  intros Hdfs. induction nbrs as [|m nbrs IH]; intros c Hinv HV Hg Hfuel.
  - exists false, c. simpl. split; [done|]. split; [done|]. split; [done|].
    split; [by intros m ?%elem_of_nil|]. done.
  - simpl.
    destruct (Hdfs m c Hinv) as (b & c1 & -> & Hpost); [| |done|].
    { apply HV, elem_of_cons. by left. }
    { intros g. apply Hg, elem_of_cons. by left. }
    cbn [mbind res_bind]. destruct b.
    { by exists true, c1. }
    destruct Hpost as (Hinv1 & Hgray1 & Hm & Hblack1 & Hwhite1).
    destruct (IH c1 Hinv1) as (b & c2 & -> & Hpost2).
    { intros m' Hm'. apply HV, elem_of_cons. by right. }
    { intros m' g Hm'. rewrite Hgray1. apply Hg, elem_of_cons. by right. }
    { apply subseteq_size in Hwhite1. lia. }
    exists b, c2. split; [done|]. destruct b; [done|].
    destruct Hpost2 as (Hinv2 & Hgray2 & Hall & Hblack2 & Hwhite2).
    split; [done|]. split; [congruence|]. split; [|split; set_solver].
    intros m' [->|Hm']%elem_of_cons; [|by apply Hall].
    apply Hblack2, Hm, elem_of_cons. by left.
Qed.

Lemma dfs_spec fuel : forall n c,
  colors_inv V edges c -> n ∈ V ->
  (forall g, g ∈ gray c -> tc R g n) ->
  (size (white c) < fuel)%nat ->
  post c [n] (dfs fuel graph n c).
Proof.
  induction fuel as [|fuel IH]; intros n c Hinv Hn Hg Hfuel; [lia|].
  cbn [dfs]. destruct (decide (n ∈ gray c)) as [Hgray|Hngray].
  { exists true, c. split; [done|]. exists n. by apply Hg. }
  destruct (decide (n ∈ black c)) as [Hblack|Hnblack].
  { exists false, c. split; [done|]. split; [done|]. split; [done|].
    split; [|done]. by intros m ->%list_elem_of_singleton. }
  pose proof Hinv as (Hpart & Hwg & Hwb & Hgb & Hcl & Hac).
  assert (n ∈ white c) as Hwhite by set_solver.
  rewrite decide_True by done.
  assert (n ∈ ids) as Hnids by (by apply elem_of_list_to_set in Hn).
  unfold PyDict.getitem, graph. rewrite (get_tab _ _ _ Hnids).
  cbn [mbind res_bind].
  set (c1 := mkColors (white c ∖ {[n]}) (gray c ∪ {[n]}) (black c)).
  destruct (visit_neighbors_spec fuel IH (succs_of edges n) c1)
    as (b & c2 & Hrun & Hpost).
  { unfold colors_inv, c1; simpl. split; [|split; [|split; [|split]]].
    - rewrite <- Hpart. apply set_eq. intros x.
      destruct (decide (x = n)); set_solver.
    - set_solver.
    - set_solver.
    - set_solver.
    - done. }
  { intros m (e & He & _ & <-)%elem_of_succs_of.
    apply elem_of_list_to_set. by apply edges_valid. }
  { intros m g Hm%elem_of_succs_of. simpl.
    intros [Hgc| ->%elem_of_singleton]%elem_of_union.
    - eapply tc_r; [by apply Hg|done].
    - by apply tc_once. }
  { simpl. rewrite size_difference by set_solver.
    rewrite size_singleton. assert (size (white c) ≠ 0%nat); [|lia].
    intros Hz%size_empty_inv. set_solver. }
  fold graph. rewrite Hrun. cbn [mbind res_bind]. destruct b.
  { by exists true, c2. }
  destruct Hpost as (Hinv2 & Hgray2 & Hall & Hblack2 & Hwhite2).
  simpl in Hgray2, Hblack2, Hwhite2.
  rewrite decide_True by set_solver.
  eexists false, _. split; [done|].
  destruct Hinv2 as (Hpart2 & Hwg2 & Hwb2 & Hgb2 & Hcl2 & Hac2).
  split; [|split; [|split; [|split]]]; simpl.
  - split; [|split; [|split; [|split; [|split]]]]; simpl.
    + rewrite <- Hpart2. apply set_eq. intros x.
      destruct (decide (x = n)); set_solver.
    + set_solver.
    + set_solver.
    + set_solver.
    + intros b v [Hb| ->%elem_of_singleton]%elem_of_union Hr.
      * apply elem_of_union. left. by eapply Hcl2.
      * apply elem_of_union. left. by apply Hall, elem_of_succs_of.
    + intros b [Hb| ->%elem_of_singleton]%elem_of_union; [by apply Hac2|].
      intros Htc.
      assert (exists m, R n m /\ (m = n \/ tc R m n)) as (m & Hr & Hm).
      { inversion Htc; subst; eauto. }
      assert (m ∈ black c2) as Hmb by (by apply Hall, elem_of_succs_of).
      assert (n ∈ black c2); [|set_solver].
      destruct Hm as [->|Hm]; [done|]. by eapply closed_tc.
  - rewrite Hgray2. set_solver.
  - intros m ->%list_elem_of_singleton. set_solver.
  - set_solver.
  - set_solver.
Qed.

Variable pick : gset string -> string.
Hypothesis pick_elem : forall s : gset string, s ≠ ∅ -> pick s ∈ s.

Lemma no_cycle_when_black c :
  colors_inv V edges c -> white c = ∅ -> gray c = ∅ ->
  forall x, ~ tc R x x.
Proof.
  intros (Hpart & _ & _ & _ & _ & Hac) Hw Hg x Htc.
  apply (Hac x); [|done].
  assert (x ∈ V); [|set_solver].
  assert (exists y, R x y) as (y & e & He & <- & _).
  { inversion Htc; subst; eauto. }
  apply elem_of_list_to_set. by apply edges_valid.
Qed.

Lemma has_cycles_loop_spec fuel : forall c,
  colors_inv V edges c -> gray c = ∅ ->
  (size (white c) < fuel)%nat ->
  exists b, has_cycles_loop pick fuel graph c = Ok b
            /\ (b = true <-> exists x, tc R x x).
Proof.
  induction fuel as [|fuel IH]; intros c Hinv Hgray Hfuel; [lia|].
  cbn [has_cycles_loop]. destruct (decide (white c = ∅)) as [Hw|Hw].
  { exists false. split; [done|]. split; [done|].
    intros [x Hx]. by destruct (no_cycle_when_black c Hinv Hw Hgray x). }
  pose proof (pick_elem _ Hw) as Hpick.
  destruct (dfs_spec (S (size (white c))) (pick (white c)) c Hinv)
    as (b & c' & -> & Hpost).
  { destruct Hinv as (Hpart & _). set_solver. }
  { intros g. rewrite Hgray. set_solver. }
  { lia. }
  cbn [mbind res_bind]. destruct b.
  { exists true. done. }
  destruct Hpost as (Hinv' & Hgray' & Hb & _ & Hwhite').
  apply IH; [done|congruence|].
  assert (white c' ⊂ white c) as Hlt%subset_size; [|lia].
  split; [done|]. intros Hsub.
  destruct Hinv' as (_ & _ & Hwb & _).
  assert (pick (white c) ∈ black c').
  { apply Hb, elem_of_cons. by left. }
  set_solver.
Qed.

End dfs.

Lemma has_cycles_unfold pick nodes edges :
  NoDup (map id nodes) ->
  edges_over (map id nodes) edges ->
  _has_cycles pick nodes edges
  = has_cycles_loop pick
      (S (size (list_to_set (map id nodes) : gset string)))
      (tab (map id nodes) (succs_of edges))
      (mkColors (list_to_set (map id nodes)) ∅ ∅).
Proof.
  intros Hnd Hover. unfold _has_cycles.
  rewrite (comprehension_tab id _ (fun _ => []) nodes Hnd) by done.
  change (tab (map id nodes) (fun _ => []))
    with (tab (map id nodes) (succs_of [])).
  by rewrite (build_adjacency_spec (map id nodes) edges [] Hnd Hover).
Qed.

Lemma colors_inv_init (V : gset string) edges :
  colors_inv V edges (mkColors V ∅ ∅).
Proof.
  split; [set_solver|]. split; [set_solver|]. split; [set_solver|].
  split; [set_solver|]. split; [|set_solver]. intros b v. set_solver.
Qed.

Lemma has_cycles_false_acyclic pick nodes edges :
  (forall s : gset string, s ≠ ∅ -> pick s ∈ s) ->
  NoDup (map id nodes) ->
  edges_over (map id nodes) edges ->
  _has_cycles pick nodes edges = Ok false ->
  acyclic edges.
Proof.
  intros Hpick Hnd Hover. rewrite has_cycles_unfold by done.
  destruct (has_cycles_loop_spec nodes edges Hnd Hover pick Hpick
              (S (size (list_to_set (map id nodes) : gset string)))
              (mkColors (list_to_set (map id nodes)) ∅ ∅))
    as (b & -> & Hiff); [apply colors_inv_init|done|simpl; lia|].
  intros [= ->] x Hx.
  assert (false = true) as Hf; [|done]. apply Hiff. by exists x.
Qed.

(** C2: on nodes with unique ids and edges that join them, [_has_cycles]
    returns, whichever element the interpreter takes first from the white
    set, and returns [true] exactly when some node reaches itself along
    one or more edges, wherever in the graph that cycle lies. *)
Theorem has_cycles_correct (pick : gset string -> string) nodes edges :
  (forall s : gset string, s ≠ ∅ -> pick s ∈ s) ->
  NoDup (map id nodes) ->
  edges_over (map id nodes) edges ->
  exists b,
    _has_cycles pick nodes edges = Ok b
    /\ (b = true <-> exists x, tc (edge_rel edges) x x).
Proof.
  intros Hpick Hnd Hover. rewrite has_cycles_unfold by done.
  apply (has_cycles_loop_spec nodes edges Hnd Hover pick Hpick).
  - apply colors_inv_init.
  - done.
  - simpl. lia.
Qed.

(** ** Concrete workflows *)

Lemma acyclic_by_rank edges (rank : string -> nat) :
  (forall e, e ∈ edges -> (rank (source e) < rank (target e))%nat) ->
  acyclic edges.
Proof.
  intros Hrank x Hx.
  assert (forall u v, tc (edge_rel edges) u v -> (rank u < rank v)%nat) as Hlt.
  { intros u v Htc. induction Htc as [u v (e & He & <- & <-)
                                     |u v w (e & He & <- & <-) _ IH].
    - by apply Hrank.
    - specialize (Hrank e He). lia. }
  specialize (Hlt x x Hx). lia.
Qed.

Lemma pick_first_elem (s : gset string) : s ≠ ∅ -> pick_first s ∈ s.
Proof.
  intros Hne. unfold pick_first.
  destruct (elements s) as [|x l] eqn:Hel.
  - by apply elements_empty_inv, leibniz_equiv in Hel.
  - simpl. apply elem_of_elements. rewrite Hel. apply elem_of_cons. by left.
Qed.

Lemma edges_over_ab :
  edges_over ["b"; "a"] [plain_edge "a" "b"].
Proof.
  intros e ->%list_elem_of_singleton. simpl.
  split; [apply elem_of_cons; right|]; apply elem_of_cons; by left.
Qed.

Lemma topological_sort_correct_witness :
  exists order,
    _topological_sort [plain_node "b" DOCUMENT; plain_node "a" DOCUMENT]
      [plain_edge "a" "b"] = Ok order
    /\ order ≡ₚ [plain_node "b" DOCUMENT; plain_node "a" DOCUMENT].
Proof.
  destruct (topological_sort_correct
              [plain_node "b" DOCUMENT; plain_node "a" DOCUMENT]
              [plain_edge "a" "b"]) as (order & Hrun & Hperm & _).
  - apply (bool_decide_unpack _). vm_compute. reflexivity.
  - exact edges_over_ab.
  - apply (acyclic_by_rank _ rank_ab).
    intros e ->%list_elem_of_singleton. vm_compute. lia.
  - exists order. split; assumption.
Defined.

Lemma has_cycles_correct_witness :
  exists b,
    _has_cycles pick_first
      [plain_node "b" DOCUMENT; plain_node "a" DOCUMENT]
      [plain_edge "a" "b"] = Ok b
    /\ (b = true <-> exists x, tc (edge_rel [plain_edge "a" "b"]) x x).
Proof.
  apply (has_cycles_correct pick_first).
  - exact pick_first_elem.
  - apply (bool_decide_unpack _). vm_compute. reflexivity.
  - exact edges_over_ab.
Defined.

(** ** The input of a node *)

Lemma get_collect_inputs input_edges context : forall inputs p,
  PyDict.get p (collect_inputs input_edges context inputs)
  = if decide (p ∈ map source input_edges)
    then Some (ExecutionContext.get_node_output context p)
    else PyDict.get p inputs.
Proof.
  induction input_edges as [|e es IH]; intros inputs p;
    cbn [collect_inputs map].
  - destruct (decide (p ∈ [])) as [?%elem_of_nil|]; done.
  - rewrite IH. destruct (decide (p ∈ map source es)) as [Hin|Hnin].
    + rewrite decide_True; [done|]. apply elem_of_cons. by right.
    + destruct (decide (p = source e)) as [->|Hne].
      * rewrite decide_True by (apply elem_of_cons; by left).
        by rewrite get_set_eq.
      * rewrite decide_False.
        -- by rewrite get_set_ne.
        -- by intros [?|?]%elem_of_cons.
Qed.

Lemma get_node_output_log level message nid details context p :
  ExecutionContext.get_node_output
    (ExecutionContext.log level message nid details context) p
  = ExecutionContext.get_node_output context p.
Proof. done. Qed.

Lemma get_node_input_data_single node edges context initial_input edge :
  filter (fun e => target e = id node) edges = [edge] ->
  (_get_node_input_data node edges context initial_input).1
  = ExecutionContext.get_node_output context (source edge).
Proof. intros Hin. unfold _get_node_input_data. by rewrite Hin. Qed.

(** C3: the input [_get_node_input_data] computes for a node is the
    initial input when no edge targets the node; when exactly one edge
    targets it, the output of the result recorded in the context under
    the id of the edge's source, itself and not wrapped in a map ([None]
    when no result is recorded there); and, when two or more edges
    target it, a map whose keys are exactly the sources of those edges,
    each mapped to the output of the result recorded under that id. *)
Theorem get_node_input_data_cases node edges context initial_input :
  let incoming := filter (fun e => target e = id node) edges in
  let input := (_get_node_input_data node edges context initial_input).1 in
  match incoming with
  | [] => input = initial_input
  | [edge] =>
      input
      = match PyDict.get (source edge)
                (ExecutionContext.node_results context) with
        | Some result => output_data result
        | None => VNone
        end
  | _ :: _ :: _ =>
      exists inputs, input = VDict inputs
        /\ forall p,
             PyDict.get p inputs
             = if decide (p ∈ map source incoming)
               then Some
                      match PyDict.get p
                              (ExecutionContext.node_results context) with
                      | Some result => output_data result
                      | None => VNone
                      end
               else None
  end.
Proof.
  intros incoming input. unfold input, _get_node_input_data.
  fold incoming. destruct incoming as [|e1 [|e2 rest]]; [done..|].
  cbn [fst]. eexists. split; [done|]. intros p.
  rewrite get_collect_inputs. by case_decide.
Qed.

(** ** The executor entry point *)

Lemma execute_total (py_str : value -> string) (self : NodeExecutor) node
    context input_data :
  exists context' result,
    BaseNodeExecutor.execute py_str self node context input_data
    = (context', inr result)
    /\ node_id result = id node.
Proof.
  unfold BaseNodeExecutor.execute, BaseNodeExecutor.execute_try.
  destruct (validate_config self (config node)) as [?|[]].
  - by eexists _, _.
  - destruct (_execute_impl self node _ input_data) as [c' [?|out]];
      by eexists _, _.
  - by eexists _, _.
Qed.

(** C8: [execute] always returns a [NodeExecutionResult] for the node it
    was given, whatever the executor's methods do; when the [try] block
    raised (the validation raised or rejected the configuration, or the
    kind-specific logic raised), the result is [failed] with the message
    of the exception and no output, and the context has gained exactly
    one more entry, of level [error], for that node. *)
Theorem execute_never_raises (py_str : value -> string)
    (self : NodeExecutor) node context input_data :
  let started :=
    BaseNodeExecutor.log_start py_str self node context input_data in
  exists context' result,
    BaseNodeExecutor.execute py_str self node context input_data
    = (context', inr result)
    /\ node_id result = id node
    /\ (forall raised e,
          BaseNodeExecutor.execute_try self node started input_data
          = (raised, inl e) ->
          status result = FAILED
          /\ error_message result = Some (exn_msg e)
          /\ output_data result = VNone
          /\ exists entry,
               ExecutionContext.logs context'
               = ExecutionContext.logs raised ++ [entry]
               /\ log_level entry = ERROR
               /\ log_node_id entry = Some (id node))
    /\ (forall completed result',
          BaseNodeExecutor.execute_try self node started input_data
          = (completed, inr result') ->
          result = result' /\ status result = COMPLETED)
    /\ (forall e,
          validate_config self (config node) = inl e ->
          BaseNodeExecutor.execute_try self node started input_data
          = (started, inl e))
    /\ (validate_config self (config node) = inr false ->
          exists e,
            BaseNodeExecutor.execute_try self node started input_data
            = (started, inl e))
    /\ (forall raised e,
          validate_config self (config node) = inr true ->
          _execute_impl self node started input_data = (raised, inl e) ->
          BaseNodeExecutor.execute_try self node started input_data
          = (raised, inl e)).
Proof.
  intros started. unfold BaseNodeExecutor.execute. fold started.
  assert (forall c r,
            BaseNodeExecutor.execute_try self node started input_data
            = (c, inr r) -> node_id r = id node /\ status r = COMPLETED)
    as Hok.
  { unfold BaseNodeExecutor.execute_try. intros c r.
    destruct (validate_config self (config node)) as [?|[]]; [done| |done].
    destruct (_execute_impl self node started input_data) as [c' [?|out]];
      [done|].
    intros [= <- <-]. done. }
  assert ((forall e,
             validate_config self (config node) = inl e ->
             BaseNodeExecutor.execute_try self node started input_data
             = (started, inl e))
          /\ (validate_config self (config node) = inr false ->
                exists e,
                  BaseNodeExecutor.execute_try self node started input_data
                  = (started, inl e))
          /\ (forall raised e,
                validate_config self (config node) = inr true ->
                _execute_impl self node started input_data
                = (raised, inl e) ->
                BaseNodeExecutor.execute_try self node started input_data
                = (raised, inl e))) as Hraise.
  { unfold BaseNodeExecutor.execute_try.
    destruct (validate_config self (config node)) as [e1|[]].
    - split; [by intros e' [= <-]|]. split; done.
    - split; [done|]. split; [done|]. by intros raised e' _ ->.
    - split; [done|]. split; [|done]. intros _. by eexists. }
  destruct (BaseNodeExecutor.execute_try self node started input_data)
    as [c [e|r]] eqn:Htry.
  - eexists _, _. split; [done|]. split; [done|].
    split; [|split; [done|done]].
    intros raised e' [= <- <-]. repeat split; try done.
    eexists. split; [done|]. done.
  - destruct (Hok c r eq_refl) as [Hid Hst].
    eexists _, _. split; [done|]. split; [done|].
    split; [done|]. split; [by intros ? ? [= <- <-]|done].
Qed.

Lemma execute_failed_no_output (py_str : value -> string)
    (self : NodeExecutor) node context input_data context' result :
  BaseNodeExecutor.execute py_str self node context input_data
  = (context', inr result) ->
  status result = FAILED -> output_data result = VNone.
Proof.
  unfold BaseNodeExecutor.execute, BaseNodeExecutor.execute_try.
  destruct (validate_config self (config node)) as [?|[]].
  - by intros [= <- <-].
  - destruct (_execute_impl self node _ input_data) as [c' [?|out]].
    + by intros [= <- <-].
    + by intros [= <- <-].
  - by intros [= <- <-].
Qed.

Lemma execute_node_failed_no_output (py_str : value -> string)
    get_executor node context input_data :
  status (_execute_node py_str get_executor node context input_data).1
  = FAILED ->
  output_data (_execute_node py_str get_executor node context input_data).1
  = VNone.
Proof.
  unfold _execute_node. destruct (get_executor (type node)) as [e|ex]; [done|].
  destruct (execute_total py_str ex node context input_data)
    as (c' & r & Hrun & _).
  rewrite Hrun. simpl. by eapply execute_failed_no_output.
Qed.

Lemma get_node_output_recorded result context :
  ExecutionContext.get_node_output
    (ExecutionContext.set_node_result result context) (node_id result)
  = output_data result.
Proof.
  unfold ExecutionContext.get_node_output, ExecutionContext.set_node_result.
  simpl. by rewrite get_set_eq.
Qed.

(** ** The output read back from the context *)

(** C10: [get_node_output] returns [None] for an id under which nothing
    was recorded and for a recorded result without output; every failed
    result made by [execute] or by [_execute_node] is without output; so
    a node with a single incoming edge gets [None] as its input when its
    predecessor failed, the same input it gets when the predecessor
    completed with the output [None]. *)
Theorem get_node_output_none (py_str : value -> string)
    (get_executor : NodeType -> exn + NodeExecutor) :
  (forall context nid,
     PyDict.get nid (ExecutionContext.node_results context) = None ->
     ExecutionContext.get_node_output context nid = VNone)
  /\ (forall context nid r,
        PyDict.get nid (ExecutionContext.node_results context) = Some r ->
        output_data r = VNone ->
        ExecutionContext.get_node_output context nid = VNone)
  /\ (forall self node context input_data context' r,
        BaseNodeExecutor.execute py_str self node context input_data
        = (context', inr r) ->
        status r = FAILED -> output_data r = VNone)
  /\ (forall node context input_data,
        let r :=
          (_execute_node py_str get_executor node context input_data).1 in
        status r = FAILED -> output_data r = VNone)
  /\ (forall pred pred_context pred_input node edges edge context
             initial_input completed,
        let failed :=
          (_execute_node py_str get_executor pred pred_context
             pred_input).1 in
        filter (fun e => target e = id node) edges = [edge] ->
        source edge = id pred ->
        status failed = FAILED ->
        node_id completed = id pred ->
        status completed = COMPLETED ->
        output_data completed = VNone ->
        (_get_node_input_data node edges
           (ExecutionContext.set_node_result failed context)
           initial_input).1 = VNone
        /\ (_get_node_input_data node edges
              (ExecutionContext.set_node_result completed context)
              initial_input).1 = VNone).
Proof.
  split; [|split; [|split; [|split]]].
  - intros context nid Hget. unfold ExecutionContext.get_node_output.
    by rewrite Hget.
  - intros context nid r Hget Hout. unfold ExecutionContext.get_node_output.
    by rewrite Hget.
  - intros. by eapply execute_failed_no_output.
  - intros. by apply execute_node_failed_no_output.
  - intros pred pred_context pred_input node edges edge context
      initial_input completed failed Hin Hsrc Hfailed Hid Hst Hout.
    assert (node_id failed = id pred) as Hidf.
    { unfold failed, _execute_node.
      destruct (get_executor (type pred)) as [e|ex]; [done|].
      destruct (execute_total py_str ex pred pred_context pred_input)
        as (c' & r & Hrun & Hr).
      by rewrite Hrun. }
    split.
    + rewrite (get_node_input_data_single _ _ _ _ _ Hin), Hsrc, <- Hidf.
      rewrite get_node_output_recorded.
      by apply execute_node_failed_no_output.
    + rewrite (get_node_input_data_single _ _ _ _ _ Hin), Hsrc, <- Hid.
      by rewrite get_node_output_recorded.
Qed.

(** ** The fuel of the embedding suffices *)

Lemma getitem_returns {V} k (d : dict V) : returns (PyDict.getitem k d).
Proof. unfold PyDict.getitem. by destruct (PyDict.get k d). Qed.

Lemma white_apart_enter c n :
  white_apart c ->
  white_apart (mkColors (white c ∖ {[n]}) (gray c ∪ {[n]}) (black c)).
Proof. intros [? ?]. unfold white_apart. simpl. split; set_solver. Qed.

Lemma visit_neighbors_white fuel graph :
  (forall n c b c', white_apart c -> dfs fuel graph n c = Ok (b, c') ->
     white c' ⊆ white c /\ white_apart c') ->
  forall nbrs c b c', white_apart c ->
    visit_neighbors (dfs fuel graph) nbrs c = Ok (b, c') ->
    white c' ⊆ white c /\ white_apart c'.
Proof.
  intros Hdfs. induction nbrs as [|m nbrs IH]; intros c b c' Hc; simpl.
  - by intros [= _ <-].
  - destruct (dfs fuel graph m c) as [[b1 c1]| |] eqn:Hd; [|done..].
    destruct (Hdfs m c b1 c1 Hc Hd) as [Hsub Hc1].
    cbn [mbind res_bind]. destruct b1; [by intros [= _ <-]|].
    intros Hrest. destruct (IH c1 b c' Hc1 Hrest) as [Hsub' Hc'].
    split; [set_solver|done].
Qed.

Lemma dfs_white fuel graph : forall n c b c',
  white_apart c -> dfs fuel graph n c = Ok (b, c') ->
  white c' ⊆ white c /\ white_apart c' /\ (b = false -> n ∉ white c').
Proof.
  induction fuel as [|fuel IH]; intros n c b c' Hc; [done|].
  cbn [dfs]. destruct (decide (n ∈ gray c)); [by intros [= <- <-]|].
  destruct (decide (n ∈ black c)) as [Hb|].
  { intros [= <- <-]. destruct Hc. split; [done|]. split; [done|].
    set_solver. }
  destruct (decide (n ∈ white c)) as [Hw|]; [|done].
  destruct (PyDict.getitem n graph) as [nbrs| |]; [|done..].
  cbn [mbind res_bind].
  pose proof (white_apart_enter c n Hc) as Hc1.
  destruct (visit_neighbors _ nbrs _) as [[b2 c2]| |] eqn:Hloop; [|done..].
  assert (forall n c b c', white_apart c -> dfs fuel graph n c = Ok (b, c') ->
            white c' ⊆ white c /\ white_apart c') as IH'.
  { intros m c0 b0 c0' Hc0 Hd.
    by destruct (IH m c0 b0 c0' Hc0 Hd) as (? & ? & _). }
  destruct (visit_neighbors_white fuel graph IH' nbrs _ b2 c2 Hc1 Hloop)
    as [Hsub [Hg2 Hb2]].
  simpl in Hsub. cbn [mbind res_bind]. destruct b2.
  { intros [= <- <-]. split; [set_solver|]. done. }
  destruct (decide (n ∈ gray c2)); [|done]. intros [= <- <-].
  unfold white_apart. simpl. split; [set_solver|].
  split; [split; set_solver|]. set_solver.
Qed.

Lemma visit_neighbors_returns fuel graph :
  (forall n c, white_apart c -> (size (white c) < fuel)%nat ->
     returns (dfs fuel graph n c)) ->
  forall nbrs c, white_apart c -> (size (white c) < fuel)%nat ->
    returns (visit_neighbors (dfs fuel graph) nbrs c).
Proof.
  intros Hdfs. induction nbrs as [|m nbrs IH]; intros c Hc Hfuel; simpl.
  - done.
  - specialize (Hdfs m c Hc Hfuel).
    destruct (dfs fuel graph m c) as [[b c1]| |] eqn:Hd; [|done..].
    destruct (dfs_white fuel graph m c b c1 Hc Hd) as (Hsub & Hc1 & _).
    cbn [mbind res_bind]. destruct b; [done|].
    apply IH; [done|]. apply subseteq_size in Hsub. lia.
Qed.

Lemma dfs_returns fuel graph : forall n c,
  white_apart c -> (size (white c) < fuel)%nat ->
  returns (dfs fuel graph n c).
Proof.
  induction fuel as [|fuel IH]; intros n c Hc Hfuel; [lia|].
  cbn [dfs]. destruct (decide (n ∈ gray c)); [done|].
  destruct (decide (n ∈ black c)); [done|].
  destruct (decide (n ∈ white c)) as [Hw|]; [|done].
  pose proof (getitem_returns n graph) as Hget.
  destruct (PyDict.getitem n graph) as [nbrs| |]; [|done..].
  cbn [mbind res_bind].
  pose proof (white_apart_enter c n Hc) as Hc1.
  pose proof (visit_neighbors_returns fuel graph IH nbrs _ Hc1) as Hloop.
  destruct (visit_neighbors _ nbrs _) as [[b c2]| |]; [|done|].
  - cbn [mbind res_bind]. destruct b; [done|]. by case_decide.
  - apply Hloop. simpl. rewrite size_difference by set_solver.
    rewrite size_singleton. assert (size (white c) ≠ 0%nat); [|lia].
    intros Hz%size_empty_inv. set_solver.
Qed.

Lemma has_cycles_loop_returns pick fuel graph :
  (forall s : gset string, s ≠ ∅ -> pick s ∈ s) ->
  forall c, white_apart c -> (size (white c) < fuel)%nat ->
    returns (has_cycles_loop pick fuel graph c).
Proof.
  intros Hpick. induction fuel as [|fuel IH]; intros c Hc Hfuel; [lia|].
  cbn [has_cycles_loop]. destruct (decide (white c = ∅)) as [|Hne]; [done|].
  pose proof (dfs_returns (S (size (white c))) graph (pick (white c)) c Hc)
    as Hd.
  destruct (dfs _ graph _ c) as [[b c']| |] eqn:Hdfs; [|done|apply Hd; lia].
  cbn [mbind res_bind]. destruct b; [done|].
  destruct (dfs_white _ _ _ _ _ _ Hc Hdfs) as (Hsub & Hc' & Hnot).
  apply IH; [done|].
  assert (white c' ⊂ white c) as Hlt%subset_size; [|lia].
  split; [done|]. intros Hsup. specialize (Hnot eq_refl).
  specialize (Hpick _ Hne). set_solver.
Qed.

Lemma build_adjacency_returns edges : forall graph,
  returns (build_adjacency edges graph).
Proof.
  induction edges as [|e edges IH]; intros graph; simpl; [done|].
  pose proof (getitem_returns (source e) graph).
  destruct (PyDict.getitem (source e) graph); [|done..].
  cbn [mbind res_bind]. apply IH.
Qed.

Lemma has_cycles_returns pick nodes edges :
  (forall s : gset string, s ≠ ∅ -> pick s ∈ s) ->
  returns (_has_cycles pick nodes edges).
Proof.
  intros Hpick. unfold _has_cycles.
  pose proof (build_adjacency_returns edges
                (PyDict.comprehension id (fun _ => []) nodes)) as Hb.
  destruct (build_adjacency _ _) as [graph| |]; [|done..].
  cbn [mbind res_bind]. apply has_cycles_loop_returns; [done| |simpl; lia].
  unfold white_apart. simpl. split; set_solver.
Qed.

(** ** The final output of a run *)

Lemma execute_nodes_ids (py_str : value -> string) get_executor
    execution_order : forall i total request context acc,
  map node_id
    (execute_nodes py_str get_executor execution_order i total request
       context acc).1
  = map node_id acc ++ map id execution_order.
Proof.
  induction execution_order as [|node order IH];
    intros i total request context acc; simpl.
  - by rewrite app_nil_r.
  - destruct (_get_node_input_data node _ _ _) as [input c1].
    destruct (_execute_node py_str get_executor node c1 input)
      as [r c2] eqn:Hexec.
    rewrite IH, map_app. simpl. rewrite <- app_assoc. simpl.
    do 2 f_equal.
    change r with (r, c2).1. rewrite <- Hexec. unfold _execute_node.
    destruct (get_executor (type node)) as [e|ex]; [done|].
    destruct (execute_total py_str ex node c1 input)
      as (c' & r' & Hrun & Hid).
    by rewrite Hrun.
Qed.

Lemma select_final_output_eq node_results :
  select_final_output node_results = last_completed_output node_results.
Proof. by destruct node_results. Qed.

Lemma check_edge_references_nil nodes edges : forall errors,
  check_edge_references nodes edges errors = [] ->
  errors = [] /\ edges_over (map id nodes) edges.
Proof.
  assert (forall k, existsb (fun node => bool_decide (id node = k)) nodes
                    = true -> k ∈ map id nodes) as Hex.
  { intros k (node & Hin & Hk%bool_decide_eq_true)%existsb_exists.
    rewrite <- Hk. by apply list_elem_of_fmap_2, list_elem_of_In. }
  induction edges as [|e edges IH]; intros errors; simpl.
  - intros ->. split; [done|]. by intros e ?%elem_of_nil.
  - intros Hnil. apply IH in Hnil as [Herr Hover].
    destruct (existsb (fun node => bool_decide (id node = source e)) nodes)
      eqn:Hs.
    2:{ revert Herr.
        destruct (existsb (fun node => bool_decide (id node = target e))
                    nodes); intros Herr;
          repeat (apply app_nil in Herr as [Herr ?]); done. }
    destruct (existsb (fun node => bool_decide (id node = target e)) nodes)
      eqn:Ht.
    2:{ apply app_nil in Herr as [_ ?]. done. }
    split; [done|]. intros e' [->|He']%elem_of_cons; [|by apply Hover].
    split; by apply Hex.
Qed.

Lemma sort_graphrag_errors_nil graphrag_errors : forall errors context,
  (sort_graphrag_errors graphrag_errors errors context).1 = [] ->
  errors = [].
Proof.
  induction graphrag_errors as [|g gs IH]; intros errors context; simpl.
  - done.
  - destruct (str_contains _ g); [apply IH|].
    intros Hnil%IH. by apply app_nil in Hnil as [? _].
Qed.

Lemma size_list_to_set_le (l : list string) :
  (size (list_to_set l : gset string) <= length l)%nat.
Proof.
  induction l as [|x l IH].
  - change (size (∅ : gset string) <= 0)%nat. by rewrite size_empty.
  - change (size ({[x]} ∪ list_to_set l : gset string) <= S (length l))%nat.
    rewrite size_union_alt, size_singleton.
    assert (size (list_to_set l ∖ {[x]} : gset string)
            <= size (list_to_set l : gset string))%nat
      by (apply subseteq_size; set_solver).
    lia.
Qed.

Lemma length_size_NoDup (l : list string) :
  length l = size (list_to_set l : gset string) -> NoDup l.
Proof.
  induction l as [|x l IH]; [constructor|].
  change (S (length l) = size ({[x]} ∪ list_to_set l : gset string)
          -> NoDup (x :: l)).
  intros Hlen. pose proof (size_list_to_set_le l) as Hle.
  assert (x ∉ l) as Hx.
  { intros Hin.
    assert (({[x]} ∪ list_to_set l : gset string) = list_to_set l) as Heq
      by set_solver.
    rewrite Heq in Hlen. lia. }
  constructor; [done|]. apply IH.
  rewrite size_union, size_singleton in Hlen by set_solver. lia.
Qed.

Lemma validate_workflow_returns get_executor pick validate_graphrag w
    context :
  (forall s : gset string, s ≠ ∅ -> pick s ∈ s) ->
  returns (_validate_workflow get_executor pick validate_graphrag w
             context).1.
Proof.
  intros Hpick. unfold _validate_workflow.
  destruct (nodes w) as [|n ns] eqn:Hn; [done|].
  pose proof (has_cycles_returns pick (n :: ns) (edges w) Hpick) as Hc.
  destruct (_has_cycles pick (n :: ns) (edges w)); [|done..].
  destruct (validate_graphrag _ _) as [gs c1].
  by destruct (sort_graphrag_errors _ _ _).
Qed.

Lemma validate_workflow_passed get_executor pick validate_graphrag w
    context context' :
  _validate_workflow get_executor pick validate_graphrag w context
  = (Ok [], context') ->
  NoDup (map id (nodes w))
  /\ edges_over (map id (nodes w)) (edges w)
  /\ _has_cycles pick (nodes w) (edges w) = Ok false.
Proof.
  unfold _validate_workflow.
  destruct (nodes w) as [|n ns] eqn:Hn; [done|].
  destruct (_has_cycles pick (n :: ns) (edges w)) as [cyclic| |]; [|done..].
  destruct (validate_graphrag _ _) as [gs c1].
  destruct (sort_graphrag_errors _ _ _) as [errors c2] eqn:Hsort.
  intros [= -> _].
  match type of Hsort with
  | sort_graphrag_errors ?gs ?errs ?c = _ =>
      pose proof (sort_graphrag_errors_nil gs errs c) as Hnil;
      rewrite Hsort in Hnil; specialize (Hnil eq_refl)
  end.
  destruct cyclic.
  { by apply app_nil in Hnil as [_ ?]. }
  apply check_edge_references_nil in Hnil as [Hdup Hover].
  split; [|done]. apply length_size_NoDup.
  destruct (decide (length (map id (n :: ns)) ≠ _)) as [|Heq]; [done|].
  by apply dec_stable in Heq.
Qed.

Lemma execute_workflow_try_returns (py_str : value -> string) get_executor
    pick validate_graphrag execution_id request context :
  (forall s : gset string, s ≠ ∅ -> pick s ∈ s) ->
  returns (execute_workflow_try py_str get_executor pick validate_graphrag
             execution_id request context).1.
Proof.
  intros Hpick. unfold execute_workflow_try.
  pose proof (validate_workflow_returns get_executor pick validate_graphrag
                (workflow request)
                (ExecutionContext.log INFO "Validating workflow structure"
                   None None context) Hpick) as Hv.
  destruct (_validate_workflow _ _ _ _ _) as [[[|err errs]| |] c1] eqn:Hval;
    [|done..].
  apply validate_workflow_passed in Hval as (Hnd & Hover & Hcyc).
  destruct (topological_sort_spec (nodes (workflow request))
              (edges (workflow request)) Hnd Hover) as (order & -> & _).
  { by eapply has_cycles_false_acyclic. }
  by destruct (execute_nodes _ _ _ _ _ _ _ _).
Qed.

(** C4, as the code has it: a run always returns an aggregate result, and
    its [final_output] is the output of the last node, in execution
    order, that completed, whether or not that node has outgoing edges,
    and [None] when no node completed; the results are listed in the
    order of the topological sort. *)
Theorem final_output_last_completed (py_str : value -> string)
    get_executor pick validate_graphrag execution_id request :
  (forall s : gset string, s ≠ ∅ -> pick s ∈ s) ->
  exists result,
    execute_workflow py_str get_executor pick validate_graphrag
      execution_id request = Ok result
    /\ final_output result = last_completed_output (node_results result)
    /\ (node_results result = []
        \/ exists order,
             _topological_sort (nodes (workflow request))
               (edges (workflow request)) = Ok order
             /\ map node_id (node_results result) = map id order).
Proof.
  intros Hpick. unfold execute_workflow.
  match goal with
  | |- context [execute_workflow_try ?a ?b ?c ?d ?e ?f ?g] =>
      pose proof (execute_workflow_try_returns a b c d e f g Hpick) as Hret;
      destruct (execute_workflow_try a b c d e f g) as [[r| |] c1] eqn:Htry
  end; [| |done].
  2:{ eexists. split; [done|]. split; [done|]. by left. }
  exists r. split; [done|]. revert Htry. unfold execute_workflow_try.
  destruct (_validate_workflow _ _ _ _ _) as [[[|]| |] c2]; try done.
  destruct (_topological_sort _ _) as [order| |] eqn:Hsort; try done.
  destruct (execute_nodes _ _ _ _ _ _ _ _) as [rs c3] eqn:Hnodes.
  intros [= <- _]. simpl. split.
  - apply select_final_output_eq.
  - right. exists order. split; [done|].
    change rs with (rs, c3).1. rewrite <- Hnodes.
    by rewrite execute_nodes_ids.
Qed.

Lemma final_output_last_completed_witness :
  exists result,
    execute_workflow str_blank (echo_factory ["c"]) pick_first
      no_graphrag_errors "run" request_a_bc = Ok result
    /\ final_output result = VStr "b"
    /\ final_output result = last_completed_output (node_results result).
Proof.
  destruct (final_output_last_completed str_blank (echo_factory ["c"])
              pick_first no_graphrag_errors "run" request_a_bc
              pick_first_elem) as (result & Hrun & Hfinal & _).
  exists result. split; [exact Hrun|]. split; [|exact Hfinal].
  vm_compute in Hrun. injection Hrun as <-. reflexivity.
Defined.

(** On [a], [b -> c] with [c] failing the run returns the output of [b],
    which has an outgoing edge, although the sink [a] completed. *)
Lemma final_output_sink_counterexample :
  exists result,
    execute_workflow str_blank (echo_factory ["c"]) pick_first
      no_graphrag_errors "run" request_a_bc = Ok result
    /\ map (fun r => (node_id r, status r)) (node_results result)
       = [("a", COMPLETED); ("b", COMPLETED); ("c", FAILED)]
    /\ final_output result = VStr "b"
    /\ final_output_with_sinks (edges (workflow request_a_bc))
         (node_results result) = VStr "a"
    /\ final_output result
       ≠ final_output_with_sinks (edges (workflow request_a_bc))
           (node_results result).
Proof.
  eexists. split; [vm_compute; reflexivity|].
  split; [vm_compute; reflexivity|].
  split; [vm_compute; reflexivity|].
  split; [vm_compute; reflexivity|].
  vm_compute. discriminate.
Qed.

(** ** The input of a node with several predecessors, in a deployment *)

Lemma collect_inputs_fold input_edges context : forall inputs,
  collect_inputs input_edges context inputs
  = fold_left
      (fun d p =>
         PyDict.set p (ExecutionContext.get_node_output context p) d)
      (map source input_edges) inputs.
Proof.
  induction input_edges as [|e es IH]; intros inputs; simpl; [done|].
  by rewrite IH.
Qed.

Lemma fold_set_ext {V} (f g : string -> V) (l : list string) :
  (forall p, p ∈ l -> f p = g p) ->
  forall acc : dict V,
    fold_left (fun d p => PyDict.set p (f p) d) l acc
    = fold_left (fun d p => PyDict.set p (g p) d) l acc.
Proof.
  induction l as [|p l IH]; intros Hfg acc; simpl; [done|].
  rewrite (Hfg p) by (apply elem_of_cons; by left).
  apply IH. intros q Hq. apply Hfg, elem_of_cons. by right.
Qed.

Lemma get_fold_set {V} (f : string -> V) (l : list string) :
  forall (acc : dict V) p,
    PyDict.get p (fold_left (fun d p => PyDict.set p (f p) d) l acc)
    = if decide (p ∈ l) then Some (f p) else PyDict.get p acc.
Proof.
  induction l as [|q l IH]; intros acc p; cbn [fold_left].
  - destruct (decide (p ∈ [])) as [?%elem_of_nil|]; done.
  - rewrite IH. destruct (decide (p ∈ l)) as [Hin|Hnin].
    + rewrite decide_True; [done|]. apply elem_of_cons. by right.
    + destruct (decide (p = q)) as [->|Hne].
      * rewrite decide_True by (apply elem_of_cons; by left).
        by rewrite get_set_eq.
      * rewrite decide_False.
        -- by rewrite get_set_ne.
        -- by intros [?|?]%elem_of_cons.
Qed.

(** C5, as the code has it: for a node with two or more dependencies the
    publisher builds a map with the two entries [dependency_outputs] and
    [initial_input]; the first holds the map the execution service would
    pass as the whole input (keyed by the predecessor ids, each mapped to
    the output data of that predecessor), the second the initial input of
    the invocation; in another order of the dependencies the inner map
    has the same entries. *)
Theorem prepare_node_input_multi node_id dependency_ids node_outputs
    initial_input :
  (2 <= length dependency_ids)%nat ->
  exists dependency_outputs,
    DynamicRouteService._prepare_node_input node_id dependency_ids
      node_outputs initial_input
    = VDict [("dependency_outputs", VDict dependency_outputs);
             ("initial_input", initial_input)]
    /\ (forall p,
          PyDict.get p dependency_outputs
          = if decide (p ∈ dependency_ids)
            then Some (DynamicRouteService.extract_output_data
                         (DynamicRouteService.outputs_get p node_outputs))
            else None)
    /\ (forall node edges context,
          map source (filter (fun e => target e = id node) edges)
          = dependency_ids ->
          (forall p, p ∈ dependency_ids ->
             ExecutionContext.get_node_output context p
             = DynamicRouteService.extract_output_data
                 (DynamicRouteService.outputs_get p node_outputs)) ->
          (_get_node_input_data node edges context initial_input).1
          = VDict dependency_outputs)
    /\ (forall dependency_ids', dependency_ids' ≡ₚ dependency_ids ->
          exists dependency_outputs',
            DynamicRouteService._prepare_node_input node_id dependency_ids'
              node_outputs initial_input
            = VDict [("dependency_outputs", VDict dependency_outputs');
                     ("initial_input", initial_input)]
            /\ forall p,
                 PyDict.get p dependency_outputs'
                 = PyDict.get p dependency_outputs).
Proof.
  intros Hlen.
  assert (forall ids, (2 <= length ids)%nat ->
            DynamicRouteService._prepare_node_input node_id ids
              node_outputs initial_input
            = VDict
                [("dependency_outputs",
                  VDict
                    (fold_left
                       (fun d p =>
                          PyDict.set p
                            (DynamicRouteService.extract_output_data
                               (DynamicRouteService.outputs_get p
                                  node_outputs)) d) ids []));
                 ("initial_input", initial_input)]) as Hshape.
  { intros [|a [|b ids]] Hl; simpl in Hl; [lia..|]. done. }
  eexists. split; [by apply Hshape|]. split; [|split].
  - intros p. by rewrite get_fold_set.
  - intros node edges context Hsrc Hout.
    unfold _get_node_input_data.
    destruct (filter _ edges) as [|e1 [|e2 es]] eqn:Hf;
      rewrite <- Hsrc in Hlen; simpl in Hlen; [lia..|].
    cbn [fst]. f_equal. rewrite collect_inputs_fold, Hsrc.
    by apply fold_set_ext.
  - intros ids' Hperm. eexists. split.
    + apply Hshape. by rewrite Hperm.
    + intros p. rewrite !get_fold_set.
      destruct (decide (p ∈ ids')) as [Hin|Hnin].
      * rewrite decide_True; [done|]. by rewrite <- Hperm.
      * rewrite decide_False; [done|]. by rewrite <- Hperm.
Qed.

Lemma prepare_node_input_multi_witness :
  exists dependency_outputs,
    DynamicRouteService._prepare_node_input "d" ["b"; "c"] outputs_bc VNone
    = VDict [("dependency_outputs", VDict dependency_outputs);
             ("initial_input", VNone)]
    /\ (_get_node_input_data (plain_node "d" DOCUMENT)
          [plain_edge "b" "d"; plain_edge "c" "d"] context_bc VNone).1
       = VDict dependency_outputs.
Proof.
  destruct (prepare_node_input_multi "d" ["b"; "c"] outputs_bc VNone)
    as (inner & Hshape & _ & Hsame & _).
  - simpl. lia.
  - exists inner. split; [exact Hshape|].
    apply Hsame.
    + vm_compute. reflexivity.
    + intros p Hp. 
      apply elem_of_cons in Hp as [->|Hp]; [vm_compute; reflexivity|].
      apply elem_of_cons in Hp as [->|Hp]; [vm_compute; reflexivity|].
      by apply elem_of_nil in Hp.
Defined.

(** For [b, c -> d] the execution service passes [{b: ob, c: oc}] and the
    publisher [{dependency_outputs: {b: ob, c: oc}, initial_input: None}],
    in which [b] is not a key. *)
Lemma prepare_node_input_counterexample :
  (_get_node_input_data (plain_node "d" DOCUMENT)
     [plain_edge "b" "d"; plain_edge "c" "d"] context_bc VNone).1
  = VDict [("b", VStr "ob"); ("c", VStr "oc")]
  /\ DynamicRouteService._prepare_node_input "d" ["b"; "c"] outputs_bc VNone
     = VDict [("dependency_outputs",
               VDict [("b", VStr "ob"); ("c", VStr "oc")]);
              ("initial_input", VNone)]
  /\ DynamicRouteService._prepare_node_input "d" ["b"; "c"] outputs_bc VNone
     ≠ (_get_node_input_data (plain_node "d" DOCUMENT)
          [plain_edge "b" "d"; plain_edge "c" "d"] context_bc VNone).1
  /\ (forall d,
        DynamicRouteService._prepare_node_input "d" ["b"; "c"] outputs_bc
          VNone = VDict d ->
        PyDict.get "b" d = None).
Proof.
  split; [vm_compute; reflexivity|].
  split; [vm_compute; reflexivity|].
  split; [vm_compute; discriminate|].
  intros d. vm_compute. intros [= <-]. reflexivity.
Qed.

(** ** The routes of a deployment *)

(** C9, as the code has it: deploying a workflow of one model-completion
    node and one document node registers six routes on the prefixed
    router (two status routes, the completion route of the model node,
    and health, execute and execute-stream) and three on the unprefixed
    router, which gets the node routes but not the workflow-level ones:
    nine routes in all, and nine endpoint descriptions. *)
Theorem routes_of_two_node_deployment (py_str : value -> string) self heap
    r_ai r_doc n_ai n_doc workflow_nodes workflow_edges deployment_id :
  heap !! r_ai = Some n_ai ->
  heap !! r_doc = Some n_doc ->
  DynamicRouteService.is_ai_type (type n_ai) = true ->
  type n_doc = DOCUMENT ->
  workflow_nodes = [r_ai; r_doc] \/ workflow_nodes = [r_doc; r_ai] ->
  exists endpoints self' info,
    DynamicRouteService.generate_routes_from_workflow py_str self heap
      workflow_nodes workflow_edges deployment_id = Ok (endpoints, self')
    /\ PyDict.get deployment_id
         (DynamicRouteService.registered_routes self') = Some info
    /\ length (DynamicRouteService.routes
                 (DynamicRouteService.router info)) = 6%nat
    /\ count_routes is_status_route
         (DynamicRouteService.routes (DynamicRouteService.router info))
       = 2%nat
    /\ count_routes is_action_route
         (DynamicRouteService.routes (DynamicRouteService.router info))
       = 1%nat
    /\ count_routes is_workflow_route
         (DynamicRouteService.routes (DynamicRouteService.router info))
       = 3%nat
    /\ length (DynamicRouteService.routes
                 (DynamicRouteService.direct_router info)) = 3%nat
    /\ count_routes is_workflow_route
         (DynamicRouteService.routes
            (DynamicRouteService.direct_router info)) = 0%nat
    /\ length (DynamicRouteService.app self')
       = (length (DynamicRouteService.app self) + 9)%nat
    /\ length endpoints = 9%nat.
Proof.
  intros Hai Hdoc Hty_ai Hty_doc Horder.
  destruct n_ai as [i1 ty1 p1 d1 c1], n_doc as [i2 ty2 p2 d2 c2].
  simpl in Hty_ai, Hty_doc. subst ty2.
  unfold DynamicRouteService.generate_routes_from_workflow.
  destruct Horder as [-> | ->];
    cbn [DynamicRouteService.create_all_node_endpoints];
    unfold DynamicRouteService.deref; rewrite Hai, Hdoc;
    cbn [mbind res_bind];
    destruct ty1; try discriminate Hty_ai;
    (eexists _, _, _; split; [reflexivity|]; split;
     [cbn [DynamicRouteService.registered_routes]; apply get_set_eq|];
     cbn [DynamicRouteService.router DynamicRouteService.direct_router
          DynamicRouteService.routes DynamicRouteService.app];
     rewrite ?length_app; repeat split; try reflexivity;
     cbn [length DynamicRouteService.routes DynamicRouteService.add_route
          app]; lia).
Qed.

Lemma routes_of_two_node_deployment_witness :
  exists endpoints self' info,
    DynamicRouteService.generate_routes_from_workflow str_blank
      (DynamicRouteService.init []) store_ai_doc [0%nat; 1%nat] [] "dep"
    = Ok (endpoints, self')
    /\ PyDict.get "dep" (DynamicRouteService.registered_routes self')
       = Some info
    /\ length (DynamicRouteService.routes
                 (DynamicRouteService.router info)) = 6%nat
    /\ length (DynamicRouteService.routes
                 (DynamicRouteService.direct_router info)) = 3%nat.
Proof.
  destruct (routes_of_two_node_deployment str_blank
              (DynamicRouteService.init []) store_ai_doc 0%nat 1%nat
              (plain_node "ai-1" CLAUDE4) (plain_node "doc-1" DOCUMENT)
              [0%nat; 1%nat] [] "dep")
    as (endpoints & self' & info & Hrun & Hinfo & H6 & _ & _ & _ & H3 & _).
  - vm_compute. reflexivity.
  - vm_compute. reflexivity.
  - vm_compute. reflexivity.
  - reflexivity.
  - left. reflexivity.
  - exists endpoints, self', info. repeat split; assumption.
Defined.

(** The routes registered for ["ai-1"] (completion kind) and ["doc-1"]
    (document kind) are nine, not twelve. *)
Lemma route_count_counterexample :
  exists endpoints self',
    DynamicRouteService.generate_routes_from_workflow str_blank
      (DynamicRouteService.init []) store_ai_doc [0%nat; 1%nat] [] "dep"
    = Ok (endpoints, self')
    /\ route_paths (DynamicRouteService.app self')
       = [("POST", "/api/deployed/dep/nodes/ai-1/completion");
          ("GET", "/api/deployed/dep/nodes/ai-1/status");
          ("GET", "/api/deployed/dep/nodes/doc-1/status");
          ("GET", "/api/deployed/dep/health");
          ("POST", "/api/deployed/dep/execute");
          ("POST", "/api/deployed/dep/execute-stream");
          ("POST", "/nodes/ai-1/completion");
          ("GET", "/nodes/ai-1/status");
          ("GET", "/nodes/doc-1/status")]
    /\ length (DynamicRouteService.app self') = 9%nat
    /\ length (DynamicRouteService.app self') ≠ 12%nat.
Proof.
  eexists _, _. split; [vm_compute; reflexivity|].
  split; [vm_compute; reflexivity|].
  split; [vm_compute; reflexivity|].
  vm_compute. discriminate.
Qed.

(** ** The final output of the two workflow routes *)

(** C7 fails on the code: the execute route takes the output of the last
    node without dependents as it is, also when that node ran into an
    error or never ran, where the execute-stream route passes on to the
    last node with an output that is no error. On the stalled deployment
    the first answers [None] and the second the output of [a]; on the
    deployment whose last node cannot be executed the first answers the
    error value and the second the output of [a]. *)
Lemma final_output_routes_differ :
  response_final_output
    (DynamicRouteService.invoke str_blank (echo_factory [])
       (deployed store_stall [0; 1; 2]%nat edges_stall) store_stall
       (DynamicRouteService.workflow_execute_handler "dep") empty_request)
  = Some VNone
  /\ response_final_output
       (DynamicRouteService.invoke str_blank (echo_factory [])
          (deployed store_stall [0; 1; 2]%nat edges_stall) store_stall
          (DynamicRouteService.workflow_stream_handler "dep") empty_request)
     = Some (VStr "a")
  /\ response_final_output
       (DynamicRouteService.invoke str_blank factory_without_vapi
          (deployed store_az [0; 1]%nat []) store_az
          (DynamicRouteService.workflow_execute_handler "dep") empty_request)
     = Some (VDict [("error", VBool true);
                    ("error_message", VStr "no executor");
                    ("node_id", VStr "z"); ("node_type", VStr "vapi")])
  /\ response_final_output
       (DynamicRouteService.invoke str_blank factory_without_vapi
          (deployed store_az [0; 1]%nat []) store_az
          (DynamicRouteService.workflow_stream_handler "dep") empty_request)
     = Some (VStr "a").
Proof.
  split; [vm_compute; reflexivity|].
  split; [vm_compute; reflexivity|].
  split; [vm_compute; reflexivity|].
  vm_compute; reflexivity.
Qed.

(** ** The chaining loop comes to an end *)

Section chain_returns.

Variable f :
  nat -> value -> string -> DynamicRouteService.store ->
  res (value * DynamicRouteService.store).
Hypothesis f_returns : forall r input position heap,
  returns (f r input position heap).

Lemma run_start_nodes_returns todo graph initial_input : forall heap st,
  returns (DynamicRouteService.run_start_nodes f todo graph initial_input
             heap st).
Proof.
  induction todo as [|n todo IH]; intros heap st; simpl; [done|].
  pose proof (getitem_returns n (DynamicRouteService.graph_nodes graph)).
  destruct (PyDict.getitem n _) as [r| |]; [|done..].
  cbn [mbind res_bind]. pose proof (f_returns r initial_input "START" heap).
  destruct (f r initial_input "START" heap) as [[v h]| |]; [|done..].
  cbn [mbind res_bind]. apply IH.
Qed.

Lemma run_ready_nodes_returns ready graph initial_input : forall heap st,
  returns (DynamicRouteService.run_ready_nodes f ready graph initial_input
             heap st).
Proof.
  induction ready as [|n ready IH]; intros heap st; simpl; [done|].
  pose proof (getitem_returns n (DynamicRouteService.dependencies graph)).
  destruct (PyDict.getitem n (DynamicRouteService.dependencies graph))
    as [deps| |]; [|done..].
  cbn [mbind res_bind].
  pose proof (getitem_returns n (DynamicRouteService.graph_nodes graph)).
  destruct (PyDict.getitem n _) as [r| |]; [|done..].
  cbn [mbind res_bind].
  match goal with
  | |- context [f ?a ?b ?c ?d] =>
      pose proof (f_returns a b c d); destruct (f a b c d) as [[v h]| |]
  end; [|done..].
  cbn [mbind res_bind]. apply IH.
Qed.

Lemma run_ready_nodes_executed ready graph initial_input :
  forall heap st st' heap',
    DynamicRouteService.run_ready_nodes f ready graph initial_input heap st
    = Ok (st', heap') ->
    DynamicRouteService.executed_nodes st'
    = DynamicRouteService.executed_nodes st ∪ list_to_set ready.
Proof.
  induction ready as [|n ready IH]; intros heap st st' heap'; simpl.
  - intros [= <- _]. set_solver.
  - destruct (PyDict.getitem n (DynamicRouteService.dependencies graph))
      as [deps| |]; [|done..].
    cbn [mbind res_bind].
    destruct (PyDict.getitem n _) as [r| |]; [|done..].
    cbn [mbind res_bind].
    match goal with
    | |- context [f ?a ?b ?c ?d] => destruct (f a b c d) as [[v h]| |]
    end; [|done..].
    cbn [mbind res_bind]. intros Hrest%IH. rewrite Hrest. simpl.
    set_solver.
Qed.

Lemma ready_nodes_fresh graph st n :
  n ∈ DynamicRouteService.ready_nodes graph st ->
  n ∉ DynamicRouteService.executed_nodes st.
Proof.
  unfold DynamicRouteService.ready_nodes.
  intros (item & -> & [[Hn _] _]%list_elem_of_filter)%list_elem_of_fmap.
  done.
Qed.

Lemma run_remaining_returns fuel graph initial_input : forall heap st,
  (1 <= fuel)%nat ->
  (length (DynamicRouteService.graph_nodes graph)
   < fuel + size (DynamicRouteService.executed_nodes st))%nat ->
  returns (DynamicRouteService.run_remaining f fuel graph initial_input
             heap st).
Proof.
  induction fuel as [|fuel IH]; intros heap st Hpos Hfuel; [lia|].
  cbn [DynamicRouteService.run_remaining]. case_decide as Hlt; [|done].
  destruct (DynamicRouteService.ready_nodes graph st) as [|n ready] eqn:Hr;
    [done|].
  pose proof (run_ready_nodes_returns (n :: ready) graph initial_input heap
                st) as Hret.
  destruct (DynamicRouteService.run_ready_nodes f _ _ _ _ _)
    as [[st1 h1]| |] eqn:Hrun; [|done..].
  cbn [mbind res_bind].
  apply run_ready_nodes_executed in Hrun.
  assert (n ∉ DynamicRouteService.executed_nodes st) as Hfresh.
  { apply (ready_nodes_fresh graph). rewrite Hr. apply elem_of_cons.
    by left. }
  assert (size (DynamicRouteService.executed_nodes st)
          < size (DynamicRouteService.executed_nodes st1))%nat.
  { apply subset_size. rewrite Hrun. simpl. set_solver. }
  apply IH; lia.
Qed.

Lemma run_chain_returns graph initial_input heap :
  returns (DynamicRouteService.run_chain f graph initial_input heap).
Proof.
  unfold DynamicRouteService.run_chain.
  pose proof (run_start_nodes_returns
                (DynamicRouteService.start_nodes graph) graph initial_input
                heap (DynamicRouteService.mkChain ∅ [] [])) as Hs.
  destruct (DynamicRouteService.run_start_nodes f _ _ _ _ _)
    as [[st h]| |]; [|done..].
  cbn [mbind res_bind]. apply run_remaining_returns; lia.
Qed.

End chain_returns.

Lemma execute_single_node_returns (py_str : value -> string) get_executor
    self heap r input parameters deployment_id position :
  returns (DynamicRouteService._execute_single_node py_str get_executor
             self heap r input parameters deployment_id position)
  /\ returns (DynamicRouteService._execute_single_node_streaming py_str
                get_executor self heap r input parameters deployment_id
                position).
Proof.
  unfold DynamicRouteService._execute_single_node,
    DynamicRouteService._execute_single_node_streaming,
    DynamicRouteService.deref.
  destruct (heap !! r) as [node|]; [|done]. cbn [mbind res_bind].
  split.
  - destruct (get_executor (type node)); [done|].
    destruct (DynamicRouteService.apply_default_config _ _ _ _).
    by destruct (BaseNodeExecutor.execute _ _ _ _ _) as [? [?|?]].
  - destruct (DynamicRouteService.apply_default_config _ _ _ _) as [n h].
    destruct (get_executor (type n)); [done|].
    by destruct (BaseNodeExecutor.execute _ _ _ _ _) as [? [?|?]].
Qed.

Lemma link_edges_returns edges : forall dependencies dependents,
  returns (DynamicRouteService.link_edges edges dependencies dependents).
Proof.
  induction edges as [|e edges IH]; intros dependencies dependents; simpl;
    [done|].
  destruct (_ && _); [|apply IH].
  pose proof (getitem_returns (target e) dependencies).
  destruct (PyDict.getitem (target e) dependencies); [|done..].
  cbn [mbind res_bind].
  pose proof (getitem_returns (source e) dependents).
  destruct (PyDict.getitem (source e) dependents); [|done..].
  cbn [mbind res_bind]. apply IH.
Qed.

Lemma build_execution_graph_returns self heap nodes deployment_id :
  returns (DynamicRouteService._build_execution_graph self heap nodes
             deployment_id).
Proof.
  unfold DynamicRouteService._build_execution_graph.
  assert (returns (DynamicRouteService.deref_all heap nodes)) as Hd.
  { induction nodes as [|r nodes IH]; simpl; [done|].
    unfold DynamicRouteService.deref. destruct (heap !! r); [|done].
    cbn [mbind res_bind].
    by destruct (DynamicRouteService.deref_all heap nodes). }
  destruct (DynamicRouteService.deref_all heap nodes) as [objs| |];
    [|done..].
  cbn [mbind res_bind].
  match goal with
  | |- context [DynamicRouteService.link_edges ?a ?b ?c] =>
      pose proof (link_edges_returns a b c);
      destruct (DynamicRouteService.link_edges a b c) as [[? ?]| |]
  end; done.
Qed.

Lemma invoke_returns (py_str : value -> string) get_executor self heap
    handler request :
  returns (DynamicRouteService.invoke py_str get_executor self heap handler
             request).
Proof.
  destruct handler as [r|r|r|d|d|d]; cbn [DynamicRouteService.invoke].
  - unfold DynamicRouteService.node_action_handler,
      DynamicRouteService.deref.
    destruct (heap !! r); [|done]. cbn [mbind res_bind].
    by destruct (match get_executor _ with inl _ => _ | inr _ => _ end).
  - unfold DynamicRouteService.node_action_handler,
      DynamicRouteService.deref.
    destruct (heap !! r); [|done]. cbn [mbind res_bind].
    by destruct (match get_executor _ with inl _ => _ | inr _ => _ end).
  - unfold DynamicRouteService.deref. by destruct (heap !! r).
  - done.
  - destruct (PyDict.get d _) as [info|]; [|done].
    pose proof (build_execution_graph_returns self heap
                  (DynamicRouteService.deployed_nodes info) d) as Hb.
    destruct (DynamicRouteService._build_execution_graph _ _ _ _)
      as [graph| |]; [|done..].
    cbn [mbind res_bind].
    unfold DynamicRouteService._execute_workflow_chain.
    match goal with
    | |- context [DynamicRouteService.run_chain ?f ?g ?i ?h] =>
        pose proof (run_chain_returns f
                      (fun r input position heap =>
                         proj1 (execute_single_node_returns py_str
                                  get_executor self heap r input _ d
                                  position)) g i h) as Hc;
        destruct (DynamicRouteService.run_chain f g i h) as [[st h1]| |]
    end; done.
  - destruct (PyDict.get d _) as [info|]; [|done].
    pose proof (build_execution_graph_returns self heap
                  (DynamicRouteService.deployed_nodes info) d) as Hb.
    destruct (DynamicRouteService._build_execution_graph _ _ _ _)
      as [graph| |]; [|done..].
    cbn [mbind res_bind].
    unfold DynamicRouteService._execute_workflow_chain_streaming.
    match goal with
    | |- context [DynamicRouteService.run_chain ?f ?g ?i ?h] =>
        pose proof (run_chain_returns f
                      (fun r input position heap =>
                         proj2 (execute_single_node_returns py_str
                                  get_executor self heap r input _ d
                                  position)) g i h) as Hc;
        destruct (DynamicRouteService.run_chain f g i h) as [[st h1]| |]
    end; done.
Qed.

(** ** Deployments and later changes of configuration *)

Section isolation.

Variable py_str : value -> string.
Variable get_executor : NodeType -> exn + NodeExecutor.
Variable heap : DynamicRouteService.store.
Hypothesis configured : all_configured heap.

Lemma apply_default_config_configured self r node :
  heap !! r = Some node ->
  DynamicRouteService.apply_default_config self heap r node = (node, heap).
Proof.
  intros Hr. unfold DynamicRouteService.apply_default_config.
  pose proof (configured r node Hr). by destruct (config node).
Qed.

Lemma execute_single_node_configured self1 self2 r input parameters
    deployment_id position :
  DynamicRouteService._execute_single_node py_str get_executor self1 heap r
    input parameters deployment_id position
  = DynamicRouteService._execute_single_node py_str get_executor self2 heap
      r input parameters deployment_id position
  /\ forall v heap',
       DynamicRouteService._execute_single_node py_str get_executor self1
         heap r input parameters deployment_id position = Ok (v, heap') ->
       heap' = heap.
Proof.
  unfold DynamicRouteService._execute_single_node,
    DynamicRouteService.deref.
  destruct (heap !! r) as [node|] eqn:Hr; [|done]. cbn [mbind res_bind].
  destruct (get_executor (type node)) as [e|ex].
  { split; [done|]. by intros v heap' [= _ <-]. }
  rewrite !apply_default_config_configured by done.
  destruct (BaseNodeExecutor.execute _ _ _ _ _) as [c [e|res]].
  - split; [done|]. by intros v heap' [= _ <-].
  - split; [done|]. by intros v heap' [= _ <-].
Qed.

Lemma execute_single_node_streaming_configured self1 self2 r input
    parameters deployment_id position :
  DynamicRouteService._execute_single_node_streaming py_str get_executor
    self1 heap r input parameters deployment_id position
  = DynamicRouteService._execute_single_node_streaming py_str get_executor
      self2 heap r input parameters deployment_id position
  /\ forall v heap',
       DynamicRouteService._execute_single_node_streaming py_str
         get_executor self1 heap r input parameters deployment_id position
       = Ok (v, heap') ->
       heap' = heap.
Proof.
  unfold DynamicRouteService._execute_single_node_streaming,
    DynamicRouteService.deref.
  destruct (heap !! r) as [node|] eqn:Hr; [|done]. cbn [mbind res_bind].
  rewrite !apply_default_config_configured by done.
  destruct (get_executor (type node)) as [e|ex].
  { split; [done|]. by intros v heap' [= _ <-]. }
  destruct (BaseNodeExecutor.execute _ _ _ _ _) as [c [e|res]].
  - split; [done|]. by intros v heap' [= _ <-].
  - split; [done|]. by intros v heap' [= _ <-].
Qed.

Section chain.

Variables f g :
  nat -> value -> string -> DynamicRouteService.store ->
  res (value * DynamicRouteService.store).
Hypothesis same : forall r input position,
  f r input position heap = g r input position heap.
Hypothesis f_keeps : keeps_store f heap.

Lemma run_start_nodes_same todo graph initial_input : forall st,
  DynamicRouteService.run_start_nodes f todo graph initial_input heap st
  = DynamicRouteService.run_start_nodes g todo graph initial_input heap st
  /\ forall st' heap',
       DynamicRouteService.run_start_nodes f todo graph initial_input heap st
       = Ok (st', heap') -> heap' = heap.
Proof.
  induction todo as [|n todo IH]; intros st; simpl.
  - split; [done|]. by intros st' heap' [= _ <-].
  - destruct (PyDict.getitem n _) as [r| |]; [|done..].
    cbn [mbind res_bind]. rewrite <- same.
    destruct (f r initial_input "START" heap) as [[v h]| |] eqn:Hf; [|done..].
    apply f_keeps in Hf as ->. cbn [mbind res_bind]. apply IH.
Qed.

Lemma run_ready_nodes_same ready graph initial_input : forall st,
  DynamicRouteService.run_ready_nodes f ready graph initial_input heap st
  = DynamicRouteService.run_ready_nodes g ready graph initial_input heap st
  /\ forall st' heap',
       DynamicRouteService.run_ready_nodes f ready graph initial_input heap
         st = Ok (st', heap') -> heap' = heap.
Proof.
  induction ready as [|n ready IH]; intros st; simpl.
  - split; [done|]. by intros st' heap' [= _ <-].
  - destruct (PyDict.getitem n (DynamicRouteService.dependencies graph))
      as [deps| |]; [|done..].
    cbn [mbind res_bind].
    destruct (PyDict.getitem n _) as [r| |]; [|done..].
    cbn [mbind res_bind]. rewrite <- same.
    destruct (f r _ _ heap) as [[v h]| |] eqn:Hf; [|done..].
    apply f_keeps in Hf as ->. cbn [mbind res_bind]. apply IH.
Qed.

Lemma run_remaining_same fuel graph initial_input : forall st,
  DynamicRouteService.run_remaining f fuel graph initial_input heap st
  = DynamicRouteService.run_remaining g fuel graph initial_input heap st
  /\ forall st' heap',
       DynamicRouteService.run_remaining f fuel graph initial_input heap st
       = Ok (st', heap') -> heap' = heap.
Proof.
  induction fuel as [|fuel IH]; intros st;
    cbn [DynamicRouteService.run_remaining]; [done|].
  case_decide; [|split; [done|by intros st' heap' [= _ <-]]].
  destruct (DynamicRouteService.ready_nodes graph st) as [|n ready];
    [split; [done|by intros st' heap' [= _ <-]]|].
  destruct (run_ready_nodes_same (n :: ready) graph initial_input st)
    as [<- Hkeep].
  destruct (DynamicRouteService.run_ready_nodes f _ _ _ _ _)
    as [[st1 h1]| |]; [|done..].
  rewrite (Hkeep st1 h1 eq_refl). cbn [mbind res_bind]. apply IH.
Qed.

Lemma run_chain_same graph initial_input :
  DynamicRouteService.run_chain f graph initial_input heap
  = DynamicRouteService.run_chain g graph initial_input heap
  /\ forall st' heap',
       DynamicRouteService.run_chain f graph initial_input heap
       = Ok (st', heap') -> heap' = heap.
Proof.
  unfold DynamicRouteService.run_chain.
  destruct (run_start_nodes_same (DynamicRouteService.start_nodes graph)
              graph initial_input
              (DynamicRouteService.mkChain ∅ [] [])) as [<- Hkeep].
  destruct (DynamicRouteService.run_start_nodes f _ _ _ _ _)
    as [[st1 h1]| |]; [|done..].
  rewrite (Hkeep st1 h1 eq_refl). cbn [mbind res_bind].
  apply run_remaining_same.
Qed.

End chain.

Lemma execute_workflow_chain_configured self1 self2 graph initial_input
    parameters deployment_id :
  DynamicRouteService._execute_workflow_chain py_str get_executor self1 heap
    graph initial_input parameters deployment_id
  = DynamicRouteService._execute_workflow_chain py_str get_executor self2
      heap graph initial_input parameters deployment_id
  /\ forall result heap',
       DynamicRouteService._execute_workflow_chain py_str get_executor
         self1 heap graph initial_input parameters deployment_id
       = Ok (result, heap') -> heap' = heap.
Proof.
  unfold DynamicRouteService._execute_workflow_chain.
  edestruct (run_chain_same
              (fun r input position heap =>
                 DynamicRouteService._execute_single_node py_str
                   get_executor self1 heap r input parameters deployment_id
                   position)
              (fun r input position heap =>
                 DynamicRouteService._execute_single_node py_str
                   get_executor self2 heap r input parameters deployment_id
                   position)) as [<- Hkeep].
  { intros. apply execute_single_node_configured. }
  { intros r input position v heap'.
    apply execute_single_node_configured. exact self1. }
  destruct (DynamicRouteService.run_chain _ _ _ _) as [[st1 h1]| |];
    [|done..].
  rewrite (Hkeep st1 h1 eq_refl). cbn [mbind res_bind].
  split; [done|]. by intros result heap' [= _ <-].
Qed.

Lemma execute_workflow_chain_streaming_configured self1 self2 graph
    initial_input parameters deployment_id :
  DynamicRouteService._execute_workflow_chain_streaming py_str get_executor
    self1 heap graph initial_input parameters deployment_id
  = DynamicRouteService._execute_workflow_chain_streaming py_str
      get_executor self2 heap graph initial_input parameters deployment_id
  /\ forall result heap',
       DynamicRouteService._execute_workflow_chain_streaming py_str
         get_executor self1 heap graph initial_input parameters
         deployment_id = Ok (result, heap') -> heap' = heap.
Proof.
  unfold DynamicRouteService._execute_workflow_chain_streaming.
  edestruct (run_chain_same
              (fun r input position heap =>
                 DynamicRouteService._execute_single_node_streaming py_str
                   get_executor self1 heap r input parameters deployment_id
                   position)
              (fun r input position heap =>
                 DynamicRouteService._execute_single_node_streaming py_str
                   get_executor self2 heap r input parameters deployment_id
                   position)) as [<- Hkeep].
  { intros. apply execute_single_node_streaming_configured. }
  { intros r input position v heap'.
    apply execute_single_node_streaming_configured. exact self1. }
  destruct (DynamicRouteService.run_chain _ _ _ _) as [[st1 h1]| |];
    [|done..].
  rewrite (Hkeep st1 h1 eq_refl). cbn [mbind res_bind].
  split; [done|]. by intros result heap' [= _ <-].
Qed.

Lemma build_execution_graph_registry self1 self2 nodes deployment_id :
  PyDict.get deployment_id (DynamicRouteService.registered_routes self1)
  = PyDict.get deployment_id (DynamicRouteService.registered_routes self2) ->
  DynamicRouteService._build_execution_graph self1 heap nodes deployment_id
  = DynamicRouteService._build_execution_graph self2 heap nodes
      deployment_id.
Proof.
  intros Hreg. unfold DynamicRouteService._build_execution_graph.
  by rewrite Hreg.
Qed.

Lemma invoke_configured self1 self2 handler request :
  same_deployment self1 self2 handler ->
  DynamicRouteService.invoke py_str get_executor self1 heap handler request
  = DynamicRouteService.invoke py_str get_executor self2 heap handler
      request
  /\ forall response heap',
       DynamicRouteService.invoke py_str get_executor self1 heap handler
         request = Ok (response, heap') -> heap' = heap.
Proof.
  intros Hreg. destruct handler as [r|r|r|d|d|d];
    cbn [DynamicRouteService.invoke].
  - split; [done|].
    destruct (DynamicRouteService.node_action_handler _ _ _ _ _ _ _ _);
      [|done..]. by intros ? ? [= _ <-].
  - split; [done|].
    destruct (DynamicRouteService.node_action_handler _ _ _ _ _ _ _ _);
      [|done..]. by intros ? ? [= _ <-].
  - split; [done|].
    destruct (DynamicRouteService.deref heap r); [|done..].
    by intros ? ? [= _ <-].
  - split; [done|]. by intros ? ? [= _ <-].
  - specialize (Hreg d eq_refl). rewrite <- Hreg.
    destruct (PyDict.get d _) as [info|] eqn:Hget; [|done].
    rewrite <- (build_execution_graph_registry self1 self2) by congruence.
    destruct (DynamicRouteService._build_execution_graph self1 _ _ _)
      as [graph| |]; [|done..].
    cbn [mbind res_bind].
    destruct (execute_workflow_chain_configured self1 self2 graph
                (DynamicRouteService.request_input_data request)
                (DynamicRouteService.request_parameters request) d)
      as [<- Hkeep].
    destruct (DynamicRouteService._execute_workflow_chain _ _ _ _ _ _ _ _)
      as [[res1 h1]| |]; [|done..].
    rewrite (Hkeep res1 h1 eq_refl). cbn [mbind res_bind].
    split; [done|]. by intros ? ? [= _ <-].
  - specialize (Hreg d eq_refl). rewrite <- Hreg.
    destruct (PyDict.get d _) as [info|] eqn:Hget;
      [|split; [done|by intros ? ? [= _ <-]]].
    rewrite <- (build_execution_graph_registry self1 self2) by congruence.
    destruct (DynamicRouteService._build_execution_graph self1 _ _ _)
      as [graph| |]; cbn [mbind res_bind];
      [|split; [done|by intros ? ? [= _ <-]]|done].
    destruct (execute_workflow_chain_streaming_configured self1 self2 graph
                (DynamicRouteService.request_input_data request)
                (DynamicRouteService.request_parameters request) d)
      as [<- Hkeep].
    destruct (DynamicRouteService._execute_workflow_chain_streaming
                _ _ _ _ _ _ _ _) as [[res1 h1]| |]; [| |done].
    + rewrite (Hkeep res1 h1 eq_refl).
      split; [done|]. by intros ? ? [= _ <-].
    + split; [done|]. by intros ? ? [= _ <-].
Qed.

End isolation.

Lemma update_ai_node_config_registry (py_str : value -> string) self
    node_type config' :
  DynamicRouteService.registered_routes
    (DynamicRouteService.update_ai_node_config py_str self node_type
       config').2
  = DynamicRouteService.registered_routes self.
Proof.
  unfold DynamicRouteService.update_ai_node_config.
  destruct (negb _); [done|]. cbv zeta. by repeat case_match.
Qed.

Lemma generate_routes_other_deployment (py_str : value -> string) self heap
    workflow_nodes workflow_edges other endpoints self' d :
  DynamicRouteService.generate_routes_from_workflow py_str self heap
    workflow_nodes workflow_edges other = Ok (endpoints, self') ->
  d ≠ other ->
  PyDict.get d (DynamicRouteService.registered_routes self')
  = PyDict.get d (DynamicRouteService.registered_routes self).
Proof.
  unfold DynamicRouteService.generate_routes_from_workflow.
  destruct (DynamicRouteService.create_all_node_endpoints _ _ _ _ _ _ _)
    as [[[eps r1] r2]| |]; [|done..].
  cbn [mbind res_bind]. intros [= _ <-] Hne. simpl.
  by apply get_set_ne.
Qed.


Lemma all_configured_store_configured : all_configured store_configured.
Proof.
  intros r node Hr. unfold store_configured in Hr.
  apply lookup_insert_Some in Hr as [[_ <-]|[_ Hr]]; [done|].
  by rewrite lookup_empty in Hr.
Qed.



(** ** Error behaviour of the dependency resolver *)

(** *** Keys of dictionaries, without assuming distinct ids *)

Section PyDict_keys.
Context {V : Type}.
Implicit Types d : dict V.

Lemma elem_of_keys_set k v d k' :
  k' ∈ PyDict.keys (PyDict.set k v d) <-> k' = k \/ k' ∈ PyDict.keys d.
Proof.
  induction d as [|[k0 v0] d IH]; simpl.
  - rewrite list_elem_of_singleton. split; [by left|].
    by intros [?|?%elem_of_nil].
  - case_decide as Hk; simpl; rewrite !elem_of_cons.
    + subst. tauto.
    + unfold PyDict.keys in IH. rewrite IH. tauto.
Qed.

Lemma NoDup_keys_set k v d :
  NoDup (PyDict.keys d) -> NoDup (PyDict.keys (PyDict.set k v d)).
Proof.
  induction d as [|[k0 v0] d IH]; simpl.
  - intros _. apply NoDup_singleton.
  - intros [Hk0 Hnd]%NoDup_cons. case_decide as Hk; simpl.
    + subst. by apply NoDup_cons.
    + apply NoDup_cons. split; [|by apply IH].
      intros [?|?]%elem_of_keys_set; [by subst|done].
Qed.

Lemma elem_of_keys_fold {A} (key : A -> string) (val : A -> V) (l : list A) :
  forall (acc : dict V) k,
    k ∈ PyDict.keys (fold_left (fun d x => PyDict.set (key x) (val x) d) l acc)
    <-> k ∈ PyDict.keys acc \/ k ∈ map key l.
Proof.
  induction l as [|a l IH]; intros acc k; simpl.
  - split; [by left|]. by intros [?|?%elem_of_nil].
  - rewrite IH, elem_of_keys_set, elem_of_cons. tauto.
Qed.

Lemma elem_of_keys_comprehension {A} (key : A -> string) (val : A -> V)
    (l : list A) k :
  k ∈ PyDict.keys (PyDict.comprehension key val l) <-> k ∈ map key l.
Proof.
  unfold PyDict.comprehension. rewrite elem_of_keys_fold.
  split; [|by right]. by intros [?%elem_of_nil|?].
Qed.

Lemma NoDup_keys_comprehension {A} (key : A -> string) (val : A -> V)
    (l : list A) :
  NoDup (PyDict.keys (PyDict.comprehension key val l)).
Proof.
  unfold PyDict.comprehension.
  assert (forall acc : dict V, NoDup (PyDict.keys acc) ->
            NoDup (PyDict.keys
                     (fold_left (fun d x => PyDict.set (key x) (val x) d)
                        l acc))) as H.
  { induction l as [|a l IH]; intros acc Hacc; simpl; [done|].
    by apply IH, NoDup_keys_set. }
  apply H, NoDup_nil_2.
Qed.

Lemma get_is_Some k d : k ∈ PyDict.keys d -> exists v, PyDict.get k d = Some v.
Proof.
  induction d as [|[k0 v0] d IH]; simpl; [by intros ?%elem_of_nil|].
  intros [->|Hk]%elem_of_cons.
  - exists v0. by rewrite decide_True.
  - case_decide; [by eexists|by apply IH].
Qed.

Lemma getitem_missing k d :
  k ∉ PyDict.keys d -> PyDict.getitem k d = Raise (KeyError k).
Proof. intros Hk. unfold PyDict.getitem. by rewrite get_None. Qed.

Lemma getitem_present k d :
  k ∈ PyDict.keys d -> exists v, PyDict.getitem k d = Ok v.
Proof.
  intros [v Hv]%get_is_Some. exists v. unfold PyDict.getitem. by rewrite Hv.
Qed.

End PyDict_keys.

(** *** The build phases *)

Lemma build_graph_keys edges : forall graph in_degree,
  (forall e, e ∈ edges ->
     source e ∈ PyDict.keys graph /\ target e ∈ PyDict.keys in_degree) ->
  exists graph' in_degree',
    build_graph edges graph in_degree = Ok (graph', in_degree')
    /\ (forall k, k ∈ PyDict.keys graph' <-> k ∈ PyDict.keys graph)
    /\ (forall k, k ∈ PyDict.keys in_degree' <-> k ∈ PyDict.keys in_degree).
Proof.
  induction edges as [|e edges IH]; intros graph in_degree Hover.
  - by exists graph, in_degree.
  - destruct (Hover e) as [Hs Ht]; [apply elem_of_cons; by left|].
    destruct (getitem_present _ _ Hs) as [succs Hsuccs].
    destruct (getitem_present _ _ Ht) as [deg Hdeg].
    cbn [build_graph]. rewrite Hsuccs. cbn [mbind res_bind].
    rewrite Hdeg. cbn [mbind res_bind].
    destruct (IH (PyDict.set (source e) (succs ++ [target e]) graph)
                (PyDict.set (target e) (deg + 1) in_degree))
      as (g' & d' & Hb & Hg & Hd).
    { intros e' He'. destruct (Hover e') as [Hs' Ht'].
      { apply elem_of_cons. by right. }
      rewrite !elem_of_keys_set. auto. }
    exists g', d'. split; [done|]. split; intros k.
    + rewrite Hg, elem_of_keys_set. split; [by intros [->|?]|by right].
    + rewrite Hd, elem_of_keys_set. split; [by intros [->|?]|by right].
Qed.

Lemma build_graph_app pre post graph in_degree :
  build_graph (pre ++ post) graph in_degree
  = '(graph', in_degree') ← build_graph pre graph in_degree;
    build_graph post graph' in_degree'.
Proof.
  revert graph in_degree.
  induction pre as [|e pre IH]; intros graph in_degree; [done|].
  cbn [app build_graph].
  destruct (PyDict.getitem (source e) graph); [|done..].
  cbn [mbind res_bind].
  destruct (PyDict.getitem (target e) in_degree); [|done..].
  cbn [mbind res_bind]. apply IH.
Qed.

Lemma build_adjacency_keys edges : forall graph,
  (forall e, e ∈ edges -> source e ∈ PyDict.keys graph) ->
  exists graph',
    build_adjacency edges graph = Ok graph'
    /\ (forall k, k ∈ PyDict.keys graph' <-> k ∈ PyDict.keys graph).
Proof.
  induction edges as [|e edges IH]; intros graph Hover.
  - by exists graph.
  - assert (source e ∈ PyDict.keys graph) as Hs.
    { apply Hover, elem_of_cons. by left. }
    destruct (getitem_present _ _ Hs) as [succs Hsuccs].
    cbn [build_adjacency]. rewrite Hsuccs. cbn [mbind res_bind].
    destruct (IH (PyDict.set (source e) (succs ++ [target e]) graph))
      as (g' & Hb & Hg).
    { intros e' He'. rewrite elem_of_keys_set. right.
      apply Hover, elem_of_cons. by right. }
    exists g'. split; [done|]. intros k.
    rewrite Hg, elem_of_keys_set. split; [by intros [->|?]|by right].
Qed.

Lemma build_adjacency_app pre post graph :
  build_adjacency (pre ++ post) graph
  = graph' ← build_adjacency pre graph; build_adjacency post graph'.
Proof.
  revert graph. induction pre as [|e pre IH]; intros graph; [done|].
  cbn [app build_adjacency].
  destruct (PyDict.getitem (source e) graph); [|done..].
  cbn [mbind res_bind]. apply IH.
Qed.

Lemma has_cycles_dangling_source pick nodes pre e post :
  (forall e', e' ∈ pre -> source e' ∈ map id nodes) ->
  source e ∉ map id nodes ->
  _has_cycles pick nodes (pre ++ e :: post) = Raise (KeyError (source e)).
Proof.
  intros Hpre He. unfold _has_cycles.
  rewrite build_adjacency_app.
  destruct (build_adjacency_keys pre
              (PyDict.comprehension id (fun _ => @nil string) nodes))
    as (g & -> & Hg).
  { intros e' He'. apply elem_of_keys_comprehension. by apply Hpre. }
  cbn [mbind res_bind build_adjacency].
  rewrite getitem_missing; [done|].
  rewrite Hg, elem_of_keys_comprehension. done.
Qed.

(** *** Cycles *)

Lemma tc_last_step {A} (R : relation A) x y :
  tc R x y -> exists u, R u y /\ (u = x \/ tc R x u).
Proof.
  induction 1 as [x y Hxy|x z y Hxz _ (u & Huy & Hu)].
  - exists x. split; [done|by left].
  - exists u. split; [done|]. right.
    destruct Hu as [->|Hzu]; [by apply tc_once|by eapply tc_l].
Qed.

Lemma cycle_pred {A} (R : relation A) v :
  tc R v v -> exists u, R u v /\ tc R u u.
Proof.
  intros (u & Huv & Hu)%tc_last_step. exists u. split; [done|].
  destruct Hu as [->|Hvu]; [by apply tc_once|].
  eapply tc_l; [done|]. done.
Qed.

Lemma order_ok_no_cycle ids edges done :
  order_ok ids edges done ->
  forall n l1 v l2, length l1 = n -> done = l1 ++ v :: l2 ->
    ~ tc (edge_rel edges) v v.
Proof.
  intros Hok n. induction (lt_wf n) as [n _ IH].
  intros l1 v l2 Hlen Hdone Hcyc.
  destruct (cycle_pred _ _ Hcyc) as (u & (e & He & Hs & Ht) & Hu).
  destruct (Hok l1 v l2 Hdone) as [Hpred _].
  specialize (Hpred e He Ht). rewrite Hs in Hpred.
  apply list_elem_of_split in Hpred as (l1a & l1b & ->).
  eapply (IH (length l1a)); [| reflexivity | | exact Hu].
  - rewrite <- Hlen, length_app. simpl. lia.
  - rewrite Hdone, <- app_assoc. reflexivity.
Qed.

Lemma kahn_inv_stuck nodes edges done result v :
  edges_over (map id nodes) edges ->
  kahn_inv nodes edges done [] result ->
  v ∈ map id nodes -> v ∉ done ->
  exists x, tc (edge_rel edges) x x.
Proof.
  intros Hover (_ & _ & _ & _ & Hq & _) Hv Hnot.
  apply (sinkless_cycle (edge_rel edges)
           (filter (fun k => k ∉ done) (map id nodes))).
  - intros Hnil. eapply (filter_nil_not_elem_of _ _ v); eauto.
  - intros w [Hwd Hw]%list_elem_of_filter.
    assert (indeg edges done w ≠ 0%nat) as Hdeg.
    { intros H0. by apply (not_elem_of_nil w), Hq. }
    unfold indeg in Hdeg.
    destruct (filter _ edges) as [|e l] eqn:Hf; [done|].
    assert (e ∈ filter (fun e => target e = w /\ (source e ∉ done)) edges)
      as [[Ht Hs] He]%list_elem_of_filter.
    { rewrite Hf. apply elem_of_cons. by left. }
    exists (source e). split.
    + apply list_elem_of_filter. split; [done|]. by apply Hover.
    + by exists e.
Qed.

(** The loop of Kahn's algorithm ends on every graph over distinct ids;
    what it returns has emitted no node of a cycle. *)
Lemma topological_sort_unfold nodes edges :
  NoDup (map id nodes) ->
  edges_over (map id nodes) edges ->
  exists result,
    kahn_inv nodes edges (map id result) [] result
    /\ _topological_sort nodes edges
       = if decide (length result ≠ length nodes)
         then Raise (ValueError
           "Workflow contains cycles - cannot determine execution order")
         else Ok result.
Proof.
  intros Hnd Hover. unfold _topological_sort.
  rewrite (comprehension_tab id _ (fun _ => []) nodes Hnd) by done.
  rewrite (comprehension_tab id _ (fun _ => 0) nodes Hnd) by done.
  change (tab (map id nodes) (fun _ => []))
    with (tab (map id nodes) (succs_of [])).
  change (tab (map id nodes) (fun _ => 0))
    with (tab (map id nodes) (fun v => Z.of_nat (indeg [] [] v))).
  rewrite (build_graph_spec (map id nodes) edges [] Hnd Hover).
  cbn [mbind res_bind app].
  rewrite comprehension_NoDup by done.
  rewrite filter_tab_zero.
  destruct (kahn_loop_spec nodes edges Hnd Hover (S (length nodes)) []
              (filter (fun k => Z.of_nat (indeg edges [] k) = 0)
                 (map id nodes)) [])
    as (order & Hloop & Hinv).
  { by apply kahn_inv_init. }
  { simpl. lia. }
  rewrite Hloop. cbn [mbind res_bind]. by exists order.
Qed.

(** X1: on nodes with distinct ids and edges between them, the
    topological sort raises [ValueError] with the message "Workflow
    contains cycles - cannot determine execution order" exactly when the
    edges contain a directed cycle; it never returns a partial order. *)
Theorem topological_sort_cycle_error nodes edges :
  NoDup (map id nodes) ->
  edges_over (map id nodes) edges ->
  _topological_sort nodes edges
  = Raise (ValueError
      "Workflow contains cycles - cannot determine execution order")
  <-> exists x, tc (edge_rel edges) x x.
Proof.
  intros Hnd Hover.
  destruct (topological_sort_unfold nodes edges Hnd Hover)
    as (result & Hinv & ->).
  pose proof Hinv as (_ & Hsub & Hndr & Hids & _ & Hok).
  rewrite app_nil_r in Hndr.
  split.
  - case_decide as Hlen; [intros _|done].
    destruct (decide (Forall (fun v => v ∈ map id result) (map id nodes)))
      as [Hall|Hex].
    + destruct Hlen. rewrite Forall_forall in Hall.
      assert (result ≡ₚ nodes) as Hperm by (by apply perm_of_ids).
      by rewrite Hperm.
    + apply not_Forall_Exists in Hex; [|apply _].
      apply Exists_exists in Hex as (v & Hv & Hnot).
      by apply (kahn_inv_stuck nodes edges (map id result) result v).
  - intros [x Hx]. rewrite decide_True; [done|].
    assert (x ∈ map id nodes) as Hxin.
    { destruct (cycle_pred _ _ Hx) as (u & (e & He & _ & <-) & _).
      by apply Hover. }
    assert (x ∉ map id result) as Hxout.
    { intros (l1 & l2 & Heq)%list_elem_of_split.
      by apply (order_ok_no_cycle _ _ _ Hok (length l1) l1 x l2). }
    assert (x :: map id result ⊆+ map id nodes) as Hsubm.
    { apply NoDup_submseteq; [by apply NoDup_cons|].
      intros y [->|Hy]%elem_of_cons; [done|].
      apply Hids, elem_of_app. by left. }
    apply submseteq_length in Hsubm. simpl in Hsubm.
    rewrite !length_map in Hsubm. lia.
Qed.

Lemma topological_sort_cycle_error_witness :
  _topological_sort [plain_node "a" DOCUMENT; plain_node "b" DOCUMENT]
    [plain_edge "a" "b"; plain_edge "b" "a"]
  = Raise (ValueError
      "Workflow contains cycles - cannot determine execution order").
Proof.
  apply (topological_sort_cycle_error
           [plain_node "a" DOCUMENT; plain_node "b" DOCUMENT]
           [plain_edge "a" "b"; plain_edge "b" "a"]).
  - apply (bool_decide_unpack _). vm_compute. exact I.
  - intros e He. simpl.
    apply elem_of_cons in He as [->|He];
      [|apply list_elem_of_singleton in He as ->]; simpl;
      rewrite !elem_of_cons; auto.
  - exists "a". apply tc_l with "b"; [|apply tc_once].
    + exists (plain_edge "a" "b"). rewrite elem_of_cons. auto.
    + exists (plain_edge "b" "a"). rewrite !elem_of_cons. auto.
Defined.

(** X2: an edge naming a node that is not among the nodes makes the
    topological sort raise [KeyError] for that id: for the first such
    edge, its source if the source is missing, else its target. *)
Theorem topological_sort_dangling_edge nodes pre e post :
  edges_over (map id nodes) pre ->
  (source e ∉ map id nodes ->
   _topological_sort nodes (pre ++ e :: post) = Raise (KeyError (source e)))
  /\ (source e ∈ map id nodes -> target e ∉ map id nodes ->
      _topological_sort nodes (pre ++ e :: post)
      = Raise (KeyError (target e))).
Proof.
  intros Hpre. unfold _topological_sort.
  rewrite build_graph_app.
  destruct (build_graph_keys pre
              (PyDict.comprehension id (fun _ => @nil string) nodes)
              (PyDict.comprehension id (fun _ => 0) nodes))
    as (g & d & -> & Hg & Hd).
  { intros e' He'. rewrite !elem_of_keys_comprehension. by apply Hpre. }
  cbn [mbind res_bind build_graph].
  split.
  - intros Hs. rewrite (getitem_missing (source e) g); [done|].
    by rewrite Hg, elem_of_keys_comprehension.
  - intros Hs Ht.
    destruct (getitem_present (source e) g) as [succs ->].
    { by rewrite Hg, elem_of_keys_comprehension. }
    cbn [mbind res_bind].
    rewrite (getitem_missing (target e) d); [done|].
    by rewrite Hd, elem_of_keys_comprehension.
Qed.

Lemma topological_sort_dangling_edge_witness :
  _topological_sort [plain_node "a" DOCUMENT] [plain_edge "x" "a"]
  = Raise (KeyError "x").
Proof.
  apply (proj1 (topological_sort_dangling_edge [plain_node "a" DOCUMENT] []
                  (plain_edge "x" "a") []
                  ltac:(intros e He; by apply elem_of_nil in He))).
  simpl. rewrite list_elem_of_singleton. intros [=].
Defined.

(** ** Validation and the outcome of a run *)

(** *** Cycle detection on nodes whose ids repeat *)

Lemma set_same {V} k (v : V) d :
  PyDict.get k d = Some v -> PyDict.set k v d = d.
Proof.
  induction d as [|[k0 v0] d IH]; simpl; [done|].
  case_decide as Hk.
  - intros [= ->]. by subst.
  - intros Hget. by rewrite IH.
Qed.

Lemma comprehension_snoc {A V} (key : A -> string) (val : A -> V) l a :
  PyDict.comprehension key val (l ++ [a])
  = PyDict.set (key a) (val a) (PyDict.comprehension key val l).
Proof. unfold PyDict.comprehension. by rewrite fold_left_app. Qed.

Lemma get_comprehension_const {A V} (key : A -> string) (v : V) l k :
  k ∈ map key l ->
  PyDict.get k (PyDict.comprehension key (fun _ => v) l) = Some v.
Proof.
  induction l as [|a l IH] using rev_ind; [by intros ?%elem_of_nil|].
  rewrite map_app, elem_of_app, comprehension_snoc. simpl.
  rewrite list_elem_of_singleton.
  destruct (decide (k = key a)) as [->|Hne].
  - intros _. apply get_set_eq.
  - rewrite get_set_ne by done. intros [Hk|Hk]; [by apply IH|done].
Qed.

(** A list of nodes has the graph and the white set of its first
    occurrences. *)
Lemma distinct_ids_exist (nodes : list WorkflowNode) :
  exists nodes',
    NoDup (map id nodes')
    /\ (forall k, k ∈ map id nodes' <-> k ∈ map id nodes)
    /\ PyDict.comprehension id (fun _ => @nil string) nodes
       = PyDict.comprehension id (fun _ => @nil string) nodes'.
Proof.
  induction nodes as [|a l (l' & Hnd & Hiff & Hc)] using rev_ind.
  - exists []. split; [constructor|]. done.
  - destruct (decide (id a ∈ map id l)) as [Hin|Hout].
    + exists l'. split; [done|]. split.
      * intros k. rewrite Hiff, map_app, elem_of_app. simpl.
        rewrite list_elem_of_singleton. split; [by left|].
        by intros [?| ->].
      * rewrite comprehension_snoc, set_same; [done|].
        by apply get_comprehension_const.
    + exists (l' ++ [a]). split; [|split].
      * rewrite map_app. apply NoDup_app. split; [done|].
        split; [|apply NoDup_singleton].
        intros k Hk ->%list_elem_of_singleton. by apply Hout, Hiff.
      * intros k. rewrite !map_app, !elem_of_app, Hiff. done.
      * by rewrite !comprehension_snoc, Hc.
Qed.

(** Cycle detection sees a node list only through the set of its ids:
    it runs as on a list of the same ids without repetition. *)
Lemma has_cycles_distinct pick nodes edges :
  exists nodes',
    NoDup (map id nodes')
    /\ (forall k, k ∈ map id nodes' <-> k ∈ map id nodes)
    /\ _has_cycles pick nodes edges = _has_cycles pick nodes' edges.
Proof.
  destruct (distinct_ids_exist nodes) as (nodes' & Hnd & Hiff & Hc).
  exists nodes'. split; [done|]. split; [done|].
  unfold _has_cycles. rewrite Hc.
  assert ((list_to_set (map id nodes) : gset string)
          = list_to_set (map id nodes')) as ->; [|done].
  apply set_eq. intros k. by rewrite !elem_of_list_to_set, Hiff.
Qed.

Lemma has_cycles_decides pick nodes edges :
  (forall s : gset string, s ≠ ∅ -> pick s ∈ s) ->
  edges_over (map id nodes) edges ->
  exists b,
    _has_cycles pick nodes edges = Ok b
    /\ (b = true <-> exists x, tc (edge_rel edges) x x).
Proof.
  intros Hpick Hover.
  destruct (has_cycles_distinct pick nodes edges)
    as (nodes' & Hnd & Hiff & ->).
  assert (edges_over (map id nodes') edges) as Hover'.
  { intros e He. rewrite !Hiff. by apply Hover. }
  rewrite has_cycles_unfold by done.
  apply (has_cycles_loop_spec nodes' edges Hnd Hover' pick Hpick).
  - apply colors_inv_init.
  - done.
  - simpl. lia.
Qed.

(** X3: cycle detection does not need distinct ids: on any list of nodes
    and edges between their ids it returns, and returns [true] exactly
    when the edges contain a directed cycle. (The validation of a
    workflow calls it also after it has found duplicate ids.) *)
Theorem has_cycles_repeated_ids (pick : gset string -> string) nodes edges :
  (forall s : gset string, s ≠ ∅ -> pick s ∈ s) ->
  edges_over (map id nodes) edges ->
  exists b,
    _has_cycles pick nodes edges = Ok b
    /\ (b = true <-> exists x, tc (edge_rel edges) x x).
Proof.
  intros Hpick Hover.
  destruct (has_cycles_distinct pick nodes edges)
    as (nodes' & Hnd & Hiff & ->).
  assert (edges_over (map id nodes') edges) as Hover'.
  { intros e [Hs Ht]%Hover. by rewrite !Hiff. }
  rewrite has_cycles_unfold by done.
  eapply has_cycles_loop_spec; eauto using colors_inv_init.
Qed.

Lemma has_cycles_repeated_ids_witness :
  exists b,
    _has_cycles pick_first
      [plain_node "a" DOCUMENT; plain_node "a" API; plain_node "b" DOCUMENT]
      [plain_edge "a" "b"; plain_edge "b" "a"] = Ok b
    /\ (b = true
        <-> exists x,
              tc (edge_rel [plain_edge "a" "b"; plain_edge "b" "a"]) x x).
Proof.
  apply (has_cycles_repeated_ids pick_first
           [plain_node "a" DOCUMENT; plain_node "a" API;
            plain_node "b" DOCUMENT]
           [plain_edge "a" "b"; plain_edge "b" "a"]).
  - apply pick_first_elem.
  - intros e He. simpl.
    apply elem_of_cons in He as [->|He];
      [|apply list_elem_of_singleton in He as ->]; simpl;
      rewrite !elem_of_cons; auto.
Defined.

(** *** What the validation returns *)

Lemma check_edge_references_over nodes edges : forall errors,
  edges_over (map id nodes) edges ->
  check_edge_references nodes edges errors = errors.
Proof.
  assert (forall k, k ∈ map id nodes ->
            existsb (fun node => bool_decide (id node = k)) nodes = true)
    as Hex.
  { intros k (node & -> & Hin)%list_elem_of_fmap.
    apply existsb_exists. exists node. split; [by apply list_elem_of_In|].
    by apply bool_decide_eq_true. }
  induction edges as [|e edges IH]; intros errors Hover; simpl; [done|].
  destruct (Hover e) as [Hs Ht]; [apply elem_of_cons; by left|].
  rewrite (Hex _ Hs), (Hex _ Ht). apply IH.
  intros e' He'. apply Hover, elem_of_cons. by right.
Qed.

Lemma sort_graphrag_errors_fst graphrag_errors : forall errors context,
  (sort_graphrag_errors graphrag_errors errors context).1
  = errors ++ blocking graphrag_errors.
Proof.
  unfold blocking.
  induction graphrag_errors as [|g gs IH]; intros errors context; simpl.
  - by rewrite app_nil_r.
  - rewrite filter_cons.
    destruct (str_contains _ g) eqn:Hg.
    + rewrite IH. by rewrite decide_False.
    + rewrite IH, decide_True by done. by rewrite <- app_assoc.
Qed.

Lemma NoDup_length_size (l : list string) :
  NoDup l <-> length l = size (list_to_set l : gset string).
Proof.
  split; [|apply length_size_NoDup].
  intros Hnd. by rewrite size_list_to_set.
Qed.

(** On edges between the nodes, the validation returns a list of errors:
    duplicate ids, then cycles, then the blocking errors of the
    graph-query nodes. *)
Lemma validate_workflow_over get_executor pick validate_graphrag w context :
  (forall s : gset string, s ≠ ∅ -> pick s ∈ s) ->
  nodes w ≠ [] ->
  edges_over (map id (nodes w)) (edges w) ->
  exists cyclic,
    (cyclic = true <-> exists x, tc (edge_rel (edges w)) x x)
    /\ (_validate_workflow get_executor pick validate_graphrag w context).1
       = Ok ((if decide (NoDup (map id (nodes w))) then []
              else ["Duplicate node IDs found"])
             ++ (if cyclic : bool then ["Workflow contains cycles"] else [])
             ++ blocking
                  (validate_graphrag w
                     (check_node_configs get_executor (nodes w) context)).1).
Proof.
  intros Hpick Hne Hover.
  destruct (has_cycles_decides pick (nodes w) (edges w) Hpick Hover)
    as (cyclic & Hcyc & Hiff).
  exists cyclic. split; [done|].
  unfold _validate_workflow.
  destruct (nodes w) as [|n ns] eqn:Hn; [done|].
  cbv zeta. rewrite Hcyc, check_edge_references_over by done.
  assert ((if decide (length (map id (n :: ns))
                      ≠ size (list_to_set (map id (n :: ns)) : gset string))
           then ["Duplicate node IDs found"] else [])
          = (if decide (NoDup (map id (n :: ns))) then []
             else ["Duplicate node IDs found"])) as ->.
  { destruct (decide (NoDup _)) as [Hnd|Hnd].
    - rewrite decide_False; [done|].
      intros Hlen. apply Hlen. by apply NoDup_length_size.
    - rewrite decide_True; [done|].
      intros Hlen. by apply Hnd, NoDup_length_size. }
  destruct (validate_graphrag _ _) as [gs c1]. cbn [fst].
  match goal with
  | |- context [sort_graphrag_errors ?gs ?errs ?c] =>
      pose proof (sort_graphrag_errors_fst gs errs c) as Hsort;
      destruct (sort_graphrag_errors gs errs c) as [errors c2]
  end.
  cbn [fst] in Hsort |- *. rewrite Hsort.
  destruct cyclic; [|done]. by rewrite <- app_assoc.
Qed.

Lemma validate_workflow_no_nodes get_executor pick validate_graphrag w
    context :
  nodes w = [] ->
  _validate_workflow get_executor pick validate_graphrag w context
  = (Ok ["Workflow has no nodes"], context).
Proof. intros Hn. unfold _validate_workflow. by rewrite Hn. Qed.

Lemma validate_workflow_well_formed get_executor pick validate_graphrag w
    context :
  (forall s : gset string, s ≠ ∅ -> pick s ∈ s) ->
  (_validate_workflow get_executor pick validate_graphrag w context).1
  = Ok [] ->
  well_formed w.
Proof.
  intros Hpick Hval.
  destruct (_validate_workflow _ _ _ _ _) as [r c1] eqn:Hv.
  simpl in Hval. subst r.
  assert (nodes w ≠ []) as Hne.
  { intros Hn. by rewrite validate_workflow_no_nodes in Hv. }
  apply validate_workflow_passed in Hv as (Hnd & Hover & Hcyc).
  split; [done|]. split; [done|]. split; [done|].
  by eapply has_cycles_false_acyclic.
Qed.

Lemma validate_workflow_accepts_well_formed get_executor pick
    validate_graphrag w context :
  (forall s : gset string, s ≠ ∅ -> pick s ∈ s) ->
  well_formed w ->
  blocking
    (validate_graphrag w
       (check_node_configs get_executor (nodes w) context)).1 = [] ->
  (_validate_workflow get_executor pick validate_graphrag w context).1
  = Ok [].
Proof.
  intros Hpick (Hne & Hnd & Hover & Hac) Hblock.
  destruct (validate_workflow_over get_executor pick validate_graphrag w
              context Hpick Hne Hover) as (cyclic & Hiff & ->).
  rewrite Hblock, decide_True by done.
  destruct cyclic; [|done].
  destruct (proj1 Hiff eq_refl) as [x Hx]. by destruct (Hac x).
Qed.

(** X4: the validation lets a workflow through exactly when it has a
    node, its ids are distinct, its edges join nodes of the workflow,
    the edges have no cycle, and every error of the graph-query
    validation is about a missing database connection. What an executor
    says about a node's configuration has no part in it. *)
Theorem validate_workflow_accepts get_executor (pick : gset string -> string)
    validate_graphrag w context :
  (forall s : gset string, s ≠ ∅ -> pick s ∈ s) ->
  (_validate_workflow get_executor pick validate_graphrag w context).1
  = Ok []
  <-> well_formed w
      /\ blocking
           (validate_graphrag w
              (check_node_configs get_executor (nodes w) context)).1 = [].
Proof.
  intros Hpick. split.
  - intros Hval.
    pose proof (validate_workflow_well_formed _ _ _ _ _ Hpick Hval)
      as Hwf.
    split; [done|]. destruct Hwf as (Hne & _ & Hover & _).
    destruct (validate_workflow_over get_executor pick validate_graphrag w
                context Hpick Hne Hover) as (cyclic & _ & Heq).
    rewrite Heq in Hval. injection Hval as Hval.
    apply app_nil in Hval as [_ Hval]. by apply app_nil in Hval as [_ Hval].
  - intros [Hwf Hblock]. by apply validate_workflow_accepts_well_formed.
Qed.

Lemma well_formed_a_bc : well_formed (workflow request_a_bc).
Proof.
  split; [done|]. split; [|split].
  - apply (bool_decide_unpack _). vm_compute. exact I.
  - intros e ->%list_elem_of_singleton. simpl. rewrite !elem_of_cons. auto.
  - apply (acyclic_by_rank _
             (fun v => if decide (v = "b") then 0%nat else 1%nat)).
    intros e ->%list_elem_of_singleton. simpl. lia.
Qed.

Lemma validate_workflow_accepts_witness :
  (_validate_workflow (echo_factory []) pick_first no_graphrag_errors
     (workflow request_a_bc) (ExecutionContext.init "run" false)).1
  = Ok [].
Proof.
  apply (proj2 (validate_workflow_accepts (echo_factory []) pick_first
                  no_graphrag_errors (workflow request_a_bc)
                  (ExecutionContext.init "run" false) pick_first_elem)).
  split; [apply well_formed_a_bc|reflexivity].
Defined.

(** *** Workflows that are turned away *)

Lemma execute_workflow_try_rejects (py_str : value -> string) get_executor
    pick validate_graphrag execution_id request context :
  (forall s : gset string, s ≠ ∅ -> pick s ∈ s) ->
  ~ well_formed (workflow request) ->
  exists e context',
    execute_workflow_try py_str get_executor pick validate_graphrag
      execution_id request context = (Raise e, context').
Proof.
  intros Hpick Hnot. unfold execute_workflow_try.
  pose proof (validate_workflow_returns get_executor pick validate_graphrag
                (workflow request)
                (ExecutionContext.log INFO "Validating workflow structure"
                   None None context) Hpick) as Hret.
  pose proof (validate_workflow_well_formed get_executor pick
                validate_graphrag (workflow request)
                (ExecutionContext.log INFO "Validating workflow structure"
                   None None context) Hpick) as Hwf.
  destruct (_validate_workflow _ _ _ _ _) as [[[|err errs]| |] c1].
  - destruct Hnot. by apply Hwf.
  - by eexists _, _.
  - by eexists _, _.
  - done.
Qed.

(** X5: a workflow without nodes, with a repeated node id, with an edge
    to or from an id that is no node, or with a cycle is never run: the
    result is failed, lists no node result and no final output, and
    carries exactly one error message. *)
Theorem execute_workflow_rejects (py_str : value -> string) get_executor
    (pick : gset string -> string) validate_graphrag execution_id request :
  (forall s : gset string, s ≠ ∅ -> pick s ∈ s) ->
  ~ well_formed (workflow request) ->
  exists logs error,
    execute_workflow py_str get_executor pick validate_graphrag
      execution_id request
    = Ok (mkWorkflowResult execution_id (wf_id (workflow request)) FAILED
            [] VNone logs [error]).
Proof.
  intros Hpick Hnot. unfold execute_workflow.
  match goal with
  | |- context [execute_workflow_try ?a ?b ?c ?d ?e ?f ?g] =>
      destruct (execute_workflow_try_rejects a b c d e f g Hpick Hnot)
        as (err & c1 & ->)
  end.
  by eexists _, _.
Qed.

Lemma execute_workflow_rejects_witness :
  exists logs error,
    execute_workflow str_blank (echo_factory []) pick_first
      no_graphrag_errors "run"
      (mkRequest
         (mkWorkflow "w"
            [plain_node "a" DOCUMENT; plain_node "a" DOCUMENT] [] None "")
         VNone false None)
    = Ok (mkWorkflowResult "run" None FAILED [] VNone logs [error]).
Proof.
  apply (execute_workflow_rejects str_blank (echo_factory []) pick_first
           no_graphrag_errors "run"
           (mkRequest
              (mkWorkflow "w"
                 [plain_node "a" DOCUMENT; plain_node "a" DOCUMENT] [] None "")
              VNone false None) pick_first_elem).
  intros (_ & Hnd & _). simpl in Hnd.
  apply NoDup_cons in Hnd as [Hnd _]. apply Hnd, elem_of_cons. by left.
Defined.

(** The text of a [KeyError] opens with a quote, so it is no message of
    a failed validation. *)
Lemma KeyError_msg_not_validation key errors :
  exn_msg (KeyError key) ≠ "Workflow validation failed: " +:+ errors.
Proof.
  unfold KeyError, py_repr. cbn [exn_msg].
  by destruct (existsb _ _ && negb (existsb _ _)).
Qed.



(** *** The run of a workflow that is let through *)

Lemma execute_outcome (py_str : value -> string) (self : NodeExecutor) node
    context input_data :
  exists context' result,
    BaseNodeExecutor.execute py_str self node context input_data
    = (context', inr result)
    /\ node_id result = id node /\ outcome result.
Proof.
  unfold BaseNodeExecutor.execute, BaseNodeExecutor.execute_try.
  destruct (validate_config self (config node)) as [e|[|]].
  - eexists _, _. split; [done|]. split; [done|]. right. by eauto.
  - destruct (_execute_impl self node _ input_data) as [c [e|out]].
    + eexists _, _. split; [done|]. split; [done|]. right. by eauto.
    + eexists _, _. split; [done|]. split; [done|]. by left.
  - eexists _, _. split; [done|]. split; [done|]. right. by eauto.
Qed.

Lemma execute_node_outcome (py_str : value -> string) get_executor node
    context input_data :
  node_id (_execute_node py_str get_executor node context input_data).1
  = id node
  /\ outcome (_execute_node py_str get_executor node context input_data).1.
Proof.
  unfold _execute_node.
  destruct (get_executor (type node)) as [e|executor].
  - split; [done|]. right. simpl. by eauto.
  - destruct (execute_outcome py_str executor node context input_data)
      as (c & r & -> & Hid & Hout).
    done.
Qed.

Lemma execute_nodes_outcomes (py_str : value -> string) get_executor
    execution_order : forall i total request context acc,
  Forall outcome acc ->
  Forall outcome
    (execute_nodes py_str get_executor execution_order i total request
       context acc).1.
Proof.
  induction execution_order as [|node order IH];
    intros i total request context acc Hacc; [done|].
  cbn [execute_nodes].
  destruct (_get_node_input_data _ _ _ _) as [input c1].
  pose proof (execute_node_outcome py_str get_executor node c1 input)
    as [_ Hout].
  destruct (_execute_node _ _ _ _ _) as [r c2].
  apply IH. apply Forall_app. split; [done|]. by apply Forall_singleton.
Qed.

(** The run of a well-formed workflow, laid open. *)
Lemma execute_workflow_accepted (py_str : value -> string) get_executor
    pick validate_graphrag execution_id request :
  (forall s : gset string, s ≠ ∅ -> pick s ∈ s) ->
  well_formed (workflow request) ->
  (forall context,
     blocking (validate_graphrag (workflow request) context).1 = []) ->
  exists order results logs,
    _topological_sort (nodes (workflow request)) (edges (workflow request))
    = Ok order
    /\ order ≡ₚ nodes (workflow request)
    /\ order_ok (map id (nodes (workflow request)))
         (edges (workflow request)) (map id order)
    /\ map node_id results = map id order
    /\ Forall outcome results
    /\ execute_workflow py_str get_executor pick validate_graphrag
         execution_id request
       = Ok (mkWorkflowResult execution_id (wf_id (workflow request))
               (match filter (fun r => status r = FAILED) results with
                | [] => COMPLETED
                | _ => FAILED
                end)
               results (select_final_output results) logs
               (omap (fun r =>
                        match error_message r with
                        | Some m => if String.eqb m "" then None else Some m
                        | None => None
                        end)
                  (filter (fun r => status r = FAILED) results))).
Proof.
  intros Hpick Hwf Hblock.
  pose proof Hwf as (Hne & Hnd & Hover & Hac).
  destruct (topological_sort_spec _ _ Hnd Hover Hac)
    as (order & Hsort & Hperm & Hok).
  unfold execute_workflow, execute_workflow_try.
  match goal with
  | |- context [_validate_workflow ?a ?b ?c ?d ?e] =>
      pose proof (validate_workflow_accepts_well_formed a b c d e Hpick Hwf
                    (Hblock _)) as Hval;
      destruct (_validate_workflow a b c d e) as [r c1]
  end.
  simpl in Hval. subst r. rewrite Hsort.
  match goal with
  | |- context [execute_nodes ?a ?b ?c ?d ?e ?f ?g ?h] =>
      pose proof (execute_nodes_ids a b c d e f g h) as Hids;
      pose proof (execute_nodes_outcomes a b c d e f g h
                    (Forall_nil_2 _)) as Houts;
      destruct (execute_nodes a b c d e f g h) as [rs c2]
  end.
  simpl in Hids, Houts.
  exists order, rs. eexists. by repeat (split; [done|]).
Qed.

(** X7: a well-formed workflow is run to the end whatever its nodes do:
    the result lists one node result for every node, in the order of the
    topological sort; each is either completed, or failed without
    output and with an error message; the run is completed when every
    node result is, and failed as soon as one is; a completed run
    reports no errors. *)
Theorem execute_workflow_continues_on_error (py_str : value -> string)
    get_executor (pick : gset string -> string) validate_graphrag
    execution_id request :
  (forall s : gset string, s ≠ ∅ -> pick s ∈ s) ->
  well_formed (workflow request) ->
  (forall context,
     blocking (validate_graphrag (workflow request) context).1 = []) ->
  exists result order,
    execute_workflow py_str get_executor pick validate_graphrag
      execution_id request = Ok result
    /\ _topological_sort (nodes (workflow request))
         (edges (workflow request)) = Ok order
    /\ order ≡ₚ nodes (workflow request)
    /\ map node_id (node_results result) = map id order
    /\ Forall outcome (node_results result)
    /\ (result_status result = COMPLETED
        <-> Forall (fun r => status r = COMPLETED) (node_results result))
    /\ (result_status result = FAILED
        <-> Exists (fun r => status r = FAILED) (node_results result))
    /\ (result_status result = COMPLETED -> errors result = []).
Proof.
  intros Hpick Hwf Hblock.
  destruct (execute_workflow_accepted py_str get_executor pick
              validate_graphrag execution_id request Hpick Hwf Hblock)
    as (order & rs & logs & Hsort & Hperm & _ & Hids & Houts & ->).
  eexists _, order. split; [done|]. split; [done|]. split; [done|].
  split; [done|]. split; [done|]. cbn [result_status node_results errors].
  destruct (filter (fun r => status r = FAILED) rs) as [|f fs] eqn:Hf.
  - split; [|split; [|done]].
    + split; [intros _|done].
      apply Forall_forall. intros r Hr.
      rewrite Forall_forall in Houts.
      destruct (Houts r Hr) as [[? _]|[Hfail _]]; [done|].
      assert (r ∈ filter (fun r => status r = FAILED) rs) as Hin
        by (by apply list_elem_of_filter).
      rewrite Hf in Hin. by apply elem_of_nil in Hin.
    + split; [done|]. intros (r & Hr & Hfail)%Exists_exists.
      assert (r ∈ filter (fun r => status r = FAILED) rs) as Hin
        by (by apply list_elem_of_filter).
      rewrite Hf in Hin. by apply elem_of_nil in Hin.
  - assert (f ∈ filter (fun r => status r = FAILED) rs)
      as [Hfail Hfin]%list_elem_of_filter.
    { rewrite Hf. apply elem_of_cons. by left. }
    split; [|split; [|done]].
    + split; [done|]. intros Hall. rewrite Forall_forall in Hall.
      specialize (Hall f Hfin). congruence.
    + split; [intros _|done]. apply Exists_exists. by exists f.
Qed.

Lemma execute_workflow_continues_on_error_witness :
  exists result order,
    execute_workflow str_blank (echo_factory ["b"]) pick_first
      no_graphrag_errors "run" request_a_bc = Ok result
    /\ _topological_sort (nodes (workflow request_a_bc))
         (edges (workflow request_a_bc)) = Ok order
    /\ map node_id (node_results result) = map id order
    /\ (result_status result = FAILED
        <-> Exists (fun r => status r = FAILED) (node_results result)).
Proof.
  destruct (execute_workflow_continues_on_error str_blank
              (echo_factory ["b"]) pick_first no_graphrag_errors "run"
              request_a_bc pick_first_elem well_formed_a_bc
              (fun _ => eq_refl))
    as (result & order & H1 & H2 & _ & H3 & _ & _ & H4 & _).
  by exists result, order.
Defined.

(** X8: when a well-formed workflow runs and every node completes, the
    final output is the output of the last node in execution order, and
    that node has no outgoing edge. *)
Theorem final_output_of_completed_run (py_str : value -> string)
    get_executor (pick : gset string -> string) validate_graphrag
    execution_id request :
  (forall s : gset string, s ≠ ∅ -> pick s ∈ s) ->
  well_formed (workflow request) ->
  (forall context,
     blocking (validate_graphrag (workflow request) context).1 = []) ->
  exists result,
    execute_workflow py_str get_executor pick validate_graphrag
      execution_id request = Ok result
    /\ (result_status result = COMPLETED ->
        exists r,
          last (node_results result) = Some r
          /\ final_output result = output_data r
          /\ is_sink (edges (workflow request)) (node_id r)).
Proof.
  intros Hpick Hwf Hblock.
  destruct (execute_workflow_accepted py_str get_executor pick
              validate_graphrag execution_id request Hpick Hwf Hblock)
    as (order & rs & logs & Hsort & Hperm & Hok & Hids & Houts & ->).
  eexists. split; [done|].
  cbn [result_status node_results final_output].
  destruct (filter (fun r => status r = FAILED) rs) as [|f fs] eqn:Hf;
    [intros _|done].
  assert (Forall (fun r => status r = COMPLETED) rs) as Hall.
  { apply Forall_forall. intros r Hr. rewrite Forall_forall in Houts.
    destruct (Houts r Hr) as [[? _]|[Hfail _]]; [done|].
    assert (r ∈ filter (fun r => status r = FAILED) rs) as Hin
      by (by apply list_elem_of_filter).
    rewrite Hf in Hin. by apply elem_of_nil in Hin. }
  destruct Hwf as (Hne & Hnd & Hover & Hac).
  destruct rs as [|r0 rs0] using rev_ind.
  { destruct order; [|done]. apply Permutation_nil_l in Hperm.
    by destruct Hne. }
  clear IHrs0. exists r0. split; [by rewrite last_snoc|]. split.
  - assert (status r0 = COMPLETED) as Hr0.
    { rewrite Forall_forall in Hall. apply Hall, elem_of_app. right.
      apply elem_of_cons. by left. }
    unfold select_final_output.
    destruct (rs0 ++ [r0]) eqn:Heq; [by destruct rs0|]. rewrite <- Heq.
    rewrite reverse_snoc, filter_cons, decide_True by done. done.
  - apply Forall_forall. intros e He Hsrc.
    destruct (Hover e He) as [_ Ht].
    assert (target e ∈ map id order) as Hto by (by rewrite Hperm).
    destruct (order_ok_in_done _ _ _ e Hok He Hto)
      as (l1 & l2 & l3 & Hord).
    assert (NoDup (map id order)) as Hndo by (by rewrite Hperm).
    rewrite <- Hids, map_app in Hndo, Hord. simpl in Hndo, Hord.
    rewrite Hsrc in Hord.
    assert (last (l1 ++ node_id r0 :: l2 ++ target e :: l3)
            = Some (node_id r0)) as Hlast.
    { rewrite <- Hord. apply last_snoc. }
    rewrite Hord in Hndo. apply NoDup_app in Hndo as (_ & _ & Hndo).
    apply NoDup_cons in Hndo as [Hnotin _].
    replace (l1 ++ node_id r0 :: l2 ++ target e :: l3)
      with ((l1 ++ node_id r0 :: l2) ++ target e :: l3) in Hlast
      by (by rewrite <- app_assoc).
    rewrite last_app_cons in Hlast. apply last_Some_elem_of in Hlast.
    apply Hnotin, elem_of_app. by right.
Qed.

Lemma final_output_of_completed_run_witness :
  exists result,
    execute_workflow str_blank (echo_factory []) pick_first
      no_graphrag_errors "run" request_a_bc = Ok result
    /\ (result_status result = COMPLETED ->
        exists r,
          last (node_results result) = Some r
          /\ final_output result = output_data r
          /\ is_sink (edges (workflow request_a_bc)) (node_id r)).
Proof.
  apply (final_output_of_completed_run str_blank (echo_factory [])
           pick_first no_graphrag_errors "run" request_a_bc pick_first_elem
           well_formed_a_bc (fun _ => eq_refl)).
Defined.

(** ** The execution context as a store *)

(** X9: the output read for a node id is the output of the result stored
    last under that id, and [None] on a fresh context; storing a result
    leaves the outputs of the other ids as they were, and so do logging,
    setting a variable and setting workflow data. *)
Theorem node_output_round_trip result context nid level message log_nid
    details key v :
  ExecutionContext.get_node_output
    (ExecutionContext.set_node_result result context) nid
  = (if decide (nid = node_id result) then output_data result
     else ExecutionContext.get_node_output context nid)
  /\ ExecutionContext.get_node_output
       (ExecutionContext.init (ExecutionContext.execution_id context)
          (ExecutionContext.debug context)) nid = VNone
  /\ ExecutionContext.get_node_output
       (ExecutionContext.log level message log_nid details context) nid
     = ExecutionContext.get_node_output context nid
  /\ ExecutionContext.get_node_output
       (ExecutionContext.set_variable key v context) nid
     = ExecutionContext.get_node_output context nid
  /\ ExecutionContext.get_node_output
       (ExecutionContext.set_workflow_data key v context) nid
     = ExecutionContext.get_node_output context nid.
Proof.
  split; [|done].
  unfold ExecutionContext.get_node_output, ExecutionContext.set_node_result.
  simpl. case_decide as Hn.
  - subst. by rewrite get_set_eq.
  - by rewrite get_set_ne.
Qed.

(** X10: a variable reads back the value set last under its key and the
    caller's default when the key was never set; workflow data likewise,
    and read without a key it is the whole dictionary. Variables and
    workflow data are apart: setting the one never shows in the other. *)
Theorem variables_round_trip context key key' v default :
  ExecutionContext.get_variable
    (ExecutionContext.set_variable key v context) key' default
  = (if decide (key' = key) then v
     else ExecutionContext.get_variable context key' default)
  /\ ExecutionContext.get_workflow_data
       (ExecutionContext.set_workflow_data key v context) (Some key') default
     = (if decide (key' = key) then v
        else ExecutionContext.get_workflow_data context (Some key') default)
  /\ ExecutionContext.get_workflow_data
       (ExecutionContext.set_workflow_data key v context) None default
     = VDict (PyDict.set key v (ExecutionContext.workflow_data context))
  /\ ExecutionContext.get_variable
       (ExecutionContext.set_workflow_data key v context) key' default
     = ExecutionContext.get_variable context key' default
  /\ ExecutionContext.get_workflow_data
       (ExecutionContext.set_variable key v context) (Some key') default
     = ExecutionContext.get_workflow_data context (Some key') default
  /\ (PyDict.get key' (ExecutionContext.global_variables context) = None ->
      ExecutionContext.get_variable context key' default = default)
  /\ (PyDict.get key' (ExecutionContext.workflow_data context) = None ->
      ExecutionContext.get_workflow_data context (Some key') default
      = default).
Proof.
  unfold ExecutionContext.get_variable, ExecutionContext.get_workflow_data,
    ExecutionContext.set_variable, ExecutionContext.set_workflow_data.
  simpl. repeat split.
  - case_decide as Hk; [subst; by rewrite get_set_eq|by rewrite get_set_ne].
  - case_decide as Hk; [subst; by rewrite get_set_eq|by rewrite get_set_ne].
  - by intros ->.
  - by intros ->.
Qed.

(** ** The logs attached to a node result *)

Lemma length_last_n {A} n (l : list A) : (length (last_n n l) <= n)%nat.
Proof. unfold last_n. rewrite length_drop. lia. Qed.

Lemma last_last_n {A} n (l : list A) :
  (1 <= n)%nat -> last (last_n n l) = last l.
Proof.
  intros Hn. unfold last_n.
  destruct l as [|x l] using rev_ind; [done|]. clear IHl.
  rewrite length_app. simpl.
  rewrite drop_app_le by lia. by rewrite !last_snoc.
Qed.

Lemma execute_logs (py_str : value -> string) (self : NodeExecutor) node
    context input_data :
  exists context' result entry,
    BaseNodeExecutor.execute py_str self node context input_data
    = (context', inr result)
    /\ logs result = last_n 10 (ExecutionContext.logs context')
    /\ last (ExecutionContext.logs context') = Some entry
    /\ log_node_id entry = Some (id node)
    /\ log_level entry
       = (if decide (status result = COMPLETED) then INFO else ERROR).
Proof.
  unfold BaseNodeExecutor.execute, BaseNodeExecutor.execute_try.
  destruct (validate_config self (config node)) as [e|[|]].
  - eexists _, _, _. split; [done|]. split; [done|]. simpl.
    rewrite last_snoc. done.
  - destruct (_execute_impl self node _ input_data) as [c [e|out]].
    + eexists _, _, _. split; [done|]. split; [done|]. simpl.
      rewrite last_snoc. done.
    + eexists _, _, _. split; [done|]. split; [done|]. simpl.
      rewrite last_snoc. done.
  - eexists _, _, _. split; [done|]. split; [done|]. simpl.
    rewrite last_snoc. done.
Qed.

(** X11: the result of running a node carries the tail of the context's
    log as it stands when the node is done: its last ten entries, or its
    last five when no executor could be obtained; the last of them is
    the entry that reports this node's outcome, at level INFO when the
    node completed and ERROR when it failed. *)
Theorem execute_node_logs (py_str : value -> string) get_executor node
    context input_data :
  let run := _execute_node py_str get_executor node context input_data in
  logs run.1
  = last_n (match get_executor (type node) with
            | inr _ => 10
            | inl _ => 5
            end) (ExecutionContext.logs run.2)
  /\ (length (logs run.1) <= 10)%nat
  /\ exists entry,
       last (logs run.1) = Some entry
       /\ last (ExecutionContext.logs run.2) = Some entry
       /\ log_node_id entry = Some (id node)
       /\ log_level entry
          = (if decide (status run.1 = COMPLETED) then INFO else ERROR).
Proof.
  unfold _execute_node.
  destruct (get_executor (type node)) as [e|executor].
  - simpl. split; [done|]. split.
    + etransitivity; [apply length_last_n|lia].
    + eexists. rewrite last_last_n, last_snoc by lia. done.
  - destruct (execute_logs py_str executor node context input_data)
      as (c & r & entry & -> & Hlogs & Hlast & Hid & Hlevel).
    simpl. split; [done|]. rewrite Hlogs. split.
    + apply length_last_n.
    + exists entry. by rewrite last_last_n by lia.
Qed.

(** ** The execution graph of a deployment *)

Section PyDict_order.
Context {V : Type}.
Implicit Types d : dict V.

Lemma keys_set_present k v d :
  k ∈ PyDict.keys d -> PyDict.keys (PyDict.set k v d) = PyDict.keys d.
Proof.
  induction d as [|[k0 v0] d IH]; simpl; [by intros ?%elem_of_nil|].
  intros Hk. case_decide as Hd; simpl; [by subst|].
  f_equal. apply IH. by apply elem_of_cons in Hk as [?|?].
Qed.

Lemma keys_set_absent k v d :
  k ∉ PyDict.keys d -> PyDict.keys (PyDict.set k v d) = PyDict.keys d ++ [k].
Proof. intros Hk. rewrite set_fresh by done. apply map_app. Qed.

Lemma dict_as_tab d (f : string -> V) :
  NoDup (PyDict.keys d) ->
  (forall k, k ∈ PyDict.keys d -> PyDict.get k d = Some (f k)) ->
  d = tab (PyDict.keys d) f.
Proof.
  induction d as [|[k0 v0] d IH]; simpl; [done|].
  intros [Hk0 Hnd]%NoDup_cons Hget.
  pose proof (Hget k0 ltac:(apply elem_of_cons; by left)) as H0.
  rewrite decide_True in H0 by done. injection H0 as ->.
  unfold tab. simpl. f_equal. apply IH; [done|].
  intros k Hk. specialize (Hget k ltac:(apply elem_of_cons; by right)).
  rewrite decide_False in Hget; [done|]. by intros ->.
Qed.

End PyDict_order.

Lemma keys_comprehension_indep {A V W} (key : A -> string) (val : A -> V)
    (val' : A -> W) (l : list A) :
  PyDict.keys (PyDict.comprehension key val l)
  = PyDict.keys (PyDict.comprehension key val' l).
Proof.
  induction l as [|a l IH] using rev_ind; [done|].
  rewrite !comprehension_snoc.
  destruct (decide (key a ∈ PyDict.keys (PyDict.comprehension key val l)))
    as [Hin|Hout].
  - rewrite !keys_set_present; [done| |done]. by rewrite <- IH.
  - rewrite !keys_set_absent; [by rewrite IH| |done]. by rewrite <- IH.
Qed.

Lemma filter_tab_nil (ids : list string) (f : string -> list string) :
  map fst (filter (fun item : string * list string => item.2 = []) (tab ids f))
  = filter (fun k => f k = []) ids.
Proof.
  induction ids as [|k ids IH]; [done|]. simpl.
  rewrite !filter_cons. simpl. case_decide; simpl; by rewrite IH.
Qed.

(** *** Linking the edges *)

Lemma live_cons e edges :
  live (e :: edges)
  = if negb (String.eqb (source e) "") && negb (String.eqb (target e) "")
    then e :: live edges else live edges.
Proof.
  unfold live. rewrite filter_cons.
  destruct (String.eqb_spec (source e) "") as [Hs|Hs]; simpl.
  { rewrite decide_False; [done|]. by intros [? _]. }
  destruct (String.eqb_spec (target e) "") as [Ht|Ht]; simpl.
  { rewrite decide_False; [done|]. by intros [_ ?]. }
  by rewrite decide_True.
Qed.

Lemma preds_of_cons e edges k :
  preds_of (e :: edges) k
  = if decide (target e = k) then source e :: preds_of edges k
    else preds_of edges k.
Proof. unfold preds_of. rewrite filter_cons. by case_decide. Qed.

Lemma succs_of_cons e edges k :
  succs_of (e :: edges) k
  = if decide (source e = k) then target e :: succs_of edges k
    else succs_of edges k.
Proof. unfold succs_of. rewrite filter_cons. by case_decide. Qed.

Lemma link_edges_ok edges : forall D T,
  (forall e, e ∈ live edges ->
     target e ∈ PyDict.keys D /\ source e ∈ PyDict.keys T) ->
  exists D' T',
    DynamicRouteService.link_edges edges D T = Ok (D', T')
    /\ PyDict.keys D' = PyDict.keys D
    /\ PyDict.keys T' = PyDict.keys T
    /\ (forall k, PyDict.get k D'
                  = (fun l => l ++ preds_of (live edges) k)
                      <$> PyDict.get k D)
    /\ (forall k, PyDict.get k T'
                  = (fun l => l ++ succs_of (live edges) k)
                      <$> PyDict.get k T).
Proof.
  induction edges as [|e edges IH]; intros D T Hover.
  - exists D, T. split; [done|]. split; [done|]. split; [done|].
    split; intros k.
    + destruct (PyDict.get k D); simpl; [|done]. by rewrite app_nil_r.
    + destruct (PyDict.get k T); simpl; [|done]. by rewrite app_nil_r.
  - cbn [DynamicRouteService.link_edges]. rewrite live_cons in Hover |- *.
    destruct (negb (String.eqb (source e) "")
              && negb (String.eqb (target e) "")); [|by apply IH].
    destruct (Hover e) as [Ht Hs]; [apply elem_of_cons; by left|].
    destruct (get_is_Some _ _ Ht) as [deps Hdeps].
    destruct (get_is_Some _ _ Hs) as [succs Hsuccs].
    unfold PyDict.getitem. rewrite Hdeps. cbn [mbind res_bind].
    rewrite Hsuccs. cbn [mbind res_bind].
    destruct (IH (PyDict.set (target e) (deps ++ [source e]) D)
                (PyDict.set (source e) (succs ++ [target e]) T))
      as (D' & T' & -> & HkD & HkT & HD & HT).
    { intros e' He'. rewrite !keys_set_present by done.
      apply Hover, elem_of_cons. by right. }
    exists D', T'. split; [done|].
    rewrite keys_set_present in HkD by done.
    rewrite keys_set_present in HkT by done.
    split; [done|]. split; [done|]. split; intros k.
    + rewrite HD, preds_of_cons. case_decide as Hk.
      * subst k. rewrite get_set_eq, Hdeps. simpl.
        by rewrite <- app_assoc.
      * by rewrite get_set_ne.
    + rewrite HT, succs_of_cons. case_decide as Hk.
      * subst k. rewrite get_set_eq, Hsuccs. simpl.
        by rewrite <- app_assoc.
      * by rewrite get_set_ne.
Qed.

Lemma link_edges_app pre post D T :
  DynamicRouteService.link_edges (pre ++ post) D T
  = '(D', T') ← DynamicRouteService.link_edges pre D T;
    DynamicRouteService.link_edges post D' T'.
Proof.
  revert D T. induction pre as [|e pre IH]; intros D T; [done|].
  cbn [app DynamicRouteService.link_edges].
  destruct (negb (String.eqb (source e) "")
            && negb (String.eqb (target e) "")); [|apply IH].
  destruct (PyDict.getitem (target e) D); [|done..].
  cbn [mbind res_bind].
  destruct (PyDict.getitem (source e) T); [|done..].
  cbn [mbind res_bind]. apply IH.
Qed.

Lemma link_edges_dangling pre e post D T :
  (forall e', e' ∈ live pre ->
     target e' ∈ PyDict.keys D /\ source e' ∈ PyDict.keys T) ->
  source e ≠ "" -> target e ≠ "" ->
  (target e ∉ PyDict.keys D ->
   DynamicRouteService.link_edges (pre ++ e :: post) D T
   = Raise (KeyError (target e)))
  /\ (target e ∈ PyDict.keys D -> source e ∉ PyDict.keys T ->
      DynamicRouteService.link_edges (pre ++ e :: post) D T
      = Raise (KeyError (source e))).
Proof.
  intros Hpre Hs Ht. rewrite link_edges_app.
  destruct (link_edges_ok pre D T Hpre) as (D' & T' & -> & HkD & HkT & _).
  cbn [mbind res_bind DynamicRouteService.link_edges].
  apply String.eqb_neq in Hs, Ht. rewrite Hs, Ht. simpl.
  split.
  - intros Hout. rewrite (getitem_missing (target e) D'); [done|].
    by rewrite HkD.
  - intros Hin Hout.
    destruct (getitem_present (target e) D') as [deps ->];
      [by rewrite HkD|].
    cbn [mbind res_bind].
    rewrite (getitem_missing (source e) T'); [done|]. by rewrite HkT.
Qed.

(** *** The graph *)

Lemma build_execution_graph_unfold self heap nodes deployment_id objs :
  DynamicRouteService.deref_all heap nodes = Ok objs ->
  DynamicRouteService._build_execution_graph self heap nodes deployment_id
  = '(dependencies, dependents) ←
      DynamicRouteService.link_edges (registered_edges self deployment_id)
        (PyDict.comprehension (fun o : nat * WorkflowNode => id o.2)
           (fun _ => @nil string) objs)
        (PyDict.comprehension (fun o : nat * WorkflowNode => id o.2)
           (fun _ => @nil string) objs);
    Ok (DynamicRouteService.mkGraph
          (PyDict.comprehension (fun o : nat * WorkflowNode => id o.2)
             (fun o => o.1) objs)
          dependencies dependents
          (map fst (filter (fun item => item.2 = []) dependencies))
          (map fst (filter (fun item => item.2 = []) dependents))
          (registered_edges self deployment_id)).
Proof.
  intros Hobjs. unfold DynamicRouteService._build_execution_graph.
  rewrite Hobjs. cbn [mbind res_bind]. done.
Qed.

Lemma build_execution_graph_ok self heap nodes deployment_id objs :
  DynamicRouteService.deref_all heap nodes = Ok objs ->
  edges_over (map (fun o : nat * WorkflowNode => id o.2) objs)
    (live (registered_edges self deployment_id)) ->
  exists g,
    DynamicRouteService._build_execution_graph self heap nodes deployment_id
    = Ok g
    /\ DynamicRouteService.graph_edges g = registered_edges self deployment_id
    /\ NoDup (PyDict.keys (DynamicRouteService.dependencies g))
    /\ PyDict.keys (DynamicRouteService.graph_nodes g)
       = PyDict.keys (DynamicRouteService.dependencies g)
    /\ PyDict.keys (DynamicRouteService.dependents g)
       = PyDict.keys (DynamicRouteService.dependencies g)
    /\ (forall k, k ∈ PyDict.keys (DynamicRouteService.dependencies g)
                  <-> k ∈ map (fun o : nat * WorkflowNode => id o.2) objs)
    /\ DynamicRouteService.dependencies g
       = tab (PyDict.keys (DynamicRouteService.dependencies g))
           (preds_of (live (registered_edges self deployment_id)))
    /\ DynamicRouteService.dependents g
       = tab (PyDict.keys (DynamicRouteService.dependencies g))
           (succs_of (live (registered_edges self deployment_id)))
    /\ DynamicRouteService.start_nodes g
       = filter
           (fun k => preds_of (live (registered_edges self deployment_id)) k
                     = [])
           (PyDict.keys (DynamicRouteService.dependencies g))
    /\ DynamicRouteService.end_nodes g
       = filter
           (fun k => succs_of (live (registered_edges self deployment_id)) k
                     = [])
           (PyDict.keys (DynamicRouteService.dependencies g)).
Proof.
  intros Hobjs Hover.
  rewrite (build_execution_graph_unfold _ _ _ _ _ Hobjs).
  set (key := fun o : nat * WorkflowNode => id o.2).
  set (D0 := PyDict.comprehension key (fun _ => @nil string) objs).
  set (edges := registered_edges self deployment_id) in *.
  destruct (link_edges_ok edges D0 D0) as (D & T & -> & HkD & HkT & HD & HT).
  { intros e He. unfold D0. rewrite !elem_of_keys_comprehension.
    destruct (Hover e He). done. }
  cbn [mbind res_bind].
  assert (NoDup (PyDict.keys D)) as Hnd.
  { rewrite HkD. apply NoDup_keys_comprehension. }
  assert (forall k, k ∈ PyDict.keys D <-> k ∈ map key objs) as Hk.
  { intros k. rewrite HkD. apply elem_of_keys_comprehension. }
  assert (D = tab (PyDict.keys D) (preds_of (live edges))) as HDtab.
  { apply dict_as_tab; [done|]. intros k Hin. rewrite HD.
    unfold D0. rewrite get_comprehension_const; [done|]. by apply Hk. }
  assert (T = tab (PyDict.keys D) (succs_of (live edges))) as HTtab.
  { assert (PyDict.keys T = PyDict.keys D) as HkTD by (by rewrite HkT, HkD).
    rewrite <- HkTD. apply dict_as_tab; [by rewrite HkTD|].
    intros k Hin. rewrite HT.
    unfold D0. rewrite get_comprehension_const; [done|].
    apply Hk. by rewrite <- HkTD. }
  eexists. split; [done|].
  cbn [DynamicRouteService.graph_edges DynamicRouteService.dependencies
       DynamicRouteService.graph_nodes DynamicRouteService.dependents
       DynamicRouteService.start_nodes DynamicRouteService.end_nodes].
  split; [done|]. split; [done|].
  split; [by rewrite HkD; apply keys_comprehension_indep|].
  split; [by rewrite HkT, HkD|]. split; [done|].
  split; [done|]. split; [done|]. split.
  - rewrite HDtab at 1. apply filter_tab_nil.
  - rewrite HTtab at 1. apply filter_tab_nil.
Qed.

(** *** The chaining loop: what is executed, and in which order *)

Lemma snoc_split {A} (l1 l2 l : list A) (v x : A) :
  l1 ++ v :: l2 = l ++ [x] ->
  (l2 = [] /\ l1 = l /\ v = x)
  \/ exists l2', l2 = l2' ++ [x] /\ l = l1 ++ v :: l2'.
Proof.
  destruct l2 as [|y l2 _] using rev_ind.
  - intros [-> ->]%app_inj_tail. by left.
  - change (l1 ++ v :: l2 ++ [y]) with (l1 ++ (v :: l2) ++ [y]).
    rewrite app_assoc. intros [<- ->]%app_inj_tail. right. by exists l2.
Qed.

Lemma elem_of_dict_get {V} (d : dict V) k v :
  NoDup (PyDict.keys d) -> (k, v) ∈ d -> PyDict.get k d = Some v.
Proof.
  induction d as [|[k0 v0] d IH]; simpl; [by intros _ ?%elem_of_nil|].
  intros [Hk0 Hnd]%NoDup_cons [[= -> ->]|Hin]%elem_of_cons.
  - by rewrite decide_True.
  - rewrite decide_False; [by apply IH|].
    intros ->. apply Hk0. by apply (list_elem_of_fmap_2 fst _ (k0, v)).
Qed.

Lemma get_elem_of_dict {V} (d : dict V) k v :
  PyDict.get k d = Some v -> (k, v) ∈ d.
Proof.
  induction d as [|[k0 v0] d IH]; simpl; [done|].
  case_decide as Hk.
  - intros [= ->]. subst. apply elem_of_cons. by left.
  - intros Hget. apply elem_of_cons. right. by apply IH.
Qed.

Section chain_order.

Variable f :
  nat -> value -> string -> DynamicRouteService.store ->
  res (value * DynamicRouteService.store).
Variable P : DynamicRouteService.store -> Prop.
Variable g : DynamicRouteService.ExecutionGraph.

Let D := DynamicRouteService.dependencies g.
Let ids := PyDict.keys D.

Hypothesis ids_NoDup : NoDup ids.
Hypothesis nodes_ids : PyDict.keys (DynamicRouteService.graph_nodes g) = ids.
Hypothesis start_spec :
  DynamicRouteService.start_nodes g
  = map fst (filter (fun item => item.2 = []) D).
Hypothesis deps_closed : forall u v, depends g u v -> u ∈ ids.
Hypothesis f_total : forall k r input position heap,
  PyDict.get k (DynamicRouteService.graph_nodes g) = Some r ->
  P heap ->
  exists out heap', f r input position heap = Ok (out, heap') /\ P heap'.

Lemma chain_inv_record v out st :
  chain_inv g st ->
  v ∈ ids ->
  v ∉ DynamicRouteService.executed_nodes st ->
  (forall u, depends g u v -> u ∈ DynamicRouteService.executed_nodes st) ->
  chain_inv g (DynamicRouteService.record_output v out st).
Proof.
  intros (Hnd & Hex & Hout & Hsub & Hbefore) Hv Hfresh Hdeps.
  unfold DynamicRouteService.record_output, chain_inv. simpl.
  assert (v ∉ DynamicRouteService.execution_order st) as Hfresh'.
  { rewrite Hex in Hfresh. by rewrite elem_of_list_to_set in Hfresh. }
  split; [|split; [|split; [|split]]].
  - apply NoDup_app. split; [done|]. split; [|apply NoDup_singleton].
    by intros x Hx ->%list_elem_of_singleton.
  - rewrite Hex, list_to_set_app_L. simpl. set_solver.
  - rewrite keys_set_absent by (by rewrite Hout). by rewrite Hout.
  - intros x [Hx| ->%list_elem_of_singleton]%elem_of_app; [by apply Hsub|done].
  - intros l1 x l2 u Heq Hu. symmetry in Heq.
    apply snoc_split in Heq as [(-> & -> & ->)|(l2' & -> & Heq)].
    + apply Hdeps in Hu. rewrite Hex in Hu.
      by rewrite elem_of_list_to_set in Hu.
    + by apply (Hbefore l1 x l2').
Qed.

Lemma getitem_node k :
  k ∈ ids ->
  exists r, PyDict.get k (DynamicRouteService.graph_nodes g) = Some r.
Proof. intros Hk. apply get_is_Some. by rewrite nodes_ids. Qed.

Lemma run_start_nodes_inv initial_input todo : forall heap st,
  chain_inv g st -> P heap -> NoDup todo ->
  (forall v, v ∈ todo ->
     v ∈ ids /\ (v ∉ DynamicRouteService.executed_nodes st)
     /\ PyDict.get v D = Some []) ->
  exists st' heap',
    DynamicRouteService.run_start_nodes f todo g initial_input heap st
    = Ok (st', heap')
    /\ chain_inv g st' /\ P heap'
    /\ DynamicRouteService.execution_order st'
       = DynamicRouteService.execution_order st ++ todo.
Proof.
  induction todo as [|v todo IH]; intros heap st Hinv HP Hnd Htodo.
  - exists st, heap. by rewrite app_nil_r.
  - apply NoDup_cons in Hnd as [Hv Hnd].
    destruct (Htodo v) as (Hvin & Hfresh & Hdeps); [apply elem_of_cons; by left|].
    destruct (getitem_node v Hvin) as [r Hr].
    cbn [DynamicRouteService.run_start_nodes].
    unfold PyDict.getitem. rewrite Hr. cbn [mbind res_bind].
    destruct (f_total v r initial_input "START" heap Hr HP)
      as (out & heap1 & -> & HP1).
    cbn [mbind res_bind].
    destruct (IH heap1 (DynamicRouteService.record_output v out st))
      as (st' & heap' & -> & Hinv' & HP' & Hord); [|done|done| |].
    + apply chain_inv_record; [done..|].
      intros u (deps & Hget & Hu). fold D in Hget.
      rewrite Hdeps in Hget. injection Hget as <-.
      by apply elem_of_nil in Hu.
    + intros x Hx. destruct (Htodo x) as (? & ? & ?);
        [apply elem_of_cons; by right|].
      split; [done|]. split; [|done]. simpl.
      intros [?| ->%elem_of_singleton]%elem_of_union; done.
    + exists st', heap'. split; [done|]. split; [done|]. split; [done|].
      rewrite Hord. simpl. by rewrite <- app_assoc.
Qed.

Lemma run_ready_nodes_inv initial_input ready : forall heap st,
  chain_inv g st -> P heap -> NoDup ready ->
  (forall v, v ∈ ready ->
     v ∈ ids /\ (v ∉ DynamicRouteService.executed_nodes st)
     /\ forall u, depends g u v ->
          u ∈ DynamicRouteService.executed_nodes st) ->
  exists st' heap',
    DynamicRouteService.run_ready_nodes f ready g initial_input heap st
    = Ok (st', heap')
    /\ chain_inv g st' /\ P heap'
    /\ DynamicRouteService.execution_order st'
       = DynamicRouteService.execution_order st ++ ready.
Proof.
  induction ready as [|v ready IH]; intros heap st Hinv HP Hnd Hready.
  - exists st, heap. by rewrite app_nil_r.
  - apply NoDup_cons in Hnd as [Hv Hnd].
    destruct (Hready v) as (Hvin & Hfresh & Hdeps);
      [apply elem_of_cons; by left|].
    destruct (getitem_node v Hvin) as [r Hr].
    destruct (get_is_Some v D Hvin) as [deps Hget].
    cbn [DynamicRouteService.run_ready_nodes].
    unfold PyDict.getitem. fold D. rewrite Hget. cbn [mbind res_bind].
    rewrite Hr. cbn [mbind res_bind].
    match goal with
    | |- context [f r ?input ?position heap] =>
        destruct (f_total v r input position heap Hr HP)
          as (out & heap1 & -> & HP1)
    end.
    cbn [mbind res_bind].
    destruct (IH heap1 (DynamicRouteService.record_output v out st))
      as (st' & heap' & -> & Hinv' & HP' & Hord); [|done|done| |].
    + by apply chain_inv_record.
    + intros x Hx. destruct (Hready x) as (? & ? & Hx');
        [apply elem_of_cons; by right|].
      split; [done|]. simpl. split.
      * intros [?| ->%elem_of_singleton]%elem_of_union; done.
      * intros u Hu. apply elem_of_union. left. by apply Hx'.
    + exists st', heap'. split; [done|]. split; [done|]. split; [done|].
      rewrite Hord. simpl. by rewrite <- app_assoc.
Qed.

Lemma elem_of_ready_nodes st v :
  v ∈ DynamicRouteService.ready_nodes g st
  <-> exists deps,
        PyDict.get v D = Some deps
        /\ (v ∉ DynamicRouteService.executed_nodes st)
        /\ Forall (fun u => u ∈ DynamicRouteService.executed_nodes st) deps.
Proof.
  unfold DynamicRouteService.ready_nodes. fold D.
  rewrite list_elem_of_fmap. split.
  - intros ([k deps] & -> & [[Hk Hdeps] Hin]%list_elem_of_filter).
    exists deps. split; [|done]. by apply elem_of_dict_get.
  - intros (deps & Hget & Hk & Hdeps). exists (v, deps). split; [done|].
    apply list_elem_of_filter. split; [done|]. by apply get_elem_of_dict.
Qed.

Lemma NoDup_ready_nodes st : NoDup (DynamicRouteService.ready_nodes g st).
Proof.
  unfold DynamicRouteService.ready_nodes. fold D.
  eapply sublist_NoDup; [exact ids_NoDup|apply fmap_sublist, sublist_filter].
Qed.

Lemma chain_inv_size st :
  chain_inv g st ->
  size (DynamicRouteService.executed_nodes st)
  = length (DynamicRouteService.execution_order st)
  /\ (length (DynamicRouteService.execution_order st) <= length ids)%nat.
Proof.
  intros (Hnd & Hex & _ & Hsub & _). split.
  - rewrite Hex. by apply size_list_to_set.
  - apply submseteq_length, NoDup_submseteq; done.
Qed.

Lemma run_remaining_inv initial_input fuel : forall heap st,
  chain_inv g st -> P heap ->
  (length ids < fuel + length (DynamicRouteService.execution_order st))%nat ->
  exists st' heap',
    DynamicRouteService.run_remaining f fuel g initial_input heap st
    = Ok (st', heap')
    /\ chain_inv g st' /\ P heap' /\ stalled g st'.
Proof.
  induction fuel as [|fuel IH]; intros heap st Hinv HP Hfuel.
  { destruct (chain_inv_size st Hinv). lia. }
  cbn [DynamicRouteService.run_remaining].
  destruct (chain_inv_size st Hinv) as [Hsize Hle].
  pose proof Hinv as (Hnd & Hex & _ & Hsub & _).
  assert (length (DynamicRouteService.graph_nodes g) = length ids) as Hlen.
  { rewrite <- nodes_ids. unfold PyDict.keys. by rewrite length_map. }
  case_decide as Hlt.
  - destruct (DynamicRouteService.ready_nodes g st) as [|n ready] eqn:Hr.
    + exists st, heap. split; [done|]. split; [done|]. split; [done|].
      intros v Hv Hout.
      destruct (get_is_Some v D Hv) as [deps Hget].
      assert (~ Forall (fun u => u ∈ DynamicRouteService.executed_nodes st)
                deps) as Hnot.
      { intros Hall.
        assert (v ∈ DynamicRouteService.ready_nodes g st) as Hin.
        { apply elem_of_ready_nodes. exists deps. split; [done|].
          split; [|done]. by rewrite Hex, elem_of_list_to_set. }
        rewrite Hr in Hin. by apply elem_of_nil in Hin. }
      apply not_Forall_Exists in Hnot; [|apply _].
      apply Exists_exists in Hnot as (u & Hu & Hun).
      assert (depends g u v) as Hdep by (by exists deps).
      exists u. split; [done|]. split; [by eapply deps_closed|].
      intros Hin. apply Hun. by rewrite Hex, elem_of_list_to_set.
    + rewrite <- Hr.
      destruct (run_ready_nodes_inv initial_input
                  (DynamicRouteService.ready_nodes g st) heap st)
        as (st1 & heap1 & -> & Hinv1 & HP1 & Hord); [done|done| | |].
      * apply NoDup_ready_nodes.
      * intros v (deps & Hget & Hv & Hdeps)%elem_of_ready_nodes.
        split; [by eapply get_Some_keys|]. split; [done|].
        intros u (deps' & Hget' & Hu). fold D in Hget'.
        rewrite Hget in Hget'. injection Hget' as <-.
        rewrite Forall_forall in Hdeps. by apply Hdeps.
      * cbn [mbind res_bind]. apply IH; [done|done|].
        rewrite Hord, length_app, Hr. simpl. lia.
  - exists st, heap. split; [done|]. split; [done|]. split; [done|].
    intros v Hv Hout. exfalso. apply Hout.
    assert (DynamicRouteService.execution_order st ≡ₚ ids) as Hperm.
    { apply submseteq_length_Permutation.
      - by apply NoDup_submseteq.
      - lia. }
    by rewrite Hperm.
Qed.

Lemma run_chain_inv initial_input heap :
  P heap ->
  exists st heap',
    DynamicRouteService.run_chain f g initial_input heap = Ok (st, heap')
    /\ chain_inv g st /\ P heap' /\ stalled g st.
Proof.
  intros HP. unfold DynamicRouteService.run_chain.
  destruct (run_start_nodes_inv initial_input
              (DynamicRouteService.start_nodes g) heap
              (DynamicRouteService.mkChain ∅ [] []))
    as (st1 & heap1 & -> & Hinv1 & HP1 & Hord); [|done| | |].
  - split; [apply NoDup_nil_2|]. split; [done|]. split; [done|].
    split; [by intros v ?%elem_of_nil|].
    intros l1 v l2 u Heq. by destruct l1.
  - rewrite start_spec.
    eapply sublist_NoDup; [exact ids_NoDup|apply fmap_sublist, sublist_filter].
  - intros v. rewrite start_spec, list_elem_of_fmap.
    intros ([k deps] & -> & [Hnil Hin]%list_elem_of_filter).
    simpl in *. subst deps. apply elem_of_dict_get in Hin; [|done].
    split; [by eapply get_Some_keys|]. split; [set_solver|done].
  - cbn [mbind res_bind]. apply run_remaining_inv; [done|done|].
    assert (length (DynamicRouteService.graph_nodes g) = length ids) as Hlen.
    { rewrite <- nodes_ids. unfold PyDict.keys. by rewrite length_map. }
    lia.
Qed.

(** *** What the invariant says about cycles *)

Lemma chain_inv_closed st u v :
  chain_inv g st -> depends g u v ->
  v ∈ DynamicRouteService.execution_order st ->
  u ∈ DynamicRouteService.execution_order st.
Proof.
  intros (_ & _ & _ & _ & Hbefore) Hdep
    (l1 & l2 & Heq)%list_elem_of_split.
  rewrite Heq. apply elem_of_app. left. by eapply Hbefore.
Qed.

Lemma chain_inv_no_cycle st :
  chain_inv g st ->
  forall n l1 v l2, length l1 = n ->
    DynamicRouteService.execution_order st = l1 ++ v :: l2 ->
    ~ tc (depends g) v v.
Proof.
  intros Hinv n. pose proof Hinv as (_ & _ & _ & _ & Hbefore).
  induction (lt_wf n) as [n _ IH].
  intros l1 v l2 Hlen Horder Hcyc.
  destruct (cycle_pred _ _ Hcyc) as (u & Hdep & Hu).
  pose proof (Hbefore l1 v l2 u Horder Hdep) as Hin.
  apply list_elem_of_split in Hin as (l1a & l1b & ->).
  eapply (IH (length l1a)); [| reflexivity | | exact Hu].
  - rewrite <- Hlen, length_app. simpl. lia.
  - rewrite Horder, <- app_assoc. reflexivity.
Qed.

Lemma chain_inv_clean st c v :
  chain_inv g st -> tc (depends g) c c -> rtc (depends g) c v ->
  v ∉ DynamicRouteService.execution_order st.
Proof.
  intros Hinv Hcyc Hreach Hv.
  assert (c ∈ DynamicRouteService.execution_order st) as Hc.
  { clear Hcyc. induction Hreach as [|x y z Hxy _ IH]; [done|].
    eapply chain_inv_closed; [done|exact Hxy|]. by apply IH. }
  apply list_elem_of_split in Hc as (l1 & l2 & Heq).
  by apply (chain_inv_no_cycle st Hinv (length l1) l1 c l2).
Qed.

End chain_order.

(** A chain of predecessors of any length ends in [v]. *)
Lemma chain_to {A} (R : relation A) (S : list A) (v : A) (n : nat) :
  v ∈ S ->
  (forall w, w ∈ S -> exists u, u ∈ S /\ R u w) ->
  exists p, length p = n /\ Sorted R (p ++ [v]) /\ forall x, x ∈ p -> x ∈ S.
Proof.
  intros Hv Hpred. induction n as [|n (p & Hlen & Hs & Hsub)].
  - exists []. split; [done|]. split; [repeat constructor|].
    by intros x ?%elem_of_nil.
  - destruct p as [|h p].
    + destruct (Hpred v Hv) as (u & Hu & Hr). exists [u].
      split; [simpl in *; lia|]. split.
      * simpl. constructor; [done|by constructor].
      * by intros x ->%list_elem_of_singleton.
    + destruct (Hpred h) as (u & Hu & Hr).
      { apply Hsub, elem_of_cons. by left. }
      exists (u :: h :: p). split; [simpl in *; lia|]. split.
      * simpl. constructor; [done|by constructor].
      * intros x [->|?]%elem_of_cons; auto.
Qed.

Lemma cycle_reaching {A} `{EqDecision A} (R : relation A) (S : list A) v :
  v ∈ S ->
  (forall w, w ∈ S -> exists u, u ∈ S /\ R u w) ->
  exists c, tc R c c /\ rtc R c v.
Proof.
  intros Hv Hpred.
  destruct (chain_to R S v (Datatypes.S (length S)) Hv Hpred)
    as (p & Hlen & Hs & Hsub).
  destruct (not_NoDup_split p) as (l1 & x & l2 & l3 & ->).
  { intros Hnd. apply (NoDup_submseteq _ S) in Hnd; [|done].
    apply submseteq_length in Hnd. lia. }
  exists x. split.
  - apply (Sorted_tc R l2).
    replace ((l1 ++ x :: l2 ++ x :: l3) ++ [v])
      with (l1 ++ (x :: l2 ++ [x]) ++ (l3 ++ [v])) in Hs.
    + apply Sorted_app_r in Hs. by apply Sorted_app_l in Hs.
    + simpl. rewrite <- !app_assoc. simpl. by rewrite <- !app_assoc.
  - apply tc_rtc, (Sorted_tc R l3).
    replace ((l1 ++ x :: l2 ++ x :: l3) ++ [v])
      with ((l1 ++ x :: l2) ++ x :: l3 ++ [v]) in Hs.
    + by apply Sorted_app_r in Hs.
    + rewrite <- !app_assoc. simpl. by rewrite <- !app_assoc.
Qed.

(** *** The graph the service builds satisfies what the loop needs *)

Lemma tc_iff {A} (R R' : relation A) x y :
  (forall a b, R a b <-> R' a b) -> tc R x y <-> tc R' x y.
Proof.
  intros Hiff. split; induction 1 as [a b Hab|a b c Hab _ IH].
  - apply tc_once. by apply Hiff.
  - eapply tc_l; [by apply Hiff|done].
  - apply tc_once. by apply Hiff.
  - eapply tc_l; [by apply Hiff|done].
Qed.

Lemma rtc_iff {A} (R R' : relation A) x y :
  (forall a b, R a b <-> R' a b) -> rtc R x y <-> rtc R' x y.
Proof.
  intros Hiff. split; induction 1 as [|a b c Hab _ IH]; try done.
  - eapply rtc_l; [by apply Hiff|done].
  - eapply rtc_l; [by apply Hiff|done].
Qed.

Lemma elem_of_preds_of edges u v :
  u ∈ preds_of edges v <-> edge_rel edges u v.
Proof.
  unfold preds_of, edge_rel. rewrite list_elem_of_fmap. split.
  - intros (e & -> & [Ht He]%list_elem_of_filter). by exists e.
  - intros (e & He & Hs & Ht). exists e. split; [done|].
    by apply list_elem_of_filter.
Qed.

Lemma get_comprehension_elem {A V} (key : A -> string) (val : A -> V) l k x :
  PyDict.get k (PyDict.comprehension key val l) = Some x ->
  exists a, a ∈ l /\ key a = k /\ val a = x.
Proof.
  induction l as [|a l IH] using rev_ind; [done|].
  rewrite comprehension_snoc.
  destruct (decide (key a = k)) as [<-|Hne].
  - rewrite get_set_eq. intros [= <-]. exists a. split; [|done].
    apply elem_of_app. right. by apply list_elem_of_singleton.
  - rewrite get_set_ne by done. intros (b & Hb & Hk & Hx)%IH.
    exists b. split; [|done]. apply elem_of_app. by left.
Qed.

Lemma deref_all_spec heap nodes : forall objs,
  DynamicRouteService.deref_all heap nodes = Ok objs ->
  map fst objs = nodes
  /\ forall o, o ∈ objs -> heap !! o.1 = Some o.2.
Proof.
  induction nodes as [|r nodes IH]; intros objs; simpl.
  - intros [= <-]. split; [done|]. by intros o ?%elem_of_nil.
  - unfold DynamicRouteService.deref.
    destruct (heap !! r) as [node|] eqn:Hr; [|done]. cbn [mbind res_bind].
    destruct (DynamicRouteService.deref_all heap nodes) as [rest| |];
      [|done..].
    cbn [mbind res_bind]. intros [= <-].
    destruct (IH rest eq_refl) as [Hfst Hget]. split; [by rewrite <- Hfst|].
    intros o [->|Ho]%elem_of_cons; [done|by apply Hget].
Qed.

Lemma deref_all_total heap nodes :
  (forall r, r ∈ nodes -> is_Some (heap !! r)) ->
  exists objs, DynamicRouteService.deref_all heap nodes = Ok objs.
Proof.
  induction nodes as [|r nodes IH]; intros Hall; simpl; [by eexists|].
  destruct (Hall r) as [node Hr]; [apply elem_of_cons; by left|].
  unfold DynamicRouteService.deref. rewrite Hr. cbn [mbind res_bind].
  destruct IH as [rest ->].
  { intros r' Hr'. apply Hall, elem_of_cons. by right. }
  by eexists.
Qed.

Lemma built_graph_facts self heap nodes deployment_id objs :
  DynamicRouteService.deref_all heap nodes = Ok objs ->
  edges_over (map (fun o : nat * WorkflowNode => id o.2) objs)
    (live (registered_edges self deployment_id)) ->
  exists g,
    DynamicRouteService._build_execution_graph self heap nodes deployment_id
    = Ok g
    /\ NoDup (PyDict.keys (DynamicRouteService.dependencies g))
    /\ PyDict.keys (DynamicRouteService.graph_nodes g)
       = PyDict.keys (DynamicRouteService.dependencies g)
    /\ DynamicRouteService.start_nodes g
       = map fst (filter (fun item => item.2 = [])
                    (DynamicRouteService.dependencies g))
    /\ (forall k, k ∈ PyDict.keys (DynamicRouteService.dependencies g)
                  <-> k ∈ map (fun o : nat * WorkflowNode => id o.2) objs)
    /\ (forall u v,
          depends g u v
          <-> edge_rel (live (registered_edges self deployment_id)) u v)
    /\ (forall k r,
          PyDict.get k (DynamicRouteService.graph_nodes g) = Some r ->
          r ∈ nodes).
Proof.
  intros Hobjs Hover.
  destruct (build_execution_graph_ok self heap nodes deployment_id objs
              Hobjs Hover)
    as (g & Hg & _ & Hnd & Hkn & _ & Hk & HD & _ & Hstart & _).
  exists g. split; [done|]. split; [done|]. split; [done|]. split.
  { rewrite Hstart. rewrite HD at 2. by rewrite filter_tab_nil. }
  split; [done|]. split.
  - intros u v. unfold depends. rewrite <- elem_of_preds_of. split.
    + intros (deps & Hget & Hu). rewrite HD in Hget.
      destruct (decide (v ∈ PyDict.keys (DynamicRouteService.dependencies g)))
        as [Hv|Hv].
      * rewrite get_tab in Hget by done. by injection Hget as <-.
      * by rewrite get_tab_None in Hget.
    + intros Hu. exists (preds_of (live (registered_edges self deployment_id)) v).
      split; [|done]. rewrite HD. apply get_tab.
      apply elem_of_preds_of in Hu as (e & He & _ & <-).
      apply Hk. by apply Hover.
  - intros k r Hget.
    rewrite (build_execution_graph_unfold _ _ _ _ _ Hobjs) in Hg.
    destruct (DynamicRouteService.link_edges _ _ _) as [[D T]| |];
      [|done..].
    cbn [mbind res_bind] in Hg. injection Hg as <-. simpl in Hget.
    apply get_comprehension_elem in Hget as (o & Ho & _ & <-).
    destruct (deref_all_spec _ _ _ Hobjs) as [<- _].
    by apply list_elem_of_fmap_2.
Qed.

Lemma execute_single_node_total (py_str : value -> string) get_executor
    self heap r input parameters deployment_id position :
  is_Some (heap !! r) ->
  (exists out heap',
     DynamicRouteService._execute_single_node py_str get_executor self heap
       r input parameters deployment_id position = Ok (out, heap')
     /\ forall r', is_Some (heap !! r') -> is_Some (heap' !! r'))
  /\ (exists out heap',
        DynamicRouteService._execute_single_node_streaming py_str
          get_executor self heap r input parameters deployment_id position
        = Ok (out, heap')
        /\ forall r', is_Some (heap !! r') -> is_Some (heap' !! r')).
Proof.
  intros [node Hr].
  unfold DynamicRouteService._execute_single_node,
    DynamicRouteService._execute_single_node_streaming,
    DynamicRouteService.deref.
  rewrite Hr. cbn [mbind res_bind].
  assert (forall n h,
            DynamicRouteService.apply_default_config self heap r node
            = (n, h) ->
            forall r', is_Some (heap !! r') -> is_Some (h !! r')) as Hkeep.
  { unfold DynamicRouteService.apply_default_config.
    intros n h Heq r' Hr'. destruct (config node); injection Heq as <- <-;
      [|done].
    destruct (decide (r' = r)) as [->|Hne].
    - rewrite lookup_insert_eq. by eexists.
    - by rewrite lookup_insert_ne. }
  split.
  - destruct (get_executor (type node)) as [e|ex]; [by eexists _, _|].
    destruct (DynamicRouteService.apply_default_config self heap r node)
      as [n h] eqn:Hcfg.
    destruct (BaseNodeExecutor.execute _ _ _ _ _) as [c [e|res]];
      eexists _, _; (split; [done|]); by eapply Hkeep.
  - destruct (DynamicRouteService.apply_default_config self heap r node)
      as [n h] eqn:Hcfg.
    destruct (get_executor (type n)) as [e|ex];
      [eexists _, _; split; [done|]; by eapply Hkeep|].
    destruct (BaseNodeExecutor.execute _ _ _ _ _) as [c [e|res]];
      eexists _, _; (split; [done|]); by eapply Hkeep.
Qed.

(** X12: for node objects with distinct ids and registered edges that,
    where both ends are non-empty, join these ids, the execution graph
    maps every id to its node object, to the sources of its incoming
    edges and to the targets of its outgoing edges, in the order of the
    edges; its start nodes are the ids without incoming edge and its end
    nodes the ids without outgoing edge, in the order of the nodes. *)
Theorem build_execution_graph_spec self heap nodes deployment_id objs :
  DynamicRouteService.deref_all heap nodes = Ok objs ->
  NoDup (map (fun o : nat * WorkflowNode => id o.2) objs) ->
  edges_over (map (fun o : nat * WorkflowNode => id o.2) objs)
    (live (registered_edges self deployment_id)) ->
  DynamicRouteService._build_execution_graph self heap nodes deployment_id
  = Ok (DynamicRouteService.mkGraph
          (map (fun o : nat * WorkflowNode => (id o.2, o.1)) objs)
          (tab (map (fun o : nat * WorkflowNode => id o.2) objs)
             (preds_of (live (registered_edges self deployment_id))))
          (tab (map (fun o : nat * WorkflowNode => id o.2) objs)
             (succs_of (live (registered_edges self deployment_id))))
          (filter
             (fun k => preds_of (live (registered_edges self deployment_id)) k
                       = [])
             (map (fun o : nat * WorkflowNode => id o.2) objs))
          (filter
             (fun k => succs_of (live (registered_edges self deployment_id)) k
                       = [])
             (map (fun o : nat * WorkflowNode => id o.2) objs))
          (registered_edges self deployment_id)).
Proof.
  intros Hobjs Hnd Hover.
  rewrite (build_execution_graph_unfold _ _ _ _ _ Hobjs).
  set (ids := map (fun o : nat * WorkflowNode => id o.2) objs) in *.
  set (edges := registered_edges self deployment_id) in *.
  rewrite (comprehension_tab _ _ (fun _ => []) objs Hnd) by done.
  rewrite (comprehension_NoDup _ _ objs Hnd). fold ids.
  destruct (link_edges_ok edges (tab ids (fun _ => [])) (tab ids (fun _ => [])))
    as (D & T & -> & HkD & HkT & HD & HT).
  { intros e He. rewrite keys_tab. destruct (Hover e He). done. }
  cbn [mbind res_bind]. rewrite keys_tab in HkD, HkT.
  assert (D = tab ids (preds_of (live edges))) as ->.
  { rewrite <- HkD. apply dict_as_tab; [by rewrite HkD|].
    intros k Hk. rewrite HkD in Hk. by rewrite HD, get_tab. }
  assert (T = tab ids (succs_of (live edges))) as ->.
  { rewrite <- HkT. apply dict_as_tab; [by rewrite HkT|].
    intros k Hk. rewrite HkT in Hk. by rewrite HT, get_tab. }
  by rewrite !filter_tab_nil.
Qed.

Lemma build_execution_graph_spec_witness :
  DynamicRouteService._build_execution_graph
    (service_ab [plain_edge "a" "b"]) store_ab [0%nat; 1%nat] "dep"
  = Ok (DynamicRouteService.mkGraph [("a", 0%nat); ("b", 1%nat)]
          [("a", []); ("b", ["a"])] [("a", ["b"]); ("b", [])]
          ["a"] ["b"] [plain_edge "a" "b"]).
Proof.
  apply (build_execution_graph_spec (service_ab [plain_edge "a" "b"])
           store_ab [0%nat; 1%nat] "dep"
           [(0%nat, plain_node "a" DOCUMENT);
            (1%nat, plain_node "b" DOCUMENT)]).
  - reflexivity.
  - apply (bool_decide_unpack _). vm_compute. exact I.
  - intros e ->%list_elem_of_singleton. simpl. rewrite !elem_of_cons. auto.
Defined.

Lemma build_execution_graph_dangling self heap nodes deployment_id objs
    pre e post :
  DynamicRouteService.deref_all heap nodes = Ok objs ->
  registered_edges self deployment_id = pre ++ e :: post ->
  edges_over (map (fun o : nat * WorkflowNode => id o.2) objs) (live pre) ->
  source e ≠ "" -> target e ≠ "" ->
  (target e ∉ map (fun o : nat * WorkflowNode => id o.2) objs ->
   DynamicRouteService._build_execution_graph self heap nodes deployment_id
   = Raise (KeyError (target e)))
  /\ (target e ∈ map (fun o : nat * WorkflowNode => id o.2) objs ->
      source e ∉ map (fun o : nat * WorkflowNode => id o.2) objs ->
      DynamicRouteService._build_execution_graph self heap nodes
        deployment_id
      = Raise (KeyError (source e))).
Proof.
  intros Hobjs Hedges Hpre Hs Ht.
  rewrite (build_execution_graph_unfold _ _ _ _ _ Hobjs), Hedges.
  match goal with
  | |- context [DynamicRouteService.link_edges _ ?D ?T] =>
      assert (forall e', e' ∈ live pre ->
                target e' ∈ PyDict.keys D /\ source e' ∈ PyDict.keys T)
        as Hkeys
        by (intros e' He'; rewrite !elem_of_keys_comprehension;
            destruct (Hpre e' He'); done);
      destruct (link_edges_dangling pre e post D T Hkeys Hs Ht) as [H1 H2]
  end.
  split.
  - intros Hout. rewrite H1; [done|].
    by rewrite elem_of_keys_comprehension.
  - intros Hin Hout.
    rewrite H2; [done| |]; by rewrite elem_of_keys_comprehension.
Qed.



Lemma run_chain_dependency_order f (P : DynamicRouteService.store -> Prop)
    self heap0 nodes deployment_id objs initial_input heap :
  DynamicRouteService.deref_all heap0 nodes = Ok objs ->
  edges_over (map (fun o : nat * WorkflowNode => id o.2) objs)
    (live (registered_edges self deployment_id)) ->
  (forall r input position heap,
     r ∈ nodes -> P heap ->
     exists out heap', f r input position heap = Ok (out, heap') /\ P heap') ->
  P heap ->
  exists g st heap',
    DynamicRouteService._build_execution_graph self heap0 nodes deployment_id
    = Ok g
    /\ DynamicRouteService.run_chain f g initial_input heap = Ok (st, heap')
    /\ P heap'
    /\ DynamicRouteService.executed_nodes st
       = list_to_set (DynamicRouteService.execution_order st)
    /\ PyDict.keys (DynamicRouteService.node_outputs st)
       = DynamicRouteService.execution_order st
    /\ dependency_order (map (fun o : nat * WorkflowNode => id o.2) objs)
         (live (registered_edges self deployment_id))
         (DynamicRouteService.execution_order st).
Proof.
  intros Hobjs Hover Hf HP.
  destruct (built_graph_facts self heap0 nodes deployment_id objs Hobjs
              Hover)
    as (g & Hg & Hnd & Hkn & Hstart & Hk & Hdep & Hrefs).
  assert (forall u v, depends g u v ->
            u ∈ PyDict.keys (DynamicRouteService.dependencies g)) as Hclosed.
  { intros u v (e & He & <- & _)%Hdep. apply Hk. by apply Hover. }
  destruct (run_chain_inv f P g Hnd Hkn Hstart Hclosed) with
    (initial_input := initial_input) (heap := heap)
    as (st & heap' & Hrun & Hinv & HP' & Hstall); [|done|].
  { intros k r input position h Hget Hh. apply Hf; [|done].
    by eapply Hrefs. }
  exists g, st, heap'. split; [done|]. split; [done|]. split; [done|].
  pose proof Hinv as (Hndo & Hex & Hout & Hsub & Hbefore).
  split; [done|]. split; [done|].
  split; [done|]. split; [|split].
  - intros v Hv. by apply Hk, Hsub.
  - intros e He (l1 & l2 & Heq)%list_elem_of_split.
    assert (source e ∈ l1) as (a & b & ->)%list_elem_of_split.
    { apply (Hbefore l1 (target e) l2); [done|]. apply Hdep. by exists e. }
    exists a, b, l2. by rewrite Heq, <- app_assoc.
  - intros v Hv. split.
    + intros Hout'.
      destruct (cycle_reaching (depends g)
                  (filter (fun k => k ∉ DynamicRouteService.execution_order st)
                     (PyDict.keys (DynamicRouteService.dependencies g))) v)
        as (c & Hc & Hcv).
      * apply list_elem_of_filter. split; [done|]. by apply Hk.
      * intros w [Hw Hwk]%list_elem_of_filter.
        destruct (Hstall w Hwk Hw) as (u & Hu & Huk & Huo).
        exists u. split; [|done]. by apply list_elem_of_filter.
      * exists c. split.
        -- by apply (tc_iff _ _ _ _ Hdep).
        -- by apply (rtc_iff _ _ _ _ Hdep).
    + intros (c & Hc & Hcv). apply (chain_inv_clean g st c v Hinv).
      * by apply (tc_iff _ _ _ _ Hdep).
      * by apply (rtc_iff _ _ _ _ Hdep).
Qed.

(** X14: run on the graph of a deployment whose live edges join its
    nodes, the chaining loop of both workflow routes returns, and its
    execution order follows the dependencies: no id is executed twice,
    the source of an edge is executed before its target, and the ids
    that are never executed are exactly those reached from a cycle; each
    executed id has an output recorded. Whether a node fails has no
    part in it. *)
Theorem workflow_chain_dependency_order (py_str : value -> string)
    get_executor self heap nodes deployment_id objs initial_input
    parameters :
  DynamicRouteService.deref_all heap nodes = Ok objs ->
  edges_over (map (fun o : nat * WorkflowNode => id o.2) objs)
    (live (registered_edges self deployment_id)) ->
  exists g,
    DynamicRouteService._build_execution_graph self heap nodes deployment_id
    = Ok g
    /\ (exists result heap',
          DynamicRouteService._execute_workflow_chain py_str get_executor
            self heap g initial_input parameters deployment_id
          = Ok (result, heap')
          /\ DynamicRouteService.nodes_executed result
             = list_to_set (DynamicRouteService.result_execution_order result)
          /\ PyDict.keys (DynamicRouteService.result_node_outputs result)
             = DynamicRouteService.result_execution_order result
          /\ dependency_order
               (map (fun o : nat * WorkflowNode => id o.2) objs)
               (live (registered_edges self deployment_id))
               (DynamicRouteService.result_execution_order result))
    /\ (exists result heap',
          DynamicRouteService._execute_workflow_chain_streaming py_str
            get_executor self heap g initial_input parameters deployment_id
          = Ok (result, heap')
          /\ DynamicRouteService.nodes_executed result
             = list_to_set (DynamicRouteService.result_execution_order result)
          /\ PyDict.keys (DynamicRouteService.result_node_outputs result)
             = DynamicRouteService.result_execution_order result
          /\ dependency_order
               (map (fun o : nat * WorkflowNode => id o.2) objs)
               (live (registered_edges self deployment_id))
               (DynamicRouteService.result_execution_order result)).
Proof.
  intros Hobjs Hover.
  set (P := fun h : DynamicRouteService.store =>
              forall r, r ∈ nodes -> is_Some (h !! r)).
  assert (P heap) as HP.
  { intros r Hr. destruct (deref_all_spec _ _ _ Hobjs) as [Hfst Hget].
    rewrite <- Hfst in Hr. apply list_elem_of_fmap in Hr as (o & -> & Ho).
    rewrite (Hget o Ho). by eexists. }
  destruct (run_chain_dependency_order
              (fun r input position heap =>
                 DynamicRouteService._execute_single_node py_str get_executor
                   self heap r input parameters deployment_id position)
              P self heap nodes deployment_id objs initial_input heap Hobjs
              Hover)
    as (g & st & heap' & Hg & Hrun & _ & Hex & Hout & Hord); [|done|].
  { intros r input position h Hr Hh.
    destruct (execute_single_node_total py_str get_executor self h r input
                parameters deployment_id position (Hh r Hr))
      as [(out & h' & -> & Hkeep) _].
    exists out, h'. split; [done|]. intros r' Hr'. by apply Hkeep, Hh. }
  destruct (run_chain_dependency_order
              (fun r input position heap =>
                 DynamicRouteService._execute_single_node_streaming py_str
                   get_executor self heap r input parameters deployment_id
                   position)
              P self heap nodes deployment_id objs initial_input heap Hobjs
              Hover)
    as (g' & st' & heap'' & Hg' & Hrun' & _ & Hex' & Hout' & Hord');
    [|done|].
  { intros r input position h Hr Hh.
    destruct (execute_single_node_total py_str get_executor self h r input
                parameters deployment_id position (Hh r Hr))
      as [_ (out & h' & -> & Hkeep)].
    exists out, h'. split; [done|]. intros r' Hr'. by apply Hkeep, Hh. }
  rewrite Hg in Hg'. injection Hg' as <-.
  exists g. split; [done|]. split.
  - unfold DynamicRouteService._execute_workflow_chain. rewrite Hrun.
    cbn [mbind res_bind]. by eexists _, _.
  - unfold DynamicRouteService._execute_workflow_chain_streaming.
    rewrite Hrun'. cbn [mbind res_bind]. eexists _, _.
    split; [done|]. cbn. split; [done|]. split; [|done].
    rewrite comprehension_NoDup.
    + rewrite <- Hout'. unfold PyDict.keys. rewrite map_map. done.
    + change (NoDup (PyDict.keys (DynamicRouteService.node_outputs st'))).
      rewrite Hout'. by destruct Hord'.
Qed.

Lemma workflow_chain_dependency_order_witness :
  exists g,
    DynamicRouteService._build_execution_graph
      (service_ab [plain_edge "a" "b"]) store_ab [0%nat; 1%nat] "dep" = Ok g
    /\ (exists result heap',
          DynamicRouteService._execute_workflow_chain str_blank
            (echo_factory ["a"]) (service_ab [plain_edge "a" "b"]) store_ab
            g VNone [] "dep" = Ok (result, heap')
          /\ dependency_order ["a"; "b"] [plain_edge "a" "b"]
               (DynamicRouteService.result_execution_order result)).
Proof.
  destruct (workflow_chain_dependency_order str_blank (echo_factory ["a"])
              (service_ab [plain_edge "a" "b"]) store_ab [0%nat; 1%nat]
              "dep"
              [(0%nat, plain_node "a" DOCUMENT);
               (1%nat, plain_node "b" DOCUMENT)] VNone [])
    as (g & Hg & (result & heap' & Hrun & _ & _ & Hord) & _).
  - reflexivity.
  - intros e ->%list_elem_of_singleton. simpl. rewrite !elem_of_cons. auto.
  - exists g. split; [exact Hg|]. exists result, heap'. by split.
Defined.

(** *** The order does not depend on what the nodes do *)

Lemma run_start_nodes_order f todo g initial_input :
  forall heap st st' heap',
    DynamicRouteService.run_start_nodes f todo g initial_input heap st
    = Ok (st', heap') ->
    DynamicRouteService.execution_order st'
    = DynamicRouteService.execution_order st ++ todo
    /\ DynamicRouteService.executed_nodes st'
       = DynamicRouteService.executed_nodes st ∪ list_to_set todo.
Proof.
  induction todo as [|v todo IH]; intros heap st st' heap'.
  - intros [= <- <-]. rewrite app_nil_r. split; [done|]. set_solver.
  - cbn [DynamicRouteService.run_start_nodes].
    destruct (PyDict.getitem v _) as [r| |]; [|done..].
    cbn [mbind res_bind].
    destruct (f r initial_input "START" heap) as [[out heap1]| |];
      [|done..].
    cbn [mbind res_bind]. intros [Hord Hex]%IH.
    rewrite Hord, Hex. simpl. rewrite <- app_assoc. split; [done|].
    set_solver.
Qed.

Lemma run_ready_nodes_order f ready g initial_input :
  forall heap st st' heap',
    DynamicRouteService.run_ready_nodes f ready g initial_input heap st
    = Ok (st', heap') ->
    DynamicRouteService.execution_order st'
    = DynamicRouteService.execution_order st ++ ready
    /\ DynamicRouteService.executed_nodes st'
       = DynamicRouteService.executed_nodes st ∪ list_to_set ready.
Proof.
  induction ready as [|v ready IH]; intros heap st st' heap'.
  - intros [= <- <-]. rewrite app_nil_r. split; [done|]. set_solver.
  - cbn [DynamicRouteService.run_ready_nodes].
    destruct (PyDict.getitem v (DynamicRouteService.dependencies g))
      as [deps| |]; [|done..].
    cbn [mbind res_bind].
    destruct (PyDict.getitem v (DynamicRouteService.graph_nodes g))
      as [r| |]; [|done..].
    cbn [mbind res_bind].
    destruct (f r _ _ heap) as [[out heap1]| |]; [|done..].
    cbn [mbind res_bind]. intros [Hord Hex]%IH.
    rewrite Hord, Hex. simpl. rewrite <- app_assoc. split; [done|].
    set_solver.
Qed.

Lemma run_remaining_order f f' g initial_input initial_input' fuel :
  forall heap heap' st st' st1 st1' heap1 heap1',
    DynamicRouteService.execution_order st
    = DynamicRouteService.execution_order st' ->
    DynamicRouteService.executed_nodes st
    = DynamicRouteService.executed_nodes st' ->
    DynamicRouteService.run_remaining f fuel g initial_input heap st
    = Ok (st1, heap1) ->
    DynamicRouteService.run_remaining f' fuel g initial_input' heap' st'
    = Ok (st1', heap1') ->
    DynamicRouteService.execution_order st1
    = DynamicRouteService.execution_order st1'
    /\ DynamicRouteService.executed_nodes st1
       = DynamicRouteService.executed_nodes st1'.
Proof.
  induction fuel as [|fuel IH];
    intros heap heap' st st' st1 st1' heap1 heap1' Hord Hex; [done|].
  cbn [DynamicRouteService.run_remaining].
  assert (DynamicRouteService.ready_nodes g st
          = DynamicRouteService.ready_nodes g st') as Hready.
  { unfold DynamicRouteService.ready_nodes. by rewrite Hex. }
  rewrite <- Hex, <- Hready.
  case_decide as Hlt; [|by intros [= <- <-] [= <- <-]].
  destruct (DynamicRouteService.ready_nodes g st) as [|n ready] eqn:Hr;
    [by intros [= <- <-] [= <- <-]|].
  destruct (DynamicRouteService.run_ready_nodes f _ _ _ heap st)
    as [[st2 heap2]| |] eqn:Hrun; [|done..].
  destruct (DynamicRouteService.run_ready_nodes f' _ _ _ heap' st')
    as [[st2' heap2']| |] eqn:Hrun'; [|done..].
  cbn [mbind res_bind].
  apply run_ready_nodes_order in Hrun as [Hord2 Hex2].
  apply run_ready_nodes_order in Hrun' as [Hord2' Hex2'].
  apply IH; congruence.
Qed.

Lemma run_chain_order f f' g initial_input initial_input' heap heap' st st'
    heap1 heap1' :
  DynamicRouteService.run_chain f g initial_input heap = Ok (st, heap1) ->
  DynamicRouteService.run_chain f' g initial_input' heap' = Ok (st', heap1') ->
  DynamicRouteService.execution_order st
  = DynamicRouteService.execution_order st'
  /\ DynamicRouteService.executed_nodes st
     = DynamicRouteService.executed_nodes st'.
Proof.
  unfold DynamicRouteService.run_chain.
  destruct (DynamicRouteService.run_start_nodes f _ _ _ heap _)
    as [[st0 heap0]| |] eqn:Hs; [|done..].
  destruct (DynamicRouteService.run_start_nodes f' _ _ _ heap' _)
    as [[st0' heap0']| |] eqn:Hs'; [|done..].
  cbn [mbind res_bind].
  apply run_start_nodes_order in Hs as [Hord Hex].
  apply run_start_nodes_order in Hs' as [Hord' Hex'].
  apply run_remaining_order; congruence.
Qed.

(** X15: which nodes of a graph the chaining loop executes, and in which
    order, is fixed by the graph alone: two runs that return, whether
    through the execute or the execute-stream route, with whatever
    input, parameters, executors, default configurations and node
    objects, have the same execution order and the same set of executed
    nodes. *)
Theorem execution_order_fixed_by_graph (py_str py_str' : value -> string)
    get_executor get_executor' self self' heap heap' g initial_input
    initial_input' parameters parameters' deployment_id deployment_id'
    result result' heap1 heap1' :
  let chain sync :=
    if sync : bool
    then DynamicRouteService._execute_workflow_chain py_str get_executor
           self heap g initial_input parameters deployment_id
    else DynamicRouteService._execute_workflow_chain_streaming py_str
           get_executor self heap g initial_input parameters deployment_id in
  let chain' sync :=
    if sync : bool
    then DynamicRouteService._execute_workflow_chain py_str' get_executor'
           self' heap' g initial_input' parameters' deployment_id'
    else DynamicRouteService._execute_workflow_chain_streaming py_str'
           get_executor' self' heap' g initial_input' parameters'
           deployment_id' in
  forall sync sync',
    chain sync = Ok (result, heap1) ->
    chain' sync' = Ok (result', heap1') ->
    DynamicRouteService.result_execution_order result
    = DynamicRouteService.result_execution_order result'
    /\ DynamicRouteService.nodes_executed result
       = DynamicRouteService.nodes_executed result'.
Proof.
  intros chain chain' sync sync'. unfold chain, chain'.
  unfold DynamicRouteService._execute_workflow_chain,
    DynamicRouteService._execute_workflow_chain_streaming.
  destruct sync, sync';
    (destruct (DynamicRouteService.run_chain _ g initial_input heap)
       as [[st h]| |] eqn:Hrun; [|done..]);
    (destruct (DynamicRouteService.run_chain _ g initial_input' heap')
       as [[st' h']| |] eqn:Hrun'; [|done..]);
    cbn [mbind res_bind]; intros [= <- <-] [= <- <-];
    apply (run_chain_order _ _ _ _ _ _ _ _ _ _ _ Hrun Hrun').
Qed.

Lemma execution_order_fixed_by_graph_witness :
  exists result result' heap1 heap1',
    DynamicRouteService._execute_workflow_chain str_blank
      (echo_factory ["a"]) (service_ab [plain_edge "a" "b"]) store_ab
      graph_ab VNone [] "dep" = Ok (result, heap1)
    /\ DynamicRouteService._execute_workflow_chain_streaming str_blank
         (echo_factory []) (service_ab []) store_ab graph_ab (VStr "in") []
         "other" = Ok (result', heap1')
    /\ DynamicRouteService.result_execution_order result
       = DynamicRouteService.result_execution_order result'
    /\ DynamicRouteService.nodes_executed result
       = DynamicRouteService.nodes_executed result'.
Proof.
  eexists _, _, _, _.
  split; [vm_compute; reflexivity|]. split; [vm_compute; reflexivity|].
  eapply (execution_order_fixed_by_graph str_blank str_blank
            (echo_factory ["a"]) (echo_factory [])
            (service_ab [plain_edge "a" "b"]) (service_ab []) store_ab
            store_ab graph_ab VNone (VStr "in") [] [] "dep" "other" _ _ _ _
            true false);
    vm_compute; reflexivity.
Defined.

(** ** The routes of a deployment, in general *)

Lemma route_paths_app rs1 rs2 :
  route_paths (rs1 ++ rs2) = route_paths rs1 ++ route_paths rs2.
Proof. apply map_app. Qed.

Lemma length_node_route_paths prefix node :
  length (node_route_paths prefix node)
  = (if has_action node then 2 else 1)%nat.
Proof.
  unfold node_route_paths, has_action.
  destruct (DynamicRouteService.is_ai_type (type node)); [done|].
  simpl. by case_decide; [rewrite bool_decide_eq_true_2|
                          rewrite bool_decide_eq_false_2].
Qed.

Lemma length_flat_map_node_route_paths prefix nodes :
  length (flat_map (node_route_paths prefix) nodes)
  = (length nodes + length (filter (fun n => has_action n = true) nodes))%nat.
Proof.
  induction nodes as [|n nodes IH]; [done|]. simpl.
  rewrite length_app, IH, length_node_route_paths, filter_cons.
  case_decide as Ha.
  - rewrite Ha. simpl. lia.
  - destruct (has_action n); [done|]. lia.
Qed.

Lemma create_node_endpoints_spec (py_str : value -> string) r node router
    url_prefix :
  exists endpoints router',
    DynamicRouteService._create_node_endpoints py_str r node router
      url_prefix = (endpoints, router')
    /\ DynamicRouteService.prefix router' = DynamicRouteService.prefix router
    /\ (exists new,
          DynamicRouteService.routes router'
          = DynamicRouteService.routes router ++ new
          /\ route_paths new
             = node_route_paths (DynamicRouteService.prefix router) node)
    /\ length endpoints = (if has_action node then 2 else 1)%nat.
Proof.
  unfold DynamicRouteService._create_node_endpoints, node_route_paths,
    has_action.
  destruct (DynamicRouteService.is_ai_type (type node)).
  - eexists _, _. split; [done|]. split; [done|]. split; [|done].
    eexists. simpl. split; [by rewrite <- app_assoc|done].
  - simpl. case_decide as Hg.
    + rewrite bool_decide_eq_true_2 by done.
      eexists _, _. split; [done|]. split; [done|]. split; [|done].
      eexists. simpl. split; [by rewrite <- app_assoc|done].
    + rewrite bool_decide_eq_false_2 by done.
      eexists _, _. split; [done|]. split; [done|]. split; [|done].
      eexists. simpl. split; [done|done].
Qed.

Lemma create_all_node_endpoints_spec (py_str : value -> string) heap
    deployment_id workflow_nodes :
  forall objs deployment_router direct_router endpoints,
    DynamicRouteService.deref_all heap workflow_nodes = Ok objs ->
    exists endpoints' deployment_router' direct_router' new_deployment
           new_direct,
      DynamicRouteService.create_all_node_endpoints py_str heap
        workflow_nodes deployment_id deployment_router direct_router
        endpoints
      = Ok (endpoints', deployment_router', direct_router')
      /\ DynamicRouteService.prefix deployment_router'
         = DynamicRouteService.prefix deployment_router
      /\ DynamicRouteService.prefix direct_router'
         = DynamicRouteService.prefix direct_router
      /\ DynamicRouteService.routes deployment_router'
         = DynamicRouteService.routes deployment_router ++ new_deployment
      /\ DynamicRouteService.routes direct_router'
         = DynamicRouteService.routes direct_router ++ new_direct
      /\ route_paths new_deployment
         = flat_map
             (node_route_paths (DynamicRouteService.prefix deployment_router))
             (map snd objs)
      /\ route_paths new_direct
         = flat_map
             (node_route_paths (DynamicRouteService.prefix direct_router))
             (map snd objs)
      /\ length endpoints'
         = (length endpoints
            + 2 * (length objs
                   + length (filter (fun n => has_action n = true)
                               (map snd objs))))%nat.
Proof.
  induction workflow_nodes as [|r rest IH];
    intros objs dr xr eps Hobjs.
  - injection Hobjs as <-. exists eps, dr, xr, [], [].
    rewrite !app_nil_r. simpl. repeat (split; [done|]). lia.
  - simpl in Hobjs. unfold DynamicRouteService.deref in Hobjs |- *.
    cbn [DynamicRouteService.create_all_node_endpoints].
    unfold DynamicRouteService.deref.
    destruct (heap !! r) as [node|]; [|done]. cbn [mbind res_bind] in *.
    destruct (DynamicRouteService.deref_all heap rest) as [objs'| |]
      eqn:Hrest; [|done..].
    cbn [mbind res_bind] in Hobjs. injection Hobjs as <-.
    destruct (create_node_endpoints_spec py_str r node dr
                ("/api/deployed/" +:+ deployment_id))
      as (e1 & dr1 & -> & Hp1 & (n1 & Hr1 & Hn1) & He1).
    destruct (create_node_endpoints_spec py_str r node xr "")
      as (e2 & xr1 & -> & Hp2 & (n2 & Hr2 & Hn2) & He2).
    destruct (IH objs' dr1 xr1 ((eps ++ e1) ++ e2) eq_refl)
      as (eps' & dr' & xr' & nd & nx & -> & Hpd & Hpx & Hrd & Hrx & Hnd
          & Hnx & Hlen).
    exists eps', dr', xr', (n1 ++ nd), (n2 ++ nx).
    split; [done|]. split; [congruence|]. split; [congruence|].
    split; [by rewrite Hrd, Hr1, <- app_assoc|].
    split; [by rewrite Hrx, Hr2, <- app_assoc|].
    split; [by rewrite route_paths_app, Hn1, Hnd, Hp1|].
    split; [by rewrite route_paths_app, Hn2, Hnx, Hp2|].
    rewrite Hlen, !length_app, He1, He2. simpl.
    rewrite filter_cons. case_decide as Ha.
    + rewrite Ha. simpl. lia.
    + destruct (has_action node); [done|]. lia.
Qed.

Lemma generate_routes_spec (py_str : value -> string) self heap
    workflow_nodes workflow_edges deployment_id objs :
  DynamicRouteService.deref_all heap workflow_nodes = Ok objs ->
  exists endpoints deployment_router direct_router,
    DynamicRouteService.generate_routes_from_workflow py_str self heap
      workflow_nodes workflow_edges deployment_id
    = Ok (endpoints,
          DynamicRouteService.mk
            ((DynamicRouteService.app self
              ++ DynamicRouteService.routes deployment_router)
             ++ DynamicRouteService.routes direct_router)
            (PyDict.set deployment_id
               (DynamicRouteService.mkDeployment deployment_router
                  direct_router endpoints workflow_nodes workflow_edges)
               (DynamicRouteService.registered_routes self))
            (DynamicRouteService.custom_ai_configs self))
    /\ route_paths (DynamicRouteService.routes deployment_router)
       = flat_map (node_route_paths ("/api/deployed/" +:+ deployment_id))
           (map snd objs)
         ++ [("GET", "/api/deployed/" +:+ deployment_id +:+ "/health");
             ("POST", "/api/deployed/" +:+ deployment_id +:+ "/execute");
             ("POST",
              "/api/deployed/" +:+ deployment_id +:+ "/execute-stream")]
    /\ route_paths (DynamicRouteService.routes direct_router)
       = flat_map (node_route_paths "") (map snd objs)
    /\ length endpoints
       = (2 * (length objs
               + length (filter (fun n => has_action n = true)
                           (map snd objs))) + 3)%nat.
Proof.
  intros Hobjs. unfold DynamicRouteService.generate_routes_from_workflow.
  destruct (create_all_node_endpoints_spec py_str heap deployment_id
              workflow_nodes objs
              (DynamicRouteService.mkRouter
                 ("/api/deployed/" +:+ deployment_id) [])
              (DynamicRouteService.mkRouter "" []) [] Hobjs)
    as (eps & dr & xr & nd & nx & -> & Hpd & Hpx & Hrd & Hrx & Hnd & Hnx
        & Hlen).
  cbn [mbind res_bind]. simpl in Hpd, Hpx, Hrd, Hrx, Hnd, Hnx, Hlen.
  destruct (DynamicRouteService._create_workflow_endpoints dr deployment_id)
    as [weps dr2] eqn:Hwf.
  exists (eps ++ weps), dr2, xr. split; [done|].
  unfold DynamicRouteService._create_workflow_endpoints,
    DynamicRouteService.add_route in Hwf.
  injection Hwf as <- <-. cbn -[String.append].
  rewrite Hrd, Hrx, Hpd.
  split; [|split].
  - rewrite !route_paths_app, Hnd. cbn -[String.append flat_map].
    by rewrite <- !app_assoc.
  - done.
  - rewrite length_app, Hlen. simpl. lia.
Qed.

(** X16: deploying a workflow of n node objects, a of them of a model
    kind or the graph-query kind, registers n + a + 3 routes under the
    deployment's prefix (per node the action route, if any, then the
    status route; then health, execute and execute-stream) and n + a
    routes without prefix, appends them to the routes of the
    application, and returns 2 (n + a) + 3 endpoint descriptions. *)
Theorem generate_routes_count (py_str : value -> string) self heap
    workflow_nodes workflow_edges deployment_id objs :
  DynamicRouteService.deref_all heap workflow_nodes = Ok objs ->
  exists endpoints self' info,
    DynamicRouteService.generate_routes_from_workflow py_str self heap
      workflow_nodes workflow_edges deployment_id = Ok (endpoints, self')
    /\ DynamicRouteService.get_deployment_info self' deployment_id
       = Some info
    /\ route_paths
         (DynamicRouteService.routes (DynamicRouteService.router info))
       = flat_map (node_route_paths ("/api/deployed/" +:+ deployment_id))
           (map snd objs)
         ++ [("GET", "/api/deployed/" +:+ deployment_id +:+ "/health");
             ("POST", "/api/deployed/" +:+ deployment_id +:+ "/execute");
             ("POST",
              "/api/deployed/" +:+ deployment_id +:+ "/execute-stream")]
    /\ route_paths
         (DynamicRouteService.routes
            (DynamicRouteService.direct_router info))
       = flat_map (node_route_paths "") (map snd objs)
    /\ DynamicRouteService.app self'
       = (DynamicRouteService.app self
          ++ DynamicRouteService.routes (DynamicRouteService.router info))
         ++ DynamicRouteService.routes
              (DynamicRouteService.direct_router info)
    /\ (let n := length objs in
        let a := length (filter (fun n => has_action n = true)
                           (map snd objs)) in
        length (DynamicRouteService.routes (DynamicRouteService.router info))
        = (n + a + 3)%nat
        /\ length (DynamicRouteService.routes
                     (DynamicRouteService.direct_router info))
           = (n + a)%nat
        /\ length (DynamicRouteService.app self')
           = (length (DynamicRouteService.app self) + 2 * (n + a) + 3)%nat
        /\ length endpoints = (2 * (n + a) + 3)%nat).
Proof.
  intros Hobjs.
  destruct (generate_routes_spec py_str self heap workflow_nodes
              workflow_edges deployment_id objs Hobjs)
    as (eps & dr & xr & -> & Hpd & Hpx & Hlen).
  eexists _, _, _. split; [done|].
  unfold DynamicRouteService.get_deployment_info. simpl.
  split; [apply get_set_eq|]. simpl.
  split; [done|]. split; [done|]. split; [done|].
  assert (length (DynamicRouteService.routes dr)
          = length (route_paths (DynamicRouteService.routes dr))) as Hd
    by (unfold route_paths; by rewrite length_map).
  assert (length (DynamicRouteService.routes xr)
          = length (route_paths (DynamicRouteService.routes xr))) as Hx
    by (unfold route_paths; by rewrite length_map).
  rewrite Hpd, length_app, length_flat_map_node_route_paths in Hd.
  rewrite Hpx, length_flat_map_node_route_paths in Hx.
  rewrite length_map in Hd, Hx. simpl in Hd.
  rewrite !length_app, Hd, Hx, Hlen. lia.
Qed.

Lemma generate_routes_count_witness :
  exists endpoints self' info,
    DynamicRouteService.generate_routes_from_workflow str_blank
      (DynamicRouteService.init []) store_ai_doc [0%nat; 1%nat; 0%nat] []
      "dep" = Ok (endpoints, self')
    /\ DynamicRouteService.get_deployment_info self' "dep" = Some info
    /\ length (DynamicRouteService.routes (DynamicRouteService.router info))
       = 8%nat
    /\ length endpoints = 13%nat.
Proof.
  destruct (generate_routes_count str_blank (DynamicRouteService.init [])
              store_ai_doc [0%nat; 1%nat; 0%nat] [] "dep"
              [(0%nat, plain_node "ai-1" CLAUDE4);
               (1%nat, plain_node "doc-1" DOCUMENT);
               (0%nat, plain_node "ai-1" CLAUDE4)] eq_refl)
    as (eps & self' & info & H1 & H2 & _ & _ & _ & H3 & _ & _ & H4).
  exists eps, self', info. split; [exact H1|]. split; [exact H2|].
  split; [exact H3|exact H4].
Defined.

(** X17: a deployment is found in the registry under its id with the
    very node list, edge list and endpoint descriptions of the call;
    the records of other ids and the AI configurations are untouched;
    the application keeps every route it had; and the registry gains an
    entry only if the id was not registered before. *)
Theorem deployment_registry_round_trip (py_str : value -> string) self heap
    workflow_nodes workflow_edges deployment_id endpoints self' :
  DynamicRouteService.generate_routes_from_workflow py_str self heap
    workflow_nodes workflow_edges deployment_id = Ok (endpoints, self') ->
  (exists info,
     DynamicRouteService.get_deployment_info self' deployment_id = Some info
     /\ DynamicRouteService.deployed_nodes info = workflow_nodes
     /\ DynamicRouteService.deployed_edges info = workflow_edges
     /\ DynamicRouteService.endpoints info = endpoints)
  /\ (forall d, d ≠ deployment_id ->
        DynamicRouteService.get_deployment_info self' d
        = DynamicRouteService.get_deployment_info self d)
  /\ DynamicRouteService.custom_ai_configs self'
     = DynamicRouteService.custom_ai_configs self
  /\ (exists new,
        DynamicRouteService.app self' = DynamicRouteService.app self ++ new)
  /\ PyDict.keys (DynamicRouteService.registered_routes self')
     = (if decide (deployment_id
                   ∈ PyDict.keys (DynamicRouteService.registered_routes self))
        then PyDict.keys (DynamicRouteService.registered_routes self)
        else PyDict.keys (DynamicRouteService.registered_routes self)
             ++ [deployment_id]).
Proof.
  unfold DynamicRouteService.generate_routes_from_workflow,
    DynamicRouteService.get_deployment_info.
  destruct (DynamicRouteService.create_all_node_endpoints _ _ _ _ _ _ _)
    as [[[eps r1] r2]| |]; [|done..].
  cbn [mbind res_bind].
  destruct (DynamicRouteService._create_workflow_endpoints r1 deployment_id)
    as [weps r1'].
  intros [= <- <-]. simpl. split; [|split; [|split; [|split]]].
  - eexists. split; [apply get_set_eq|done].
  - intros d Hd. by apply get_set_ne.
  - done.
  - eexists. by rewrite <- app_assoc.
  - case_decide as Hin.
    + by apply keys_set_present.
    + by apply keys_set_absent.
Qed.

Lemma deployment_registry_round_trip_witness :
  exists endpoints self' info,
    DynamicRouteService.generate_routes_from_workflow str_blank
      (DynamicRouteService.init []) store_ai_doc [1%nat]
      [plain_edge "doc-1" "doc-1"] "dep" = Ok (endpoints, self')
    /\ DynamicRouteService.get_deployment_info self' "dep" = Some info
    /\ DynamicRouteService.deployed_nodes info = [1%nat]
    /\ DynamicRouteService.deployed_edges info
       = [plain_edge "doc-1" "doc-1"].
Proof.
  eexists _, _.
  pose proof (deployment_registry_round_trip str_blank
                (DynamicRouteService.init []) store_ai_doc [1%nat]
                [plain_edge "doc-1" "doc-1"] "dep" _ _ eq_refl)
    as [(info & H1 & H2 & H3 & _) _].
  exists info. split; [reflexivity|]. split; [exact H1|].
  split; [exact H2|exact H3].
Defined.

(** X18: the routes without prefix do not mention the deployment: when
    two deployments, or two deployments under one id, contain a node
    object each with the same node id, the application ends up with the
    status route of that id, same method and same path, registered
    twice. *)
Theorem direct_routes_not_scoped (py_str : value -> string) self heap
    nodes1 edges1 deployment1 nodes2 edges2 deployment2 objs1 objs2 n1 n2 :
  DynamicRouteService.deref_all heap nodes1 = Ok objs1 ->
  DynamicRouteService.deref_all heap nodes2 = Ok objs2 ->
  n1 ∈ map snd objs1 -> n2 ∈ map snd objs2 -> id n1 = id n2 ->
  exists endpoints1 self1 endpoints2 self2 l1 l2 l3,
    DynamicRouteService.generate_routes_from_workflow py_str self heap
      nodes1 edges1 deployment1 = Ok (endpoints1, self1)
    /\ DynamicRouteService.generate_routes_from_workflow py_str self1 heap
         nodes2 edges2 deployment2 = Ok (endpoints2, self2)
    /\ route_paths (DynamicRouteService.app self2)
       = l1 ++ ("GET", "/nodes/" +:+ id n1 +:+ "/status")
            :: l2 ++ ("GET", "/nodes/" +:+ id n1 +:+ "/status") :: l3.
Proof.
  intros Hobjs1 Hobjs2 Hn1 Hn2 Hid.
  destruct (generate_routes_spec py_str self heap nodes1 edges1 deployment1
              objs1 Hobjs1) as (eps1 & dr1 & xr1 & Hgen1 & _ & Hx1 & _).
  eexists _, _. rewrite Hgen1.
  match goal with
  | |- context [DynamicRouteService.generate_routes_from_workflow _ ?s] =>
      destruct (generate_routes_spec py_str s heap nodes2 edges2 deployment2
                  objs2 Hobjs2) as (eps2 & dr2 & xr2 & Hgen2 & _ & Hx2 & _)
  end.
  eexists _, _. rewrite Hgen2. cbn [DynamicRouteService.app].
  assert (forall n nodes, n ∈ nodes ->
            ("GET", "/nodes/" +:+ id n +:+ "/status")
            ∈ flat_map (node_route_paths "") nodes) as Hin.
  { intros n nodes Hn. apply list_elem_of_In, in_flat_map. exists n.
    split; [by apply list_elem_of_In|]. apply list_elem_of_In.
    unfold node_route_paths. apply elem_of_app. right.
    by apply list_elem_of_singleton. }
  pose proof (Hin n1 _ Hn1) as (a & b & Ha)%list_elem_of_split.
  pose proof (Hin n2 _ Hn2) as (c & d & Hc)%list_elem_of_split.
  rewrite <- Hid in Hc.
  exists ((route_paths (DynamicRouteService.app self)
           ++ route_paths (DynamicRouteService.routes dr1)) ++ a),
    (b ++ route_paths (DynamicRouteService.routes dr2) ++ c), d.
  split; [done|]. split; [done|]. cbn [DynamicRouteService.app].
  rewrite !route_paths_app, Hx1, Hx2, Ha, Hc.
  rewrite <- !app_assoc. simpl. by rewrite <- ?app_assoc.
Qed.

Lemma direct_routes_not_scoped_witness :
  exists endpoints1 self1 endpoints2 self2 l1 l2 l3,
    DynamicRouteService.generate_routes_from_workflow str_blank
      (DynamicRouteService.init []) store_ai_doc [1%nat] [] "first"
    = Ok (endpoints1, self1)
    /\ DynamicRouteService.generate_routes_from_workflow str_blank self1
         store_ai_doc [0%nat; 1%nat] [] "second" = Ok (endpoints2, self2)
    /\ route_paths (DynamicRouteService.app self2)
       = l1 ++ ("GET", "/nodes/doc-1/status")
            :: l2 ++ ("GET", "/nodes/doc-1/status") :: l3.
Proof.
  apply (direct_routes_not_scoped str_blank (DynamicRouteService.init [])
           store_ai_doc [1%nat] [] "first" [0%nat; 1%nat] [] "second"
           [(1%nat, plain_node "doc-1" DOCUMENT)]
           [(0%nat, plain_node "ai-1" CLAUDE4);
            (1%nat, plain_node "doc-1" DOCUMENT)]
           (plain_node "doc-1" DOCUMENT) (plain_node "doc-1" DOCUMENT)).
  - reflexivity.
  - reflexivity.
  - simpl. apply elem_of_cons. by left.
  - simpl. apply elem_of_cons. right. apply elem_of_cons. by left.
  - reflexivity.
Defined.

(** ** Management of the AI configurations *)

Lemma get_delete_eq {V} k (d : dict V) :
  PyDict.get k (PyDict.delete k d) = None.
Proof.
  unfold PyDict.delete. induction d as [|[k0 v0] d IH]; [done|].
  rewrite filter_cons. simpl. case_decide as Hk; [|done].
  simpl. rewrite decide_False by done. done.
Qed.

Lemma get_delete_ne {V} k k' (d : dict V) :
  k ≠ k' -> PyDict.get k' (PyDict.delete k d) = PyDict.get k' d.
Proof.
  intros Hne. unfold PyDict.delete.
  induction d as [|[k0 v0] d IH]; [done|].
  rewrite filter_cons. simpl. case_decide as Hk; simpl.
  - by rewrite IH.
  - subst k0. rewrite decide_False by done. done.
Qed.

Lemma missing_fields_nil config :
  filter (fun field => PyDict.contains field config = false) required_fields
  = [] <-> complete config.
Proof.
  unfold complete. split.
  - intros Hnil field Hfield.
    destruct (PyDict.contains field config) eqn:Hc; [done|].
    assert (field ∈ filter (fun field => PyDict.contains field config = false)
                      required_fields) as Hin
      by (by apply list_elem_of_filter).
    rewrite Hnil in Hin. by apply elem_of_nil in Hin.
  - intros Hall. apply filter_nil_intro. intros field Hfield.
    by rewrite (Hall field Hfield).
Qed.

Lemma get_default_config_of_name self ty :
  DynamicRouteService._get_default_config self ty
  = DynamicRouteService._get_default_config_of_name self (NodeType_value ty).
Proof. done. Qed.

Lemma get_ai_node_config_custom self node_type config :
  PyDict.get node_type (DynamicRouteService.custom_ai_configs self)
  = Some config ->
  DynamicRouteService.get_ai_node_config self node_type = config
  /\ DynamicRouteService._get_default_config_of_name self node_type = config.
Proof.
  intros Hget.
  unfold DynamicRouteService.get_ai_node_config,
    DynamicRouteService._get_default_config_of_name.
  by rewrite Hget.
Qed.

Lemma get_ai_node_config_ext self self' node_type :
  PyDict.get node_type (DynamicRouteService.custom_ai_configs self')
  = PyDict.get node_type (DynamicRouteService.custom_ai_configs self) ->
  DynamicRouteService.get_ai_node_config self' node_type
  = DynamicRouteService.get_ai_node_config self node_type.
Proof.
  intros Hget.
  unfold DynamicRouteService.get_ai_node_config,
    DynamicRouteService._get_default_config_of_name.
  by rewrite Hget.
Qed.

Lemma update_ai_node_config_cases (py_str : value -> string) self node_type
    config :
  (acceptable node_type config
   /\ DynamicRouteService.update_ai_node_config py_str self node_type config
      = ([("success", VBool true);
          ("message",
           VStr ("Configuration updated successfully for " +:+ node_type));
          ("config", VDict config)],
         DynamicRouteService.mk (DynamicRouteService.app self)
           (DynamicRouteService.registered_routes self)
           (PyDict.set node_type config
              (DynamicRouteService.custom_ai_configs self))))
  \/ (~ acceptable node_type config
      /\ exists message,
           DynamicRouteService.update_ai_node_config py_str self node_type
             config
           = ([("success", VBool false); ("message", VStr message)], self)).
Proof.
  unfold DynamicRouteService.update_ai_node_config, acceptable.
  fold valid_types. fold model_types. fold required_fields.
  destruct (bool_decide (node_type ∈ valid_types)) eqn:Hvalid; simpl.
  2:{ right. split; [|by eexists]. intros [Hin _].
      by apply bool_decide_eq_false in Hvalid. }
  apply bool_decide_eq_true in Hvalid.
  destruct (bool_decide (node_type ∈ model_types)) eqn:Hmodel.
  - apply bool_decide_eq_true in Hmodel.
    destruct (filter _ required_fields) as [|m ms] eqn:Hmissing.
    + left. split; [|done]. split; [done|]. intros _.
      by apply missing_fields_nil.
    + right. split; [|by eexists]. intros [_ Hc].
      apply Hc, missing_fields_nil in Hmodel. by rewrite Hmodel in Hmissing.
  - apply bool_decide_eq_false in Hmodel. left. split; [|done].
    split; [done|]. by intros ?.
Qed.

(** X19: updating an AI configuration succeeds exactly when the node
    type is one of the five known and, for the four model kinds, the
    configuration has all five required fields. An accepted
    configuration is what the service then reports and applies for that
    type, and for that type only; a rejected one answers success false
    and leaves the service as it was. Deployments are never touched. *)
Theorem update_ai_node_config_spec (py_str : value -> string) self node_type
    config :
  let response :=
    (DynamicRouteService.update_ai_node_config py_str self node_type
       config).1 in
  let self' :=
    (DynamicRouteService.update_ai_node_config py_str self node_type
       config).2 in
  (PyDict.get "success" response = Some (VBool true)
   <-> acceptable node_type config)
  /\ (acceptable node_type config ->
      PyDict.get "config" response = Some (VDict config)
      /\ DynamicRouteService.get_ai_node_config self' node_type = config
      /\ (forall ty, NodeType_value ty = node_type ->
            DynamicRouteService._get_default_config self' ty = config)
      /\ (forall other, other ≠ node_type ->
            DynamicRouteService.get_ai_node_config self' other
            = DynamicRouteService.get_ai_node_config self other))
  /\ (~ acceptable node_type config ->
      PyDict.get "success" response = Some (VBool false) /\ self' = self)
  /\ DynamicRouteService.registered_routes self'
     = DynamicRouteService.registered_routes self
  /\ DynamicRouteService.app self' = DynamicRouteService.app self.
Proof.
  intros response self'. unfold response, self'.
  destruct (update_ai_node_config_cases py_str self node_type config)
    as [[Hacc ->]|[Hnot (message & ->)]]; simpl.
  - split; [done|]. split; [|done]. intros _. split; [done|].
    assert (PyDict.get node_type
              (DynamicRouteService.custom_ai_configs
                 (DynamicRouteService.mk (DynamicRouteService.app self)
                    (DynamicRouteService.registered_routes self)
                    (PyDict.set node_type config
                       (DynamicRouteService.custom_ai_configs self))))
            = Some config) as Hget by apply get_set_eq.
    split; [by apply get_ai_node_config_custom|]. split.
    + intros ty <-. rewrite get_default_config_of_name.
      by apply get_ai_node_config_custom.
    + intros other Hother. apply get_ai_node_config_ext. simpl.
      by apply get_set_ne.
  - split; [split; [done|by intros ?]|]. split; [by intros ?|]. done.
Qed.

(** X20: resetting an AI configuration always answers success, for any
    node type, known or not; afterwards the service reports for that
    type the built-in default (the empty configuration for an unknown
    type), whatever was stored before, and the configurations of the
    other types, the deployments and the routes are as before;
    resetting again changes nothing. *)
Theorem reset_ai_node_config_spec self node_type :
  let response := (DynamicRouteService.reset_ai_node_config self node_type).1 in
  let self' := (DynamicRouteService.reset_ai_node_config self node_type).2 in
  PyDict.get "success" response = Some (VBool true)
  /\ PyDict.get "config" response
     = Some (VDict (DynamicRouteService.get_ai_node_config self' node_type))
  /\ DynamicRouteService.get_ai_node_config self' node_type
     = DynamicRouteService.get_ai_node_config
         (DynamicRouteService.init []) node_type
  /\ (forall ty, NodeType_value ty = node_type ->
        DynamicRouteService._get_default_config self' ty
        = DynamicRouteService._get_default_config
            (DynamicRouteService.init []) ty)
  /\ (forall other, other ≠ node_type ->
        DynamicRouteService.get_ai_node_config self' other
        = DynamicRouteService.get_ai_node_config self other)
  /\ DynamicRouteService.registered_routes self'
     = DynamicRouteService.registered_routes self
  /\ DynamicRouteService.app self' = DynamicRouteService.app self
  /\ DynamicRouteService.reset_ai_node_config self' node_type
     = (response, self').
Proof.
  intros response self'. unfold response, self'.
  unfold DynamicRouteService.reset_ai_node_config, PyDict.contains.
  assert (forall s : DynamicRouteService.t,
            PyDict.get node_type (DynamicRouteService.custom_ai_configs s)
            = None ->
            DynamicRouteService._get_default_config_of_name s node_type
            = DynamicRouteService.get_ai_node_config
                (DynamicRouteService.init []) node_type
            /\ DynamicRouteService.get_ai_node_config s node_type
               = DynamicRouteService.get_ai_node_config
                   (DynamicRouteService.init []) node_type) as Hdefault.
  { intros s Hs.
    unfold DynamicRouteService.get_ai_node_config,
      DynamicRouteService._get_default_config_of_name.
    by rewrite Hs. }
  destruct (PyDict.get node_type (DynamicRouteService.custom_ai_configs self))
    as [custom|] eqn:Hget.
  - cbn -[DynamicRouteService.get_ai_node_config
          DynamicRouteService._get_default_config_of_name
          DynamicRouteService._get_default_config].
    set (s := DynamicRouteService.mk (DynamicRouteService.app self)
                (DynamicRouteService.registered_routes self)
                (PyDict.delete node_type
                   (DynamicRouteService.custom_ai_configs self))).
    assert (PyDict.get node_type (DynamicRouteService.custom_ai_configs s)
            = None) as Hs by apply get_delete_eq.
    destruct (Hdefault s Hs) as [Hd Hg].
    split; [done|]. split; [by rewrite Hd, Hg|]. split; [done|]. split.
    { intros ty <-. rewrite !get_default_config_of_name.
      rewrite Hd. symmetry. by apply Hdefault. }
    split.
    { intros other Hother. apply get_ai_node_config_ext. simpl.
      by apply get_delete_ne. }
    split; [done|]. split; [done|].
    simpl in Hs. by rewrite Hs.
  - cbn -[DynamicRouteService.get_ai_node_config
          DynamicRouteService._get_default_config_of_name
          DynamicRouteService._get_default_config].
    destruct (Hdefault self Hget) as [Hd Hg].
    split; [done|]. split; [by rewrite Hd, Hg|]. split; [done|]. split.
    { intros ty <-. rewrite !get_default_config_of_name.
      rewrite Hd. symmetry. by apply Hdefault. }
    split; [done|]. split; [done|]. split; [done|].
    by rewrite Hget.
Qed.

Lemma builtin_complete node_type :
  node_type ∈ model_types ->
  complete (DynamicRouteService.get_ai_node_config
              (DynamicRouteService.init []) node_type).
Proof.
  unfold model_types. rewrite !elem_of_cons.
  intros [->|[->|[->|[->|Hnil]]]]; [..|by apply elem_of_nil in Hnil];
    intros field; unfold required_fields; rewrite !elem_of_cons;
    (intros [->|[->|[->|[->|[->|Hnil]]]]];
       [..|by apply elem_of_nil in Hnil]); reflexivity.
Qed.

Lemma configs_ok_complete self node_type :
  configs_ok self -> node_type ∈ model_types ->
  complete (DynamicRouteService.get_ai_node_config self node_type).
Proof.
  intros Hok Hmodel.
  destruct (PyDict.get node_type (DynamicRouteService.custom_ai_configs self))
    as [custom|] eqn:Hget.
  - destruct (get_ai_node_config_custom _ _ _ Hget) as [-> _].
    by apply (Hok node_type custom Hget).
  - rewrite (get_ai_node_config_ext (DynamicRouteService.init []) self)
      by (by rewrite Hget).
    by apply builtin_complete.
Qed.

(** X21: the service only ever stores configurations it accepted: this
    holds of a fresh service and is kept by updating, by resetting and
    by deploying. A service of which it holds hands out, for each of the
    four model kinds, a configuration with all five required fields:
    the stored one or the built-in default. *)
Theorem configs_ok_invariant (py_str : value -> string) self :
  configs_ok (DynamicRouteService.init (DynamicRouteService.app self))
  /\ (configs_ok self ->
      (forall node_type config,
         configs_ok
           (DynamicRouteService.update_ai_node_config py_str self node_type
              config).2)
      /\ (forall node_type,
            configs_ok
              (DynamicRouteService.reset_ai_node_config self node_type).2)
      /\ (forall heap workflow_nodes workflow_edges deployment_id endpoints
                 self',
            DynamicRouteService.generate_routes_from_workflow py_str self
              heap workflow_nodes workflow_edges deployment_id
            = Ok (endpoints, self') ->
            configs_ok self')
      /\ (forall ty,
            DynamicRouteService.is_ai_type ty = true ->
            complete (DynamicRouteService._get_default_config self ty))).
Proof.
  split; [by intros t c ?|]. intros Hok. split; [|split; [|split]].
  - intros node_type config.
    destruct (update_ai_node_config_cases py_str self node_type config)
      as [[Hacc ->]|[Hnot (message & ->)]]; [|done].
    intros t c. simpl. destruct (decide (node_type = t)) as [<-|Hne].
    + rewrite get_set_eq. by intros [= <-].
    + rewrite get_set_ne by done. apply Hok.
  - intros node_type. unfold DynamicRouteService.reset_ai_node_config.
    destruct (PyDict.contains _ _); [|done].
    intros t c. simpl. destruct (decide (node_type = t)) as [<-|Hne].
    + by rewrite get_delete_eq.
    + rewrite get_delete_ne by done. apply Hok.
  - intros heap workflow_nodes workflow_edges deployment_id endpoints self'.
    unfold DynamicRouteService.generate_routes_from_workflow.
    destruct (DynamicRouteService.create_all_node_endpoints _ _ _ _ _ _ _)
      as [[[eps r1] r2]| |]; [|done..].
    cbn [mbind res_bind].
    destruct (DynamicRouteService._create_workflow_endpoints r1 deployment_id).
    by intros [= _ <-].
  - intros ty Hty. rewrite get_default_config_of_name.
    assert (NodeType_value ty ∈ model_types) as Hmodel.
    { unfold DynamicRouteService.is_ai_type in Hty.
      apply bool_decide_eq_true in Hty. revert Hty.
      unfold model_types. rewrite !elem_of_cons.
      intros [->|[->|[->|[->|Hnil]]]]; [..|by apply elem_of_nil in Hnil];
        simpl; auto. }
    pose proof (configs_ok_complete self _ Hok Hmodel) as Hc.
    unfold DynamicRouteService.get_ai_node_config in Hc.
    unfold DynamicRouteService._get_default_config_of_name in Hc |- *.
    by destruct (PyDict.get _ _).
Qed.

(** ** The action routes of a node *)

(** X22: the completion route and the query route of a node answer
    success exactly when an executor for the node's type could be
    obtained, not when the node ran well: with an executor the answer
    is success and carries the node result, be it completed or failed
    (as it is when the configuration is turned down); without one the
    answer is failure without output. Neither route changes a node
    object, and neither fills in a default configuration. *)
Theorem node_action_route_success (py_str : value -> string) get_executor
    self heap r node request handler :
  heap !! r = Some node ->
  handler = DynamicRouteService.ai_completion_handler r
  \/ handler = DynamicRouteService.graphrag_query_handler r ->
  exists success out message,
    DynamicRouteService.invoke py_str get_executor self heap handler request
    = Ok (DynamicRouteService.NodeExecutionResponse success (id node)
            (NodeType_value (type node)) out message, heap)
    /\ (success = true <-> exists executor,
                             get_executor (type node) = inr executor)
    /\ (success = false -> out = VNone)
    /\ (forall executor,
          get_executor (type node) = inr executor ->
          exists result,
            out = VResult result
            /\ node_id result = id node
            /\ outcome result
            /\ (validate_config executor (config node) = inr false ->
                status result = FAILED
                /\ error_message result
                   = Some ("Invalid configuration for "
                             +:+ node_type executor +:+ " node"))
            /\ (validate_config executor (config node) = inr true ->
                forall context output,
                  _execute_impl executor node
                    (BaseNodeExecutor.log_start py_str executor node
                       (ExecutionContext.init
                          (match handler with
                           | DynamicRouteService.ai_completion_handler _ =>
                               "ai_"
                           | _ => "graphrag_"
                           end +:+ id node) true)
                       (DynamicRouteService.request_input_data request))
                    (DynamicRouteService.request_input_data request)
                  = (context, inr output) ->
                  status result = COMPLETED
                  /\ output_data result = output)).
Proof.
  intros Hr Hhandler.
  assert (forall id_prefix ok_message failed_message,
            exists success out message,
              DynamicRouteService.node_action_handler py_str get_executor
                heap r id_prefix ok_message failed_message request
              = Ok (DynamicRouteService.NodeExecutionResponse success
                      (id node) (NodeType_value (type node)) out message)
              /\ (success = true
                  <-> exists executor,
                        get_executor (type node) = inr executor)
              /\ (success = false -> out = VNone)
              /\ (forall executor,
                    get_executor (type node) = inr executor ->
                    exists result,
                      out = VResult result
                      /\ node_id result = id node
                      /\ outcome result
                      /\ (validate_config executor (config node) = inr false ->
                          status result = FAILED
                          /\ error_message result
                             = Some ("Invalid configuration for "
                                       +:+ node_type executor +:+ " node"))
                      /\ (validate_config executor (config node) = inr true ->
                          forall context output,
                            _execute_impl executor node
                              (BaseNodeExecutor.log_start py_str executor node
                                 (ExecutionContext.init
                                    (id_prefix +:+ id node) true)
                                 (DynamicRouteService.request_input_data
                                    request))
                              (DynamicRouteService.request_input_data request)
                            = (context, inr output) ->
                            status result = COMPLETED
                            /\ output_data result = output))) as Hnode.
  { intros id_prefix ok_message failed_message.
    unfold DynamicRouteService.node_action_handler,
      DynamicRouteService.deref.
    rewrite Hr. cbn [mbind res_bind].
    destruct (get_executor (type node)) as [e|executor] eqn:Hex.
    - eexists false, _, _. split; [done|].
      split; [split; [done|by intros [? ?]]|]. split; [done|]. done.
    - destruct (execute_outcome py_str executor node
                  (ExecutionContext.init (id_prefix +:+ id node) true)
                  (DynamicRouteService.request_input_data request))
        as (c & result & Hrun & Hid & Hout).
      rewrite Hrun. cbn [snd].
      eexists true, _, _. split; [done|].
      split; [split; [by eauto|done]|]. split; [done|].
      intros executor' [= <-]. exists result. split; [done|].
      split; [done|]. split; [done|].
      revert Hrun. unfold BaseNodeExecutor.execute,
        BaseNodeExecutor.execute_try.
      destruct (validate_config executor (config node)) as [e|[|]].
      + intros _. split; [done|done].
      + split; [done|]. intros _ context output Himpl.
        rewrite Himpl in Hrun. by injection Hrun as _ <-.
      + intros [= _ <-]. split; [done|done]. }
  destruct Hhandler as [-> | ->]; unfold DynamicRouteService.invoke.
  - destruct (Hnode "ai_" "Successfully executed " "Execution failed: ")
      as (success & out & message & -> & H1 & H2 & H3).
    cbn [mbind res_bind]. exists success, out, message.
    split; [done|]. split; [done|]. split; [done|].
    intros executor Hex. destruct (H3 executor Hex)
      as (result & ? & ? & ? & ? & Himpl).
    exists result. by repeat (split; [done|]).
  - destruct (Hnode "graphrag_" "Successfully executed GraphRAG query using "
                "GraphRAG query failed: ")
      as (success & out & message & -> & H1 & H2 & H3).
    cbn [mbind res_bind]. exists success, out, message.
    split; [done|]. split; [done|]. split; [done|].
    intros executor Hex. destruct (H3 executor Hex)
      as (result & ? & ? & ? & ? & Himpl).
    exists result. by repeat (split; [done|]).
Qed.

Lemma node_action_route_success_witness :
  exists result message,
    DynamicRouteService.invoke str_blank (fun _ => inr strict_executor)
      (DynamicRouteService.init []) store_ai_doc
      (DynamicRouteService.ai_completion_handler 0%nat) empty_request
    = Ok (DynamicRouteService.NodeExecutionResponse true "ai-1" "claude4"
            (VResult result) message, store_ai_doc)
    /\ status result = FAILED.
Proof.
  destruct (node_action_route_success str_blank
              (fun _ => inr strict_executor) (DynamicRouteService.init [])
              store_ai_doc 0%nat (plain_node "ai-1" CLAUDE4) empty_request
              (DynamicRouteService.ai_completion_handler 0%nat) eq_refl
              (or_introl eq_refl))
    as (success & out & message & Hrun & Hsuccess & _ & Hresult).
  destruct (Hresult strict_executor eq_refl)
    as (result & -> & _ & _ & Hfailed & _).
  destruct (Hfailed eq_refl) as [Hstatus _].
  assert (success = true) as -> by (apply Hsuccess; by eexists).
  exists result, message. split; [exact Hrun|exact Hstatus].
Defined.

(** ** The logical connector *)

Lemma extends_log_refl context : extends_log context context.
Proof.
  repeat split. exists []. by rewrite app_nil_r.
Qed.

Lemma extends_log_trans c1 c2 c3 :
  extends_log c1 c2 -> extends_log c2 c3 -> extends_log c1 c3.
Proof.
  intros (?&?&?&?&?&l1&?) (?&?&?&?&?&l2&?).
  repeat split; try congruence.
  exists (l1 ++ l2). rewrite app_assoc. congruence.
Qed.

Lemma extends_log_log level message node_id details context :
  extends_log context
    (ExecutionContext.log level message node_id details context).
Proof. repeat split. by eexists. Qed.

Lemma extends_log_step level message node_id details c1 c2 :
  extends_log c1 c2 ->
  extends_log c1 (ExecutionContext.log level message node_id details c2).
Proof.
  intros H. eapply extends_log_trans; [exact H|apply extends_log_log].
Qed.

Section logical_connector.

Variable py_lower py_upper py_strip : string -> string.
Variable float_is_zero : string -> bool.

Abbreviation is_truthy :=
  (LogicalConnectorExecutor._is_truthy py_lower py_strip float_is_zero).

Lemma and_loop_spec inputs i result context node_id :
  (LogicalConnectorExecutor.and_loop py_lower py_strip float_is_zero inputs i
     result context node_id).1
  = result && forallb is_truthy inputs
  /\ extends_log context
       (LogicalConnectorExecutor.and_loop py_lower py_strip float_is_zero
          inputs i result context node_id).2.
Proof.
  revert i result context.
  induction inputs as [|inp inputs IH]; intros i result context.
  - simpl. split; [by rewrite andb_true_r|apply extends_log_refl].
  - cbn [LogicalConnectorExecutor.and_loop forallb]. cbv zeta.
    destruct (result && is_truthy inp) eqn:Hr.
    + apply andb_true_iff in Hr as [-> Ht]. rewrite !Ht. cbn [negb andb].
      split.
      * by rewrite (proj1 (IH _ _ _ )).
      * eapply extends_log_trans; [apply extends_log_log|apply IH].
    + cbn [negb fst snd]. split.
      * rewrite andb_assoc, Hr. done.
      * apply extends_log_step, extends_log_log.
Qed.

Lemma or_loop_spec inputs i result context node_id :
  (LogicalConnectorExecutor.or_loop py_lower py_strip float_is_zero inputs i
     result context node_id).1
  = result || existsb is_truthy inputs
  /\ extends_log context
       (LogicalConnectorExecutor.or_loop py_lower py_strip float_is_zero
          inputs i result context node_id).2.
Proof.
  revert i result context.
  induction inputs as [|inp inputs IH]; intros i result context.
  - simpl. split; [by rewrite orb_false_r|apply extends_log_refl].
  - cbn [LogicalConnectorExecutor.or_loop existsb]. cbv zeta.
    destruct (result || is_truthy inp) eqn:Hr.
    + cbn [fst snd]. split.
      * rewrite orb_assoc, Hr. done.
      * apply extends_log_step, extends_log_log.
    + apply orb_false_iff in Hr as [-> Ht]. rewrite !Ht. cbn [orb].
      split.
      * by rewrite (proj1 (IH _ _ _ )).
      * eapply extends_log_trans; [apply extends_log_log|apply IH].
Qed.

Lemma extract_inputs_extends input_data context node_id :
  extends_log context
    (LogicalConnectorExecutor._extract_inputs input_data context node_id).2.
Proof.
  destruct input_data; simpl;
    first [apply extends_log_refl|apply extends_log_log].
Qed.

(** The extracted inputs do not depend on the context. *)
Lemma extract_inputs_indep input_data context context' node_id :
  (LogicalConnectorExecutor._extract_inputs input_data context node_id).1
  = (LogicalConnectorExecutor._extract_inputs input_data context' node_id).1.
Proof. by destruct input_data. Qed.

Lemma truthy_falsy_count (inputs : list value) :
  (length (filter (fun inp => is_truthy inp = true) inputs)
   + length (filter (fun inp => is_truthy inp = false) inputs)
   = length inputs)%nat.
Proof.
  induction inputs as [|inp inputs IH]; [done|].
  rewrite !filter_cons.
  destruct (is_truthy inp) eqn:Ht; repeat case_decide; try congruence;
    simpl; lia.
Qed.

(** What [_execute_impl] returns once the operation is one of the two. *)
Lemma execute_impl_output node context input_data operation :
  LogicalConnectorExecutor.operation_of py_lower (config node) = inr operation ->
  operation = "and" \/ operation = "or" ->
  exists context',
    LogicalConnectorExecutor._execute_impl py_lower py_upper py_strip
      float_is_zero node context input_data
    = (context',
       inr (VDict
         match (LogicalConnectorExecutor._extract_inputs input_data
                  context (id node)).1 with
         | [] =>
             [("operation", VStr operation); ("inputs", VList []);
              ("result", VBool false);
              ("message", VStr "No inputs provided")]
         | inputs =>
             [("operation", VStr operation); ("inputs", VList inputs);
              ("result",
               VBool (if String.eqb operation "and"
                      then forallb is_truthy inputs
                      else existsb is_truthy inputs));
              ("input_count", VInt (Z.of_nat (length inputs)));
              ("truthy_count",
               VInt (Z.of_nat
                       (length (filter (fun inp => is_truthy inp = true)
                                  inputs))));
              ("falsy_count",
               VInt (Z.of_nat
                       (length (filter (fun inp => is_truthy inp = false)
                                  inputs))))]
         end))
    /\ extends_log context context'.
Proof.
  intros Hop Hor. unfold LogicalConnectorExecutor._execute_impl.
  rewrite Hop.
  rewrite (extract_inputs_indep input_data context
             (ExecutionContext.log DEBUG
                ("Input data type: " +:+ type_str input_data) (Some (id node))
                None
                (ExecutionContext.log INFO
                   ("Executing logical " +:+ py_upper operation
                      +:+ " operation") (Some (id node)) None context))
             (id node)).
  pose proof (extract_inputs_extends input_data
                (ExecutionContext.log DEBUG
                   ("Input data type: " +:+ type_str input_data)
                   (Some (id node)) None
                   (ExecutionContext.log INFO
                      ("Executing logical " +:+ py_upper operation
                         +:+ " operation") (Some (id node)) None context))
                (id node)) as Hext.
  destruct (LogicalConnectorExecutor._extract_inputs _ _ _)
    as [inputs context1]. cbn [fst snd] in *.
  assert (extends_log context context1) as Hext1.
  { eapply extends_log_trans; [|exact Hext].
    apply extends_log_step, extends_log_log. }
  destruct inputs as [|inp inputs].
  - eexists. split; [reflexivity|]. by apply extends_log_step.
  - set (inputs' := inp :: inputs).
    set (context2 := ExecutionContext.log DEBUG _ _ _ context1).
    assert (extends_log context context2) as Hext2
      by by apply extends_log_step.
    destruct Hor as [-> | ->].
    + cbn [String.eqb Ascii.eqb Bool.eqb].
      unfold LogicalConnectorExecutor._perform_and_operation.
      destruct (and_loop_spec inputs' 0 true context2 (id node)) as [H1 H2].
      subst inputs'.
      destruct (LogicalConnectorExecutor.and_loop _ _ _ _ _ _ _ _)
        as [result context3]. cbn [fst snd] in *. subst result.
      eexists. split; [reflexivity|].
      apply extends_log_step. eapply extends_log_trans; eauto.
    + cbn [String.eqb Ascii.eqb Bool.eqb].
      unfold LogicalConnectorExecutor._perform_or_operation.
      destruct (or_loop_spec inputs' 0 false context2 (id node)) as [H1 H2].
      subst inputs'.
      destruct (LogicalConnectorExecutor.or_loop _ _ _ _ _ _ _ _)
        as [result context3]. cbn [fst snd] in *. subst result.
      eexists. split; [reflexivity|].
      apply extends_log_step. eapply extends_log_trans; eauto.
Qed.

Lemma log_start_extends (py_str : value -> string) self node context
    input_data :
  extends_log context
    (BaseNodeExecutor.log_start py_str self node context input_data).
Proof.
  unfold BaseNodeExecutor.log_start.
  destruct input_data; repeat apply extends_log_step;
    apply extends_log_refl.
Qed.

(** The operations that [validate_config] lets through. *)
Lemma validate_config_true config :
  LogicalConnectorExecutor.validate_config config = true
  <-> PyDict.get "operation" config = None
      \/ PyDict.get "operation" config = Some (VStr "and")
      \/ PyDict.get "operation" config = Some (VStr "or").
Proof.
  unfold LogicalConnectorExecutor.validate_config.
  destruct (PyDict.get "operation" config) as [[]|]; try naive_solver.
  rewrite bool_decide_eq_true. set_solver.
Qed.

Lemma forallb_Permutation {A} (f : A -> bool) l l' :
  l ≡ₚ l' -> forallb f l = forallb f l'.
Proof.
  induction 1 as [|x l l' _ IH|x y l|l1 l2 l3 _ IH1 _ IH2]; simpl;
    [done|by rewrite IH| |congruence].
  by destruct (f x), (f y).
Qed.

Lemma existsb_Permutation {A} (f : A -> bool) l l' :
  l ≡ₚ l' -> existsb f l = existsb f l'.
Proof.
  induction 1 as [|x l l' _ IH|x y l|l1 l2 l3 _ IH1 _ IH2]; simpl;
    [done|by rewrite IH| |congruence].
  by destruct (f x), (f y).
Qed.

(** X23: run through [execute], the connector never fails on its
    inputs. A configuration whose operation is absent, "and" or "or"
    (in exactly this spelling) gives a completed result whose output
    records the operation and the inputs and whose [result] is false on
    no input and otherwise the conjunction, or the disjunction, of the
    inputs' truth values; the counts of truthy and falsy inputs add up
    to the input count. Any other configuration gives a failed result
    with the message of an invalid configuration, although
    [_execute_impl] would lower-case the operation. The context only
    gains log entries. *)
Theorem logical_connector_execute (py_str : value -> string) node context
    input_data :
  py_lower "and" = "and" ->
  py_lower "or" = "or" ->
  exists context' result,
    BaseNodeExecutor.execute py_str
      (LogicalConnectorExecutor.executor py_lower py_upper py_strip
         float_is_zero) node context input_data
    = (context', inr result)
    /\ extends_log context context'
    /\ node_id result = id node
    /\ (LogicalConnectorExecutor.validate_config (config node) = true
        <-> PyDict.get "operation" (config node) = None
            \/ PyDict.get "operation" (config node) = Some (VStr "and")
            \/ PyDict.get "operation" (config node) = Some (VStr "or"))
    /\ (LogicalConnectorExecutor.validate_config (config node) = false ->
        status result = FAILED
        /\ output_data result = VNone
        /\ error_message result
           = Some "Invalid configuration for logicalconnector node")
    /\ (LogicalConnectorExecutor.validate_config (config node) = true ->
        status result = COMPLETED
        /\ error_message result = None
        /\ exists operation output,
             (operation = "or"
              <-> PyDict.get "operation" (config node) = Some (VStr "or"))
             /\ (operation = "and" \/ operation = "or")
             /\ output_data result = VDict output
             /\ PyDict.get "operation" output = Some (VStr operation)
             /\ PyDict.get "inputs" output
                = Some (VList
                    (LogicalConnectorExecutor._extract_inputs input_data
                       context (id node)).1)
             /\ PyDict.get "result" output
                = Some (VBool
                    match (LogicalConnectorExecutor._extract_inputs
                             input_data context (id node)).1 with
                    | [] => false
                    | inputs =>
                        if String.eqb operation "and"
                        then forallb is_truthy inputs
                        else existsb is_truthy inputs
                    end)
             /\ ((LogicalConnectorExecutor._extract_inputs input_data
                    context (id node)).1 <> [] ->
                 exists truthy_count falsy_count,
                   PyDict.get "truthy_count" output
                   = Some (VInt truthy_count)
                   /\ PyDict.get "falsy_count" output
                      = Some (VInt falsy_count)
                   /\ PyDict.get "input_count" output
                      = Some (VInt (truthy_count + falsy_count))
                   /\ truthy_count + falsy_count
                      = Z.of_nat
                          (length
                             (LogicalConnectorExecutor._extract_inputs
                                input_data context (id node)).1))).
Proof.
  intros Hand Hor.
  unfold BaseNodeExecutor.execute, BaseNodeExecutor.execute_try.
  cbn [validate_config _execute_impl node_type
         LogicalConnectorExecutor.executor].
  pose proof (log_start_extends py_str
                (LogicalConnectorExecutor.executor py_lower py_upper py_strip
                   float_is_zero) node context input_data) as Hstart.
  set (context0 := BaseNodeExecutor.log_start _ _ _ _ _) in *.
  destruct (LogicalConnectorExecutor.validate_config (config node)) eqn:Hv.
  - assert (exists operation,
              LogicalConnectorExecutor.operation_of py_lower (config node)
              = inr operation
              /\ (operation = "or"
                  <-> PyDict.get "operation" (config node)
                      = Some (VStr "or"))
              /\ (operation = "and" \/ operation = "or"))
      as (operation & Hop & Hcase & Hcases).
    { unfold LogicalConnectorExecutor.operation_of.
      apply validate_config_true in Hv as [-> | [-> | ->]];
        eexists; (split; [reflexivity|]); rewrite ?Hand, ?Hor;
        split; auto; split; congruence. }
    destruct (execute_impl_output node context0 input_data operation Hop
                Hcases) as (context1 & -> & Hext).
    rewrite (extract_inputs_indep input_data context0 context (id node)).
    eexists _, _. split; [reflexivity|].
    split.
    { apply extends_log_step. eapply extends_log_trans; eauto. }
    split; [done|]. split; [by rewrite <- validate_config_true|].
    split; [done|]. intros _. split; [done|]. split; [done|].
    cbn [output_data]. eexists operation, _. split; [exact Hcase|].
    split; [exact Hcases|]. split; [reflexivity|].
    destruct (LogicalConnectorExecutor._extract_inputs input_data context
                (id node)).1 as [|inp inputs] eqn:Hin.
    + repeat split; try reflexivity. done.
    + split; [reflexivity|]. split; [reflexivity|]. split; [reflexivity|].
      intros _. eexists _, _. split; [reflexivity|]. split; [reflexivity|].
      rewrite <- Nat2Z.inj_add, truthy_falsy_count. done.
  - eexists _, _. split; [reflexivity|].
    split; [by apply extends_log_step|].
    split; [done|]. split; [by rewrite <- validate_config_true, Hv|].
    split; [done|]. done.
Qed.

(** X24: the connector's verdict does not depend on the order of its
    inputs. Two runs of [_execute_impl] whose inputs are the same up to
    order (say, the outputs of the same predecessors in a dict or a
    list arranged differently) return outputs that agree on every entry
    but [inputs]: operation, result, message and the three counts. *)
Theorem logical_connector_order_independent node context1 context2
    input_data1 input_data2 operation :
  LogicalConnectorExecutor.operation_of py_lower (config node) = inr operation ->
  operation = "and" \/ operation = "or" ->
  (LogicalConnectorExecutor._extract_inputs input_data1 context1 (id node)).1
  ≡ₚ (LogicalConnectorExecutor._extract_inputs input_data2 context2
        (id node)).1 ->
  exists context1' context2' output1 output2,
    LogicalConnectorExecutor._execute_impl py_lower py_upper py_strip
      float_is_zero node context1 input_data1
    = (context1', inr (VDict output1))
    /\ LogicalConnectorExecutor._execute_impl py_lower py_upper py_strip
         float_is_zero node context2 input_data2
       = (context2', inr (VDict output2))
    /\ forall key,
         key <> "inputs" -> PyDict.get key output1 = PyDict.get key output2.
Proof.
  intros Hop Hor Hperm.
  destruct (execute_impl_output node context1 input_data1 operation Hop Hor)
    as (context1' & -> & _).
  destruct (execute_impl_output node context2 input_data2 operation Hop Hor)
    as (context2' & -> & _).
  eexists _, _, _, _. split; [reflexivity|]. split; [reflexivity|].
  intros key Hkey.
  destruct (LogicalConnectorExecutor._extract_inputs input_data1 context1
              (id node)).1 as [|inp1 inputs1].
  { apply Permutation_nil_l in Hperm. by rewrite <- Hperm. }
  destruct (LogicalConnectorExecutor._extract_inputs input_data2 context2
              (id node)).1 as [|inp2 inputs2].
  { by apply Permutation_nil_r in Hperm. }
  cbv zeta. rewrite (forallb_Permutation _ _ _ Hperm),
    (existsb_Permutation _ _ _ Hperm), (Permutation_length Hperm).
  assert (forall (P : value -> Prop) `{!forall x, Decision (P x)},
            length (filter P (inp1 :: inputs1))
            = length (filter P (inp2 :: inputs2))) as Hcount.
  { intros P ?. apply Permutation_length. by rewrite Hperm. }
  rewrite !Hcount.
  unfold PyDict.get. repeat case_decide; try done.
Qed.

End logical_connector.

Lemma logical_connector_execute_witness :
  exists context' result output,
    BaseNodeExecutor.execute str_blank
      (LogicalConnectorExecutor.executor (fun s => s) (fun s => s)
         (fun s => s) (fun _ => false))
      (mkNode "gate" LOGICAL_CONNECTOR [] [] [("operation", VStr "or")])
      (ExecutionContext.init "run" false)
      (VDict [("a", VBool false); ("b", VInt 3)])
    = (context', inr result)
    /\ status result = COMPLETED
    /\ output_data result = VDict output
    /\ PyDict.get "result" output = Some (VBool true).
Proof.
  destruct (logical_connector_execute (fun s => s) (fun s => s) (fun s => s)
              (fun _ => false) str_blank
              (mkNode "gate" LOGICAL_CONNECTOR [] [] [("operation", VStr "or")])
              (ExecutionContext.init "run" false)
              (VDict [("a", VBool false); ("b", VInt 3)]) eq_refl eq_refl)
    as (context' & result & Hrun & _ & _ & _ & _ & Hok).
  destruct (Hok eq_refl)
    as (Hstatus & _ & operation & output & Hcase & _ & Hout & _ & _ & Hres
        & _).
  exists context', result, output.
  split; [exact Hrun|]. split; [exact Hstatus|]. split; [exact Hout|].
  rewrite (proj2 Hcase eq_refl) in Hres. exact Hres.
Defined.

Lemma logical_connector_order_independent_witness :
  exists context1' context2' output1 output2,
    LogicalConnectorExecutor._execute_impl (fun s => s) (fun s => s)
      (fun s => s) (fun _ => false) (plain_node "gate" LOGICAL_CONNECTOR)
      (ExecutionContext.init "run" false) (VList [VBool true; VInt 0])
    = (context1', inr (VDict output1))
    /\ LogicalConnectorExecutor._execute_impl (fun s => s) (fun s => s)
         (fun s => s) (fun _ => false) (plain_node "gate" LOGICAL_CONNECTOR)
         (ExecutionContext.init "run" true)
         (VDict [("a", VInt 0); ("b", VBool true)])
       = (context2', inr (VDict output2))
    /\ PyDict.get "result" output1 = PyDict.get "result" output2.
Proof.
  destruct (logical_connector_order_independent (fun s => s) (fun s => s)
              (fun s => s) (fun _ => false)
              (plain_node "gate" LOGICAL_CONNECTOR)
              (ExecutionContext.init "run" false)
              (ExecutionContext.init "run" true)
              (VList [VBool true; VInt 0])
              (VDict [("a", VInt 0); ("b", VBool true)]) "and" eq_refl
              (or_introl eq_refl) (perm_swap _ _ []))
    as (context1' & context2' & output1 & output2 & Hrun1 & Hrun2 & Hsame).
  exists context1', context2', output1, output2.
  split; [exact Hrun1|]. split; [exact Hrun2|].
  apply Hsame. discriminate.
Defined.

(** ** Serialisation of node outputs *)

(** Induction on values along the recursion of the serialisation: into
    the values of a dict and the output of a result object. *)
Lemma value_spine_ind (P : value -> Prop) :
  P VNone ->
  (forall b, P (VBool b)) ->
  (forall z, P (VInt z)) ->
  (forall literal, P (VFloat literal)) ->
  (forall s, P (VStr s)) ->
  (forall l, P (VList l)) ->
  (forall d, Forall (fun kv => P kv.2) d -> P (VDict d)) ->
  (forall r, P (output_data r) -> P (VResult r)) ->
  forall v, P v.
Proof.
  intros HNone HBool HInt HFloat HStr HList HDict HResult.
  fix IH 1. intros [ |b|z|literal|s|l|d|r].
  - exact HNone.
  - apply HBool.
  - apply HInt.
  - apply HFloat.
  - apply HStr.
  - apply HList.
  - apply HDict. induction d as [|[k v] d IHd]; constructor.
    + apply IH.
    + exact IHd.
  - apply HResult. destruct r as [nid st out err lg]. apply IH.
Qed.

Lemma get_map_values {V W} (f : V -> W) k (d : dict V) :
  PyDict.get k (map (fun kv => (kv.1, f kv.2)) d) = f <$> PyDict.get k d.
Proof.
  induction d as [|[k' v] d IH]; [done|].
  simpl. by case_decide.
Qed.

(** A falsy value is serialised to itself. *)
Lemma serialize_falsy output :
  truthy output = false ->
  DynamicRouteService._serialize_node_output output = output.
Proof.
  destruct output as [ | | | | | |[|]| ]; try done.
Qed.

Lemma serialize_map_not_error d :
  DynamicRouteService.is_error_output (VDict d) = false ->
  DynamicRouteService.is_error_output
    (VDict (map (fun kv =>
                   (kv.1, DynamicRouteService._serialize_node_output kv.2))
              d)) = false.
Proof.
  unfold DynamicRouteService.is_error_output.
  rewrite get_map_values.
  destruct (PyDict.get "error" d) as [v|]; [|done].
  simpl. intros Hv. by rewrite serialize_falsy.
Qed.

(** X25: serialising a node output is idempotent, and it unwraps result
    objects along the spine of the value: the serialised output is no
    result object, and in a dict without a truthy [error] entry no
    entry's value is one, recursively. A dict that reports an error and
    a list are returned as they are, with whatever they hold. *)
Theorem serialize_node_output_idempotent output :
  DynamicRouteService._serialize_node_output
    (DynamicRouteService._serialize_node_output output)
  = DynamicRouteService._serialize_node_output output
  /\ unwrapped (DynamicRouteService._serialize_node_output output) = true
  /\ (DynamicRouteService.is_error_output output = true ->
      DynamicRouteService._serialize_node_output output = output)
  /\ (forall l,
        output = VList l ->
        DynamicRouteService._serialize_node_output output = output)
  /\ (unwrapped output = true ->
      DynamicRouteService._serialize_node_output output = output).
Proof.
  induction output as [ |b|z|literal|s|l|d IH|r IH] using value_spine_ind;
    try by (repeat split; try done; intros; done).
  - split; [|split; [|split; [|split]]].
    + cbn [DynamicRouteService._serialize_node_output].
      destruct (DynamicRouteService.is_error_output (VDict d)) eqn:He.
      * cbn [DynamicRouteService._serialize_node_output]. by rewrite He.
      * cbn [DynamicRouteService._serialize_node_output].
        rewrite (serialize_map_not_error d He). f_equal.
        rewrite map_map. apply map_ext_Forall.
        eapply Forall_impl; [exact IH|].
        intros [k v] (Hv & _). simpl in *. by rewrite Hv.
    + cbn [DynamicRouteService._serialize_node_output].
      destruct (DynamicRouteService.is_error_output (VDict d)) eqn:He.
      * cbn [unwrapped]. by rewrite He.
      * cbn [unwrapped]. rewrite (serialize_map_not_error d He).
        cbn [orb]. rewrite forallb_forall. intros kv Hin.
        apply in_map_iff in Hin as ([k v] & <- & Hin).
        rewrite Forall_forall in IH.
        apply (IH (k, v)). by apply list_elem_of_In.
    + cbn [DynamicRouteService._serialize_node_output]. by intros ->.
    + done.
    + cbn [DynamicRouteService._serialize_node_output unwrapped].
      destruct (DynamicRouteService.is_error_output (VDict d)); [done|].
      cbn [orb]. intros Hall. f_equal.
      rewrite <- (map_id d) at 2. apply map_ext_Forall.
      rewrite forallb_forall in Hall.
      rewrite Forall_forall in IH |- *. intros [k v] Hin.
      cbn [fst snd]. f_equal. apply (IH (k, v) Hin).
      apply (Hall (k, v)). by apply list_elem_of_In.
  - destruct r as [nid st out err lg]. cbn [output_data] in IH.
    destruct IH as (H1 & H2 & _).
    cbn [DynamicRouteService._serialize_node_output output_data].
    split; [done|]. split; [done|]. split; [done|]. split; done.
Qed.

(** ** The flow of outputs through a run *)

Lemma check_node_configs_results get_executor nodes : forall context,
  ExecutionContext.node_results (check_node_configs get_executor nodes context)
  = ExecutionContext.node_results context.
Proof.
  induction nodes as [|node nodes IH]; intros context; [done|].
  cbn [check_node_configs]. rewrite IH.
  destruct (get_executor (type node)) as [e|executor]; [done|].
  by destruct (validate_config executor (config node)) as [e|[|]].
Qed.

Lemma sort_graphrag_errors_results graphrag_errors :
  forall errors context,
    ExecutionContext.node_results
      (sort_graphrag_errors graphrag_errors errors context).2
    = ExecutionContext.node_results context.
Proof.
  induction graphrag_errors as [|error rest IH]; intros errors context;
    [done|].
  cbn [sort_graphrag_errors].
  destruct (str_contains _ error); by rewrite IH.
Qed.

Lemma validate_workflow_results get_executor pick validate_graphrag w
    context :
  (forall context,
     ExecutionContext.node_results (validate_graphrag w context).2
     = ExecutionContext.node_results context) ->
  ExecutionContext.node_results
    (_validate_workflow get_executor pick validate_graphrag w context).2
  = ExecutionContext.node_results context.
Proof.
  intros Hgraphrag. unfold _validate_workflow.
  destruct (nodes w) as [|n ns]; [done|].
  destruct (_has_cycles pick (n :: ns) (edges w)) as [cyclic|e|]; try done.
  pose proof (Hgraphrag (check_node_configs get_executor (n :: ns) context))
    as Hg.
  destruct (validate_graphrag w _) as [graphrag_errors c1].
  match goal with
  | |- context [sort_graphrag_errors ?a ?b ?c] =>
      pose proof (sort_graphrag_errors_results a b c) as Hs;
      destruct (sort_graphrag_errors a b c) as [errors c2]
  end.
  cbn [fst snd ExecutionContext.log ExecutionContext.node_results] in *.
  by rewrite Hs, Hg, check_node_configs_results.
Qed.

Lemma get_node_input_data_results node edges context initial_input :
  ExecutionContext.node_results
    (_get_node_input_data node edges context initial_input).2
  = ExecutionContext.node_results context.
Proof.
  unfold _get_node_input_data.
  by destruct (filter _ edges) as [|e1 [|e2 rest]].
Qed.

Lemma log_start_results (py_str : value -> string) self node context input :
  ExecutionContext.node_results
    (BaseNodeExecutor.log_start py_str self node context input)
  = ExecutionContext.node_results context.
Proof. unfold BaseNodeExecutor.log_start. by destruct input. Qed.

Lemma execute_node_results (py_str : value -> string) get_executor node
    context input :
  keeps_results get_executor ->
  ExecutionContext.node_results
    (_execute_node py_str get_executor node context input).2
  = ExecutionContext.node_results context.
Proof.
  intros Hkeeps. unfold _execute_node.
  destruct (get_executor (type node)) as [e|executor] eqn:Hex; [done|].
  unfold BaseNodeExecutor.execute, BaseNodeExecutor.execute_try.
  destruct (validate_config executor (config node)) as [e|[|]];
    cbn [fst snd ExecutionContext.log ExecutionContext.node_results];
    try apply log_start_results.
  pose proof (Hkeeps _ _ node
                (BaseNodeExecutor.log_start py_str executor node context
                   input) input Hex) as Hk.
  destruct (_execute_impl executor node _ input) as [c [e|out]];
    cbn [fst snd ExecutionContext.log ExecutionContext.node_results] in *;
    by rewrite Hk, log_start_results.
Qed.

(** The loop of [execute_workflow]: when a node is executed, the context
    holds the results of the nodes executed before it, and no others. *)
Lemma execute_nodes_flow (py_str : value -> string) get_executor order :
  keeps_results get_executor ->
  forall i total request context acc,
    NoDup (map node_id acc ++ map id order) ->
    (forall p,
       p ∈ acc ->
       PyDict.get (node_id p) (ExecutionContext.node_results context)
       = Some p) ->
    (forall q,
       q ∉ map node_id acc ->
       PyDict.get q (ExecutionContext.node_results context) = None) ->
    (exists rest,
       (execute_nodes py_str get_executor order i total request context
          acc).1 = acc ++ rest)
    /\ forall k node,
         order !! k = Some node ->
         exists context' r,
           (execute_nodes py_str get_executor order i total request context
              acc).1 !! (length acc + k)%nat = Some r
           /\ r = (_execute_node py_str get_executor node
                     (_get_node_input_data node (edges (workflow request))
                        context' (input_data request)).2
                     (_get_node_input_data node (edges (workflow request))
                        context' (input_data request)).1).1
           /\ (forall p,
                 p ∈ take (length acc + k)
                       (execute_nodes py_str get_executor order i total
                          request context acc).1 ->
                 PyDict.get (node_id p)
                   (ExecutionContext.node_results context') = Some p)
           /\ (forall q,
                 q ∉ map node_id
                       (take (length acc + k)
                          (execute_nodes py_str get_executor order i total
                             request context acc).1) ->
                 PyDict.get q (ExecutionContext.node_results context')
                 = None).
Proof.
  intros Hkeeps.
  induction order as [|node order IH];
    intros i total request context acc Hnd Hin Hout.
  { split; [exists []; by rewrite app_nil_r|]. by intros k node' ?. }
  cbn [execute_nodes].
  set (context1 := ExecutionContext.log INFO _ None None context).
  pose proof (get_node_input_data_results node (edges (workflow request))
                context1 (input_data request)) as Hc2.
  destruct (_get_node_input_data node (edges (workflow request)) context1
              (input_data request)) as [input c2] eqn:Hinput.
  pose proof (execute_node_results py_str get_executor node c2 input Hkeeps)
    as Hc3.
  pose proof (execute_node_outcome py_str get_executor node c2 input)
    as [Hid _].
  destruct (_execute_node py_str get_executor node c2 input) as [r c3]
    eqn:Hrun.
  cbn [fst snd] in *.
  match goal with
  | |- context [execute_nodes _ _ order (S i) total request ?c _] =>
      set (context5 := c)
  end.
  assert (ExecutionContext.node_results context5
          = PyDict.set (node_id r) r (ExecutionContext.node_results context))
    as Hc5.
  { subst context5. destruct (decide (status r = COMPLETED));
      cbn [ExecutionContext.log ExecutionContext.set_node_result
             ExecutionContext.node_results]; by rewrite Hc3, Hc2. }
  assert (node_id r ∉ map node_id acc) as Hfresh.
  { rewrite Hid. apply NoDup_app in Hnd as (_ & Hnd & _).
    intros Hacc. apply (Hnd _ Hacc). simpl. apply elem_of_cons. by left. }
  destruct (IH (S i) total request context5 (acc ++ [r]))
    as [[rest Hrest] Hflow].
  { rewrite map_app. simpl. rewrite Hid, <- app_assoc. done. }
  { intros p [Hp|Hp%list_elem_of_singleton]%elem_of_app; rewrite Hc5.
    - rewrite get_set_ne; [by apply Hin|].
      intros Heq. apply Hfresh. rewrite Heq.
      by apply list_elem_of_fmap_2.
    - subst p. apply get_set_eq. }
  { intros q Hq. rewrite Hc5, map_app, elem_of_app in *.
    rewrite get_set_ne.
    - apply Hout. tauto.
    - intros <-. apply Hq. right. simpl. apply elem_of_cons. by left. }
  split.
  { exists (r :: rest). by rewrite Hrest, <- app_assoc. }
  intros [|k] node' Hk.
  - injection Hk as <-. exists context1, r.
    rewrite Hinput. cbn [fst snd]. rewrite Hrun. cbn [fst snd].
    rewrite Hrest, Nat.add_0_r.
    rewrite <- app_assoc. cbn [app].
    split; [by rewrite lookup_app_r, Nat.sub_diag by lia|].
    split; [done|].
    rewrite take_app_length. split.
    + intros p Hp. by apply Hin.
    + intros q Hq. by apply Hout.
  - destruct (Hflow k node' Hk) as (context' & r' & H1 & H2 & H3 & H4).
    rewrite length_app in *. cbn [length] in *.
    replace (length acc + S k)%nat with (length acc + 1 + k)%nat by lia.
    by exists context', r'.
Qed.

(** X26: in the run of a well-formed workflow whose executors leave the
    recorded results alone, outputs flow along the edges: when a node is
    executed, its input is built from a context that holds the results
    of exactly the nodes executed before it in this run, each under its
    id, and every predecessor of the node is among them, so the output
    read for a predecessor is the output of that predecessor's result
    in the final list. *)
Theorem workflow_data_flow (py_str : value -> string) get_executor
    (pick : gset string -> string) validate_graphrag execution_id request :
  (forall s : gset string, s ≠ ∅ -> pick s ∈ s) ->
  well_formed (workflow request) ->
  (forall context,
     blocking (validate_graphrag (workflow request) context).1 = []) ->
  (forall context,
     ExecutionContext.node_results
       (validate_graphrag (workflow request) context).2
     = ExecutionContext.node_results context) ->
  keeps_results get_executor ->
  exists result order,
    execute_workflow py_str get_executor pick validate_graphrag
      execution_id request = Ok result
    /\ _topological_sort (nodes (workflow request))
         (edges (workflow request)) = Ok order
    /\ forall k node,
         order !! k = Some node ->
         exists context r,
           node_results result !! k = Some r
           /\ r = (_execute_node py_str get_executor node
                     (_get_node_input_data node (edges (workflow request))
                        context (input_data request)).2
                     (_get_node_input_data node (edges (workflow request))
                        context (input_data request)).1).1
           /\ (forall j p,
                 node_results result !! j = Some p ->
                 PyDict.get (node_id p)
                   (ExecutionContext.node_results context)
                 = if decide (j < k)%nat then Some p else None)
           /\ (forall e,
                 e ∈ edges (workflow request) ->
                 target e = id node ->
                 exists j p,
                   (j < k)%nat
                   /\ node_results result !! j = Some p
                   /\ node_id p = source e
                   /\ ExecutionContext.get_node_output context (source e)
                      = output_data p).
Proof.
  intros Hpick Hwf Hblock Hgraphrag Hkeeps.
  pose proof Hwf as (Hne & Hnd & Hover & Hac).
  destruct (topological_sort_spec _ _ Hnd Hover Hac)
    as (order & Hsort & Hperm & Hok).
  unfold execute_workflow, execute_workflow_try.
  match goal with
  | |- context [_validate_workflow ?a ?b ?c ?d ?e] =>
      pose proof (validate_workflow_accepts_well_formed a b c d e Hpick Hwf
                    (Hblock _)) as Hval;
      pose proof (validate_workflow_results a b c d e Hgraphrag) as Hres;
      destruct (_validate_workflow a b c d e) as [v c1]
  end.
  cbn [fst snd] in Hval, Hres. subst v. rewrite Hsort.
  assert (ExecutionContext.node_results c1 = []) as Hempty.
  { rewrite Hres. by destruct (frontend_api_keys request) as [[|]|]. }
  assert (NoDup (map id order)) as Hndo by (by rewrite Hperm).
  match goal with
  | |- context [execute_nodes ?a ?b ?c ?d ?e ?f ?g ?h] =>
      pose proof (execute_nodes_ids a b c d e f g h) as Hids;
      destruct (execute_nodes_flow a b c Hkeeps d e f g h) as [_ Hflow];
      [done
      |by intros p ?%elem_of_nil
      |intros q _;
       cbn [ExecutionContext.log ExecutionContext.node_results];
       by rewrite Hempty
      |];
      destruct (execute_nodes a b c d e f g h) as [rs c2]
  end.
  cbn [fst snd app map length] in Hids, Hflow.
  eexists _, order. split; [reflexivity|]. split; [done|].
  cbn [node_results]. intros k node Hk.
  destruct (Hflow k node Hk) as (context & r & Hr & Hrun & Hin & Hout).
  cbn [Nat.add] in *.
  assert (NoDup (map node_id rs)) as Hndr by (by rewrite Hids).
  assert (forall j p,
            rs !! j = Some p ->
            PyDict.get (node_id p) (ExecutionContext.node_results context)
            = if decide (j < k)%nat then Some p else None) as Hheld.
  { intros j p Hj. case_decide as Hjk.
    - apply Hin. apply list_elem_of_lookup. exists j.
      by rewrite lookup_take_lt.
    - apply Hout. intros (p' & Heq & Hp')%list_elem_of_fmap.
      apply list_elem_of_lookup in Hp' as [j' Hj'].
      apply lookup_take_Some in Hj' as [Hj' Hlt].
      assert (j = j'); [|lia].
      eapply (NoDup_lookup _ _ _ _ Hndr).
      + by rewrite list_lookup_fmap, Hj.
      + by rewrite list_lookup_fmap, Hj', Heq. }
  exists context, r. split; [done|]. split; [done|]. split; [done|].
  intros e He Ht.
  assert (map id order !! k = Some (id node)) as Hkid
    by (by rewrite list_lookup_fmap, Hk).
  destruct (Hok (take k (map id order)) (id node)
              (drop (S k) (map id order))) as [Hpreds _].
  { symmetry. by apply take_drop_middle. }
  specialize (Hpreds e He Ht).
  apply list_elem_of_lookup in Hpreds as [j Hj].
  apply lookup_take_Some in Hj as [Hj Hlt].
  rewrite <- Hids, list_lookup_fmap in Hj.
  destruct (rs !! j) as [p|] eqn:Hp; [|done].
  injection Hj as Hj.
  exists j, p. split; [done|]. split; [done|]. split; [done|].
  unfold ExecutionContext.get_node_output.
  rewrite <- Hj, (Hheld j p Hp), decide_True by done. done.
Qed.

Lemma echo_factory_keeps_results failing :
  keeps_results (echo_factory failing).
Proof. intros ty executor node context input [= <-]. done. Qed.

Lemma workflow_data_flow_witness :
  exists result context r j p,
    execute_workflow str_blank (echo_factory []) pick_first
      no_graphrag_errors "run" request_a_bc = Ok result
    /\ node_results result !! 2%nat = Some r
    /\ (j < 2)%nat
    /\ node_results result !! j = Some p
    /\ node_id p = "b"
    /\ ExecutionContext.get_node_output context "b" = output_data p
    /\ r = (_execute_node str_blank (echo_factory []) (plain_node "c" DOCUMENT)
              (_get_node_input_data (plain_node "c" DOCUMENT)
                 (edges (workflow request_a_bc)) context VNone).2
              (_get_node_input_data (plain_node "c" DOCUMENT)
                 (edges (workflow request_a_bc)) context VNone).1).1.
Proof.
  destruct (workflow_data_flow str_blank (echo_factory []) pick_first
              no_graphrag_errors "run" request_a_bc pick_first_elem
              well_formed_a_bc (fun _ => eq_refl) (fun _ => eq_refl)
              (echo_factory_keeps_results []))
    as (result & order & Hrun & Hsort & Hflow).
  vm_compute in Hsort. injection Hsort as <-.
  destruct (Hflow 2%nat (plain_node "c" DOCUMENT) eq_refl)
    as (context & r & Hr & Hexec & _ & Hpreds).
  destruct (Hpreds (plain_edge "b" "c")) as (j & p & Hlt & Hp & Hid & Hread);
    [by apply list_elem_of_singleton|done|].
  exists result, context, r, j, p.
  split; [exact Hrun|]. split; [exact Hr|]. split; [exact Hlt|].
  split; [exact Hp|]. split; [exact Hid|]. split; [exact Hread|exact Hexec].
Defined.

(** ** The listing of the deployments *)

Lemma get_map_dict {V W} (f : string * V -> W) k (d : dict V) :
  PyDict.get k (map (fun kv => (kv.1, f kv)) d)
  = (fun v => f (k, v)) <$> PyDict.get k d.
Proof.
  induction d as [|[k' v] d IH]; [done|].
  simpl. case_decide; [by subst|done].
Qed.

Lemma list_deployments_listing self :
  NoDup (PyDict.keys (DynamicRouteService.registered_routes self)) ->
  DynamicRouteService.list_deployments self
  = [("deployments",
      VDict (map (fun item => (item.1, listed item.2))
               (DynamicRouteService.registered_routes self)));
     ("total_deployments",
      VInt (Z.of_nat (length (DynamicRouteService.registered_routes self))))].
Proof.
  intros Hnd. unfold DynamicRouteService.list_deployments.
  by rewrite comprehension_NoDup.
Qed.

(** X27: the listing of the deployments agrees with the registry. After
    a deployment of n node objects, a of them with an action route, the
    listing has one entry per registered id, in the order of the
    registry, and counts them; under the deployment's id it reports n
    nodes and 2(n + a) + 3 endpoints; under any other id it reports the
    counts of the record found there, which the deployment has not
    touched. *)
Theorem list_deployments_after_deploy (py_str : value -> string) self heap
    workflow_nodes workflow_edges deployment_id objs :
  NoDup (PyDict.keys (DynamicRouteService.registered_routes self)) ->
  DynamicRouteService.deref_all heap workflow_nodes = Ok objs ->
  exists endpoints self' deployments,
    DynamicRouteService.generate_routes_from_workflow py_str self heap
      workflow_nodes workflow_edges deployment_id = Ok (endpoints, self')
    /\ NoDup (PyDict.keys (DynamicRouteService.registered_routes self'))
    /\ DynamicRouteService.list_deployments self'
       = [("deployments", VDict deployments);
          ("total_deployments", VInt (Z.of_nat (length deployments)))]
    /\ PyDict.keys deployments
       = PyDict.keys (DynamicRouteService.registered_routes self')
    /\ PyDict.get deployment_id deployments
       = Some (VDict
           [("endpoint_count",
             VInt (Z.of_nat
                     (2 * (length workflow_nodes
                           + length (filter (fun n => has_action n = true)
                                       (map snd objs))) + 3)));
            ("node_count", VInt (Z.of_nat (length workflow_nodes)))])
    /\ forall d,
         d ≠ deployment_id ->
         PyDict.get d deployments
         = listed <$> DynamicRouteService.get_deployment_info self d.
Proof.
  intros Hnd Hobjs.
  destruct (generate_routes_spec py_str self heap workflow_nodes
              workflow_edges deployment_id objs Hobjs)
    as (endpoints & deployment_router & direct_router & Hgen & _ & _ & Hlen).
  destruct (deref_all_spec heap workflow_nodes objs Hobjs) as [Hfst _].
  assert (length objs = length workflow_nodes) as Hn
    by (by rewrite <- Hfst, length_map).
  eexists _, _, _. split; [exact Hgen|].
  cbn [DynamicRouteService.registered_routes].
  set (info := DynamicRouteService.mkDeployment _ _ _ _ _).
  assert (NoDup (PyDict.keys
                   (PyDict.set deployment_id info
                      (DynamicRouteService.registered_routes self))))
    as Hnd'.
  { destruct (decide (deployment_id
                      ∈ PyDict.keys
                          (DynamicRouteService.registered_routes self)))
      as [Hin|Hnin].
    - by rewrite keys_set_present.
    - rewrite keys_set_absent by done. apply NoDup_app.
      split; [done|]. split; [|apply NoDup_singleton].
      by intros k Hk ->%list_elem_of_singleton. }
  split; [exact Hnd'|].
  rewrite list_deployments_listing by exact Hnd'.
  cbn [DynamicRouteService.registered_routes].
  split; [by rewrite length_map|].
  split; [unfold PyDict.keys; by rewrite map_map|].
  split.
  - rewrite (get_map_dict (fun item => listed item.2)).
    rewrite get_set_eq. cbn [fmap option_fmap option_map snd].
    unfold listed, info. cbn [DynamicRouteService.endpoints
                                DynamicRouteService.deployed_nodes].
    by rewrite Hlen, Hn.
  - intros d Hd.
    rewrite (get_map_dict (fun item => listed item.2)).
    by rewrite get_set_ne.
Qed.

Lemma list_deployments_after_deploy_witness :
  exists endpoints self' deployments,
    DynamicRouteService.generate_routes_from_workflow str_blank
      (DynamicRouteService.init []) store_ai_doc [1%nat; 0%nat]
      [plain_edge "doc-1" "ai-1"] "dep" = Ok (endpoints, self')
    /\ DynamicRouteService.list_deployments self'
       = [("deployments", VDict deployments);
          ("total_deployments", VInt (Z.of_nat (length deployments)))]
    /\ PyDict.get "dep" deployments
       = Some (VDict [("endpoint_count", VInt 9); ("node_count", VInt 2)]).
Proof.
  destruct (list_deployments_after_deploy str_blank
              (DynamicRouteService.init []) store_ai_doc [1%nat; 0%nat]
              [plain_edge "doc-1" "ai-1"] "dep"
              [(1%nat, plain_node "doc-1" DOCUMENT);
               (0%nat, plain_node "ai-1" CLAUDE4)] NoDup_nil_2 eq_refl)
    as (endpoints & self' & deployments & H1 & _ & H2 & _ & H3 & _).
  exists endpoints, self', deployments.
  split; [exact H1|]. split; [exact H2|exact H3].
Defined.
